(** * LibrePCB: circuit consistency of component instances

    A shallow embedding of

    - [librepcb/project/circuit/componentsignalinstance.cpp]
    - [librepcb/project/circuit/componentinstance.cpp]
    - [librepcb/common/fileio/cmd/cmdlistelementinsert.h]

    C++ objects that are reached through pointers live in a [World]; methods
    are computations over the world that return, throw a C++ exception or, on
    a failed assertion or a dangling pointer, abort the process. *)

From Stdlib Require Import ZArith.
From stdpp Require Import base option list gmap strings pretty.

(* String literals are read in [string_scope]; the scopes opened after it
   keep [++] and [≤] for lists and numbers. *)
Local Open Scope string_scope.
Local Open Scope list_scope.
Local Open Scope nat_scope.
Local Open Scope stdpp_scope.

(** ** Identifiers and small value types *)

Abbreviation Uuid := N.

(** Addresses of objects of classes whose code lives in other files. *)
Abbreviation Addr := N.

(** [QString::isEmpty]. *)
Definition isEmpty (s : string) : bool := bool_decide (s = EmptyString).

Definition dq : string := String (Ascii.ascii_of_nat 34) EmptyString.

(** A [%n] place marker that the format string puts between double quotes. *)
Definition quoted (s : string) : string := dq +:+ s +:+ dq.

(** [QList::removeOne]: drops the first element equal to [x]. *)
Fixpoint removeOne `{EqDecision A} (x : A) (l : list A) : list A :=
  match l with
  | [] => []
  | y :: l' => if decide (x = y) then l' else y :: removeOne x l'
  end.

(** [QList::contains]. *)
Definition contains `{EqDecision A} (x : A) (l : list A) : bool :=
  bool_decide (x ∈ l).

(** [QList<T*>::contains(&x)] and [QList<T*>::removeOne(&x)] on a list of
    pointers to objects whose state changes: two pointers are equal when
    they hold the same address, whatever the state of the object. *)
Definition containsPtr {A} (addr : A → Addr) (x : A) (l : list A) : bool :=
  bool_decide (addr x ∈ addr <$> l).

Fixpoint removeOnePtr {A} (addr : A → Addr) (x : A) (l : list A) : list A :=
  match l with
  | [] => []
  | y :: l' =>
      if decide (addr x = addr y) then l' else y :: removeOnePtr addr x l'
  end.

(** ** [QString::arg]

    [s.arg(a)] replaces every occurrence of the lowest-numbered place marker
    of [s] by [a]; a string without place marker is returned as it is.  A
    place marker is [%], an optional [L], and one or two digits.  Calls are
    chained in the code, [s.arg(a).arg(b)]: the second call sees the text
    that the first one has put in. *)

Module QString.

Definition digitValue (a : Ascii.ascii) : option nat :=
  let n := Ascii.nat_of_ascii a in
  if bool_decide (48 ≤ n ≤ 57) then Some (n - 48) else None.

Definition percent : Ascii.ascii := Ascii.ascii_of_nat 37.
Definition letterL : Ascii.ascii := Ascii.ascii_of_nat 76.

(** A string as [arg] reads it: characters and place markers; [text] is the
    marker as it is written. *)
Inductive Token :=
| Plain (a : Ascii.ascii)
| Marker (locale : bool) (number : nat) (text : string).

(** Where the scan is: in the text, after [%], after [%L], or after the
    first digit of a marker, written as [text]. *)
Inductive Scan :=
| Outside
| Percent
| PercentL
| Digit (locale : bool) (number : nat) (text : string).

Fixpoint tokens (st : Scan) (s : string) : list Token :=
  match s with
  | EmptyString =>
      match st with
      | Outside => []
      | Percent => [Plain percent]
      | PercentL => [Plain percent; Plain letterL]
      | Digit locale number text => [Marker locale number text]
      end
  | String a s' =>
      (* the scan goes on at [a], which begins no marker that is open *)
      let resume :=
        if bool_decide (a = percent) then tokens Percent s'
        else Plain a :: tokens Outside s' in
      match st with
      | Outside => resume
      | Percent =>
          if bool_decide (a = letterL) then tokens PercentL s'
          else match digitValue a with
               | Some n =>
                   tokens (Digit false n (String percent (String a EmptyString)))
                     s'
               | None => Plain percent :: resume
               end
      | PercentL =>
          match digitValue a with
          | Some n =>
              tokens (Digit true n
                        (String percent
                           (String letterL (String a EmptyString)))) s'
          | None => Plain percent :: Plain letterL :: resume
          end
      | Digit locale number text =>
          match digitValue a with
          | Some n =>
              Marker locale (10 * number + n)
                (text +:+ String a EmptyString)
                :: tokens Outside s'
          | None => Marker locale number text :: resume
          end
      end
  end.

(** The lowest number of a place marker, [None] when there is no marker. *)
Fixpoint lowest (l : list Token) : option nat :=
  match l with
  | [] => None
  | Plain _ :: l' => lowest l'
  | Marker _ number _ :: l' =>
      match lowest l' with
      | Some m => Some (Nat.min number m)
      | None => Some number
      end
  end.

Fixpoint replaced (m : nat) (a localized : string) (l : list Token)
  : string :=
  match l with
  | [] => EmptyString
  | Plain c :: l' => String c (replaced m a localized l')
  | Marker locale number text :: l' =>
      (if bool_decide (number = m)
       then if locale then localized else a
       else text) +:+ replaced m a localized l'
  end.

Definition replaceArgEscapes (s a localized : string) : string :=
  let l := tokens Outside s in
  match lowest l with
  | Some m => replaced m a localized l
  | None => s
  end.

(** [QString::arg(const QString&)]. *)
Definition arg (s a : string) : string := replaceArgEscapes s a a.

(** [QString::arg(int)]: the number is written in decimal; at a marker with
    [L] it is written as the default locale writes numbers, [localized]. *)
Definition argNumber (localized : Z → string) (s : string) (n : Z)
  : string :=
  replaceArgEscapes s (pretty n) (localized n).

End QString.

(** ** The two exception classes of [librepcb/common/exceptions.h]

    [LogicError] reports a broken contract of the caller, [RuntimeError] a
    failure that is shown to the user.  [LogicError(__FILE__, __LINE__)]
    carries no message of its own. *)

Inductive Exception :=
| LogicError (msg : option string)
| RuntimeError (msg : string).

Definition isLogicError (e : Exception) : bool :=
  match e with LogicError _ => true | RuntimeError _ => false end.

Definition isRuntimeError (e : Exception) : bool :=
  match e with LogicError _ => false | RuntimeError _ => true end.

(** ** Library elements (read only) *)

(** [library::ComponentSignal], as far as the circuit reads it. *)
Record ComponentSignal := {
  sig_getUuid : Uuid;
  sig_getName : string;
  sig_isRequired : bool;
  sig_isNetSignalNameForced : bool;
  sig_getForcedNetName : string
}.

(** [library::ComponentSymbolVariantItem]. *)
Record ComponentSymbolVariantItem := {
  item_getUuid : Uuid;
  item_isRequired : bool
}.

(** [library::ComponentSymbolVariant]. *)
Record ComponentSymbolVariant := {
  symbvar_getUuid : Uuid;
  getSymbolItems : list ComponentSymbolVariantItem
}.

(** One entry of an [AttributeList]: key and translated value. *)
Record Attribute := {
  attr_getKey : string;
  attr_getValueTr : string
}.

(** [library::Component]. *)
Record Component := {
  cmp_getUuid : Uuid;
  cmp_isSchematicOnly : bool;
  cmp_getDefaultValue : string;
  cmp_getAttributes : list Attribute;
  cmp_getSignals : list ComponentSignal;
  cmp_getSymbolVariants : list ComponentSymbolVariant
}.

(** ** Schematic and board items that register at the circuit

    They are owned by schematics and boards; the circuit keeps pointers.  A
    value of these records is the object at address [*_addr].  A symbol and
    a device have no state that changes, so that comparing two records
    compares two pointers; a pin and a pad have ([pin_getNetPoint],
    [pad_isUsed]), and pointers to them are compared by the addresses. *)

Record SI_SymbolPin := {
  pin_addr : Addr;
  pin_getCircuit : Addr;
  pin_getNetPoint : bool        (* a net point is attached to the pin *)
}.

Record BI_FootprintPad := {
  pad_addr : Addr;
  pad_getCircuit : Addr;
  pad_isUsed : bool
}.

Record SI_Symbol := {
  sym_addr : Addr;
  sym_getCircuit : Addr;
  sym_getSchematic : Addr;
  sym_getCompSymbVarItem : ComponentSymbolVariantItem
}.

Record BI_Device := {
  dev_addr : Addr;
  dev_getCircuit : Addr
}.

Global Instance Attribute_eq_dec : EqDecision Attribute.
Proof. solve_decision. Defined.
Global Instance SI_SymbolPin_eq_dec : EqDecision SI_SymbolPin.
Proof. solve_decision. Defined.
Global Instance BI_FootprintPad_eq_dec : EqDecision BI_FootprintPad.
Proof. solve_decision. Defined.
Global Instance ComponentSymbolVariantItem_eq_dec :
  EqDecision ComponentSymbolVariantItem.
Proof. solve_decision. Defined.
Global Instance SI_Symbol_eq_dec : EqDecision SI_Symbol.
Proof. solve_decision. Defined.
Global Instance BI_Device_eq_dec : EqDecision BI_Device.
Proof. solve_decision. Defined.

(** ** ERC messages *)

(** Modelled from the spec: class [ErcMsg] ([erc/ercmsg.h] is not among the
    sources).  A message owns a text and a visibility flag; [setMsg] and
    [setVisible] overwrite them. *)
Record ErcMsg := {
  erc_msg : string;
  erc_visible : bool
}.

Definition setMsg (text : string) (m : ErcMsg) : ErcMsg :=
  {| erc_msg := text; erc_visible := erc_visible m |}.

Definition setVisible (v : bool) (m : ErcMsg) : ErcMsg :=
  {| erc_msg := erc_msg m; erc_visible := v |}.

(** ** Net signals *)

(** A component signal instance is addressed by the uuid of its component
    instance and the uuid of its library signal. *)
Abbreviation SignalRef := (N * N)%type.

(** Modelled from the spec: class [NetSignal] ([netsignal.cpp] is not among
    the sources).  A net signal owns its name and tracks the set of component
    signal instances currently bound to it. *)
Record NetSignal := {
  net_getName : string;
  net_registered : gset SignalRef
}.

(** ** Component signal instances: the data members of the class *)

Module Signal.

Record t := {
  mComponentSignal : ComponentSignal;
  mIsAddedToCircuit : bool;
  mNetSignal : option Uuid;              (* pointer to a net of the circuit *)
  mRegisteredSymbolPins : list SI_SymbolPin;
  mRegisteredFootprintPads : list BI_FootprintPad;
  mErcMsgUnconnectedRequiredSignal : ErcMsg;
  mErcMsgForcedNetSignalNameConflict : ErcMsg;
  (* the net signals whose [nameChanged] is connected to
     [netSignalNameChanged] of this object *)
  nameChangedConnections : list Uuid
}.

Definition isNetSignalNameForced (s : t) : bool :=
  sig_isNetSignalNameForced (mComponentSignal s).

Definition getRegisteredElementsCount (s : t) : Z :=
  let count := 0%Z in
  let count := (count + Z.of_nat (length (mRegisteredSymbolPins s)))%Z in
  let count := (count + Z.of_nat (length (mRegisteredFootprintPads s)))%Z in
  count.

Definition arePinsOrPadsUsed (s : t) : bool :=
  existsb pin_getNetPoint (mRegisteredSymbolPins s)
  || existsb pad_isUsed (mRegisteredFootprintPads s).

(** Modelled from the spec: [ComponentSignalInstance::isUsed] is defined in
    [componentsignalinstance.h], which is not among the sources.  A signal
    instance is in use while a pin or pad references it. *)
Definition isUsed (s : t) : bool :=
  bool_decide (0 < getRegisteredElementsCount s)%Z.

Definition checkAttributesValidity (s : t) : bool := true.

Definition set_mIsAddedToCircuit (b : bool) (s : t) : t :=
  {| mComponentSignal := mComponentSignal s;
     mIsAddedToCircuit := b;
     mNetSignal := mNetSignal s;
     mRegisteredSymbolPins := mRegisteredSymbolPins s;
     mRegisteredFootprintPads := mRegisteredFootprintPads s;
     mErcMsgUnconnectedRequiredSignal := mErcMsgUnconnectedRequiredSignal s;
     mErcMsgForcedNetSignalNameConflict :=
       mErcMsgForcedNetSignalNameConflict s;
     nameChangedConnections := nameChangedConnections s |}.

Definition set_mNetSignal (n : option Uuid) (s : t) : t :=
  {| mComponentSignal := mComponentSignal s;
     mIsAddedToCircuit := mIsAddedToCircuit s;
     mNetSignal := n;
     mRegisteredSymbolPins := mRegisteredSymbolPins s;
     mRegisteredFootprintPads := mRegisteredFootprintPads s;
     mErcMsgUnconnectedRequiredSignal := mErcMsgUnconnectedRequiredSignal s;
     mErcMsgForcedNetSignalNameConflict :=
       mErcMsgForcedNetSignalNameConflict s;
     nameChangedConnections := nameChangedConnections s |}.

Definition set_mRegisteredSymbolPins (l : list SI_SymbolPin) (s : t) : t :=
  {| mComponentSignal := mComponentSignal s;
     mIsAddedToCircuit := mIsAddedToCircuit s;
     mNetSignal := mNetSignal s;
     mRegisteredSymbolPins := l;
     mRegisteredFootprintPads := mRegisteredFootprintPads s;
     mErcMsgUnconnectedRequiredSignal := mErcMsgUnconnectedRequiredSignal s;
     mErcMsgForcedNetSignalNameConflict :=
       mErcMsgForcedNetSignalNameConflict s;
     nameChangedConnections := nameChangedConnections s |}.

Definition set_mRegisteredFootprintPads (l : list BI_FootprintPad) (s : t)
  : t :=
  {| mComponentSignal := mComponentSignal s;
     mIsAddedToCircuit := mIsAddedToCircuit s;
     mNetSignal := mNetSignal s;
     mRegisteredSymbolPins := mRegisteredSymbolPins s;
     mRegisteredFootprintPads := l;
     mErcMsgUnconnectedRequiredSignal := mErcMsgUnconnectedRequiredSignal s;
     mErcMsgForcedNetSignalNameConflict :=
       mErcMsgForcedNetSignalNameConflict s;
     nameChangedConnections := nameChangedConnections s |}.

Definition set_ercMessages (unconnected conflict : ErcMsg) (s : t) : t :=
  {| mComponentSignal := mComponentSignal s;
     mIsAddedToCircuit := mIsAddedToCircuit s;
     mNetSignal := mNetSignal s;
     mRegisteredSymbolPins := mRegisteredSymbolPins s;
     mRegisteredFootprintPads := mRegisteredFootprintPads s;
     mErcMsgUnconnectedRequiredSignal := unconnected;
     mErcMsgForcedNetSignalNameConflict := conflict;
     nameChangedConnections := nameChangedConnections s |}.

Definition set_nameChangedConnections (l : list Uuid) (s : t) : t :=
  {| mComponentSignal := mComponentSignal s;
     mIsAddedToCircuit := mIsAddedToCircuit s;
     mNetSignal := mNetSignal s;
     mRegisteredSymbolPins := mRegisteredSymbolPins s;
     mRegisteredFootprintPads := mRegisteredFootprintPads s;
     mErcMsgUnconnectedRequiredSignal := mErcMsgUnconnectedRequiredSignal s;
     mErcMsgForcedNetSignalNameConflict :=
       mErcMsgForcedNetSignalNameConflict s;
     nameChangedConnections := l |}.

End Signal.

(** ** Component instances: the data members of the class *)

Module Instance.

Record t := {
  mCircuit : Addr;
  mIsAddedToCircuit : bool;
  mUuid : Uuid;
  mName : string;
  mValue : string;
  mLibComponent : Component;
  mCompSymbVar : ComponentSymbolVariant;
  mAttributes : list Attribute;
  mSignals : gmap Uuid Signal.t;           (* owned *)
  mRegisteredSymbols : gmap Uuid SI_Symbol;
  mRegisteredDevices : list BI_Device;
  mErcMsgUnplacedRequiredSymbols : ErcMsg;
  mErcMsgUnplacedOptionalSymbols : ErcMsg
}.

(** [QHash::contains] on the registered symbols. *)
Definition isRegistered (c : t) (itemUuid : Uuid) : bool :=
  bool_decide (is_Some (mRegisteredSymbols c !! itemUuid)).

Definition getUnplacedSymbolsCount (c : t) : Z :=
  Z.of_nat (length (getSymbolItems (mCompSymbVar c)))
  - Z.of_nat (size (mRegisteredSymbols c)).

(** The loop body [if (cond) count++] of the two counters below.  A [QList]
    holds fewer than [2^31] elements, hence [count++] stays within [int]. *)
Definition countIf (cond : ComponentSymbolVariantItem → bool)
    (count : Z) (item : ComponentSymbolVariantItem) : Z :=
  if cond item then (count + 1)%Z else count.

Definition getUnplacedRequiredSymbolsCount (c : t) : Z :=
  fold_left
    (countIf (λ item,
       item_isRequired item && negb (isRegistered c (item_getUuid item))))
    (getSymbolItems (mCompSymbVar c)) 0%Z.

Definition getUnplacedOptionalSymbolsCount (c : t) : Z :=
  fold_left
    (countIf (λ item,
       negb (item_isRequired item)
       && negb (isRegistered c (item_getUuid item))))
    (getSymbolItems (mCompSymbVar c)) 0%Z.

Definition getRegisteredElementsCount (c : t) : Z :=
  let count := 0%Z in
  let count := (count + Z.of_nat (size (mRegisteredSymbols c)))%Z in
  let count := (count + Z.of_nat (length (mRegisteredDevices c)))%Z in
  count.

Definition isUsed (c : t) : bool :=
  if bool_decide (0 < getRegisteredElementsCount c)%Z then true
  else existsb (λ kv, Signal.isUsed kv.2) (map_to_list (mSignals c)).

Definition checkAttributesValidity (c : t) : bool :=
  negb (isEmpty (mName c)).

(** [AttributeList::find(key)]: the first attribute with that key. *)
Definition findAttribute (key : string) (l : list Attribute)
  : option Attribute :=
  List.find (λ a, bool_decide (attr_getKey a = key)) l.

Section Attributes.
(** [Project::getAttributeValue], the parent scope. *)
Variable project_getAttributeValue :
  string → string → bool → option string.

(** [getAttributeValue]: [Some value] stands for [return value = .., true]
    and [None] for [return false]. *)
Definition getAttributeValue (c : t) (attrNS attrKey : string)
    (passToParents : bool) : option string :=
  let local :=
    if bool_decide (attrNS = "CMP") || isEmpty attrNS then
      if bool_decide (attrKey = "NAME") then Some (mName c)
      else if bool_decide (attrKey = "VALUE") then Some (mValue c)
      else attr_getValueTr <$> findAttribute attrKey (mAttributes c)
    else None in
  match local with
  | Some value => Some value
  | None =>
      if negb (bool_decide (attrNS = "CMP")) && passToParents
      then project_getAttributeValue attrNS attrKey passToParents
      else None
  end.
End Attributes.

Definition set_mIsAddedToCircuit (b : bool) (c : t) : t :=
  {| mCircuit := mCircuit c; mIsAddedToCircuit := b; mUuid := mUuid c;
     mName := mName c; mValue := mValue c;
     mLibComponent := mLibComponent c; mCompSymbVar := mCompSymbVar c;
     mAttributes := mAttributes c; mSignals := mSignals c;
     mRegisteredSymbols := mRegisteredSymbols c;
     mRegisteredDevices := mRegisteredDevices c;
     mErcMsgUnplacedRequiredSymbols := mErcMsgUnplacedRequiredSymbols c;
     mErcMsgUnplacedOptionalSymbols := mErcMsgUnplacedOptionalSymbols c |}.

Definition set_mName (name : string) (c : t) : t :=
  {| mCircuit := mCircuit c; mIsAddedToCircuit := mIsAddedToCircuit c;
     mUuid := mUuid c; mName := name; mValue := mValue c;
     mLibComponent := mLibComponent c; mCompSymbVar := mCompSymbVar c;
     mAttributes := mAttributes c; mSignals := mSignals c;
     mRegisteredSymbols := mRegisteredSymbols c;
     mRegisteredDevices := mRegisteredDevices c;
     mErcMsgUnplacedRequiredSymbols := mErcMsgUnplacedRequiredSymbols c;
     mErcMsgUnplacedOptionalSymbols := mErcMsgUnplacedOptionalSymbols c |}.

Definition set_mValue (value : string) (c : t) : t :=
  {| mCircuit := mCircuit c; mIsAddedToCircuit := mIsAddedToCircuit c;
     mUuid := mUuid c; mName := mName c; mValue := value;
     mLibComponent := mLibComponent c; mCompSymbVar := mCompSymbVar c;
     mAttributes := mAttributes c; mSignals := mSignals c;
     mRegisteredSymbols := mRegisteredSymbols c;
     mRegisteredDevices := mRegisteredDevices c;
     mErcMsgUnplacedRequiredSymbols := mErcMsgUnplacedRequiredSymbols c;
     mErcMsgUnplacedOptionalSymbols := mErcMsgUnplacedOptionalSymbols c |}.

Definition set_mAttributes (attributes : list Attribute) (c : t) : t :=
  {| mCircuit := mCircuit c; mIsAddedToCircuit := mIsAddedToCircuit c;
     mUuid := mUuid c; mName := mName c; mValue := mValue c;
     mLibComponent := mLibComponent c; mCompSymbVar := mCompSymbVar c;
     mAttributes := attributes; mSignals := mSignals c;
     mRegisteredSymbols := mRegisteredSymbols c;
     mRegisteredDevices := mRegisteredDevices c;
     mErcMsgUnplacedRequiredSymbols := mErcMsgUnplacedRequiredSymbols c;
     mErcMsgUnplacedOptionalSymbols := mErcMsgUnplacedOptionalSymbols c |}.

Definition set_mSignals (signals : gmap Uuid Signal.t) (c : t) : t :=
  {| mCircuit := mCircuit c; mIsAddedToCircuit := mIsAddedToCircuit c;
     mUuid := mUuid c; mName := mName c; mValue := mValue c;
     mLibComponent := mLibComponent c; mCompSymbVar := mCompSymbVar c;
     mAttributes := mAttributes c; mSignals := signals;
     mRegisteredSymbols := mRegisteredSymbols c;
     mRegisteredDevices := mRegisteredDevices c;
     mErcMsgUnplacedRequiredSymbols := mErcMsgUnplacedRequiredSymbols c;
     mErcMsgUnplacedOptionalSymbols := mErcMsgUnplacedOptionalSymbols c |}.

Definition set_mRegisteredSymbols (symbols : gmap Uuid SI_Symbol) (c : t)
  : t :=
  {| mCircuit := mCircuit c; mIsAddedToCircuit := mIsAddedToCircuit c;
     mUuid := mUuid c; mName := mName c; mValue := mValue c;
     mLibComponent := mLibComponent c; mCompSymbVar := mCompSymbVar c;
     mAttributes := mAttributes c; mSignals := mSignals c;
     mRegisteredSymbols := symbols;
     mRegisteredDevices := mRegisteredDevices c;
     mErcMsgUnplacedRequiredSymbols := mErcMsgUnplacedRequiredSymbols c;
     mErcMsgUnplacedOptionalSymbols := mErcMsgUnplacedOptionalSymbols c |}.

Definition set_mRegisteredDevices (devices : list BI_Device) (c : t) : t :=
  {| mCircuit := mCircuit c; mIsAddedToCircuit := mIsAddedToCircuit c;
     mUuid := mUuid c; mName := mName c; mValue := mValue c;
     mLibComponent := mLibComponent c; mCompSymbVar := mCompSymbVar c;
     mAttributes := mAttributes c; mSignals := mSignals c;
     mRegisteredSymbols := mRegisteredSymbols c;
     mRegisteredDevices := devices;
     mErcMsgUnplacedRequiredSymbols := mErcMsgUnplacedRequiredSymbols c;
     mErcMsgUnplacedOptionalSymbols := mErcMsgUnplacedOptionalSymbols c |}.

Definition set_ercMessages (required optional : ErcMsg) (c : t) : t :=
  {| mCircuit := mCircuit c; mIsAddedToCircuit := mIsAddedToCircuit c;
     mUuid := mUuid c; mName := mName c; mValue := mValue c;
     mLibComponent := mLibComponent c; mCompSymbVar := mCompSymbVar c;
     mAttributes := mAttributes c; mSignals := mSignals c;
     mRegisteredSymbols := mRegisteredSymbols c;
     mRegisteredDevices := mRegisteredDevices c;
     mErcMsgUnplacedRequiredSymbols := required;
     mErcMsgUnplacedOptionalSymbols := optional |}.

End Instance.

(** ** The world and the monad of methods *)

(** Qt signals emitted by the objects of the model. *)
Inductive Event :=
| attributesChanged                          (* of the component instance *)
| nameChanged (net : Uuid) (newName : string). (* of a net signal *)

(** One component instance together with the net signals of its circuit, and
    the Qt signals emitted so far (newest first). *)
Record World := {
  nets : gmap Uuid NetSignal;
  cmp : Instance.t;
  emitted : list Event
}.

Definition set_nets (n : gmap Uuid NetSignal) (w : World) : World :=
  {| nets := n; cmp := cmp w; emitted := emitted w |}.

Definition set_cmp (c : Instance.t) (w : World) : World :=
  {| nets := nets w; cmp := c; emitted := emitted w |}.

Definition set_emitted (l : list Event) (w : World) : World :=
  {| nets := nets w; cmp := cmp w; emitted := l |}.

(** How a call ends: it returns, it throws (the world is the one the
    exception leaves behind), or the process is aborted. *)
Inductive Outcome (A : Type) :=
| Returned (a : A) (w : World)
| Thrown (e : Exception) (w : World)
| Aborted.
Arguments Returned {A} a w.
Arguments Thrown {A} e w.
Arguments Aborted {A}.

Definition M (A : Type) : Type := World → Outcome A.

Global Instance M_ret : MRet M := λ A a w, Returned a w.

Global Instance M_bind : MBind M := λ A B f m w,
  match m w with
  | Returned a w' => f a w'
  | Thrown e w' => Thrown e w'
  | Aborted => Aborted
  end.

Definition throw {A} (e : Exception) : M A := λ w, Thrown e w.
Definition abort {A} : M A := λ _, Aborted.
Definition getWorld : M World := λ w, Returned w w.
Definition getCmp : M Instance.t := λ w, Returned (cmp w) w.
Definition putCmp (c : Instance.t) : M unit := λ w, Returned () (set_cmp c w).
Definition emit (e : Event) : M unit :=
  λ w, Returned () (set_emitted (e :: emitted w) w).

(** Dereferences the pointer to a signal instance of the component. *)
Definition getSignal (k : Uuid) : M Signal.t := λ w,
  match Instance.mSignals (cmp w) !! k with
  | Some s => Returned s w
  | None => Aborted
  end.

Definition putSignal (k : Uuid) (s : Signal.t) : M unit := λ w,
  Returned ()
    (set_cmp (Instance.set_mSignals (<[k := s]> (Instance.mSignals (cmp w)))
                (cmp w)) w).

(** Dereferences a [NetSignal*]. *)
Definition getNet (n : Uuid) : M NetSignal := λ w,
  match nets w !! n with
  | Some net => Returned net w
  | None => Aborted
  end.

Definition putNet (n : Uuid) (net : NetSignal) : M unit := λ w,
  Returned () (set_nets (<[n := net]> (nets w)) w).

(** [for (x : l) body(x)]. *)
Fixpoint forEach {A} (body : A → M unit) (l : list A) : M unit :=
  match l with
  | [] => mret ()
  | x :: l' => body x ;; forEach body l'
  end.

(** ** Scope guards *)

(** Modelled from the spec: class [ScopeGuardList] ([scopeguardlist.h] is not
    among the sources).  The list accumulates compensating actions; when an
    exception leaves the scope before [dismiss], the actions run in reverse
    order of registration and the exception propagates.  The head of the list
    is the action registered last.  An action that fails while unwinding
    cannot be recovered from and ends the process. *)
Definition ScopeGuardList := list (M unit).

Definition sgl_add (action : M unit) (sgl : ScopeGuardList) : ScopeGuardList :=
  action :: sgl.

Fixpoint sgl_run (sgl : ScopeGuardList) (w : World) : option World :=
  match sgl with
  | [] => Some w
  | action :: rest =>
      match action w with
      | Returned _ w' => sgl_run rest w'
      | _ => None
      end
  end.

(** A call marked [// can throw] inside the scope of [sgl]. *)
Definition guarded {A} (sgl : ScopeGuardList) (call : M A) : M A := λ w,
  match call w with
  | Thrown e w' =>
      match sgl_run sgl w' with
      | Some w'' => Thrown e w''
      | None => Aborted
      end
  | r => r
  end.

(** ** Net signals: registration of component signals *)

Module NetSignalOps.

(** Modelled from the spec: [NetSignal::registerComponentSignal] and
    [unregisterComponentSignal] ([netsignal.cpp] is not among the sources).
    Registering binds a signal instance to the net and fails on a conflict
    at the level of the net, namely when the instance is already bound;
    unregistering removes the binding and fails when there is none. *)
Definition registerComponentSignal (n : Uuid) (signal : SignalRef)
  : M unit :=
  net ← getNet n;
  if bool_decide (signal ∈ net_registered net) then throw (LogicError None)
  else putNet n {| net_getName := net_getName net;
                   net_registered := {[signal]} ∪ net_registered net |}.

Definition unregisterComponentSignal (n : Uuid) (signal : SignalRef)
  : M unit :=
  net ← getNet n;
  if bool_decide (signal ∈ net_registered net)
  then putNet n {| net_getName := net_getName net;
                   net_registered := net_registered net ∖ {[signal]} |}
  else throw (LogicError None).

End NetSignalOps.

(** ** Serialized nodes

    The attributes and children of a [DomElement] that the deserializing
    constructors read, converted to their types.  ([DomElement::getAttribute]
    with [throwIfEmpty] throws when an attribute is missing or malformed; a
    value of these records is a node that passed.) *)

Record SignalMapNode := {
  node_comp_signal : Uuid;
  node_netsignal : option Uuid        (* [None]: attribute absent or null *)
}.

Record DomElement := {
  dom_uuid : Uuid;
  dom_name : string;
  dom_value : string;
  dom_component : Uuid;
  dom_symbol_variant : Uuid;
  dom_attributes : list Attribute;
  dom_signal_map : list SignalMapNode
}.

(** Modelled from the spec: [SerializableObjectList::get(uuid)]
    ([serializableobjectlist.h] is not among the sources), the lookup in a
    uniquely keyed list of library elements; it throws when no element has
    that uuid, a failed lookup being reported as a recoverable error. *)
Definition get {A} (getUuid : A → Uuid) (uuid : Uuid) (l : list A)
  : Exception + A :=
  match List.find (λ x, bool_decide (getUuid x = uuid)) l with
  | Some x => inr x
  | None =>
      inl (RuntimeError ("There is no element with the UUID "
                           +:+ quoted (pretty uuid) +:+ " in the list."))
  end.

(** ** Collaborators whose code lives in other files *)

(** [replaceVariablesWithAttributes (getAttributeValue) rawText passToParents]
    is the method of the attribute provider interface that resolves the
    variables of a text through the virtual [getAttributeValue] of the
    object; [project_getAttributeValue] is the parent scope of a component
    instance; [QLocale_toString n] is [QLocale().toString(n)], the number as
    the default locale writes it, which [QString::arg(int)] puts in place of
    a marker with [L]. *)
Class Collaborators := {
  replaceVariablesWithAttributes :
    (string → string → bool → option string) → string → bool → string;
  project_getAttributeValue : string → string → bool → option string;
  QLocale_toString : Z → string
}.

(** ** Methods of [ComponentSignalInstance]

    A method of the signal instance with library signal [k] of the component
    instance of the world takes [k] for [this]. *)

Module ComponentSignalInstance.
Section Methods.
Context `{!Collaborators}.

Import Signal.

(** [*this], as net signals see it. *)
Definition self (c : Instance.t) (k : Uuid) : SignalRef :=
  (Instance.mUuid c, k).

Definition getForcedNetSignalName (c : Instance.t) (s : t) : string :=
  let name := sig_getForcedNetName (mComponentSignal s) in
  replaceVariablesWithAttributes
    (Instance.getAttributeValue project_getAttributeValue c) name false.

Definition msgUnconnected (c : Instance.t) (s : t) : string :=
  QString.arg
    (QString.arg
       ("Unconnected component signal: " +:+ quoted "%1"
          +:+ " from " +:+ quoted "%2")
       (sig_getName (mComponentSignal s)))
    (Instance.mName c).

Definition msgConflict (c : Instance.t) (netName : option string) (s : t)
  : string :=
  "Signal name conflict: " +:+ quoted (default EmptyString netName)
    +:+ " != " +:+ quoted (getForcedNetSignalName c s)
    +:+ " (" +:+ quoted (sig_getName (mComponentSignal s))
    +:+ " from " +:+ quoted (Instance.mName c) +:+ ")".

(** The body of [updateErcMessages]; [netName] is the name of [*mNetSignal]
    and [None] when [mNetSignal] is null. *)
Definition updateErcMessages_body (c : Instance.t)
    (netName : option string) (s : t) : t :=
  let unconnected :=
    setMsg (msgUnconnected c s) (mErcMsgUnconnectedRequiredSignal s) in
  let conflict :=
    setMsg (msgConflict c netName s)
           (mErcMsgForcedNetSignalNameConflict s) in
  let unconnected :=
    setVisible (mIsAddedToCircuit s && negb (bool_decide (is_Some (mNetSignal s)))
                && sig_isRequired (mComponentSignal s)) unconnected in
  let conflict :=
    setVisible (mIsAddedToCircuit s && isNetSignalNameForced s
                && match netName with
                   | Some name =>
                       negb (bool_decide (getForcedNetSignalName c s = name))
                   | None => false
                   end) conflict in
  set_ercMessages unconnected conflict s.

(** [mNetSignal ? Some (mNetSignal->getName()) : None]. *)
Definition netSignalName (n : option Uuid) : M (option string) :=
  match n with
  | Some n => net ← getNet n; mret (Some (net_getName net))
  | None => mret None
  end.

Definition updateErcMessages (k : Uuid) : M unit :=
  s ← getSignal k;
  c ← getCmp;
  netName ← netSignalName (mNetSignal s);
  putSignal k (updateErcMessages_body c netName s).

Definition netSignalNameChanged (k : Uuid) (newName : string) : M unit :=
  updateErcMessages k.

(** [connect(net, &NetSignal::nameChanged, this, ..netSignalNameChanged)]
    and the [disconnect] of all such connections. *)
Definition connectNameChanged (k net : Uuid) : M unit :=
  s ← getSignal k;
  putSignal k
    (set_nameChangedConnections (nameChangedConnections s ++ [net]) s).

Definition disconnectNameChanged (k net : Uuid) : M unit :=
  s ← getSignal k;
  putSignal k
    (set_nameChangedConnections
       (filter (λ n, n ≠ net) (nameChangedConnections s)) s).

Definition msgStillInUse (c : Instance.t) (s : t) : string :=
  "The net signal of the component signal "
    +:+ quoted (Instance.mName c +:+ ":" +:+ sig_getName (mComponentSignal s))
    +:+ " cannot be changed because it is still in use!".

Definition setNetSignal (k : Uuid) (netsignal : option Uuid) : M unit :=
  s ← getSignal k;
  c ← getCmp;
  if bool_decide (netsignal = mNetSignal s) then mret ()
  else if negb (mIsAddedToCircuit s) then throw (LogicError None)
  else if arePinsOrPadsUsed s
  then throw (LogicError (Some (msgStillInUse c s)))
  else
    let sgl : ScopeGuardList := [] in
    sgl ← match mNetSignal s with
          | Some old =>
              guarded sgl
                (NetSignalOps.unregisterComponentSignal old (self c k));;
              disconnectNameChanged k old;;
              mret (sgl_add
                      (NetSignalOps.registerComponentSignal old (self c k);;
                       connectNameChanged k old) sgl)
          | None => mret sgl
          end;
    sgl ← match netsignal with
          | Some new =>
              guarded sgl
                (NetSignalOps.registerComponentSignal new (self c k));;
              connectNameChanged k new;;
              mret (sgl_add
                      (NetSignalOps.unregisterComponentSignal new (self c k);;
                       disconnectNameChanged k new) sgl)
          | None => mret sgl
          end;
    s ← getSignal k;
    putSignal k (set_mNetSignal netsignal s);;
    updateErcMessages k.
    (* sgl.dismiss() *)

Definition msgCannotBeRemoved (c : Instance.t) : string :=
  "The component " +:+ quoted (Instance.mName c)
    +:+ " cannot be removed because it is still in use!".

Definition addToCircuit (k : Uuid) : M unit :=
  s ← getSignal k;
  c ← getCmp;
  if mIsAddedToCircuit s || isUsed s then throw (LogicError None)
  else
    match mNetSignal s with
    | Some n => NetSignalOps.registerComponentSignal n (self c k)
    | None => mret ()
    end;;
    s ← getSignal k;
    putSignal k (set_mIsAddedToCircuit true s);;
    updateErcMessages k.

Definition removeFromCircuit (k : Uuid) : M unit :=
  s ← getSignal k;
  c ← getCmp;
  if negb (mIsAddedToCircuit s) then throw (LogicError None)
  else if isUsed s then throw (RuntimeError (msgCannotBeRemoved c))
  else
    match mNetSignal s with
    | Some n => NetSignalOps.unregisterComponentSignal n (self c k)
    | None => mret ()
    end;;
    s ← getSignal k;
    putSignal k (set_mIsAddedToCircuit false s);;
    updateErcMessages k.

Definition registerSymbolPin (k : Uuid) (pin : SI_SymbolPin) : M unit :=
  s ← getSignal k;
  c ← getCmp;
  if negb (mIsAddedToCircuit s)
     || negb (bool_decide (pin_getCircuit pin = Instance.mCircuit c))
     || containsPtr pin_addr pin (mRegisteredSymbolPins s)
  then throw (LogicError None)
  else putSignal k
         (set_mRegisteredSymbolPins (mRegisteredSymbolPins s ++ [pin]) s).

Definition unregisterSymbolPin (k : Uuid) (pin : SI_SymbolPin) : M unit :=
  s ← getSignal k;
  if negb (mIsAddedToCircuit s)
     || negb (containsPtr pin_addr pin (mRegisteredSymbolPins s))
  then throw (LogicError None)
  else putSignal k
         (set_mRegisteredSymbolPins
            (removeOnePtr pin_addr pin (mRegisteredSymbolPins s)) s).

Definition registerFootprintPad (k : Uuid) (pad : BI_FootprintPad)
  : M unit :=
  s ← getSignal k;
  c ← getCmp;
  if negb (mIsAddedToCircuit s)
     || negb (bool_decide (pad_getCircuit pad = Instance.mCircuit c))
     || containsPtr pad_addr pad (mRegisteredFootprintPads s)
  then throw (LogicError None)
  else putSignal k
         (set_mRegisteredFootprintPads
            (mRegisteredFootprintPads s ++ [pad]) s).

Definition unregisterFootprintPad (k : Uuid) (pad : BI_FootprintPad)
  : M unit :=
  s ← getSignal k;
  if negb (mIsAddedToCircuit s)
     || negb (containsPtr pad_addr pad (mRegisteredFootprintPads s))
  then throw (LogicError None)
  else putSignal k
         (set_mRegisteredFootprintPads
            (removeOnePtr pad_addr pad (mRegisteredFootprintPads s)) s).

(** [serialize(root)]: the attributes written to the node.  A null
    [mNetSignal] is written as the null uuid, which the deserializing
    constructor reads as no net signal. *)
Definition serialize (s : t) : Exception + SignalMapNode :=
  if negb (checkAttributesValidity s) then inl (LogicError None)
  else inr {| node_comp_signal := sig_getUuid (mComponentSignal s);
              node_netsignal := mNetSignal s |}.

(** *** Constructors

    A constructor returns the new object or throws; it does not change the
    objects that exist already. *)

(** [init()], called by both constructors on the members set so far. *)
Definition init (c : Instance.t) (netName : option string) (s : t)
  : Exception + t :=
  let s := set_ercMessages
             {| erc_msg := EmptyString; erc_visible := false |}
             {| erc_msg := EmptyString; erc_visible := false |} s in
  let s := updateErcMessages_body c netName s in
  let s := match mNetSignal s with
           | Some n => set_nameChangedConnections [n] s
           | None => s
           end in
  if negb (checkAttributesValidity s) then inl (LogicError None)
  else inr s.

(** [ComponentSignalInstance(circuit, cmpInstance, cmpSignal, netsignal)];
    [netsignal] is a pointer to a net of the circuit, or null. *)
Definition create (circuitNets : gmap Uuid NetSignal) (c : Instance.t)
    (cmpSignal : ComponentSignal) (netsignal : option Uuid)
  : Exception + t :=
  init c (net_getName <$> (netsignal ≫= λ n, circuitNets !! n))
    {| mComponentSignal := cmpSignal;
       mIsAddedToCircuit := false;
       mNetSignal := netsignal;
       mRegisteredSymbolPins := [];
       mRegisteredFootprintPads := [];
       mErcMsgUnconnectedRequiredSignal :=
         {| erc_msg := EmptyString; erc_visible := false |};
       mErcMsgForcedNetSignalNameConflict :=
         {| erc_msg := EmptyString; erc_visible := false |};
       nameChangedConnections := [] |}.

(** [ComponentSignalInstance(circuit, cmpInstance, domElement)]. *)
Definition load (circuitNets : gmap Uuid NetSignal) (c : Instance.t)
    (domElement : SignalMapNode) : Exception + t :=
  let compSignalUuid := node_comp_signal domElement in
  match get sig_getUuid compSignalUuid
          (cmp_getSignals (Instance.mLibComponent c)) with
  | inl e => inl e
  | inr cmpSignal =>
      match node_netsignal domElement with
      | Some netsignalUuid =>
          match circuitNets !! netsignalUuid with
          | Some _ => create circuitNets c cmpSignal (Some netsignalUuid)
          | None =>
              inl (RuntimeError ("Invalid netsignal UUID: "
                                   +:+ quoted (pretty netsignalUuid)))
          end
      | None => create circuitNets c cmpSignal None
      end
  end.

End Methods.
End ComponentSignalInstance.

(** ** Methods of [ComponentInstance] *)

Module ComponentInstance.
Section Methods.
Context `{!Collaborators}.

Import Instance.

(** The order in which [foreach (.., mSignals)] visits the signal instances.
    A [QHash] fixes no order; the model takes the order of the keys. *)
Definition signalKeys (c : t) : list Uuid := (map_to_list (mSignals c)).*1.

Definition getValue (c : t) (replaceAttributes : bool) : string :=
  let value := mValue c in
  if replaceAttributes
  then replaceVariablesWithAttributes
         (getAttributeValue project_getAttributeValue c) value false
  else value.

Definition msgUnplacedRequired (c : t) (required : Z) : string :=
  QString.argNumber QLocale_toString
    (QString.arg
       ("Unplaced required symbols of component " +:+ quoted "%1" +:+ ": %2")
       (mName c))
    required.

Definition msgUnplacedOptional (c : t) (optional : Z) : string :=
  QString.argNumber QLocale_toString
    (QString.arg
       ("Unplaced optional symbols of component " +:+ quoted "%1" +:+ ": %2")
       (mName c))
    optional.

Definition updateErcMessages_body (c : t) : t :=
  let required := getUnplacedRequiredSymbolsCount c in
  let optional := getUnplacedOptionalSymbolsCount c in
  let msgRequired :=
    setMsg (msgUnplacedRequired c required)
           (mErcMsgUnplacedRequiredSymbols c) in
  let msgOptional :=
    setMsg (msgUnplacedOptional c optional)
           (mErcMsgUnplacedOptionalSymbols c) in
  let msgRequired :=
    setVisible (mIsAddedToCircuit c && bool_decide (0 < required)%Z)
               msgRequired in
  let msgOptional :=
    setVisible (mIsAddedToCircuit c && bool_decide (0 < optional)%Z)
               msgOptional in
  set_ercMessages msgRequired msgOptional c.

Definition updateErcMessages : M unit :=
  c ← getCmp; putCmp (updateErcMessages_body c).

(** [emit attributesChanged()]: every signal instance has connected its
    [updateErcMessages] to it in [init]. *)
Definition emit_attributesChanged : M unit :=
  emit attributesChanged;;
  c ← getCmp;
  forEach ComponentSignalInstance.updateErcMessages (signalKeys c).

Definition setName (name : string) : M unit :=
  c ← getCmp;
  if negb (bool_decide (name = mName c)) then
    if isEmpty name
    then throw (RuntimeError "The new component name must not be empty!")
    else
      putCmp (set_mName name c);;
      updateErcMessages;;
      emit_attributesChanged
  else mret ().

Definition setValue (value : string) : M unit :=
  c ← getCmp;
  if negb (bool_decide (value = mValue c)) then
    putCmp (set_mValue value c);;
    emit_attributesChanged
  else mret ().

Definition setAttributes (attributes : list Attribute) : M unit :=
  c ← getCmp;
  if negb (bool_decide (attributes = mAttributes c)) then
    putCmp (set_mAttributes attributes c);;
    emit_attributesChanged
  else mret ().

(** The loop of [addToCircuit] over the signal instances still to visit;
    [sgl] holds the guards added so far. *)
Fixpoint addToCircuit_loop (signals : list Uuid) (sgl : ScopeGuardList)
  : M unit :=
  match signals with
  | [] => mret ()
  | signal :: rest =>
      guarded sgl (ComponentSignalInstance.addToCircuit signal);;
      addToCircuit_loop rest
        (sgl_add (ComponentSignalInstance.removeFromCircuit signal) sgl)
  end.

Definition addToCircuit : M unit :=
  c ← getCmp;
  if mIsAddedToCircuit c || isUsed c then throw (LogicError None)
  else
    addToCircuit_loop (signalKeys c) [];;
    c ← getCmp;
    putCmp (set_mIsAddedToCircuit true c);;
    updateErcMessages.
    (* sgl.dismiss() *)

Fixpoint removeFromCircuit_loop (signals : list Uuid) (sgl : ScopeGuardList)
  : M unit :=
  match signals with
  | [] => mret ()
  | signal :: rest =>
      guarded sgl (ComponentSignalInstance.removeFromCircuit signal);;
      removeFromCircuit_loop rest
        (sgl_add (ComponentSignalInstance.addToCircuit signal) sgl)
  end.

Definition msgStillInUse (c : t) : string :=
  "The component " +:+ quoted (mName c)
    +:+ " cannot be removed because it is still in use!".

Definition removeFromCircuit : M unit :=
  c ← getCmp;
  if negb (mIsAddedToCircuit c) then throw (LogicError None)
  else if isUsed c then throw (RuntimeError (msgStillInUse c))
  else
    removeFromCircuit_loop (signalKeys c) [];;
    c ← getCmp;
    putCmp (set_mIsAddedToCircuit false c);;
    updateErcMessages.
    (* sgl.dismiss() *)

(** [mCompSymbVar->getSymbolItems().find(itemUuid)] is non-null. *)
Definition findSymbolItem (c : t) (itemUuid : Uuid) : bool :=
  existsb (λ item, bool_decide (item_getUuid item = itemUuid))
          (getSymbolItems (mCompSymbVar c)).

Definition msgSameSchematic : string :=
  "All symbols of a component must be placed in the same schematic.".

Definition registerSymbol (symbol : SI_Symbol) : M unit :=
  c ← getCmp;
  if negb (mIsAddedToCircuit c)
     || negb (bool_decide (sym_getCircuit symbol = mCircuit c))
  then throw (LogicError None)
  else
    let itemUuid := item_getUuid (sym_getCompSymbVarItem symbol) in
    if negb (findSymbolItem c itemUuid)
    then throw (RuntimeError ("Invalid symbol item in circuit: "
                                +:+ quoted (pretty itemUuid) +:+ "."))
    else if isRegistered c itemUuid
    then throw (RuntimeError ("Symbol item UUID already exists in circuit: "
                                +:+ quoted (pretty itemUuid) +:+ "."))
    else
      match (map_to_list (mRegisteredSymbols c)).*2 with
      | first :: _ =>          (* !mRegisteredSymbols.isEmpty() *)
          if negb (bool_decide
                     (sym_getSchematic symbol = sym_getSchematic first))
          then throw (RuntimeError msgSameSchematic)
          else mret ()
      | [] => mret ()
      end;;
      putCmp (set_mRegisteredSymbols
                (<[itemUuid := symbol]> (mRegisteredSymbols c)) c);;
      updateErcMessages.

Definition unregisterSymbol (symbol : SI_Symbol) : M unit :=
  c ← getCmp;
  let itemUuid := item_getUuid (sym_getCompSymbVarItem symbol) in
  if negb (mIsAddedToCircuit c)
     || negb (isRegistered c itemUuid)
     || negb (bool_decide (mRegisteredSymbols c !! itemUuid = Some symbol))
  then throw (LogicError None)
  else
    putCmp (set_mRegisteredSymbols
              (delete itemUuid (mRegisteredSymbols c)) c);;
    updateErcMessages.

Definition registerDevice (device : BI_Device) : M unit :=
  c ← getCmp;
  if negb (mIsAddedToCircuit c)
     || negb (bool_decide (dev_getCircuit device = mCircuit c))
     || contains device (mRegisteredDevices c)
     || cmp_isSchematicOnly (mLibComponent c)
  then throw (LogicError None)
  else
    putCmp (set_mRegisteredDevices (mRegisteredDevices c ++ [device]) c);;
    updateErcMessages.

Definition unregisterDevice (device : BI_Device) : M unit :=
  c ← getCmp;
  if negb (mIsAddedToCircuit c)
     || negb (contains device (mRegisteredDevices c))
  then throw (LogicError None)
  else
    putCmp (set_mRegisteredDevices
              (removeOne device (mRegisteredDevices c)) c);;
    updateErcMessages.

(** Modelled from the spec: [serializePointerContainer(root, container,
    name)] ([serializableobject.h] is not among the sources) appends one
    child per object of the container, written by the [serialize] of the
    object; an exception of a child ends the call. *)
Fixpoint serializePointerContainer (signals : list Signal.t)
  : Exception + list SignalMapNode :=
  match signals with
  | [] => inr []
  | signal :: rest =>
      match ComponentSignalInstance.serialize signal with
      | inl e => inl e
      | inr node =>
          match serializePointerContainer rest with
          | inl e => inl e
          | inr nodes => inr (node :: nodes)
          end
      end
  end.

(** [serialize(root)]: the node it writes, in the shape that the
    deserializing constructor reads.  [mAttributes->serialize(root)] writes
    the attributes that [AttributeList(domElement)] reads back, and the
    signal instances are visited in the order of [foreach]. *)
Definition serialize (c : t) : Exception + DomElement :=
  if negb (checkAttributesValidity c) then inl (LogicError None)
  else
    match serializePointerContainer ((map_to_list (mSignals c)).*2) with
    | inl e => inl e
    | inr nodes =>
        inr {| dom_uuid := mUuid c;
               dom_name := mName c;
               dom_value := mValue c;
               dom_component := cmp_getUuid (mLibComponent c);
               dom_symbol_variant := symbvar_getUuid (mCompSymbVar c);
               dom_attributes := mAttributes c;
               dom_signal_map := nodes |}
    end.

(** *** Constructors *)

(** [init()]. *)
Definition init (c : t) : Exception + t :=
  let c := set_ercMessages
             {| erc_msg := EmptyString; erc_visible := false |}
             {| erc_msg := EmptyString; erc_visible := false |} c in
  let c := updateErcMessages_body c in
  if negb (checkAttributesValidity c) then inl (LogicError None)
  else inr c.

Definition msgDefinedMultipleTimes (uuid : Uuid) : string :=
  "The signal with the UUID " +:+ quoted (pretty uuid)
    +:+ " is defined multiple times.".

(** The loop over the [signal_map] children. *)
Fixpoint loadSignals (circuitNets : gmap Uuid NetSignal)
    (nodes : list SignalMapNode) (c : t) : Exception + t :=
  match nodes with
  | [] => inr c
  | node :: rest =>
      match ComponentSignalInstance.load circuitNets c node with
      | inl e => inl e
      | inr signal =>
          let uuid := sig_getUuid (Signal.mComponentSignal signal) in
          if bool_decide (is_Some (mSignals c !! uuid))
          then inl (RuntimeError (msgDefinedMultipleTimes uuid))
          else loadSignals circuitNets rest
                 (set_mSignals (<[uuid := signal]> (mSignals c)) c)
      end
  end.

Definition msgSignalCount (c : t) : string :=
  "The signal count of the component instance " +:+ quoted (pretty (mUuid c))
    +:+ " does not match with the signal count of the component "
    +:+ quoted (pretty (cmp_getUuid (mLibComponent c))) +:+ ".".

(** [ComponentInstance(circuit, domElement)]: [circuit] is the address of
    the circuit, [circuitNets] its net signals and [library] the components
    of the library of its project. *)
Definition load (circuit : Addr) (circuitNets : gmap Uuid NetSignal)
    (library : gmap Uuid Component) (domElement : DomElement)
  : Exception + t :=
  let name := dom_name domElement in
  if isEmpty name            (* getText<QString>(true) *)
  then inl (RuntimeError "The node text must not be empty.")
  else
    let cmpUuid := dom_component domElement in
    match library !! cmpUuid with
    | None =>
        inl (RuntimeError ("The component with the UUID "
               +:+ quoted (pretty cmpUuid)
               +:+ " does not exist in the project's library!"))
    | Some libComponent =>
        match get symbvar_getUuid (dom_symbol_variant domElement)
                (cmp_getSymbolVariants libComponent) with
        | inl e => inl e
        | inr symbVar =>
            let c := {| mCircuit := circuit;
                        mIsAddedToCircuit := false;
                        mUuid := dom_uuid domElement;
                        mName := name;
                        mValue := dom_value domElement;
                        mLibComponent := libComponent;
                        mCompSymbVar := symbVar;
                        mAttributes := dom_attributes domElement;
                        mSignals := ∅;
                        mRegisteredSymbols := ∅;
                        mRegisteredDevices := [];
                        mErcMsgUnplacedRequiredSymbols :=
                          {| erc_msg := EmptyString; erc_visible := false |};
                        mErcMsgUnplacedOptionalSymbols :=
                          {| erc_msg := EmptyString;
                             erc_visible := false |} |} in
            match loadSignals circuitNets (dom_signal_map domElement) c with
            | inl e => inl e
            | inr c =>
                if negb (bool_decide
                           (size (mSignals c)
                            = length (cmp_getSignals (mLibComponent c))))
                then inl (RuntimeError (msgSignalCount c))
                else init c
            end
        end
    end.

(** The loop over the signals of the library component. *)
Fixpoint createSignals (circuitNets : gmap Uuid NetSignal)
    (signals : list ComponentSignal) (c : t) : Exception + t :=
  match signals with
  | [] => inr c
  | signal :: rest =>
      match ComponentSignalInstance.create circuitNets c signal None with
      | inl e => inl e
      | inr signalInstance =>
          let uuid := sig_getUuid (Signal.mComponentSignal signalInstance) in
          createSignals circuitNets rest
            (set_mSignals (<[uuid := signalInstance]> (mSignals c)) c)
      end
  end.

(** [ComponentInstance(circuit, cmp, symbVar, name)]; [uuid] is the result
    of [Uuid::createRandom()]. *)
Definition create (circuit : Addr) (circuitNets : gmap Uuid NetSignal)
    (uuid : Uuid) (libComponent : Component) (symbVar : Uuid)
    (name : string) : Exception + t :=
  if isEmpty name
  then inl (RuntimeError "The name of the component must not be empty.")
  else
    match get symbvar_getUuid symbVar
            (cmp_getSymbolVariants libComponent) with
    | inl e => inl e
    | inr symbVar =>
        let c := {| mCircuit := circuit;
                    mIsAddedToCircuit := false;
                    mUuid := uuid;
                    mName := name;
                    mValue := cmp_getDefaultValue libComponent;
                    mLibComponent := libComponent;
                    mCompSymbVar := symbVar;
                    mAttributes := cmp_getAttributes libComponent;
                    mSignals := ∅;
                    mRegisteredSymbols := ∅;
                    mRegisteredDevices := [];
                    mErcMsgUnplacedRequiredSymbols :=
                      {| erc_msg := EmptyString; erc_visible := false |};
                    mErcMsgUnplacedOptionalSymbols :=
                      {| erc_msg := EmptyString; erc_visible := false |} |} in
        match createSignals circuitNets (cmp_getSignals libComponent) c with
        | inl e => inl e
        | inr c => init c
        end
    end.

End Methods.
End ComponentInstance.

(** ** The generic list insert command *)

(** Modelled from the spec: class [SerializableObjectList]
    ([serializableobjectlist.h] is not among the sources), an ordered
    collection.  [insert] puts an element at a position and returns the
    position, [remove] takes the element at a position out.  A position at
    which the list cannot insert, or holds no element, yields [None]. *)
Module SerializableObjectList.
Section List.
Context {T : Type}.

Definition count (l : list T) : Z := Z.of_nat (length l).

Definition insert (index : Z) (obj : T) (l : list T)
  : option (Z * list T) :=
  if bool_decide (0 ≤ index ≤ count l)%Z
  then Some (index,
             take (Z.to_nat index) l ++ obj :: drop (Z.to_nat index) l)
  else None.

Definition remove (index : Z) (l : list T) : option (list T) :=
  if bool_decide (0 ≤ index < count l)%Z
  then Some (delete (Z.to_nat index) l)
  else None.

End List.
End SerializableObjectList.

(** Modelled from the spec: the states of class [UndoCommand]
    ([undocommand.h] is not among the sources) and its legal transitions:
    [execute] once from [Initial], [undo] from [Executed], [redo] from
    [Undone].  A call outside them is a contract violation. *)
Inductive CommandState := Initial | Executed | Undone.

Inductive CommandResult (A : Type) :=
| Done (a : A)
| ContractViolation               (* illegal transition of the command *)
| ListFailure.                    (* the list refused the position *)
Arguments Done {A} a.
Arguments ContractViolation {A}.
Arguments ListFailure {A}.

Module CmdListElementInsert.
Section Command.
Context {T : Type}.

(** The command object; the list [mList] it refers to is passed to the
    methods and returned by them. *)
Record t := {
  mElement : T;
  mIndex : Z;
  mState : CommandState
}.

(** [CmdListElementInsert(list, element, index = -1)]. *)
Definition new (element : T) (index : Z) : t :=
  {| mElement := element; mIndex := index; mState := Initial |}.

Definition set_mIndex (index : Z) (cmd : t) : t :=
  {| mElement := mElement cmd; mIndex := index; mState := mState cmd |}.

Definition set_mState (s : CommandState) (cmd : t) : t :=
  {| mElement := mElement cmd; mIndex := mIndex cmd; mState := s |}.

Definition performRedo (cmd : t) (mList : list T) : option (t * list T) :=
  match SerializableObjectList.insert (mIndex cmd) (mElement cmd) mList with
  | Some (index, mList') => Some (set_mIndex index cmd, mList')
  | None => None
  end.

Definition performExecute (cmd : t) (mList : list T)
  : option (bool * t * list T) :=
  let cmd := if bool_decide (mIndex cmd < 0)%Z
             then set_mIndex (SerializableObjectList.count mList) cmd
             else cmd in
  match performRedo cmd mList with
  | Some (cmd, mList') => Some (true, cmd, mList')
  | None => None
  end.

Definition performUndo (cmd : t) (mList : list T) : option (t * list T) :=
  match SerializableObjectList.remove (mIndex cmd) mList with
  | Some mList' => Some (cmd, mList')
  | None => None
  end.

(** Modelled from the spec: [UndoCommand::execute], [undo] and [redo], which
    check the transition and call the [perform*] methods above. *)
Definition execute (cmd : t) (mList : list T) : CommandResult (t * list T) :=
  match mState cmd with
  | Initial =>
      match performExecute cmd mList with
      | Some (_, cmd, mList') => Done (set_mState Executed cmd, mList')
      | None => ListFailure
      end
  | _ => ContractViolation
  end.

Definition undo (cmd : t) (mList : list T) : CommandResult (t * list T) :=
  match mState cmd with
  | Executed =>
      match performUndo cmd mList with
      | Some (cmd, mList') => Done (set_mState Undone cmd, mList')
      | None => ListFailure
      end
  | _ => ContractViolation
  end.

Definition redo (cmd : t) (mList : list T) : CommandResult (t * list T) :=
  match mState cmd with
  | Undone =>
      match performRedo cmd mList with
      | Some (cmd, mList') => Done (set_mState Executed cmd, mList')
      | None => ListFailure
      end
  | _ => ContractViolation
  end.

End Command.
Arguments t : clear implicits.
End CmdListElementInsert.

(** ** Renaming a net signal *)

Module NetSignalEvents.
Section Methods.
Context `{!Collaborators}.

(** Modelled from the spec: [NetSignal::setName] ([netsignal.cpp] is not
    among the sources).  The net signal takes the new name and emits
    [nameChanged]; the slot [netSignalNameChanged] of every signal instance
    that is connected to this net signal runs. *)
Definition setName (n : Uuid) (name : string) : M unit :=
  net ← getNet n;
  putNet n {| net_getName := name; net_registered := net_registered net |};;
  emit (nameChanged n name);;
  c ← getCmp;
  forEach
    (λ k, s ← getSignal k;
          if bool_decide (n ∈ Signal.nameChangedConnections s)
          then ComponentSignalInstance.netSignalNameChanged k name
          else mret ())
    (ComponentInstance.signalKeys c).

End Methods.
End NetSignalEvents.

(** ** Histories of a component instance

    The calls that other objects make on a component instance, its signal
    instances and the net signals of its circuit. *)

Inductive Operation :=
| CallAddToCircuit
| CallRemoveFromCircuit
| CallSetName (name : string)
| CallSetValue (value : string)
| CallSetAttributes (attributes : list Attribute)
| CallRegisterSymbol (symbol : SI_Symbol)
| CallUnregisterSymbol (symbol : SI_Symbol)
| CallRegisterDevice (device : BI_Device)
| CallUnregisterDevice (device : BI_Device)
| CallSetNetSignal (signal : Uuid) (netsignal : option Uuid)
| CallRegisterSymbolPin (signal : Uuid) (pin : SI_SymbolPin)
| CallUnregisterSymbolPin (signal : Uuid) (pin : SI_SymbolPin)
| CallRegisterFootprintPad (signal : Uuid) (pad : BI_FootprintPad)
| CallUnregisterFootprintPad (signal : Uuid) (pad : BI_FootprintPad)
| CallRenameNet (net : Uuid) (name : string).

Section Histories.
Context `{!Collaborators}.

Definition perform (op : Operation) : M unit :=
  match op with
  | CallAddToCircuit => ComponentInstance.addToCircuit
  | CallRemoveFromCircuit => ComponentInstance.removeFromCircuit
  | CallSetName name => ComponentInstance.setName name
  | CallSetValue value => ComponentInstance.setValue value
  | CallSetAttributes attributes => ComponentInstance.setAttributes attributes
  | CallRegisterSymbol symbol => ComponentInstance.registerSymbol symbol
  | CallUnregisterSymbol symbol => ComponentInstance.unregisterSymbol symbol
  | CallRegisterDevice device => ComponentInstance.registerDevice device
  | CallUnregisterDevice device => ComponentInstance.unregisterDevice device
  | CallSetNetSignal signal netsignal =>
      ComponentSignalInstance.setNetSignal signal netsignal
  | CallRegisterSymbolPin signal pin =>
      ComponentSignalInstance.registerSymbolPin signal pin
  | CallUnregisterSymbolPin signal pin =>
      ComponentSignalInstance.unregisterSymbolPin signal pin
  | CallRegisterFootprintPad signal pad =>
      ComponentSignalInstance.registerFootprintPad signal pad
  | CallUnregisterFootprintPad signal pad =>
      ComponentSignalInstance.unregisterFootprintPad signal pad
  | CallRenameNet net name => NetSignalEvents.setName net name
  end.

(** The worlds that a component instance can be in: it is constructed by one
    of the two constructors, and every later call returns or throws. *)
Inductive reachable : World → Prop :=
| reachable_load circuit circuitNets library domElement c :
    ComponentInstance.load circuit circuitNets library domElement = inr c →
    reachable {| nets := circuitNets; cmp := c; emitted := [] |}
| reachable_create circuit circuitNets uuid libComponent symbVar name c :
    ComponentInstance.create circuit circuitNets uuid libComponent symbVar name
    = inr c →
    reachable {| nets := circuitNets; cmp := c; emitted := [] |}
| reachable_returned op w w' :
    reachable w → perform op w = Returned () w' → reachable w'
| reachable_thrown op e w w' :
    reachable w → perform op w = Thrown e w' → reachable w'.

End Histories.

(** * Vocabulary of the properties *)

(** ** The list insert command *)

Section InsertVocabulary.
Context {T : Type}.

(** The index that [performExecute] records for the index given to the
    constructor. *)
Definition resolvedIndex (index : Z) (mList : list T) : Z :=
  if bool_decide (index < 0)%Z then SerializableObjectList.count mList
  else index.

(** [mList] with [element] at position [index]. *)
Definition insertedAt (index : Z) (element : T) (mList : list T) : list T :=
  take (Z.to_nat index) mList ++ element :: drop (Z.to_nat index) mList.

End InsertVocabulary.

(** ** Counting unplaced symbols, in the words of the specification *)

Definition requiredItems (c : Instance.t) : list ComponentSymbolVariantItem :=
  List.filter item_isRequired (getSymbolItems (Instance.mCompSymbVar c)).

Definition registeredRequiredItems (c : Instance.t)
  : list ComponentSymbolVariantItem :=
  List.filter
    (λ item, item_isRequired item
             && Instance.isRegistered c (item_getUuid item))
    (getSymbolItems (Instance.mCompSymbVar c)).

Definition spec_unplacedRequiredSymbolsCount (c : Instance.t) : Z :=
  Z.of_nat (length (requiredItems c))
  - Z.of_nat (length (registeredRequiredItems c)).

(** ** In use *)

(** A component instance is in use: it has a registered symbol or device, or
    one of its signal instances is in use. *)
Definition inUse (c : Instance.t) : Prop :=
  0 < size (Instance.mRegisteredSymbols c)
  ∨ 0 < length (Instance.mRegisteredDevices c)
  ∨ ∃ k s, Instance.mSignals c !! k = Some s ∧ Signal.isUsed s = true.

(** A registered pin or pad of the signal instance is electrically
    connected. *)
Definition pinOrPadConnected (s : Signal.t) : Prop :=
  (∃ pin, pin ∈ Signal.mRegisteredSymbolPins s ∧ pin_getNetPoint pin = true)
  ∨ (∃ pad, pad ∈ Signal.mRegisteredFootprintPads s ∧ pad_isUsed pad = true).

(** ** Worlds *)

(** The world after [*signal = s] for the signal instance [k]. *)
Definition replaceSignal (k : Uuid) (s : Signal.t) (w : World) : World :=
  set_cmp (Instance.set_mSignals (<[k := s]> (Instance.mSignals (cmp w)))
             (cmp w)) w.

(** The world after [*net = value] for the net signal [n]. *)
Definition replaceNet (n : Uuid) (value : NetSignal) (w : World) : World :=
  set_nets (<[n := value]> (nets w)) w.

Definition bindSignal (signal : SignalRef) (net : NetSignal) : NetSignal :=
  {| net_getName := net_getName net;
     net_registered := {[signal]} ∪ net_registered net |}.

Definition unbindSignal (signal : SignalRef) (net : NetSignal) : NetSignal :=
  {| net_getName := net_getName net;
     net_registered := net_registered net ∖ {[signal]} |}.

(** The name of the net signal that [s] points to. *)
Definition boundNetName (w : World) (s : Signal.t) : option string :=
  n ← Signal.mNetSignal s; net_getName <$> nets w !! n.

(** No signal instance holds a dangling [NetSignal*]. *)
Definition netsClosed (w : World) : Prop :=
  ∀ k s n, Instance.mSignals (cmp w) !! k = Some s →
           Signal.mNetSignal s = Some n → is_Some (nets w !! n).

(** [w'] differs from [w] at most in the signal instances and in the
    bindings registered at the net signals, which have only grown. *)
Definition grown (w w' : World) : Prop :=
  cmp w' = Instance.set_mSignals (Instance.mSignals (cmp w')) (cmp w)
  ∧ emitted w' = emitted w
  ∧ ∀ n net, nets w !! n = Some net →
      ∃ net', nets w' !! n = Some net'
              ∧ net_getName net' = net_getName net
              ∧ net_registered net ⊆ net_registered net'.

Section WorldVocabulary.
Context `{!Collaborators}.

(** The ERC messages of every signal instance are the ones that
    [updateErcMessages] computes from the present state. *)
Definition signalErcUpToDate (w : World) : Prop :=
  ∀ k s, Instance.mSignals (cmp w) !! k = Some s →
         ComponentSignalInstance.updateErcMessages_body
           (cmp w) (boundNetName w s) s = s.

(** The signal instance [s] after [mIsAddedToCircuit = b;
    updateErcMessages()]. *)
Definition flagged (w : World) (b : bool) (s : Signal.t) : Signal.t :=
  ComponentSignalInstance.updateErcMessages_body (cmp w) (boundNetName w s)
    (Signal.set_mIsAddedToCircuit b s).

(** The world in which [ComponentSignalInstance::addToCircuit] of the signal
    instance [k] returns. *)
Definition signalAdded (k : Uuid) (s : Signal.t) (w : World) : World :=
  replaceSignal k (flagged w true s)
    match Signal.mNetSignal s with
    | Some n =>
        match nets w !! n with
        | Some net =>
            replaceNet n
              (bindSignal (ComponentSignalInstance.self (cmp w) k) net) w
        | None => w
        end
    | None => w
    end.

(** The world in which [ComponentSignalInstance::removeFromCircuit] of the
    signal instance [k] returns. *)
Definition signalRemoved (k : Uuid) (s : Signal.t) (w : World) : World :=
  replaceSignal k (flagged w false s)
    match Signal.mNetSignal s with
    | Some n =>
        match nets w !! n with
        | Some net =>
            replaceNet n
              (unbindSignal (ComponentSignalInstance.self (cmp w) k) net) w
        | None => w
        end
    | None => w
    end.

End WorldVocabulary.

(** ** Well-formed worlds *)

(** [w'] differs from [w] at most in the signal instances and in the
    bindings registered at the net signals. *)
Definition steady (w w' : World) : Prop :=
  cmp w' = Instance.set_mSignals (Instance.mSignals (cmp w')) (cmp w)
  ∧ emitted w' = emitted w
  ∧ ∀ n net, nets w !! n = Some net →
      ∃ net', nets w' !! n = Some net'
              ∧ net_getName net' = net_getName net.

(** The connections that [init] and [setNetSignal] keep: one to the bound
    net signal. *)
Definition connectionsOf (netsignal : option Uuid) : list Uuid :=
  match netsignal with Some n => [n] | None => [] end.

Definition connectionsInSync (w : World) : Prop :=
  ∀ k s, Instance.mSignals (cmp w) !! k = Some s →
         Signal.nameChangedConnections s = connectionsOf (Signal.mNetSignal s).

(** All registered symbols of the component instance are on one schematic. *)
Definition sameSchematic (c : Instance.t) : Prop :=
  ∀ k1 k2 symbol1 symbol2,
    Instance.mRegisteredSymbols c !! k1 = Some symbol1 →
    Instance.mRegisteredSymbols c !! k2 = Some symbol2 →
    sym_getSchematic symbol1 = sym_getSchematic symbol2.

(** Symbols and devices are registered at instances of the circuit only. *)
Definition detachedIsUnused (c : Instance.t) : Prop :=
  Instance.mIsAddedToCircuit c = false →
  Instance.mRegisteredSymbols c = ∅ ∧ Instance.mRegisteredDevices c = [].

(** The signal instances and the net signals are those of [w], and the
    attributes that the texts of the signal instances read are unchanged. *)
Definition sameSignals (w w' : World) : Prop :=
  nets w' = nets w
  ∧ Instance.mSignals (cmp w') = Instance.mSignals (cmp w)
  ∧ Instance.mName (cmp w') = Instance.mName (cmp w)
  ∧ Instance.mValue (cmp w') = Instance.mValue (cmp w)
  ∧ Instance.mAttributes (cmp w') = Instance.mAttributes (cmp w).

Section WellFormedVocabulary.
Context `{!Collaborators}.

Definition wellFormed (w : World) : Prop :=
  netsClosed w ∧ signalErcUpToDate w ∧ connectionsInSync w
  ∧ sameSchematic (cmp w) ∧ detachedIsUnused (cmp w).

(** The signal instance [s] after [updateErcMessages()]. *)
Definition refreshed (w : World) (s : Signal.t) : Signal.t :=
  ComponentSignalInstance.updateErcMessages_body (cmp w) (boundNetName w s) s.

(** The signal instance [s] after a successful [setNetSignal(netsignal)]. *)
Definition rebound (w : World) (netsignal : option Uuid) (s : Signal.t)
  : Signal.t :=
  let s' := Signal.set_mNetSignal netsignal
              (Signal.set_nameChangedConnections (connectionsOf netsignal) s) in
  ComponentSignalInstance.updateErcMessages_body (cmp w) (boundNetName w s')
    s'.

(** The slot [updateErcMessages] of the signal instances that [p] selects. *)
Definition refreshIf (p : Signal.t → bool) (k : Uuid) : M unit :=
  s ← getSignal k;
  if p s then ComponentSignalInstance.updateErcMessages k else mret ().

(** What [init] of a signal instance leaves behind. *)
Definition justConstructed (circuitNets : gmap Uuid NetSignal)
    (c : Instance.t) (s : Signal.t) : Prop :=
  ComponentSignalInstance.updateErcMessages_body c
    (Signal.mNetSignal s ≫= λ n, net_getName <$> circuitNets !! n) s = s
  ∧ Signal.nameChangedConnections s = connectionsOf (Signal.mNetSignal s)
  ∧ (∀ n, Signal.mNetSignal s = Some n → is_Some (circuitNets !! n)).


End WellFormedVocabulary.

(** ** Vocabulary of the invariants of a component instance *)

(** ** Coherent worlds

    What the checks of the registration methods keep true of a component
    instance, its signal instances and the net signals. *)

(** The flag of every signal instance follows the flag of the component
    instance. *)
Definition flagsAgree (c : Instance.t) : Prop :=
  ∀ k s, Instance.mSignals c !! k = Some s →
         Signal.mIsAddedToCircuit s = Instance.mIsAddedToCircuit c.

(** Every signal instance that is added to the circuit and points to a net
    signal is registered at that net signal. *)
Definition boundRegistered (w : World) : Prop :=
  ∀ k s n, Instance.mSignals (cmp w) !! k = Some s →
           Signal.mIsAddedToCircuit s = true →
           Signal.mNetSignal s = Some n →
           ∃ net, nets w !! n = Some net
                  ∧ ComponentSignalInstance.self (cmp w) k
                      ∈ net_registered net.

(** The pins and pads registered at a signal instance: no address twice,
    all of the circuit [circuit], and none while the signal instance is not
    added to the circuit. *)
Definition signalTidy (circuit : Addr) (s : Signal.t) : Prop :=
  NoDup (pin_addr <$> Signal.mRegisteredSymbolPins s)
  ∧ NoDup (pad_addr <$> Signal.mRegisteredFootprintPads s)
  ∧ (∀ pin, pin ∈ Signal.mRegisteredSymbolPins s →
            pin_getCircuit pin = circuit)
  ∧ (∀ pad, pad ∈ Signal.mRegisteredFootprintPads s →
            pad_getCircuit pad = circuit)
  ∧ (Signal.mIsAddedToCircuit s = false →
     Signal.mRegisteredSymbolPins s = []
     ∧ Signal.mRegisteredFootprintPads s = []).

(** The signal instances are those of the signals of the library component,
    under the uuids of the signals. *)
Definition signalsOfLibrary (c : Instance.t) : Prop :=
  (∀ k s, Instance.mSignals c !! k = Some s →
     sig_getUuid (Signal.mComponentSignal s) = k
     ∧ Signal.mComponentSignal s ∈ cmp_getSignals (Instance.mLibComponent c))
  ∧ ∀ signal, signal ∈ cmp_getSignals (Instance.mLibComponent c) →
      is_Some (Instance.mSignals c !! sig_getUuid signal).

(** The symbols registered at a component instance: each of the circuit of
    the instance and under the uuid of its item, which is an item of the
    symbol variant. *)
Definition symbolsOfVariant (c : Instance.t) : Prop :=
  ∀ k symbol, Instance.mRegisteredSymbols c !! k = Some symbol →
    sym_getCircuit symbol = Instance.mCircuit c
    ∧ item_getUuid (sym_getCompSymbVarItem symbol) = k
    ∧ ComponentInstance.findSymbolItem c k = true.

(** The devices registered at a component instance: none twice, each of the
    circuit of the instance, and none at all for a component that is
    schematic-only. *)
Definition devicesTidy (c : Instance.t) : Prop :=
  NoDup (Instance.mRegisteredDevices c)
  ∧ (∀ device, device ∈ Instance.mRegisteredDevices c →
               dev_getCircuit device = Instance.mCircuit c)
  ∧ (cmp_isSchematicOnly (Instance.mLibComponent c) = true →
     Instance.mRegisteredDevices c = []).

Section InstanceVocabulary.
Context `{!Collaborators}.

(** The ERC messages of the component instance are the ones that
    [updateErcMessages] computes from the present state. *)
Definition instanceErcUpToDate (c : Instance.t) : Prop :=
  ComponentInstance.updateErcMessages_body c = c.

(** The symbol variant of the instance is the one that the library component
    gives for its uuid. *)
Definition variantOfLibrary (c : Instance.t) : Prop :=
  get symbvar_getUuid (symbvar_getUuid (Instance.mCompSymbVar c))
    (cmp_getSymbolVariants (Instance.mLibComponent c))
  = inr (Instance.mCompSymbVar c).

Definition instanceTidy (c : Instance.t) : Prop :=
  symbolsOfVariant c ∧ devicesTidy c ∧ instanceErcUpToDate c
  ∧ Instance.mName c ≠ EmptyString ∧ variantOfLibrary c.

Definition coherent (w : World) : Prop :=
  flagsAgree (cmp w) ∧ boundRegistered w
  ∧ (∀ k s, Instance.mSignals (cmp w) !! k = Some s →
            signalTidy (Instance.mCircuit (cmp w)) s)
  ∧ signalsOfLibrary (cmp w)
  ∧ instanceTidy (cmp w).

End InstanceVocabulary.

(** Two signal instances that differ at most in their ERC messages and in
    their connections to [nameChanged]. *)
Definition sameSkeleton (s s' : Signal.t) : Prop :=
  Signal.mComponentSignal s' = Signal.mComponentSignal s
  ∧ Signal.mIsAddedToCircuit s' = Signal.mIsAddedToCircuit s
  ∧ Signal.mNetSignal s' = Signal.mNetSignal s
  ∧ Signal.mRegisteredSymbolPins s' = Signal.mRegisteredSymbolPins s
  ∧ Signal.mRegisteredFootprintPads s' = Signal.mRegisteredFootprintPads s.

(** [x] is one of the signal instances [signals] of the component instance,
    as the net signal [n] to which it points sees it. *)
Definition refsOf (w : World) (signals : list Uuid) (n : Uuid)
    (x : SignalRef) : Prop :=
  ∃ k s, k ∈ signals ∧ Instance.mSignals (cmp w) !! k = Some s
         ∧ Signal.mNetSignal s = Some n
         ∧ x = ComponentSignalInstance.self (cmp w) k.

(** [x] is a signal instance of the component instance that points to the
    net signal [n], as the net signal sees it. *)
Definition boundTo (w : World) (n : Uuid) (x : SignalRef) : Prop :=
  ∃ k s, Instance.mSignals (cmp w) !! k = Some s
         ∧ Signal.mNetSignal s = Some n
         ∧ x = ComponentSignalInstance.self (cmp w) k.

(** The world after the net signal [n], if any, has dropped, or has taken,
    the binding of the signal instance [x]. *)
Definition unregisteredAt (n : option Uuid) (x : SignalRef) (w : World)
  : World :=
  match n with
  | Some n =>
      match nets w !! n with
      | Some net => replaceNet n (unbindSignal x net) w
      | None => w
      end
  | None => w
  end.

Definition registeredAt (n : option Uuid) (x : SignalRef) (w : World)
  : World :=
  match n with
  | Some n =>
      match nets w !! n with
      | Some net => replaceNet n (bindSignal x net) w
      | None => w
      end
  | None => w
  end.

(** The net signal [n], if any, has the binding of [x]. *)
Definition knownAt (n : option Uuid) (x : SignalRef) (w : World) : bool :=
  match n with
  | Some n =>
      match nets w !! n with
      | Some net => bool_decide (x ∈ net_registered net)
      | None => false
      end
  | None => true
  end.

Section ReboundVocabulary.
Context `{!Collaborators}.

(** The world in which [setNetSignal(netsignal)] of the signal instance [k]
    returns after it has moved the binding. *)
Definition reboundWorld (k : Uuid) (s : Signal.t) (netsignal : option Uuid)
    (w : World) : World :=
  let self := ComponentSignalInstance.self (cmp w) k in
  replaceSignal k (rebound w netsignal s)
    (registeredAt netsignal self
       (unregisteredAt (Signal.mNetSignal s) self w)).

End ReboundVocabulary.

(** A signal instance as a constructor leaves it: not added to the circuit,
    nothing registered. *)
Definition detached (s : Signal.t) : Prop :=
  Signal.mIsAddedToCircuit s = false
  ∧ Signal.mRegisteredSymbolPins s = []
  ∧ Signal.mRegisteredFootprintPads s = [].

(** The objects that a call names exist: the signal instance whose method
    is called is one of the component instance, and the [NetSignal*] passed
    to [setNetSignal] is null or points to a net signal of the circuit, as
    does the net signal that is renamed. *)
Definition targetsExist (op : Operation) (w : World) : Prop :=
  match op with
  | CallSetNetSignal k netsignal =>
      is_Some (Instance.mSignals (cmp w) !! k)
      ∧ ∀ n, netsignal = Some n → is_Some (nets w !! n)
  | CallRegisterSymbolPin k _ | CallUnregisterSymbolPin k _
  | CallRegisterFootprintPad k _ | CallUnregisterFootprintPad k _ =>
      is_Some (Instance.mSignals (cmp w) !! k)
  | CallRenameNet n _ => is_Some (nets w !! n)
  | _ => True
  end.

(** * A component instance to try the model on *)

Module Examples.

(** Texts without variables: nothing is replaced. *)
Definition plainText : Collaborators :=
  {| replaceVariablesWithAttributes := λ _ rawText _, rawText;
     project_getAttributeValue := λ _ _ _, None;
     QLocale_toString := pretty |}.

Definition sigVcc : ComponentSignal :=
  {| sig_getUuid := 1; sig_getName := "V+"; sig_isRequired := true;
     sig_isNetSignalNameForced := true; sig_getForcedNetName := "VCC" |}.

Definition sigOut : ComponentSignal :=
  {| sig_getUuid := 2; sig_getName := "OUT"; sig_isRequired := false;
     sig_isNetSignalNameForced := false;
     sig_getForcedNetName := EmptyString |}.

Definition itemGate : ComponentSymbolVariantItem :=
  {| item_getUuid := 10; item_isRequired := true |}.

Definition itemPower : ComponentSymbolVariantItem :=
  {| item_getUuid := 11; item_isRequired := false |}.

Definition variant : ComponentSymbolVariant :=
  {| symbvar_getUuid := 20; getSymbolItems := [itemGate; itemPower] |}.

Definition opamp : Component :=
  {| cmp_getUuid := 30; cmp_isSchematicOnly := false;
     cmp_getDefaultValue := "LM358"; cmp_getAttributes := [];
     cmp_getSignals := [sigVcc; sigOut];
     cmp_getSymbolVariants := [variant] |}.

Definition library : gmap Uuid Component := {[ 30%N := opamp ]}.

(** The circuit [7] with the nets [VCC] and [OUT1], at which [staleVcc] and
    [staleOut] are registered already. *)
Definition circuitNets (staleVcc staleOut : gset (N * N))
  : gmap Uuid NetSignal :=
  {[ 100%N := {| net_getName := "VCC"; net_registered := staleVcc |};
     101%N := {| net_getName := "OUT1"; net_registered := staleOut |} ]}.

(** The node of the component instance [U1]: its signal [V+] is bound to the
    net [vcc], its signal [OUT] to the net [OUT1]. *)
Definition nodeU1 (vcc : option Uuid) : DomElement :=
  {| dom_uuid := 40; dom_name := "U1"; dom_value := "LM358";
     dom_component := 30; dom_symbol_variant := 20; dom_attributes := [];
     dom_signal_map :=
       [ {| node_comp_signal := 1; node_netsignal := vcc |};
         {| node_comp_signal := 2; node_netsignal := Some 101%N |} ] |}.

Definition emptyInstance : Instance.t :=
  {| Instance.mCircuit := 0; Instance.mIsAddedToCircuit := false;
     Instance.mUuid := 0; Instance.mName := EmptyString;
     Instance.mValue := EmptyString; Instance.mLibComponent := opamp;
     Instance.mCompSymbVar := variant; Instance.mAttributes := [];
     Instance.mSignals := ∅; Instance.mRegisteredSymbols := ∅;
     Instance.mRegisteredDevices := [];
     Instance.mErcMsgUnplacedRequiredSymbols :=
       {| erc_msg := EmptyString; erc_visible := false |};
     Instance.mErcMsgUnplacedOptionalSymbols :=
       {| erc_msg := EmptyString; erc_visible := false |} |}.

Definition loaded (staleVcc staleOut : gset (N * N)) (vcc : option Uuid)
  : Exception + Instance.t :=
  ComponentInstance.load (H := plainText) 7 (circuitNets staleVcc staleOut)
    library (nodeU1 vcc).

(** The world after the constructor. *)
Definition constructed (staleVcc staleOut : gset (N * N))
    (vcc : option Uuid) : World :=
  {| nets := circuitNets staleVcc staleOut;
     cmp := match loaded staleVcc staleOut vcc with
            | inr c => c
            | inl _ => emptyInstance
            end;
     emitted := [] |}.

(** The world in which a call returns. *)
Definition after (op : Operation) (w : World) : World :=
  match perform (H := plainText) op w with
  | Returned _ w' => w'
  | _ => w
  end.

Definition signalOf (k : Uuid) (w : World) : Signal.t :=
  default
    {| Signal.mComponentSignal := sigOut; Signal.mIsAddedToCircuit := false;
       Signal.mNetSignal := None; Signal.mRegisteredSymbolPins := [];
       Signal.mRegisteredFootprintPads := [];
       Signal.mErcMsgUnconnectedRequiredSignal :=
         {| erc_msg := EmptyString; erc_visible := false |};
       Signal.mErcMsgForcedNetSignalNameConflict :=
         {| erc_msg := EmptyString; erc_visible := false |};
       Signal.nameChangedConnections := [] |}
    (Instance.mSignals (cmp w) !! k).

Definition world0 : World := constructed ∅ ∅ (Some 100%N).
Definition worldAdded : World := after CallAddToCircuit world0.
Definition worldRenamed : World := after (CallRenameNet 100 "PWR") worldAdded.
Definition worldUnbound : World :=
  after CallAddToCircuit (constructed ∅ ∅ None).

(** [V+] of [U1] is registered at the net [VCC] before [U1] is added. *)
Definition worldConflict : World :=
  constructed {[ (40%N, 1%N) ]} ∅ (Some 100%N).

(** [U1] is added, and [V+] of [U1] is registered at the net [OUT1], to
    which it is not bound. *)
Definition worldStale : World :=
  after CallAddToCircuit (constructed ∅ {[ (40%N, 1%N) ]} (Some 100%N)).

Definition symbolGate (schematic : Addr) : SI_Symbol :=
  {| sym_addr := 500 + schematic; sym_getCircuit := 7;
     sym_getSchematic := schematic; sym_getCompSymbVarItem := itemGate |}.

Definition symbolPower (schematic : Addr) : SI_Symbol :=
  {| sym_addr := 600 + schematic; sym_getCircuit := 7;
     sym_getSchematic := schematic; sym_getCompSymbVarItem := itemPower |}.

Definition worldPlaced : World :=
  after (CallRegisterSymbol (symbolGate 1)) worldAdded.

Definition device : BI_Device := {| dev_addr := 700; dev_getCircuit := 7 |}.

Definition worldWithDevice : World := after (CallRegisterDevice device) worldAdded.

Definition pinConnected : SI_SymbolPin :=
  {| pin_addr := 800; pin_getCircuit := 7; pin_getNetPoint := true |}.

Definition worldWired : World :=
  after (CallRegisterSymbolPin 1 pinConnected) worldAdded.





(** A symbol for the power item of [U1] on the schematic [2] of another
    circuit. *)
Definition symbolForeign : SI_Symbol :=
  {| sym_addr := 650; sym_getCircuit := 8; sym_getSchematic := 2;
     sym_getCompSymbVarItem := itemPower |}.

(** [U1] is added and its signal [V+] was bound to the net [OUT1]. *)
Definition worldMoved : World :=
  after (CallSetNetSignal 1 (Some 101%N)) worldAdded.

(** [U1] was added and removed again. *)
Definition worldRemoved : World := after CallRemoveFromCircuit worldAdded.

(** A supply symbol: a component that is schematic-only, and the instance
    [GND1] of it that the constructor for new instances returns. *)
Definition supply : Component :=
  {| cmp_getUuid := 31; cmp_isSchematicOnly := true;
     cmp_getDefaultValue := "GND"; cmp_getAttributes := [];
     cmp_getSignals := [sigOut];
     cmp_getSymbolVariants := [variant] |}.

Definition created : Exception + Instance.t :=
  ComponentInstance.create (H := plainText) 7 (circuitNets ∅ ∅) 41 supply 20
    "GND1".

Definition worldSupply : World :=
  {| nets := circuitNets ∅ ∅;
     cmp := match created with
            | inr c => c
            | inl _ => emptyInstance
            end;
     emitted := [] |}.

End Examples.

(** * Properties *)

Set Warnings "-clear-no-such-hyp".

(** ** The list insert command *)

Section InsertCommand.
Context {T : Type}.
Import CmdListElementInsert.
Import SerializableObjectList.

Lemma insert_in_range index (obj : T) l :
  (0 ≤ index ≤ count l)%Z →
  insert index obj l = Some (index, insertedAt index obj l).
Proof. intros Hr. unfold insert. by rewrite bool_decide_eq_true_2. Qed.

Lemma remove_inserted index (obj : T) l :
  (0 ≤ index ≤ count l)%Z →
  remove index (insertedAt index obj l) = Some l.
Proof.
  intros Hr. unfold remove, insertedAt, count in *.
  assert (Hn : Z.to_nat index ≤ length l) by lia.
  rewrite bool_decide_eq_true_2.
  - f_equal.
    assert (Hl : length (take (Z.to_nat index) l) = Z.to_nat index)
      by (rewrite length_take; lia).
    rewrite <- Hl at 1. rewrite delete_middle. apply take_drop.
  - rewrite length_app, length_take. simpl. rewrite length_drop. lia.
Qed.

Lemma insertedAt_append (element : T) mList :
  insertedAt (count mList) element mList = mList ++ [element].
Proof.
  unfold insertedAt, count. rewrite Nat2Z.id.
  by rewrite take_ge, drop_ge by lia.
Qed.

Lemma resolvedIndex_range index (mList : list T) :
  (index < 0 ∨ 0 ≤ index ≤ count mList)%Z →
  (0 ≤ resolvedIndex index mList ≤ count mList)%Z.
Proof.
  intros Hi. unfold resolvedIndex, count in *. case_bool_decide; lia.
Qed.

(** Claim C5.  The list insert command, for a list [mList], an element and
    an index that is negative (append, the default [-1]) or a position of the
    list.  [execute] resolves a negative index to the length of the list,
    records the resolved index and inserts the element there (at the end, for
    a negative index).  [undo] after [execute] gives back the list as it was
    before [execute]; [redo] after [undo] inserts the same element at the
    recorded index and gives back the list as it was after [execute].  The
    index is resolved only once: [redo] inserts at the recorded index also
    when the list has grown in between. *)
Theorem C5_insert_execute_undo_redo (mList : list T) (element : T)
    (index : Z) :
  (index < 0 ∨ 0 ≤ index ≤ count mList)%Z →
  let recorded := resolvedIndex index mList in
  let inserted := insertedAt recorded element mList in
  let executed :=
    {| mElement := element; mIndex := recorded; mState := Executed |} in
  let undone :=
    {| mElement := element; mIndex := recorded; mState := Undone |} in
  (index < 0 → recorded = count mList ∧ inserted = mList ++ [element])%Z
  ∧ execute (new element index) mList = Done (executed, inserted)
  ∧ undo executed inserted = Done (undone, mList)
  ∧ redo undone mList = Done (executed, inserted)
  ∧ (∀ other : list T, (recorded ≤ count other)%Z →
       redo undone other
       = Done (executed, insertedAt recorded element other)).
Proof.
  intros Hi recorded inserted executed undone.
  pose proof (resolvedIndex_range index mList Hi) as Hr.
  fold recorded in Hr.
  split; [|split; [|split; [|split]]].
  - intros Hneg. unfold inserted, recorded, resolvedIndex.
    rewrite bool_decide_eq_true_2 by done.
    split; [done | apply insertedAt_append].
  - unfold execute, performExecute, performRedo, new. simpl.
    fold (resolvedIndex index mList). fold recorded.
    assert (Hidx : mIndex (if bool_decide (index < 0)%Z
                   then set_mIndex (count mList)
                          {| mElement := element; mIndex := index;
                             mState := Initial |}
                   else {| mElement := element; mIndex := index;
                           mState := Initial |}) = recorded).
    { unfold recorded, resolvedIndex. by case_bool_decide. }
    unfold recorded, resolvedIndex in *.
    case_bool_decide; simpl in *;
      rewrite insert_in_range by done; done.
  - unfold undo, performUndo. simpl.
    unfold inserted. rewrite remove_inserted by done. done.
  - unfold redo, performRedo. simpl.
    rewrite insert_in_range by done. done.
  - intros other Ho. unfold redo, performRedo. simpl.
    rewrite insert_in_range by lia. done.
Qed.


End InsertCommand.

(** ** Counting unplaced symbols *)

Section Counting.
Import Instance.

Lemma fold_countIf cond (l : list ComponentSymbolVariantItem) (z : Z) :
  fold_left (countIf cond) l z
  = (z + Z.of_nat (length (List.filter cond l)))%Z.
Proof.
  revert z. induction l as [|item l IH]; intros z; simpl.
  - lia.
  - rewrite IH. unfold countIf. destruct (cond item); simpl; lia.
Qed.

Lemma length_filter_split (p q : ComponentSymbolVariantItem → bool) l :
  length (List.filter p l)
  = length (List.filter (λ x, p x && negb (q x)) l)
    + length (List.filter (λ x, p x && q x) l).
Proof.
  induction l as [|x l IH]; simpl; [done|].
  destruct (p x), (q x); simpl; lia.
Qed.

(** Claim C6.  [getUnplacedRequiredSymbolsCount] is the number of required
    items of the symbol variant minus the number of those that are
    registered; it is not negative; and it is computed from the items of the
    variant and the set of registered item uuids alone: two component
    instances that agree on both have the same count. *)
Theorem C6_unplaced_required_count (c : t) :
  getUnplacedRequiredSymbolsCount c = spec_unplacedRequiredSymbolsCount c
  ∧ (0 ≤ getUnplacedRequiredSymbolsCount c)%Z
  ∧ (∀ c' : t,
       mCompSymbVar c' = mCompSymbVar c →
       dom (mRegisteredSymbols c') = dom (mRegisteredSymbols c) →
       getUnplacedRequiredSymbolsCount c'
       = getUnplacedRequiredSymbolsCount c).
Proof.
  split; [|split].
  - unfold getUnplacedRequiredSymbolsCount,
      spec_unplacedRequiredSymbolsCount, requiredItems,
      registeredRequiredItems.
    rewrite fold_countIf.
    rewrite (length_filter_split item_isRequired
               (λ item, isRegistered c (item_getUuid item))).
    lia.
  - unfold getUnplacedRequiredSymbolsCount. rewrite fold_countIf. lia.
  - intros c' Hvar Hdom. unfold getUnplacedRequiredSymbolsCount.
    rewrite Hvar.
    assert (Hreg : ∀ u, isRegistered c' u = isRegistered c u).
    { intros u. unfold isRegistered.
      apply bool_decide_ext.
      rewrite <- (elem_of_dom (mRegisteredSymbols c')),
        <- (elem_of_dom (mRegisteredSymbols c)), Hdom. done. }
    rewrite !fold_countIf. do 3 f_equal.
    apply filter_ext. intros item. by rewrite Hreg.
Qed.

End Counting.

(** ** Signal instances, component instances and net signals *)

Section Properties.
Context `{!Collaborators}.

Lemma bind_unfold {A B} (m : M A) (f : A → M B) (w : World) :
  (m ≫= f) w
  = match m w with
    | Returned a w' => f a w'
    | Thrown e w' => Thrown e w'
    | Aborted => Aborted
    end.
Proof. reflexivity. Qed.

Ltac run :=
  repeat first
    [ rewrite bind_unfold
    | progress cbv beta iota
    | progress cbn [mret M_ret getCmp putCmp sgl_add sgl_run] ].

Ltac run_in H :=
  repeat first
    [ rewrite bind_unfold in H
    | progress cbv beta iota in H
    | progress cbn [mret M_ret getCmp sgl_add sgl_run] in H ].


Lemma isUsed_inUse (c : Instance.t) : Instance.isUsed c = true ↔ inUse c.
Proof.
  unfold Instance.isUsed, inUse, Instance.getRegisteredElementsCount.
  case_bool_decide as Hc.
  - split; [intros _ | done].
    destruct (decide (0 < size (Instance.mRegisteredSymbols c))); [by left|].
    right; left. lia.
  - rewrite existsb_exists. split.
    + intros [[k s] [Hin Hs]]. right; right. exists k, s. split; [|done].
      apply elem_of_map_to_list. by apply list_elem_of_In.
    + intros [Hs | [Hd | (k & s & Hk & Hs)]]; [lia | lia |].
      exists (k, s). split; [|done].
      apply list_elem_of_In. by apply elem_of_map_to_list.
Qed.

Lemma arePinsOrPadsUsed_connected (s : Signal.t) :
  Signal.arePinsOrPadsUsed s = true ↔ pinOrPadConnected s.
Proof.
  unfold Signal.arePinsOrPadsUsed, pinOrPadConnected.
  rewrite orb_true_iff, !existsb_exists.
  split; (intros [[x [Hin Hx]] | [x [Hin Hx]]]; [left | right]; exists x);
    (split; [|done]); by apply list_elem_of_In.
Qed.

(** Claim C3.  [removeFromCircuit] of a component instance that is added to
    the circuit and in use (a symbol or a device is registered, or a signal
    instance is in use) throws a [RuntimeError], the exception of failures
    that are shown to the user, and the world it leaves behind is the world
    before the call: [mIsAddedToCircuit], the registered symbols and devices
    and the bindings at the net signals are untouched. *)
Theorem C3_removeFromCircuit_in_use (w : World) :
  Instance.mIsAddedToCircuit (cmp w) = true →
  inUse (cmp w) →
  ∃ msg, ComponentInstance.removeFromCircuit w = Thrown (RuntimeError msg) w.
Proof.
  intros Hadded Hused. apply isUsed_inUse in Hused.
  exists (ComponentInstance.msgStillInUse (cmp w)).
  unfold ComponentInstance.removeFromCircuit.
  rewrite bind_unfold. simpl. by rewrite Hadded, Hused.
Qed.

Lemma setNetSignal_unchanged (w : World) (k : Uuid) (s : Signal.t) :
  Instance.mSignals (cmp w) !! k = Some s →
  ComponentSignalInstance.setNetSignal k (Signal.mNetSignal s) w
  = Returned () w.
Proof.
  intros Hk. unfold ComponentSignalInstance.setNetSignal.
  rewrite bind_unfold. unfold getSignal. rewrite Hk.
  rewrite bind_unfold. simpl. by rewrite bool_decide_eq_true_2.
Qed.

Lemma setNetSignal_not_added (w : World) (k : Uuid) (s : Signal.t)
    (netsignal : option Uuid) :
  Instance.mSignals (cmp w) !! k = Some s →
  netsignal ≠ Signal.mNetSignal s →
  Signal.mIsAddedToCircuit s = false →
  ComponentSignalInstance.setNetSignal k netsignal w
  = Thrown (LogicError None) w.
Proof.
  intros Hk Hne Hadded. unfold ComponentSignalInstance.setNetSignal.
  rewrite bind_unfold. unfold getSignal. rewrite Hk.
  rewrite bind_unfold. simpl.
  by rewrite bool_decide_eq_false_2, Hadded.
Qed.

(** Claim C8.  [setNetSignal] with the net signal that the signal instance
    points to already (null, when it points to none) returns and leaves the
    world as it was: no Qt signal is emitted, no net signal and no signal
    instance changes, and so neither the text nor the visibility of an ERC
    message does. *)
Theorem C8_setNetSignal_same_net_is_noop (w : World) (k : Uuid)
    (s : Signal.t) :
  Instance.mSignals (cmp w) !! k = Some s →
  ∃ w',
    ComponentSignalInstance.setNetSignal k (Signal.mNetSignal s) w
    = Returned () w'
    ∧ w' = w
    ∧ emitted w' = emitted w
    ∧ nets w' = nets w
    ∧ Instance.mSignals (cmp w') = Instance.mSignals (cmp w)
    ∧ Instance.mSignals (cmp w') !! k = Some s.
Proof.
  intros Hk. exists w. by rewrite setNetSignal_unchanged.
Qed.

(** Claim C10.  For a signal instance that is not added to the circuit,
    [setNetSignal] with the net signal it points to already returns and
    leaves the world as it was; the [LogicError] of the check of
    [mIsAddedToCircuit] is thrown exactly when the requested net signal
    differs from the present one. *)
Theorem C10_setNetSignal_same_net_before_added_check (w : World) (k : Uuid)
    (s : Signal.t) :
  Instance.mSignals (cmp w) !! k = Some s →
  Signal.mIsAddedToCircuit s = false →
  ComponentSignalInstance.setNetSignal k (Signal.mNetSignal s) w
  = Returned () w
  ∧ ∀ netsignal,
      ComponentSignalInstance.setNetSignal k netsignal w
      = Thrown (LogicError None) w
      ↔ netsignal ≠ Signal.mNetSignal s.
Proof.
  intros Hk Hadded. split; [by apply setNetSignal_unchanged|].
  intros netsignal. split.
  - intros Hthrown ->. by rewrite (setNetSignal_unchanged w k s Hk) in Hthrown.
  - intros Hne. by apply (setNetSignal_not_added w k s).
Qed.

(** Claim C4, as the code has it.  For a signal instance that is added to
    the circuit and a net signal other than the present one, [setNetSignal]
    throws when a registered pin or pad is electrically connected, and leaves
    the world (the net binding with it) as it was.  The exception is a
    [LogicError], the class of broken contracts, with a message for the
    user; the claim expects the class of failures shown to the user, which
    [removeFromCircuit] throws for an instance in use. *)
Theorem C4_setNetSignal_in_use_throws_LogicError (w : World) (k : Uuid)
    (s : Signal.t) (netsignal : option Uuid) :
  Instance.mSignals (cmp w) !! k = Some s →
  Signal.mIsAddedToCircuit s = true →
  netsignal ≠ Signal.mNetSignal s →
  pinOrPadConnected s →
  ComponentSignalInstance.setNetSignal k netsignal w
  = Thrown (LogicError
              (Some (ComponentSignalInstance.msgStillInUse (cmp w) s))) w.
Proof.
  intros Hk Hadded Hne Hused. apply arePinsOrPadsUsed_connected in Hused.
  unfold ComponentSignalInstance.setNetSignal.
  rewrite bind_unfold. unfold getSignal. rewrite Hk.
  rewrite bind_unfold. simpl.
  by rewrite bool_decide_eq_false_2, Hadded, Hused.
Qed.

Lemma get_inr {A} (getUuid : A → Uuid) uuid (l : list A) x :
  get getUuid uuid l = inr x → x ∈ l ∧ getUuid x = uuid.
Proof.
  unfold get. destruct (List.find _ l) as [y|] eqn:Hf; [|done].
  intros [= <-]. apply find_some in Hf as [Hin Hy].
  split; [by apply list_elem_of_In | by apply bool_decide_eq_true_1 in Hy].
Qed.

Lemma get_inl {A} (getUuid : A → Uuid) uuid (l : list A) e :
  get getUuid uuid l = inl e → isRuntimeError e = true.
Proof.
  unfold get. destruct (List.find _ l); [done|]. by intros [= <-].
Qed.

Lemma signal_create_inr circuitNets c cmpSignal netsignal :
  ∃ s, ComponentSignalInstance.create circuitNets c cmpSignal netsignal = inr s
       ∧ Signal.mComponentSignal s = cmpSignal
       ∧ Signal.mNetSignal s = netsignal
       ∧ Signal.mIsAddedToCircuit s = false
       ∧ Signal.mRegisteredSymbolPins s = []
       ∧ Signal.mRegisteredFootprintPads s = [].
Proof.
  unfold ComponentSignalInstance.create, ComponentSignalInstance.init.
  simpl. eexists. split; [reflexivity|].
  by destruct netsignal.
Qed.

Lemma signal_load_inr circuitNets c node s :
  ComponentSignalInstance.load circuitNets c node = inr s →
  Signal.mComponentSignal s ∈ cmp_getSignals (Instance.mLibComponent c)
  ∧ sig_getUuid (Signal.mComponentSignal s) = node_comp_signal node.
Proof.
  unfold ComponentSignalInstance.load.
  destruct (get sig_getUuid _ _) as [e|cmpSignal] eqn:Hget; [done|].
  apply get_inr in Hget.
  destruct (node_netsignal node) as [n|].
  - destruct (circuitNets !! n); [|done].
    destruct (signal_create_inr circuitNets c cmpSignal (Some n))
      as (s' & -> & <- & _). by intros [= <-].
  - destruct (signal_create_inr circuitNets c cmpSignal None)
      as (s' & -> & <- & _). by intros [= <-].
Qed.

Lemma signal_load_inl circuitNets c node e :
  ComponentSignalInstance.load circuitNets c node = inl e →
  isRuntimeError e = true.
Proof.
  unfold ComponentSignalInstance.load.
  destruct (get sig_getUuid _ _) as [e'|cmpSignal] eqn:Hget.
  { intros [= <-]. by eapply get_inl. }
  destruct (node_netsignal node) as [n|].
  - destruct (circuitNets !! n); [|by intros [= <-]].
    by destruct (signal_create_inr circuitNets c cmpSignal (Some n))
      as (s' & -> & _).
  - by destruct (signal_create_inr circuitNets c cmpSignal None)
      as (s' & -> & _).
Qed.

Lemma loadSignals_inl circuitNets nodes c e :
  ComponentInstance.loadSignals circuitNets nodes c = inl e →
  isRuntimeError e = true.
Proof.
  revert c. induction nodes as [|node nodes IH]; intros c; simpl; [done|].
  destruct (ComponentSignalInstance.load circuitNets c node) as [e'|s] eqn:Hl.
  { intros [= <-]. by eapply signal_load_inl. }
  case_bool_decide; [by intros [= <-] | apply IH].
Qed.

Lemma loadSignals_inr circuitNets nodes c c' :
  ComponentInstance.loadSignals circuitNets nodes c = inr c' →
  NoDup (node_comp_signal <$> nodes)
  ∧ (∀ node, node ∈ nodes →
       Instance.mSignals c !! node_comp_signal node = None)
  ∧ c' = Instance.set_mSignals (Instance.mSignals c') c
  ∧ dom (Instance.mSignals c')
    = dom (Instance.mSignals c)
        ∪ list_to_set (C := gset N) (node_comp_signal <$> nodes)
  ∧ ∀ uuid s, Instance.mSignals c' !! uuid = Some s →
      Instance.mSignals c !! uuid = Some s
      ∨ (sig_getUuid (Signal.mComponentSignal s) = uuid
         ∧ Signal.mComponentSignal s
             ∈ cmp_getSignals (Instance.mLibComponent c)).
Proof.
  revert c. induction nodes as [|node nodes IH]; intros c; simpl.
  { intros [= <-]. split; [constructor|].
    split; [intros ? Hin; by apply elem_of_nil in Hin|].
    split; [by destruct c|]. split; [set_solver | auto]. }
  destruct (ComponentSignalInstance.load circuitNets c node) as [e'|s] eqn:Hl;
    [done|].
  apply signal_load_inr in Hl as [Hin Huuid]. rewrite Huuid.
  case_bool_decide as Hc; [done|].
  intros Hrest. apply IH in Hrest as (Hnd & Hfresh & Hframe & Hdom & Hsig).
  simpl in *.
  assert (Hnone : Instance.mSignals c !! node_comp_signal node = None).
  { by apply eq_None_not_Some. }
  split; [|split; [|split; [|split]]].
  - constructor; [|done]. intros Hel.
    apply list_elem_of_fmap in Hel as (node' & Heq & Hel).
    specialize (Hfresh node' Hel). rewrite <- Heq in Hfresh.
    by rewrite lookup_insert_eq in Hfresh.
  - intros node' [-> | Hel]%elem_of_cons; [done|].
    specialize (Hfresh node' Hel).
    destruct (decide (node_comp_signal node = node_comp_signal node'))
      as [Heq|Hne]; [by rewrite <- Heq|].
    by rewrite lookup_insert_ne in Hfresh.
  - rewrite Hframe at 1. done.
  - rewrite Hdom, dom_insert_L. set_solver.
  - intros uuid s' Hs'. destruct (Hsig uuid s' Hs') as [Hold | Hnew]; [|by right].
    destruct (decide (node_comp_signal node = uuid)) as [<-|Hne].
    + rewrite lookup_insert_eq in Hold. injection Hold as <-. by right.
    + rewrite lookup_insert_ne in Hold by done. by left.
Qed.

Lemma instance_init_inr (c : Instance.t) :
  isEmpty (Instance.mName c) = false →
  ∃ c', ComponentInstance.init c = inr c'
        ∧ Instance.mSignals c' = Instance.mSignals c
        ∧ Instance.mLibComponent c' = Instance.mLibComponent c
        ∧ Instance.mIsAddedToCircuit c' = Instance.mIsAddedToCircuit c
        ∧ Instance.mRegisteredSymbols c' = Instance.mRegisteredSymbols c
        ∧ Instance.mRegisteredDevices c' = Instance.mRegisteredDevices c.
Proof.
  intros Hname. unfold ComponentInstance.init, Instance.checkAttributesValidity.
  simpl. rewrite Hname. simpl. eexists. split; [reflexivity|done].
Qed.

Lemma size_list_to_set_le (l : list N) :
  size (list_to_set (C := gset N) l) ≤ length l.
Proof.
  induction l as [|x l IH]; [by rewrite list_to_set_nil, size_empty|].
  rewrite list_to_set_cons, size_union_alt, size_singleton. simpl.
  assert (Hle : size (list_to_set (C := gset N) l ∖ {[x]})
                ≤ size (list_to_set (C := gset N) l))
    by (apply subseteq_size; set_solver).
  lia.
Qed.

Lemma NoDup_size_list_to_set (l : list N) :
  size (list_to_set (C := gset N) l) = length l → NoDup l.
Proof.
  induction l as [|x l IH]; [constructor|].
  intros Hsize. pose proof (size_list_to_set_le l) as Hle.
  rewrite list_to_set_cons, size_union_alt, size_singleton in Hsize.
  simpl in Hsize.
  assert (Hsub : size (list_to_set (C := gset N) l ∖ {[x]})
                 ≤ size (list_to_set (C := gset N) l))
    by (apply subseteq_size; set_solver).
  assert (Heq : size (list_to_set (C := gset N) l ∖ {[x]})
                = size (list_to_set (C := gset N) l)) by lia.
  constructor; [|apply IH; lia].
  intros Hx.
  assert (Hstrict : list_to_set (C := gset N) l ∖ {[x]} ⊂ list_to_set l).
  { split; [set_solver|]. intros Hsup.
    assert (x ∈ list_to_set (C := gset N) l) as Hin by set_solver.
    apply Hsup in Hin. set_solver. }
  apply subset_size in Hstrict. lia.
Qed.

Lemma NoDup_fmap_eq {A} (f : A → N) (l : list A) (x y : A) :
  NoDup (f <$> l) → x ∈ l → y ∈ l → f x = f y → x = y.
Proof.
  induction l as [|z l IH]; [by intros _ ?%elem_of_nil|].
  rewrite fmap_cons, NoDup_cons, !elem_of_cons.
  intros [Hz Hnd] [->|Hx] [->|Hy] Hf; [done| | |by apply IH].
  - destruct Hz. rewrite Hf. apply list_elem_of_fmap. by exists y.
  - destruct Hz. rewrite <- Hf. apply list_elem_of_fmap. by exists x.
Qed.

Lemma load_inl circuit circuitNets library domElement e :
  ComponentInstance.load circuit circuitNets library domElement = inl e →
  ∃ msg, e = RuntimeError msg.
Proof.
  assert (Hrt : ∀ e', isRuntimeError e' = true → ∃ msg, e' = RuntimeError msg).
  { intros [?|msg] ?; [done | by exists msg]. }
  unfold ComponentInstance.load.
  destruct (isEmpty (dom_name domElement)) eqn:Hname.
  { intros [= <-]. eauto. }
  destruct (library !! dom_component domElement) as [lib|];
    [|intros [= <-]; eauto].
  destruct (get symbvar_getUuid _ _) as [e'|symbVar] eqn:Hget.
  { intros [= <-]. apply Hrt. by eapply get_inl. }
  destruct (ComponentInstance.loadSignals _ _ _) as [e'|c1] eqn:Hload.
  { intros [= <-]. apply Hrt. by eapply loadSignals_inl. }
  case_bool_decide as Hcount; simpl; [|intros [= <-]; eauto].
  apply loadSignals_inr in Hload as (_ & _ & Hframe & _).
  destruct (instance_init_inr c1) as (c' & -> & _); [|done].
  rewrite Hframe. done.
Qed.

Lemma load_inr circuit circuitNets library domElement c :
  ComponentInstance.load circuit circuitNets library domElement = inr c →
  library !! dom_component domElement = Some (Instance.mLibComponent c)
  ∧ NoDup (node_comp_signal <$> dom_signal_map domElement)
  ∧ dom (Instance.mSignals c)
    = list_to_set (C := gset N)
        (node_comp_signal <$> dom_signal_map domElement)
  ∧ size (Instance.mSignals c)
    = length (cmp_getSignals (Instance.mLibComponent c))
  ∧ (∀ uuid s, Instance.mSignals c !! uuid = Some s →
       sig_getUuid (Signal.mComponentSignal s) = uuid
       ∧ Signal.mComponentSignal s
           ∈ cmp_getSignals (Instance.mLibComponent c))
  ∧ Instance.mIsAddedToCircuit c = false
  ∧ Instance.mRegisteredSymbols c = ∅
  ∧ Instance.mRegisteredDevices c = [].
Proof.
  unfold ComponentInstance.load.
  destruct (isEmpty (dom_name domElement)) eqn:Hname; [done|].
  destruct (library !! dom_component domElement) as [lib|]; [|done].
  destruct (get symbvar_getUuid _ _) as [e'|symbVar] eqn:Hget; [done|].
  destruct (ComponentInstance.loadSignals _ _ _) as [e'|c1] eqn:Hload;
    [done|].
  case_bool_decide as Hcount; simpl; [|done].
  apply loadSignals_inr in Hload as (Hnd & _ & Hframe & Hdom & Hsig).
  simpl in *.
  destruct (instance_init_inr c1)
    as (c' & -> & Hs & Hl & Ha & Hr & Hd); [by rewrite Hframe|].
  intros [= <-]. rewrite Hs, Hl, Ha, Hr, Hd.
  rewrite Hframe. simpl. rewrite Hframe in Hcount. simpl in Hcount.
  split; [done|]. split; [done|].
  split; [rewrite Hdom, dom_empty_L; set_solver|].
  split; [done|]. split; [|done].
  intros uuid s Hlookup.
  destruct (Hsig uuid s Hlookup) as [Hold|[? ?]]; [|done].
  by rewrite lookup_empty in Hold.
Qed.

(** Claim C9.  The deserializing constructor throws a [RuntimeError] when
    two [signal_map] entries name the same component signal, and when the
    number of entries differs from the number of signals of the library
    component.  When it returns, the instance owns as many signal instances
    as the library component has signals: one for every signal of the
    library component, stored under the uuid of that signal, and none
    besides. *)
Theorem C9_load_signal_map (circuit : Addr)
    (circuitNets : gmap Uuid NetSignal) (library : gmap Uuid Component)
    (domElement : DomElement) :
  let loaded :=
    ComponentInstance.load circuit circuitNets library domElement in
  (¬ NoDup (node_comp_signal <$> dom_signal_map domElement) →
     ∃ msg, loaded = inl (RuntimeError msg))
  ∧ (∀ libComponent,
       library !! dom_component domElement = Some libComponent →
       length (dom_signal_map domElement)
       ≠ length (cmp_getSignals libComponent) →
       ∃ msg, loaded = inl (RuntimeError msg))
  ∧ (∀ c, loaded = inr c →
       let signals := cmp_getSignals (Instance.mLibComponent c) in
       library !! dom_component domElement = Some (Instance.mLibComponent c)
       ∧ size (Instance.mSignals c) = length signals
       ∧ (∀ signal, signal ∈ signals →
            ∃ s, Instance.mSignals c !! sig_getUuid signal = Some s
                 ∧ Signal.mComponentSignal s = signal)
       ∧ (∀ uuid s, Instance.mSignals c !! uuid = Some s →
            Signal.mComponentSignal s ∈ signals
            ∧ sig_getUuid (Signal.mComponentSignal s) = uuid)).
Proof.
  intros loaded.
  assert (Hfail : ¬ (∃ c, loaded = inr c) →
                  ∃ msg, loaded = inl (RuntimeError msg)).
  { destruct loaded as [e|c] eqn:Hl.
    - intros _. apply load_inl in Hl as [msg ->]. by exists msg.
    - intros Hno. destruct Hno. by exists c. }
  split; [|split].
  - intros Hdup. apply Hfail. intros [c Hc].
    by apply load_inr in Hc as (_ & Hnd & _).
  - intros lib Hlib Hlen. apply Hfail. intros [c Hc].
    apply load_inr in Hc as (Hlib' & Hnd & Hdom & Hsize & _).
    rewrite Hlib in Hlib'. injection Hlib' as ->.
    rewrite <- Hsize, <- size_dom, Hdom, size_list_to_set in Hlen by done.
    by rewrite length_fmap in Hlen.
  - intros c Hc signals.
    apply load_inr in Hc as (Hlib & Hnd & Hdom & Hsize & Hsig & _).
    fold signals in Hsize, Hsig.
    set (U := list_to_set (C := gset N) (sig_getUuid <$> signals)).
    assert (Hsub : dom (Instance.mSignals c) ⊆ U).
    { intros uuid [s Hs]%elem_of_dom. destruct (Hsig uuid s Hs) as [<- Hin].
      apply elem_of_list_to_set, list_elem_of_fmap. by exists
        (Signal.mComponentSignal s). }
    assert (HleU : size U ≤ length signals).
    { unfold U. etrans; [apply size_list_to_set_le|]. by rewrite length_fmap. }
    assert (HU : dom (Instance.mSignals c) = U).
    { apply set_subseteq_size_eq; [done|]. rewrite size_dom. lia. }
    assert (HndU : NoDup (sig_getUuid <$> signals)).
    { apply NoDup_size_list_to_set. fold U.
      rewrite <- HU, size_dom, length_fmap. done. }
    split; [done|]. split; [done|]. split.
    + intros signal Hin.
      assert (Hk : sig_getUuid signal ∈ dom (Instance.mSignals c)).
      { rewrite HU. apply elem_of_list_to_set, list_elem_of_fmap.
        by exists signal. }
      apply elem_of_dom in Hk as [s Hs]. exists s. split; [done|].
      destruct (Hsig _ s Hs) as [Huuid Hs_in].
      by apply (NoDup_fmap_eq sig_getUuid signals).
    + intros uuid s Hs. destruct (Hsig uuid s Hs). done.
Qed.

Lemma getSignal_Some k s w :
  Instance.mSignals (cmp w) !! k = Some s → getSignal k w = Returned s w.
Proof. intros Hk. unfold getSignal. by rewrite Hk. Qed.

Lemma getNet_Some n net w :
  nets w !! n = Some net → getNet n w = Returned net w.
Proof. intros Hn. unfold getNet. by rewrite Hn. Qed.

Lemma putSignal_run k s w : putSignal k s w = Returned () (replaceSignal k s w).
Proof. reflexivity. Qed.

Lemma register_run n net signal w :
  nets w !! n = Some net →
  NetSignalOps.registerComponentSignal n signal w
  = if bool_decide (signal ∈ net_registered net)
    then Thrown (LogicError None) w
    else Returned () (replaceNet n (bindSignal signal net) w).
Proof.
  intros Hn. unfold NetSignalOps.registerComponentSignal.
  rewrite bind_unfold, (getNet_Some n net) by done.
  by case_bool_decide.
Qed.

Lemma unregister_run n net signal w :
  nets w !! n = Some net →
  NetSignalOps.unregisterComponentSignal n signal w
  = if bool_decide (signal ∈ net_registered net)
    then Returned () (replaceNet n (unbindSignal signal net) w)
    else Thrown (LogicError None) w.
Proof.
  intros Hn. unfold NetSignalOps.unregisterComponentSignal.
  rewrite bind_unfold, (getNet_Some n net) by done.
  by case_bool_decide.
Qed.

Lemma netSignalName_run w s :
  (∀ n, Signal.mNetSignal s = Some n → is_Some (nets w !! n)) →
  ComponentSignalInstance.netSignalName (Signal.mNetSignal s) w
  = Returned (boundNetName w s) w.
Proof.
  intros Hc. unfold ComponentSignalInstance.netSignalName, boundNetName.
  destruct (Signal.mNetSignal s) as [n|]; [|done].
  destruct (Hc n eq_refl) as [net Hn]. rewrite bind_unfold.
  rewrite (getNet_Some n net) by done. simpl. by rewrite Hn.
Qed.

Lemma updateErcMessages_run k s w :
  Instance.mSignals (cmp w) !! k = Some s →
  (∀ n, Signal.mNetSignal s = Some n → is_Some (nets w !! n)) →
  ComponentSignalInstance.updateErcMessages k w
  = Returned ()
      (replaceSignal k
         (ComponentSignalInstance.updateErcMessages_body
            (cmp w) (boundNetName w s) s) w).
Proof.
  intros Hk Hc. unfold ComponentSignalInstance.updateErcMessages.
  rewrite bind_unfold, (getSignal_Some k s) by done.
  rewrite bind_unfold. simpl.
  rewrite bind_unfold, netSignalName_run by done. done.
Qed.

Lemma replaceSignal_lookup k s w :
  Instance.mSignals (cmp (replaceSignal k s w)) !! k = Some s.
Proof. simpl. apply lookup_insert_eq. Qed.

Lemma replaceSignal_lookup_ne k k' s w :
  k ≠ k' →
  Instance.mSignals (cmp (replaceSignal k s w)) !! k'
  = Instance.mSignals (cmp w) !! k'.
Proof. intros Hne. simpl. by apply lookup_insert_ne. Qed.

Lemma replaceSignal_replaceSignal k s s' w :
  replaceSignal k s (replaceSignal k s' w) = replaceSignal k s w.
Proof.
  unfold replaceSignal, set_cmp, Instance.set_mSignals. simpl.
  by rewrite insert_insert_eq.
Qed.

Lemma replaceSignal_id k s w :
  Instance.mSignals (cmp w) !! k = Some s → replaceSignal k s w = w.
Proof.
  intros Hk. unfold replaceSignal, set_cmp, Instance.set_mSignals.
  rewrite insert_id by done. by destruct w as [? [] ?].
Qed.

Lemma replaceNet_replaceNet n v v' w :
  replaceNet n v (replaceNet n v' w) = replaceNet n v w.
Proof. unfold replaceNet, set_nets. simpl. by rewrite insert_insert_eq. Qed.

Lemma replaceNet_id n net w :
  nets w !! n = Some net → replaceNet n net w = w.
Proof.
  intros Hn. unfold replaceNet, set_nets. rewrite insert_id by done.
  by destruct w.
Qed.

Lemma replaceSignal_replaceNet k s n v w :
  replaceSignal k s (replaceNet n v w) = replaceNet n v (replaceSignal k s w).
Proof. reflexivity. Qed.

Lemma unbind_bind signal net :
  signal ∉ net_registered net → unbindSignal signal (bindSignal signal net) = net.
Proof.
  intros Hn. destruct net as [name reg]. unfold unbindSignal, bindSignal.
  simpl in *. f_equal. apply leibniz_equiv. set_solver.
Qed.

Lemma bind_unbind signal net :
  signal ∈ net_registered net → bindSignal signal (unbindSignal signal net) = net.
Proof.
  intros Hn. destruct net as [name reg]. unfold unbindSignal, bindSignal.
  simpl in *. f_equal. apply leibniz_equiv. intros x.
  rewrite elem_of_union, elem_of_singleton, elem_of_difference,
    elem_of_singleton.
  destruct (decide (x = signal)) as [->|]; naive_solver.
Qed.

Lemma updateErcMessages_body_ext c c' netName s :
  Instance.mName c = Instance.mName c' →
  Instance.mValue c = Instance.mValue c' →
  Instance.mAttributes c = Instance.mAttributes c' →
  ComponentSignalInstance.updateErcMessages_body c netName s
  = ComponentSignalInstance.updateErcMessages_body c' netName s.
Proof.
  intros Hn Hv Ha.
  unfold ComponentSignalInstance.updateErcMessages_body,
    ComponentSignalInstance.msgUnconnected,
    ComponentSignalInstance.msgConflict,
    ComponentSignalInstance.getForcedNetSignalName,
    Instance.getAttributeValue.
  by rewrite Hn, Hv, Ha.
Qed.

Lemma updateErcMessages_body_signals m c netName s :
  ComponentSignalInstance.updateErcMessages_body
    (Instance.set_mSignals m c) netName s
  = ComponentSignalInstance.updateErcMessages_body c netName s.
Proof. by apply updateErcMessages_body_ext. Qed.

Lemma flagged_flagged w w' b b' s :
  Instance.mName (cmp w') = Instance.mName (cmp w) →
  Instance.mValue (cmp w') = Instance.mValue (cmp w) →
  Instance.mAttributes (cmp w') = Instance.mAttributes (cmp w) →
  boundNetName w' s = boundNetName w s →
  flagged w' b (flagged w b' s) = flagged w b s.
Proof.
  intros Hn Hv Ha Hb. unfold flagged.
  assert (Hb' : ∀ s', Signal.mNetSignal s' = Signal.mNetSignal s →
                      boundNetName w' s' = boundNetName w s).
  { intros s' Hs'. unfold boundNetName in *. by rewrite Hs'. }
  rewrite Hb' by done.
  rewrite (updateErcMessages_body_ext (cmp w') (cmp w)) by done.
  reflexivity.
Qed.

Lemma flagged_id w s :
  signalErcUpToDate w →
  (∃ k, Instance.mSignals (cmp w) !! k = Some s) →
  flagged w (Signal.mIsAddedToCircuit s) s = s.
Proof.
  intros Herc [k Hk]. unfold flagged.
  replace (Signal.set_mIsAddedToCircuit (Signal.mIsAddedToCircuit s) s)
    with s by (by destruct s).
  by apply (Herc k).
Qed.

Lemma csi_addToCircuit_run k s w :
  Instance.mSignals (cmp w) !! k = Some s →
  ComponentSignalInstance.addToCircuit k w
  = if Signal.mIsAddedToCircuit s || Signal.isUsed s
    then Thrown (LogicError None) w
    else
      match Signal.mNetSignal s with
      | Some n =>
          match nets w !! n with
          | Some net =>
              if bool_decide (ComponentSignalInstance.self (cmp w) k
                                ∈ net_registered net)
              then Thrown (LogicError None) w
              else Returned ()
                     (replaceSignal k (flagged w true s)
                        (replaceNet n
                           (bindSignal
                              (ComponentSignalInstance.self (cmp w) k) net)
                           w))
          | None => Aborted
          end
      | None => Returned () (replaceSignal k (flagged w true s) w)
      end.
Proof.
  intros Hk. unfold ComponentSignalInstance.addToCircuit.
  rewrite bind_unfold, (getSignal_Some k s) by done.
  rewrite bind_unfold. simpl.
  destruct (Signal.mIsAddedToCircuit s || Signal.isUsed s); [done|].
  rewrite bind_unfold.
  destruct (Signal.mNetSignal s) as [n|] eqn:Hnet.
  - destruct (nets w !! n) as [net|] eqn:Hn.
    + rewrite (register_run n net) by done.
      case_bool_decide; [done|].
      rewrite bind_unfold, (getSignal_Some k s) by done.
      rewrite bind_unfold, putSignal_run.
      erewrite updateErcMessages_run; [|apply replaceSignal_lookup|].
      * rewrite replaceSignal_replaceSignal. f_equal. unfold flagged.
        simpl. rewrite updateErcMessages_body_signals.
        unfold boundNetName. simpl. rewrite Hnet. simpl.
        by rewrite lookup_insert_eq, Hn.
      * simpl. intros n' Hn'. rewrite Hnet in Hn'. injection Hn' as <-.
        rewrite lookup_insert_eq. eauto.
    + unfold NetSignalOps.registerComponentSignal.
      rewrite bind_unfold. unfold getNet. by rewrite Hn.
  - simpl. rewrite bind_unfold, (getSignal_Some k s) by done.
    rewrite bind_unfold, putSignal_run.
    erewrite updateErcMessages_run; [|apply replaceSignal_lookup|].
    + rewrite replaceSignal_replaceSignal. reflexivity.
    + simpl. intros n' Hn'. by rewrite Hnet in Hn'.
Qed.

Lemma csi_removeFromCircuit_run k s w :
  Instance.mSignals (cmp w) !! k = Some s →
  ComponentSignalInstance.removeFromCircuit k w
  = if negb (Signal.mIsAddedToCircuit s) then Thrown (LogicError None) w
    else if Signal.isUsed s
    then Thrown (RuntimeError
                   (ComponentSignalInstance.msgCannotBeRemoved (cmp w))) w
    else
      match Signal.mNetSignal s with
      | Some n =>
          match nets w !! n with
          | Some net =>
              if bool_decide (ComponentSignalInstance.self (cmp w) k
                                ∈ net_registered net)
              then Returned ()
                     (replaceSignal k (flagged w false s)
                        (replaceNet n
                           (unbindSignal
                              (ComponentSignalInstance.self (cmp w) k) net)
                           w))
              else Thrown (LogicError None) w
          | None => Aborted
          end
      | None => Returned () (replaceSignal k (flagged w false s) w)
      end.
Proof.
  intros Hk. unfold ComponentSignalInstance.removeFromCircuit.
  rewrite bind_unfold, (getSignal_Some k s) by done.
  rewrite bind_unfold. simpl.
  destruct (negb (Signal.mIsAddedToCircuit s)); [done|].
  destruct (Signal.isUsed s); [done|].
  rewrite bind_unfold.
  destruct (Signal.mNetSignal s) as [n|] eqn:Hnet.
  - destruct (nets w !! n) as [net|] eqn:Hn.
    + rewrite (unregister_run n net) by done.
      case_bool_decide; [|done].
      rewrite bind_unfold, (getSignal_Some k s) by done.
      rewrite bind_unfold, putSignal_run.
      erewrite updateErcMessages_run; [|apply replaceSignal_lookup|].
      * rewrite replaceSignal_replaceSignal. f_equal. unfold flagged.
        simpl. rewrite updateErcMessages_body_signals.
        unfold boundNetName. simpl. rewrite Hnet. simpl.
        by rewrite lookup_insert_eq, Hn.
      * simpl. intros n' Hn'. rewrite Hnet in Hn'. injection Hn' as <-.
        rewrite lookup_insert_eq. eauto.
    + unfold NetSignalOps.unregisterComponentSignal.
      rewrite bind_unfold. unfold getNet. by rewrite Hn.
  - simpl. rewrite bind_unfold, (getSignal_Some k s) by done.
    rewrite bind_unfold, putSignal_run.
    erewrite updateErcMessages_run; [|apply replaceSignal_lookup|].
    + rewrite replaceSignal_replaceSignal. reflexivity.
    + simpl. intros n' Hn'. by rewrite Hnet in Hn'.
Qed.

Lemma grown_refl w : grown w w.
Proof.
  split; [by destruct w as [? [] ?]|]. split; [done|].
  intros n net Hn. by exists net.
Qed.

Lemma grown_trans w1 w2 w3 : grown w1 w2 → grown w2 w3 → grown w1 w3.
Proof.
  intros (Hc1 & He1 & Hn1) (Hc2 & He2 & Hn2).
  split; [|split].
  - rewrite Hc2, Hc1. reflexivity.
  - congruence.
  - intros n net Hn. destruct (Hn1 n net Hn) as (net2 & Hn2' & Hname & Hsub).
    destruct (Hn2 n net2 Hn2') as (net3 & Hn3 & Hname' & Hsub').
    exists net3. split; [done|]. split; [congruence|]. set_solver.
Qed.

Lemma grown_boundNetName w w' s :
  grown w w' →
  (∀ n, Signal.mNetSignal s = Some n → is_Some (nets w !! n)) →
  boundNetName w' s = boundNetName w s.
Proof.
  intros (_ & _ & Hn) Hc. unfold boundNetName.
  destruct (Signal.mNetSignal s) as [n|]; [|done]. simpl.
  destruct (Hc n eq_refl) as [net Hnet].
  destruct (Hn n net Hnet) as (net' & -> & Hname & _).
  rewrite Hnet. simpl. by rewrite Hname.
Qed.

Lemma grown_body w w' netName s :
  grown w w' →
  ComponentSignalInstance.updateErcMessages_body (cmp w') netName s
  = ComponentSignalInstance.updateErcMessages_body (cmp w) netName s.
Proof.
  intros (Hc & _). rewrite Hc. apply updateErcMessages_body_signals.
Qed.

Lemma grown_flagged w w' b s :
  grown w w' →
  (∀ n, Signal.mNetSignal s = Some n → is_Some (nets w !! n)) →
  flagged w' b s = flagged w b s.
Proof.
  intros Hg Hc. unfold flagged.
  rewrite (grown_body w w') by done.
  f_equal. apply grown_boundNetName; [done|]. intros n Hn. by apply Hc.
Qed.

Lemma csi_addToCircuit_cases k s w :
  netsClosed w →
  Instance.mSignals (cmp w) !! k = Some s →
  (ComponentSignalInstance.addToCircuit k w = Thrown (LogicError None) w)
  ∨ (ComponentSignalInstance.addToCircuit k w
     = Returned () (signalAdded k s w)
     ∧ Signal.mIsAddedToCircuit s = false
     ∧ Signal.isUsed s = false
     ∧ ∀ n net, Signal.mNetSignal s = Some n → nets w !! n = Some net →
         ComponentSignalInstance.self (cmp w) k ∉ net_registered net).
Proof.
  intros Hclosed Hk. rewrite (csi_addToCircuit_run k s) by done.
  unfold signalAdded.
  destruct (Signal.mIsAddedToCircuit s) eqn:Ha; [by left|].
  destruct (Signal.isUsed s) eqn:Hu; [by left|]. simpl.
  destruct (Signal.mNetSignal s) as [n|] eqn:Hnet.
  - destruct (Hclosed k s n Hk Hnet) as [net Hn]. rewrite Hn.
    case_bool_decide as Hin; [by left|]. right.
    split; [done|]. split; [done|]. split; [done|].
    intros n' net' [= <-] Hn'. rewrite Hn in Hn'. by injection Hn' as <-.
  - right. split; [done|]. split; [done|]. split; [done|]. done.
Qed.

Lemma signalAdded_grown k s w :
  Instance.mSignals (cmp w) !! k = Some s → grown w (signalAdded k s w).
Proof.
  intros Hk. unfold signalAdded.
  destruct (Signal.mNetSignal s) as [n|];
    [destruct (nets w !! n) as [net|] eqn:Hn|].
  - split; [reflexivity|]. split; [reflexivity|].
    intros n' net' Hn'. simpl.
    destruct (decide (n = n')) as [<-|Hne].
    + rewrite lookup_insert_eq. rewrite Hn in Hn'. injection Hn' as <-.
      eexists. split; [done|]. split; [done|]. simpl. set_solver.
    + rewrite lookup_insert_ne by done. exists net'. done.
  - split; [reflexivity|]. split; [reflexivity|].
    intros n' net' Hn'. by exists net'.
  - split; [reflexivity|]. split; [reflexivity|].
    intros n' net' Hn'. by exists net'.
Qed.

Lemma flagged_fields w b s :
  Signal.mComponentSignal (flagged w b s) = Signal.mComponentSignal s
  ∧ Signal.mIsAddedToCircuit (flagged w b s) = b
  ∧ Signal.mNetSignal (flagged w b s) = Signal.mNetSignal s
  ∧ Signal.mRegisteredSymbolPins (flagged w b s)
    = Signal.mRegisteredSymbolPins s
  ∧ Signal.mRegisteredFootprintPads (flagged w b s)
    = Signal.mRegisteredFootprintPads s
  ∧ Signal.nameChangedConnections (flagged w b s)
    = Signal.nameChangedConnections s
  ∧ Signal.isUsed (flagged w b s) = Signal.isUsed s.
Proof. done. Qed.

Lemma signalAdded_closed k s w :
  Instance.mSignals (cmp w) !! k = Some s →
  netsClosed w → netsClosed (signalAdded k s w).
Proof.
  intros Hk Hclosed k' s' n Hk' Hn.
  pose proof (signalAdded_grown k s w Hk) as (_ & _ & Hnets).
  assert (Hold : ∃ s0, Instance.mSignals (cmp w) !! k' = Some s0
                       ∧ Signal.mNetSignal s0 = Some n).
  { unfold signalAdded in Hk'.
    destruct (decide (k = k')) as [<-|Hne].
    - rewrite replaceSignal_lookup in Hk'. injection Hk' as <-.
      exists s. done.
    - rewrite replaceSignal_lookup_ne in Hk' by done. exists s'.
      split; [|done]. revert Hk'.
      by destruct (Signal.mNetSignal s) as [m|];
        [destruct (nets w !! m)|]. }
  destruct Hold as (s0 & Hk0 & Hn0).
  destruct (Hclosed k' s0 n Hk0 Hn0) as [net Hnet].
  destruct (Hnets n net Hnet) as (net' & Hnet' & _). eauto.
Qed.

Lemma signalAdded_lookup_ne k k' s w :
  k ≠ k' →
  Instance.mSignals (cmp (signalAdded k s w)) !! k'
  = Instance.mSignals (cmp w) !! k'.
Proof.
  intros Hne. unfold signalAdded.
  rewrite replaceSignal_lookup_ne by done.
  by destruct (Signal.mNetSignal s) as [m|]; [destruct (nets w !! m)|].
Qed.

Lemma signalAdded_lookup k s w :
  Instance.mSignals (cmp (signalAdded k s w)) !! k
  = Some (flagged w true s).
Proof. apply replaceSignal_lookup. Qed.

Lemma grown_upToDate w w' :
  grown w w' → netsClosed w → signalErcUpToDate w →
  (∀ k s', Instance.mSignals (cmp w') !! k = Some s' →
           Instance.mSignals (cmp w) !! k = Some s'
           ∨ ∃ s b, Instance.mSignals (cmp w) !! k = Some s
                    ∧ s' = flagged w b s) →
  signalErcUpToDate w'.
Proof.
  intros Hg Hclosed Herc Hsig k s' Hk.
  rewrite (grown_body w w') by done.
  destruct (Hsig k s' Hk) as [Hold | (s & b & Hold & ->)].
  - rewrite (grown_boundNetName w w') by eauto. by apply (Herc k).
  - assert (Hb : boundNetName w' (flagged w b s) = boundNetName w s).
    { transitivity (boundNetName w' s); [done|].
      apply grown_boundNetName; eauto. }
    rewrite Hb. reflexivity.
Qed.

Lemma signalAdded_upToDate k s w :
  Instance.mSignals (cmp w) !! k = Some s →
  netsClosed w → signalErcUpToDate w →
  signalErcUpToDate (signalAdded k s w).
Proof.
  intros Hk Hclosed Herc.
  apply (grown_upToDate w); [by apply signalAdded_grown|done|done|].
  intros k' s' Hk'. destruct (decide (k = k')) as [<-|Hne].
  - rewrite signalAdded_lookup in Hk'. injection Hk' as <-.
    right. by exists s, true.
  - rewrite signalAdded_lookup_ne in Hk' by done. by left.
Qed.

(** Undoing the registration of one signal instance. *)
Lemma csi_removeFromCircuit_signalAdded k s w :
  netsClosed w → signalErcUpToDate w →
  Instance.mSignals (cmp w) !! k = Some s →
  Signal.mIsAddedToCircuit s = false →
  Signal.isUsed s = false →
  (∀ n net, Signal.mNetSignal s = Some n → nets w !! n = Some net →
     ComponentSignalInstance.self (cmp w) k ∉ net_registered net) →
  ComponentSignalInstance.removeFromCircuit k (signalAdded k s w)
  = Returned () w.
Proof.
  intros Hclosed Herc Hk Hadded Hused Hfresh.
  pose proof (signalAdded_grown k s w Hk) as Hg.
  rewrite (csi_removeFromCircuit_run k (flagged w true s))
    by apply signalAdded_lookup.
  pose proof (flagged_fields w true s) as (_ & Ha1 & Hn1 & _ & _ & _ & Hu1).
  rewrite Ha1, Hu1, Hn1, Hused. cbn [negb].
  assert (Hback : flagged (signalAdded k s w) false (flagged w true s) = s).
  { rewrite (grown_flagged w) by eauto.
    rewrite <- (flagged_id w s Herc) at 2 by eauto.
    rewrite Hadded. reflexivity. }
  rewrite Hback.
  destruct (Signal.mNetSignal s) as [n|] eqn:Hnet.
  - destruct (Hclosed k s n Hk Hnet) as [net Hn].
    set (self := ComponentSignalInstance.self (cmp w) k).
    assert (Hw1 : signalAdded k s w
                  = replaceSignal k (flagged w true s)
                      (replaceNet n (bindSignal self net) w)).
    { unfold signalAdded. by rewrite Hnet, Hn. }
    assert (Hn1' : nets (signalAdded k s w) !! n
                   = Some (bindSignal self net)).
    { rewrite Hw1. simpl. apply lookup_insert_eq. }
    assert (Hself : ComponentSignalInstance.self (cmp (signalAdded k s w)) k
                    = self).
    { rewrite Hw1. reflexivity. }
    rewrite Hn1', Hself.
    rewrite bool_decide_eq_true_2 by (simpl; set_solver).
    rewrite unbind_bind by (by eapply Hfresh).
    f_equal. rewrite Hw1.
    rewrite (replaceSignal_replaceNet k (flagged w true s)).
    rewrite replaceNet_replaceNet, replaceSignal_replaceNet.
    rewrite replaceSignal_replaceSignal, replaceSignal_id by done.
    by apply replaceNet_id.
  - f_equal. unfold signalAdded. rewrite Hnet.
    rewrite replaceSignal_replaceSignal. by apply replaceSignal_id.
Qed.

Lemma addToCircuit_loop_spec (signals : list Uuid) :
  ∀ (sgl : ScopeGuardList) (w0 w : World),
    NoDup signals →
    (∀ k, k ∈ signals → is_Some (Instance.mSignals (cmp w) !! k)) →
    netsClosed w → signalErcUpToDate w →
    sgl_run sgl w = Some w0 →
    match ComponentInstance.addToCircuit_loop signals sgl w with
    | Returned _ w' =>
        grown w w' ∧ netsClosed w' ∧ signalErcUpToDate w'
        ∧ (∀ k, k ∈ signals →
             ∃ s, Instance.mSignals (cmp w) !! k = Some s
                  ∧ Instance.mSignals (cmp w') !! k = Some (flagged w true s)
                  ∧ ∀ n, Signal.mNetSignal s = Some n →
                      ∃ net', nets w' !! n = Some net'
                              ∧ ComponentSignalInstance.self (cmp w) k
                                  ∈ net_registered net')
        ∧ (∀ k, k ∉ signals →
             Instance.mSignals (cmp w') !! k
             = Instance.mSignals (cmp w) !! k)
    | Thrown e w' => w' = w0
    | Aborted => False
    end.
Proof.
  induction signals as [|k rest IH]; intros sgl w0 w Hnd Hkeys Hclosed Herc Hsgl.
  { simpl. split; [apply grown_refl|]. split; [done|]. split; [done|].
    split; [|done]. by intros k ?%elem_of_nil. }
  apply NoDup_cons in Hnd as [Hk_rest Hnd].
  destruct (Hkeys k) as [s Hk]; [by left|].
  cbn [ComponentInstance.addToCircuit_loop]. rewrite bind_unfold.
  unfold guarded at 1.
  destruct (csi_addToCircuit_cases k s w Hclosed Hk)
    as [-> | (-> & Hadded & Hused & Hfresh)].
  { by rewrite Hsgl. }
  set (w1 := signalAdded k s w).
  pose proof (signalAdded_grown k s w Hk) as Hg1. fold w1 in Hg1.
  specialize (IH (sgl_add (ComponentSignalInstance.removeFromCircuit k) sgl)
                w0 w1 Hnd).
  assert (Hkeys1 : ∀ k', k' ∈ rest →
                         is_Some (Instance.mSignals (cmp w1) !! k')).
  { intros k' Hk'. unfold w1. rewrite signalAdded_lookup_ne.
    - apply Hkeys. by right.
    - by intros ->. }
  assert (Hsgl1 : sgl_run
                    (sgl_add (ComponentSignalInstance.removeFromCircuit k) sgl)
                    w1 = Some w0).
  { cbn [sgl_add sgl_run]. unfold w1.
    by rewrite csi_removeFromCircuit_signalAdded. }
  specialize (IH Hkeys1 (signalAdded_closed k s w Hk Hclosed)
                (signalAdded_upToDate k s w Hk Hclosed Herc) Hsgl1).
  destruct (ComponentInstance.addToCircuit_loop rest _ w1)
    as [[] w'|e w'|]; [|done|done].
  destruct IH as (Hg & Hclosed' & Herc' & Hin & Hout).
  split; [by apply (grown_trans w w1)|]. split; [done|]. split; [done|].
  split.
  - intros k' [->|Hk']%elem_of_cons.
    + exists s. split; [done|]. split.
      * rewrite Hout by done. apply signalAdded_lookup.
      * intros n Hn. destruct (Hclosed k s n Hk Hn) as [net Hnet].
        destruct Hg as (_ & _ & Hnets).
        destruct (Hnets n (bindSignal (ComponentSignalInstance.self (cmp w) k)
                             net)) as (net' & Hnet' & _ & Hsub).
        { unfold w1, signalAdded. rewrite Hn, Hnet. simpl.
          apply lookup_insert_eq. }
        exists net'. split; [done|]. apply Hsub. simpl. set_solver.
    + destruct (Hin k' Hk') as (s' & Hs' & Hs'' & Hreg).
      assert (Hne : k ≠ k') by (by intros ->).
      unfold w1 in Hs'. rewrite signalAdded_lookup_ne in Hs' by done.
      exists s'. split; [done|].
      assert (Hc' : ∀ n, Signal.mNetSignal s' = Some n →
                         is_Some (nets w !! n)) by eauto.
      split.
      * rewrite Hs''. f_equal. by apply grown_flagged.
      * intros n Hn. destruct (Hreg n Hn) as (net' & Hnet' & Hself).
        exists net'. split; [done|].
        destruct Hg1 as (Hc1 & _). by rewrite Hc1 in Hself.
  - intros k' Hk'. apply not_elem_of_cons in Hk' as [Hne Hk'].
    rewrite Hout by done. unfold w1. by apply signalAdded_lookup_ne.
Qed.

Lemma signalKeys_spec (c : Instance.t) :
  NoDup (ComponentInstance.signalKeys c)
  ∧ ∀ k, k ∈ ComponentInstance.signalKeys c
         ↔ is_Some (Instance.mSignals c !! k).
Proof.
  unfold ComponentInstance.signalKeys. split.
  - apply NoDup_fst_map_to_list.
  - intros k. rewrite list_elem_of_fmap. split.
    + intros ([k' s] & -> & Hin). apply elem_of_map_to_list in Hin. eauto.
    + intros [s Hs]. exists (k, s). split; [done|].
      by apply elem_of_map_to_list.
Qed.

Lemma instance_updateErcMessages_body_idem (c : Instance.t) :
  ComponentInstance.updateErcMessages_body
    (ComponentInstance.updateErcMessages_body c)
  = ComponentInstance.updateErcMessages_body c.
Proof. reflexivity. Qed.

(** Claim C1.  [ComponentInstance::addToCircuit] is all or nothing.  In a
    world in which no signal instance holds a dangling net signal pointer and
    the ERC messages of the signal instances are up to date, the call never
    aborts.  When it throws (the precondition fails, or [addToCircuit] of the
    k-th signal instance throws, for instance because its net signal refuses
    the registration), the scope guards have unregistered the signal
    instances registered in the steps before, and the world is the one
    before the call: [mIsAddedToCircuit] is unchanged and no net signal has
    kept a binding.  When it returns, [mIsAddedToCircuit] is [true], every
    signal instance is added to the circuit and registered at the net signal
    it points to, and the ERC messages of the signal instances and of the
    component instance are recomputed. *)
Theorem C1_addToCircuit_all_or_nothing (w : World) :
  netsClosed w → signalErcUpToDate w →
  match ComponentInstance.addToCircuit w with
  | Returned _ w' =>
      Instance.mIsAddedToCircuit (cmp w') = true
      ∧ (∀ k s, Instance.mSignals (cmp w) !! k = Some s →
           ∃ s', Instance.mSignals (cmp w') !! k = Some s'
                 ∧ Signal.mIsAddedToCircuit s' = true
                 ∧ Signal.mNetSignal s' = Signal.mNetSignal s
                 ∧ ∀ n, Signal.mNetSignal s = Some n →
                     ∃ net', nets w' !! n = Some net'
                             ∧ ComponentSignalInstance.self (cmp w) k
                                 ∈ net_registered net')
      ∧ signalErcUpToDate w'
      ∧ ComponentInstance.updateErcMessages_body (cmp w') = cmp w'
      ∧ erc_visible (Instance.mErcMsgUnplacedRequiredSymbols (cmp w'))
        = bool_decide
            (0 < Instance.getUnplacedRequiredSymbolsCount (cmp w'))%Z
      ∧ erc_visible (Instance.mErcMsgUnplacedOptionalSymbols (cmp w'))
        = bool_decide
            (0 < Instance.getUnplacedOptionalSymbolsCount (cmp w'))%Z
  | Thrown e w' => w' = w
  | Aborted => False
  end.
Proof.
  intros Hclosed Herc. unfold ComponentInstance.addToCircuit.
  rewrite bind_unfold. cbn [getCmp].
  destruct (Instance.mIsAddedToCircuit (cmp w) || Instance.isUsed (cmp w));
    [done|].
  rewrite bind_unfold.
  destruct (signalKeys_spec (cmp w)) as [Hnd Hkeys].
  pose proof (addToCircuit_loop_spec (ComponentInstance.signalKeys (cmp w))
                [] w w Hnd (λ k, proj1 (Hkeys k)) Hclosed Herc eq_refl)
    as Hloop.
  destruct (ComponentInstance.addToCircuit_loop _ [] w)
    as [[] w1|e w1|]; [|done|done].
  destruct Hloop as (Hg & Hclosed1 & Herc1 & Hin & _).
  cbn -[ComponentInstance.updateErcMessages_body].
  split; [done|]. split; [|split; [|done]].
  - intros k s Hk.
    destruct (Hin k) as (s0 & Hs0 & Hs1 & Hreg); [apply Hkeys; eauto|].
    rewrite Hk in Hs0. injection Hs0 as <-.
    exists (flagged w true s). done.
  - intros k s Hk. cbn -[ComponentSignalInstance.updateErcMessages_body] in *.
    specialize (Herc1 k s Hk).
    rewrite <- Herc1 at 3.
    by apply updateErcMessages_body_ext.
Qed.

Lemma grown_steady w w' : grown w w' → steady w w'.
Proof.
  intros (Hc & He & Hn). split; [done|]. split; [done|].
  intros n net Hnet. destruct (Hn n net Hnet) as (net' & ? & ? & _). eauto.
Qed.

Lemma steady_refl w : steady w w.
Proof. apply grown_steady, grown_refl. Qed.

Lemma steady_trans w1 w2 w3 : steady w1 w2 → steady w2 w3 → steady w1 w3.
Proof.
  intros (Hc1 & He1 & Hn1) (Hc2 & He2 & Hn2).
  split; [|split].
  - rewrite Hc2, Hc1. reflexivity.
  - congruence.
  - intros n net Hn. destruct (Hn1 n net Hn) as (net2 & Hn2' & Hname).
    destruct (Hn2 n net2 Hn2') as (net3 & Hn3 & Hname').
    exists net3. split; [done|]. congruence.
Qed.

Lemma steady_boundNetName w w' s :
  steady w w' →
  (∀ n, Signal.mNetSignal s = Some n → is_Some (nets w !! n)) →
  boundNetName w' s = boundNetName w s.
Proof.
  intros (_ & _ & Hn) Hc. unfold boundNetName.
  destruct (Signal.mNetSignal s) as [n|]; [|done]. simpl.
  destruct (Hc n eq_refl) as [net Hnet].
  destruct (Hn n net Hnet) as (net' & -> & Hname).
  rewrite Hnet. simpl. by rewrite Hname.
Qed.

Lemma steady_body w w' netName s :
  steady w w' →
  ComponentSignalInstance.updateErcMessages_body (cmp w') netName s
  = ComponentSignalInstance.updateErcMessages_body (cmp w) netName s.
Proof.
  intros (Hc & _). rewrite Hc. apply updateErcMessages_body_signals.
Qed.

Lemma steady_flagged w w' b s :
  steady w w' →
  (∀ n, Signal.mNetSignal s = Some n → is_Some (nets w !! n)) →
  flagged w' b s = flagged w b s.
Proof.
  intros Hg Hc. unfold flagged.
  rewrite (steady_body w w') by done.
  f_equal. apply steady_boundNetName; [done|]. intros n Hn. by apply Hc.
Qed.

Lemma steady_upToDate w w' :
  steady w w' → netsClosed w → signalErcUpToDate w →
  (∀ k s', Instance.mSignals (cmp w') !! k = Some s' →
           Instance.mSignals (cmp w) !! k = Some s'
           ∨ ∃ s b, Instance.mSignals (cmp w) !! k = Some s
                    ∧ s' = flagged w b s) →
  signalErcUpToDate w'.
Proof.
  intros Hg Hclosed Herc Hsig k s' Hk.
  rewrite (steady_body w w') by done.
  destruct (Hsig k s' Hk) as [Hold | (s & b & Hold & ->)].
  - rewrite (steady_boundNetName w w') by eauto. by apply (Herc k).
  - assert (Hb : boundNetName w' (flagged w b s) = boundNetName w s).
    { transitivity (boundNetName w' s); [done|].
      apply steady_boundNetName; eauto. }
    rewrite Hb. reflexivity.
Qed.

Lemma steady_closed w w' :
  steady w w' → netsClosed w →
  (∀ k s', Instance.mSignals (cmp w') !! k = Some s' →
           ∃ s, Instance.mSignals (cmp w) !! k = Some s
                ∧ Signal.mNetSignal s' = Signal.mNetSignal s) →
  netsClosed w'.
Proof.
  intros (_ & _ & Hnets) Hclosed Hsig k s' n Hk Hn.
  destruct (Hsig k s' Hk) as (s & Hs & Heq). rewrite Heq in Hn.
  destruct (Hclosed k s n Hs Hn) as [net Hnet].
  destruct (Hnets n net Hnet) as (net' & ? & _). eauto.
Qed.

Lemma signalRemoved_steady k s w :
  steady w (signalRemoved k s w).
Proof.
  unfold signalRemoved.
  destruct (Signal.mNetSignal s) as [n|];
    [destruct (nets w !! n) as [net|] eqn:Hn|].
  - split; [reflexivity|]. split; [reflexivity|].
    intros n' net' Hn'. simpl.
    destruct (decide (n = n')) as [<-|Hne].
    + rewrite lookup_insert_eq. rewrite Hn in Hn'. injection Hn' as <-.
      eexists. split; done.
    + rewrite lookup_insert_ne by done. exists net'. done.
  - split; [reflexivity|]. split; [reflexivity|].
    intros n' net' Hn'. by exists net'.
  - split; [reflexivity|]. split; [reflexivity|].
    intros n' net' Hn'. by exists net'.
Qed.

Lemma signalRemoved_lookup_ne k k' s w :
  k ≠ k' →
  Instance.mSignals (cmp (signalRemoved k s w)) !! k'
  = Instance.mSignals (cmp w) !! k'.
Proof.
  intros Hne. unfold signalRemoved.
  rewrite replaceSignal_lookup_ne by done.
  by destruct (Signal.mNetSignal s) as [m|]; [destruct (nets w !! m)|].
Qed.

Lemma signalRemoved_lookup k s w :
  Instance.mSignals (cmp (signalRemoved k s w)) !! k
  = Some (flagged w false s).
Proof. apply replaceSignal_lookup. Qed.

Lemma signalRemoved_closed k s w :
  Instance.mSignals (cmp w) !! k = Some s →
  netsClosed w → netsClosed (signalRemoved k s w).
Proof.
  intros Hk Hclosed.
  apply (steady_closed w); [apply signalRemoved_steady|done|].
  intros k' s' Hk'. destruct (decide (k = k')) as [<-|Hne].
  - rewrite signalRemoved_lookup in Hk'. injection Hk' as <-. by exists s.
  - rewrite signalRemoved_lookup_ne in Hk' by done. by exists s'.
Qed.

Lemma signalRemoved_upToDate k s w :
  Instance.mSignals (cmp w) !! k = Some s →
  netsClosed w → signalErcUpToDate w →
  signalErcUpToDate (signalRemoved k s w).
Proof.
  intros Hk Hclosed Herc.
  apply (steady_upToDate w); [by apply signalRemoved_steady|done|done|].
  intros k' s' Hk'. destruct (decide (k = k')) as [<-|Hne].
  - rewrite signalRemoved_lookup in Hk'. injection Hk' as <-.
    right. by exists s, false.
  - rewrite signalRemoved_lookup_ne in Hk' by done. by left.
Qed.

Lemma csi_removeFromCircuit_cases k s w :
  netsClosed w →
  Instance.mSignals (cmp w) !! k = Some s →
  (∃ e, ComponentSignalInstance.removeFromCircuit k w = Thrown e w)
  ∨ (ComponentSignalInstance.removeFromCircuit k w
     = Returned () (signalRemoved k s w)
     ∧ Signal.mIsAddedToCircuit s = true
     ∧ Signal.isUsed s = false
     ∧ ∀ n net, Signal.mNetSignal s = Some n → nets w !! n = Some net →
         ComponentSignalInstance.self (cmp w) k ∈ net_registered net).
Proof.
  intros Hclosed Hk. rewrite (csi_removeFromCircuit_run k s) by done.
  unfold signalRemoved.
  destruct (Signal.mIsAddedToCircuit s) eqn:Ha; [|left; by eexists].
  destruct (Signal.isUsed s) eqn:Hu; [left; by eexists|]. simpl.
  destruct (Signal.mNetSignal s) as [n|] eqn:Hnet.
  - destruct (Hclosed k s n Hk Hnet) as [net Hn]. rewrite Hn.
    case_bool_decide as Hin; [|left; by eexists]. right.
    split; [done|]. split; [done|]. split; [done|].
    intros n' net' [= <-] Hn'. rewrite Hn in Hn'. by injection Hn' as <-.
  - right. split; [done|]. split; [done|]. split; [done|]. done.
Qed.

(** Undoing the removal of one signal instance. *)
Lemma csi_addToCircuit_signalRemoved k s w :
  netsClosed w → signalErcUpToDate w →
  Instance.mSignals (cmp w) !! k = Some s →
  Signal.mIsAddedToCircuit s = true →
  Signal.isUsed s = false →
  (∀ n net, Signal.mNetSignal s = Some n → nets w !! n = Some net →
     ComponentSignalInstance.self (cmp w) k ∈ net_registered net) →
  ComponentSignalInstance.addToCircuit k (signalRemoved k s w)
  = Returned () w.
Proof.
  intros Hclosed Herc Hk Hadded Hused Hbound.
  pose proof (signalRemoved_steady k s w) as Hg.
  rewrite (csi_addToCircuit_run k (flagged w false s))
    by apply signalRemoved_lookup.
  pose proof (flagged_fields w false s) as (_ & Ha1 & Hn1 & _ & _ & _ & Hu1).
  rewrite Ha1, Hu1, Hn1, Hused. cbn [orb].
  assert (Hback : flagged (signalRemoved k s w) true (flagged w false s) = s).
  { rewrite (steady_flagged w) by eauto.
    rewrite <- (flagged_id w s Herc) at 2 by eauto.
    rewrite Hadded. reflexivity. }
  rewrite Hback.
  destruct (Signal.mNetSignal s) as [n|] eqn:Hnet.
  - destruct (Hclosed k s n Hk Hnet) as [net Hn].
    set (self := ComponentSignalInstance.self (cmp w) k).
    assert (Hw1 : signalRemoved k s w
                  = replaceSignal k (flagged w false s)
                      (replaceNet n (unbindSignal self net) w)).
    { unfold signalRemoved. by rewrite Hnet, Hn. }
    assert (Hn1' : nets (signalRemoved k s w) !! n
                   = Some (unbindSignal self net)).
    { rewrite Hw1. simpl. apply lookup_insert_eq. }
    assert (Hself : ComponentSignalInstance.self (cmp (signalRemoved k s w)) k
                    = self).
    { rewrite Hw1. reflexivity. }
    rewrite Hn1', Hself.
    rewrite bool_decide_eq_false_2 by (simpl; set_solver).
    rewrite bind_unbind by (by eapply Hbound).
    f_equal. rewrite Hw1.
    rewrite (replaceSignal_replaceNet k (flagged w false s)).
    rewrite replaceNet_replaceNet, replaceSignal_replaceNet.
    rewrite replaceSignal_replaceSignal, replaceSignal_id by done.
    by apply replaceNet_id.
  - f_equal. unfold signalRemoved. rewrite Hnet.
    rewrite replaceSignal_replaceSignal. by apply replaceSignal_id.
Qed.

Lemma removeFromCircuit_loop_spec (signals : list Uuid) :
  ∀ (sgl : ScopeGuardList) (w0 w : World),
    NoDup signals →
    (∀ k, k ∈ signals → is_Some (Instance.mSignals (cmp w) !! k)) →
    netsClosed w → signalErcUpToDate w →
    sgl_run sgl w = Some w0 →
    match ComponentInstance.removeFromCircuit_loop signals sgl w with
    | Returned _ w' =>
        steady w w' ∧ netsClosed w' ∧ signalErcUpToDate w'
        ∧ (∀ k, k ∈ signals →
             ∃ s, Instance.mSignals (cmp w) !! k = Some s
                  ∧ Instance.mSignals (cmp w') !! k
                    = Some (flagged w false s))
        ∧ (∀ k, k ∉ signals →
             Instance.mSignals (cmp w') !! k
             = Instance.mSignals (cmp w) !! k)
    | Thrown e w' => w' = w0
    | Aborted => False
    end.
Proof.
  induction signals as [|k rest IH]; intros sgl w0 w Hnd Hkeys Hclosed Herc Hsgl.
  { simpl. split; [apply steady_refl|]. split; [done|]. split; [done|].
    split; [|done]. by intros k ?%elem_of_nil. }
  apply NoDup_cons in Hnd as [Hk_rest Hnd].
  destruct (Hkeys k) as [s Hk]; [by left|].
  cbn [ComponentInstance.removeFromCircuit_loop]. rewrite bind_unfold.
  unfold guarded at 1.
  destruct (csi_removeFromCircuit_cases k s w Hclosed Hk)
    as [[e ->] | (-> & Hadded & Hused & Hbound)].
  { by rewrite Hsgl. }
  set (w1 := signalRemoved k s w).
  pose proof (signalRemoved_steady k s w) as Hg1. fold w1 in Hg1.
  specialize (IH (sgl_add (ComponentSignalInstance.addToCircuit k) sgl)
                w0 w1 Hnd).
  assert (Hkeys1 : ∀ k', k' ∈ rest →
                         is_Some (Instance.mSignals (cmp w1) !! k')).
  { intros k' Hk'. unfold w1. rewrite signalRemoved_lookup_ne.
    - apply Hkeys. by right.
    - by intros ->. }
  assert (Hsgl1 : sgl_run
                    (sgl_add (ComponentSignalInstance.addToCircuit k) sgl)
                    w1 = Some w0).
  { cbn [sgl_add sgl_run]. unfold w1.
    by rewrite csi_addToCircuit_signalRemoved. }
  specialize (IH Hkeys1 (signalRemoved_closed k s w Hk Hclosed)
                (signalRemoved_upToDate k s w Hk Hclosed Herc) Hsgl1).
  destruct (ComponentInstance.removeFromCircuit_loop rest _ w1)
    as [[] w'|e w'|]; [|done|done].
  destruct IH as (Hg & Hclosed' & Herc' & Hin & Hout).
  split; [by apply (steady_trans w w1)|]. split; [done|]. split; [done|].
  split.
  - intros k' [->|Hk']%elem_of_cons.
    + exists s. split; [done|].
      rewrite Hout by done. apply signalRemoved_lookup.
    + destruct (Hin k' Hk') as (s' & Hs' & Hs'').
      assert (Hne : k ≠ k') by (by intros ->).
      unfold w1 in Hs'. rewrite signalRemoved_lookup_ne in Hs' by done.
      exists s'. split; [done|].
      rewrite Hs''. f_equal. apply steady_flagged; eauto.
  - intros k' Hk'. apply not_elem_of_cons in Hk' as [Hne Hk'].
    rewrite Hout by done. unfold w1. by apply signalRemoved_lookup_ne.
Qed.

Lemma connect_run k s n w :
  Instance.mSignals (cmp w) !! k = Some s →
  ComponentSignalInstance.connectNameChanged k n w
  = Returned ()
      (replaceSignal k
         (Signal.set_nameChangedConnections
            (Signal.nameChangedConnections s ++ [n]) s) w).
Proof.
  intros Hk. unfold ComponentSignalInstance.connectNameChanged.
  by rewrite bind_unfold, (getSignal_Some k s).
Qed.

Lemma disconnect_run k s n w :
  Instance.mSignals (cmp w) !! k = Some s →
  ComponentSignalInstance.disconnectNameChanged k n w
  = Returned ()
      (replaceSignal k
         (Signal.set_nameChangedConnections
            (filter (λ n', n' ≠ n) (Signal.nameChangedConnections s)) s) w).
Proof.
  intros Hk. unfold ComponentSignalInstance.disconnectNameChanged.
  by rewrite bind_unfold, (getSignal_Some k s).
Qed.

Lemma replaceNet_lookup n v w : nets (replaceNet n v w) !! n = Some v.
Proof. simpl. apply lookup_insert_eq. Qed.

Lemma replaceNet_lookup_ne n n' v w :
  n ≠ n' → nets (replaceNet n v w) !! n' = nets w !! n'.
Proof. intros. simpl. by apply lookup_insert_ne. Qed.

Lemma steady_nets_2 w n1 v1 n2 v2 s k :
  (∀ net, nets w !! n1 = Some net → net_getName v1 = net_getName net) →
  (∀ net, nets w !! n2 = Some net → net_getName v2 = net_getName net) →
  steady w (replaceSignal k s (replaceNet n1 v1 (replaceNet n2 v2 w))).
Proof.
  intros H1 H2. split; [reflexivity|]. split; [reflexivity|].
  intros n net Hn. simpl.
  destruct (decide (n1 = n)) as [<-|];
    [rewrite lookup_insert_eq|rewrite lookup_insert_ne by done].
  { eauto. }
  destruct (decide (n2 = n)) as [<-|];
    [rewrite lookup_insert_eq|rewrite lookup_insert_ne by done]; eauto.
Qed.

Lemma steady_nets_1 w n1 v1 s k :
  (∀ net, nets w !! n1 = Some net → net_getName v1 = net_getName net) →
  steady w (replaceSignal k s (replaceNet n1 v1 w)).
Proof.
  intros H1. split; [reflexivity|]. split; [reflexivity|].
  intros n net Hn. simpl.
  destruct (decide (n1 = n)) as [<-|];
    [rewrite lookup_insert_eq|rewrite lookup_insert_ne by done]; eauto.
Qed.

Lemma setNetSignal_cases k s netsignal w :
  netsClosed w → connectionsInSync w →
  Instance.mSignals (cmp w) !! k = Some s →
  (∃ e, ComponentSignalInstance.setNetSignal k netsignal w = Thrown e w)
  ∨ ComponentSignalInstance.setNetSignal k netsignal w = Aborted
  ∨ ComponentSignalInstance.setNetSignal k netsignal w = Returned () w
  ∨ ∃ w',
      ComponentSignalInstance.setNetSignal k netsignal w = Returned () w'
      ∧ steady w w'
      ∧ Instance.mSignals (cmp w')
        = <[k := rebound w netsignal s]> (Instance.mSignals (cmp w))
      ∧ (∀ n, netsignal = Some n → is_Some (nets w !! n)).
Proof.
  intros Hclosed Hconn Hk.
  remember (ComponentSignalInstance.setNetSignal k netsignal w) as r eqn:Hr.
  unfold ComponentSignalInstance.setNetSignal in Hr.
  rewrite bind_unfold, (getSignal_Some k s) in Hr by done. run_in Hr.
  case_bool_decide as Hsame; [right; right; left; by rewrite Hr|].
  destruct (Signal.mIsAddedToCircuit s); [|left; eexists; by rewrite Hr].
  destruct (Signal.arePinsOrPadsUsed s); [left; eexists; by rewrite Hr|].
  cbn [negb] in Hr. set (self := ComponentSignalInstance.self (cmp w) k) in *.
  specialize (Hconn k s Hk).
  destruct (Signal.mNetSignal s) as [old|] eqn:Hold.
  - destruct (Hclosed k s old Hk Hold) as [netOld HnetOld].
    run_in Hr. unfold guarded at 1 in Hr.
    rewrite (unregister_run old netOld) in Hr by done.
    case_bool_decide as Hreg; [|left; eexists; by rewrite Hr].
    run_in Hr.
    set (w1 := replaceNet old (unbindSignal self netOld) w) in *.
    rewrite (disconnect_run k s) in Hr by done.
    rewrite Hconn in Hr. cbn [connectionsOf filter list_filter] in Hr.
    rewrite decide_False in Hr by (by intros ?).
    cbn [filter list_filter] in Hr.
    set (s2 := Signal.set_nameChangedConnections [] s) in *.
    set (w2 := replaceSignal k s2 w1) in *.
    run_in Hr.
    destruct netsignal as [new|].
    + assert (Hne : old ≠ new) by (intros ->; done).
      run_in Hr. unfold guarded at 1 in Hr.
      destruct (nets w !! new) as [netNew|] eqn:HnetNew.
      * rewrite (register_run new netNew) in Hr
          by (unfold w2, w1; simpl; by rewrite lookup_insert_ne).
        change (ComponentSignalInstance.self (cmp w2) k) with self in Hr.
        case_bool_decide as Hreg'.
        { (* the new net signal refuses: the guard restores the old one *)
          left. exists (LogicError None). run_in Hr.
          rewrite (register_run old (unbindSignal self netOld)) in Hr
            by apply replaceNet_lookup.
          rewrite bool_decide_eq_false_2 in Hr by (simpl; set_solver).
          run_in Hr.
          rewrite (connect_run k s2) in Hr by apply replaceSignal_lookup.
          run_in Hr.
          rewrite Hr. do 2 f_equal. unfold w2, w1, s2.
          rewrite bind_unbind by done.
          rewrite (replaceSignal_replaceNet k
                     (Signal.set_nameChangedConnections [] s)).
          rewrite replaceNet_replaceNet, replaceSignal_replaceNet.
          rewrite replaceSignal_replaceSignal.
          rewrite replaceSignal_id; [by apply replaceNet_id|].
          rewrite Hk. f_equal.
          destruct s. simpl in *. by rewrite Hconn. }
        right; right; right. run_in Hr.
        rewrite (connect_run k s2) in Hr by apply replaceSignal_lookup.
        run_in Hr.
        erewrite getSignal_Some in Hr by apply replaceSignal_lookup.
        run_in Hr. rewrite putSignal_run in Hr. run_in Hr.
        erewrite updateErcMessages_run in Hr; [|apply replaceSignal_lookup|].
        2:{ simpl. intros n [= <-]. unfold w2, w1. simpl.
            rewrite lookup_insert_eq. eauto. }
        eexists. split; [exact Hr|].
        rewrite !replaceSignal_replaceSignal.
        split; [|split].
        -- unfold w2, w1. rewrite replaceSignal_replaceNet.
           rewrite replaceSignal_replaceSignal.
           apply steady_nets_2.
           ++ intros net Hn. rewrite HnetNew in Hn. by injection Hn as <-.
           ++ intros net Hn. rewrite HnetOld in Hn. by injection Hn as <-.
        -- simpl. rewrite ?insert_insert_eq. f_equal.
           unfold rebound. rewrite updateErcMessages_body_signals.
           unfold boundNetName. simpl.
           rewrite lookup_insert_eq, HnetNew. reflexivity.
        -- intros n [= <-]. eauto.
      * right; left. rewrite Hr.
        unfold NetSignalOps.registerComponentSignal.
        rewrite bind_unfold. unfold getNet, w2, w1. simpl.
        by rewrite lookup_insert_ne, HnetNew.
    + right; right; right. run_in Hr.
      erewrite getSignal_Some in Hr by apply replaceSignal_lookup.
      run_in Hr. rewrite putSignal_run in Hr. run_in Hr.
      erewrite updateErcMessages_run in Hr; [|apply replaceSignal_lookup|].
      2:{ simpl. intros n [=]. }
      eexists. split; [exact Hr|].
      unfold w2, w1. rewrite !replaceSignal_replaceSignal.
      split; [|split].
      * apply steady_nets_1.
        intros net Hn. rewrite HnetOld in Hn. by injection Hn as <-.
      * reflexivity.
      * intros n [=].
  - destruct netsignal as [new|]; [|done].
    run_in Hr. unfold guarded at 1 in Hr.
    destruct (nets w !! new) as [netNew|] eqn:HnetNew.
    + rewrite (register_run new netNew) in Hr by done.
      case_bool_decide as Hreg'; [left; eexists; by rewrite Hr|].
      run_in Hr.
      right; right; right. run_in Hr.
      rewrite (connect_run k s) in Hr by done.
      rewrite Hconn in Hr. run_in Hr.
      erewrite getSignal_Some in Hr by apply replaceSignal_lookup.
      run_in Hr. rewrite putSignal_run in Hr. run_in Hr.
      erewrite updateErcMessages_run in Hr; [|apply replaceSignal_lookup|].
      2:{ simpl. intros n [= <-]. rewrite lookup_insert_eq. eauto. }
      eexists. split; [exact Hr|].
      rewrite !replaceSignal_replaceSignal.
      split; [|split].
      * apply steady_nets_1.
        intros net Hn. rewrite HnetNew in Hn. by injection Hn as <-.
      * simpl. rewrite ?insert_insert_eq. f_equal.
        unfold rebound. rewrite updateErcMessages_body_signals.
        unfold boundNetName. simpl.
        rewrite lookup_insert_eq, HnetNew. reflexivity.
      * intros n [= <-]. eauto.
    + right; left. rewrite Hr.
      unfold NetSignalOps.registerComponentSignal.
      rewrite bind_unfold. unfold getNet. by rewrite HnetNew.
Qed.

Lemma forEach_ext {A} (f g : A → M unit) (l : list A) (w : World) :
  (∀ x w', f x w' = g x w') → forEach f l w = forEach g l w.
Proof.
  intros Hfg. revert w. induction l as [|x l IH]; intros w; [done|].
  cbn [forEach]. rewrite !bind_unfold, Hfg.
  destruct (g x w); [apply IH|done|done].
Qed.

Lemma updateErcMessages_refreshIf k w :
  ComponentSignalInstance.updateErcMessages k w = refreshIf (λ _, true) k w.
Proof.
  unfold refreshIf. rewrite bind_unfold.
  destruct (Instance.mSignals (cmp w) !! k) as [s|] eqn:Hk.
  - by rewrite (getSignal_Some k s).
  - unfold ComponentSignalInstance.updateErcMessages.
    rewrite bind_unfold. unfold getSignal. by rewrite Hk.
Qed.

Lemma refreshed_fields w s :
  Signal.mComponentSignal (refreshed w s) = Signal.mComponentSignal s
  ∧ Signal.mIsAddedToCircuit (refreshed w s) = Signal.mIsAddedToCircuit s
  ∧ Signal.mNetSignal (refreshed w s) = Signal.mNetSignal s
  ∧ Signal.mRegisteredSymbolPins (refreshed w s)
    = Signal.mRegisteredSymbolPins s
  ∧ Signal.mRegisteredFootprintPads (refreshed w s)
    = Signal.mRegisteredFootprintPads s
  ∧ Signal.nameChangedConnections (refreshed w s)
    = Signal.nameChangedConnections s.
Proof. done. Qed.

Lemma forEach_refreshIf (p : Signal.t → bool) (ks : list Uuid) :
  ∀ w, NoDup ks →
    (∀ k, k ∈ ks → is_Some (Instance.mSignals (cmp w) !! k)) →
    netsClosed w →
    ∃ w', forEach (refreshIf p) ks w = Returned () w'
          ∧ nets w' = nets w
          ∧ emitted w' = emitted w
          ∧ cmp w' = Instance.set_mSignals (Instance.mSignals (cmp w')) (cmp w)
          ∧ (∀ k s, Instance.mSignals (cmp w) !! k = Some s →
               Instance.mSignals (cmp w') !! k
               = Some (if bool_decide (k ∈ ks) && p s
                       then refreshed w s else s))
          ∧ (∀ k, Instance.mSignals (cmp w) !! k = None →
               Instance.mSignals (cmp w') !! k = None).
Proof.
  induction ks as [|k ks IH]; intros w Hnd Hkeys Hclosed.
  { exists w. split; [done|]. split; [done|]. split; [done|].
    split; [by destruct w as [? [] ?]|]. split; [|done].
    intros k s Hk. rewrite bool_decide_eq_false_2; [done|].
    by intros ?%elem_of_nil. }
  apply NoDup_cons in Hnd as [Hk_ks Hnd].
  destruct (Hkeys k) as [s Hk]; [by left|].
  cbn [forEach]. rewrite bind_unfold.
  set (w1 := if p s then replaceSignal k (refreshed w s) w else w).
  assert (Hstep : refreshIf p k w = Returned () w1).
  { unfold refreshIf, w1. rewrite bind_unfold, (getSignal_Some k s) by done.
    destruct (p s); [|done].
    rewrite (updateErcMessages_run k s); [done|done|]. eauto. }
  rewrite Hstep.
  assert (Hnets1 : nets w1 = nets w) by (unfold w1; by destruct (p s)).
  assert (Hem1 : emitted w1 = emitted w) by (unfold w1; by destruct (p s)).
  assert (Hcmp1 : cmp w1
                  = Instance.set_mSignals (Instance.mSignals (cmp w1)) (cmp w)).
  { unfold w1. destruct (p s); [done|]. by destruct w as [? [] ?]. }
  assert (Hsig1 : ∀ k' s', Instance.mSignals (cmp w) !! k' = Some s' →
             Instance.mSignals (cmp w1) !! k'
             = Some (if bool_decide (k' = k) && p s' then refreshed w s'
                     else s')).
  { intros k' s' Hk'. unfold w1. case_bool_decide as Heq.
    - subst k'. rewrite Hk in Hk'. injection Hk' as <-.
      destruct (p s); [apply replaceSignal_lookup|done].
    - destruct (p s); [|done]. rewrite replaceSignal_lookup_ne; done. }
  assert (Hnone1 : ∀ k', Instance.mSignals (cmp w) !! k' = None →
             Instance.mSignals (cmp w1) !! k' = None).
  { intros k' Hk'. unfold w1. destruct (p s); [|done].
    rewrite replaceSignal_lookup_ne; [done|]. intros <-. congruence. }
  destruct (IH w1 Hnd) as (w' & Hrun & Hnets & Hem & Hcmp & Hsig & Hnone).
  { intros k' Hk'. destruct (Hkeys k') as [s' Hs']; [by right|].
    rewrite (Hsig1 k' s' Hs'). eauto. }
  { intros k' s' n Hk' Hn. rewrite Hnets1.
    destruct (Instance.mSignals (cmp w) !! k') as [s0|] eqn:Hs0.
    - rewrite (Hsig1 k' s0 Hs0) in Hk'. injection Hk' as <-.
      apply (Hclosed k' s0 n Hs0).
      by destruct (bool_decide (k' = k) && p s0).
    - by rewrite (Hnone1 k' Hs0) in Hk'. }
  exists w'. split; [done|]. split; [congruence|]. split; [congruence|].
  split; [by rewrite Hcmp, Hcmp1|]. split.
  - intros k' s' Hk'. rewrite (Hsig k' _ (Hsig1 k' s' Hk')).
    f_equal.
    assert (Hrefr : ∀ s0, refreshed w1 s0 = refreshed w s0).
    { intros s0. unfold refreshed. rewrite Hcmp1.
      rewrite updateErcMessages_body_signals. f_equal.
      unfold boundNetName. by rewrite Hnets1. }
    destruct (decide (k' = k)) as [->|Hne].
    + rewrite (bool_decide_eq_true_2 (k = k)) by done.
      rewrite (bool_decide_eq_false_2 (k ∈ ks)) by done.
      rewrite (bool_decide_eq_true_2 (k ∈ k :: ks)) by (by left).
      cbn [andb]. done.
    + rewrite (bool_decide_eq_false_2 (k' = k)) by done. cbn [andb].
      rewrite Hrefr.
      destruct (p s'); [|by rewrite !andb_false_r].
      rewrite !andb_true_r.
      apply (f_equal (λ b : bool, if b then refreshed w s' else s')).
      apply bool_decide_ext. rewrite elem_of_cons. naive_solver.
  - intros k' Hk'. by apply Hnone, Hnone1.
Qed.

Lemma sameSignals_boundNetName w w' s :
  nets w' = nets w → boundNetName w' s = boundNetName w s.
Proof. intros Hn. unfold boundNetName. by rewrite Hn. Qed.

Lemma sameSignals_wellFormed w w' :
  sameSignals w w' →
  netsClosed w ∧ signalErcUpToDate w ∧ connectionsInSync w →
  netsClosed w' ∧ signalErcUpToDate w' ∧ connectionsInSync w'.
Proof.
  intros (Hn & Hs & Hname & Hvalue & Hattr) (Hclosed & Herc & Hconn).
  split; [|split].
  - intros k s n Hk Hnet. rewrite Hs in Hk. rewrite Hn. eauto.
  - intros k s Hk. rewrite Hs in Hk.
    rewrite (sameSignals_boundNetName w w') by done.
    rewrite (updateErcMessages_body_ext (cmp w') (cmp w)) by done.
    by apply (Herc k).
  - intros k s Hk. rewrite Hs in Hk. by apply (Hconn k).
Qed.

Lemma instance_updateErcMessages_run w :
  ComponentInstance.updateErcMessages w
  = Returned () (set_cmp (ComponentInstance.updateErcMessages_body (cmp w)) w).
Proof. reflexivity. Qed.

(** *** Symbols and devices *)

Lemma registerSymbol_cases symbol w :
  (∃ e, ComponentInstance.registerSymbol symbol w = Thrown e w)
  ∨ (ComponentInstance.registerSymbol symbol w
     = Returned ()
         (set_cmp
            (ComponentInstance.updateErcMessages_body
               (Instance.set_mRegisteredSymbols
                  (<[item_getUuid (sym_getCompSymbVarItem symbol) := symbol]>
                     (Instance.mRegisteredSymbols (cmp w)))
                  (cmp w))) w)
     ∧ Instance.mIsAddedToCircuit (cmp w) = true
     ∧ sym_getCircuit symbol = Instance.mCircuit (cmp w)
     ∧ ∀ k registered,
         Instance.mRegisteredSymbols (cmp w) !! k = Some registered →
         (sameSchematic (cmp w) →
          sym_getSchematic symbol = sym_getSchematic registered)).
Proof.
  unfold ComponentInstance.registerSymbol. run.
  destruct (Instance.mIsAddedToCircuit (cmp w)) eqn:Hadded;
    [|left; by eexists].
  case_bool_decide as Hcircuit; [|left; by eexists]. cbn [negb orb].
  destruct (ComponentInstance.findSymbolItem _ _); [|left; by eexists].
  cbn [negb].
  destruct (Instance.isRegistered _ _); [left; by eexists|].
  run.
  destruct ((map_to_list (Instance.mRegisteredSymbols (cmp w))).*2)
    as [|first rest] eqn:Hvalues.
  - run. right. split; [done|]. split; [done|]. split; [done|].
    intros k registered Hk.
    apply fmap_nil_inv, map_to_list_empty_iff in Hvalues.
    by rewrite Hvalues, lookup_empty in Hk.
  - case_bool_decide as Hsch; [|left; by eexists]. run.
    right. split; [done|]. split; [done|]. split; [done|].
    intros k registered Hk Hsame. rewrite Hsch.
    assert (Hfirst : ∃ k0, Instance.mRegisteredSymbols (cmp w) !! k0
                           = Some first).
    { assert (Hin : first ∈ (map_to_list
                               (Instance.mRegisteredSymbols (cmp w))).*2)
        by (rewrite Hvalues; by left).
      apply list_elem_of_fmap in Hin as ([k0 v] & -> & Hin).
      exists k0. by apply elem_of_map_to_list. }
    destruct Hfirst as [k0 Hk0]. by apply (Hsame k0 k).
Qed.

Lemma unregisterSymbol_cases symbol w :
  (∃ e, ComponentInstance.unregisterSymbol symbol w = Thrown e w)
  ∨ (ComponentInstance.unregisterSymbol symbol w
     = Returned ()
         (set_cmp
            (ComponentInstance.updateErcMessages_body
               (Instance.set_mRegisteredSymbols
                  (delete (item_getUuid (sym_getCompSymbVarItem symbol))
                     (Instance.mRegisteredSymbols (cmp w)))
                  (cmp w))) w)
     ∧ Instance.mIsAddedToCircuit (cmp w) = true).
Proof.
  unfold ComponentInstance.unregisterSymbol. run.
  destruct (Instance.mIsAddedToCircuit (cmp w)) eqn:Hadded;
    [|left; by eexists].
  destruct (Instance.isRegistered _ _); [|left; by eexists].
  case_bool_decide; [|left; by eexists]. run. by right.
Qed.

Lemma registerDevice_cases device w :
  (∃ e, ComponentInstance.registerDevice device w = Thrown e w)
  ∨ (ComponentInstance.registerDevice device w
     = Returned ()
         (set_cmp
            (ComponentInstance.updateErcMessages_body
               (Instance.set_mRegisteredDevices
                  (Instance.mRegisteredDevices (cmp w) ++ [device])
                  (cmp w))) w)
     ∧ Instance.mIsAddedToCircuit (cmp w) = true).
Proof.
  unfold ComponentInstance.registerDevice. run.
  destruct (Instance.mIsAddedToCircuit (cmp w)) eqn:Hadded;
    [|left; by eexists].
  case_bool_decide; [|left; by eexists].
  destruct (contains _ _); [left; by eexists|].
  destruct (cmp_isSchematicOnly _); [left; by eexists|]. run. by right.
Qed.

Lemma unregisterDevice_cases device w :
  (∃ e, ComponentInstance.unregisterDevice device w = Thrown e w)
  ∨ (ComponentInstance.unregisterDevice device w
     = Returned ()
         (set_cmp
            (ComponentInstance.updateErcMessages_body
               (Instance.set_mRegisteredDevices
                  (removeOne device (Instance.mRegisteredDevices (cmp w)))
                  (cmp w))) w)
     ∧ Instance.mIsAddedToCircuit (cmp w) = true).
Proof.
  unfold ComponentInstance.unregisterDevice. run.
  destruct (Instance.mIsAddedToCircuit (cmp w)) eqn:Hadded;
    [|left; by eexists].
  destruct (contains _ _); [|left; by eexists]. run. by right.
Qed.

Lemma sameSchematic_insert c symbol :
  sameSchematic c →
  (∀ k registered, Instance.mRegisteredSymbols c !! k = Some registered →
     sym_getSchematic symbol = sym_getSchematic registered) →
  ∀ k1 k2 symbol1 symbol2,
    <[item_getUuid (sym_getCompSymbVarItem symbol) := symbol]>
      (Instance.mRegisteredSymbols c) !! k1 = Some symbol1 →
    <[item_getUuid (sym_getCompSymbVarItem symbol) := symbol]>
      (Instance.mRegisteredSymbols c) !! k2 = Some symbol2 →
    sym_getSchematic symbol1 = sym_getSchematic symbol2.
Proof.
  intros Hsame Hnew k1 k2 symbol1 symbol2 H1 H2.
  apply lookup_insert_Some in H1 as [[_ <-]|[_ H1]];
    apply lookup_insert_Some in H2 as [[_ <-]|[_ H2]].
  - done.
  - by apply (Hnew k2).
  - symmetry. by apply (Hnew k1).
  - by apply (Hsame k1 k2).
Qed.

(** *** One signal instance replaced *)

Lemma replaceSignal_wellFormed w k s s' :
  wellFormed w →
  Instance.mSignals (cmp w) !! k = Some s →
  Signal.mNetSignal s' = Signal.mNetSignal s →
  Signal.nameChangedConnections s' = Signal.nameChangedConnections s →
  ComponentSignalInstance.updateErcMessages_body (cmp w) (boundNetName w s') s'
  = s' →
  wellFormed (replaceSignal k s' w).
Proof.
  intros (Hclosed & Herc & Hconn & Hsch & Hdet) Hk Hnet Hc Hfix.
  split; [|split; [|split; [|split]]]; [| | |done|done].
  - intros k' s0 n Hk' Hn. simpl.
    destruct (decide (k = k')) as [<-|Hne].
    + rewrite replaceSignal_lookup in Hk'. injection Hk' as <-.
      rewrite Hnet in Hn. eauto.
    + rewrite replaceSignal_lookup_ne in Hk' by done. eauto.
  - intros k' s0 Hk'. simpl. rewrite updateErcMessages_body_signals.
    change (boundNetName (replaceSignal k s' w) s0) with (boundNetName w s0).
    destruct (decide (k = k')) as [<-|Hne].
    + rewrite replaceSignal_lookup in Hk'. by injection Hk' as <-.
    + rewrite replaceSignal_lookup_ne in Hk' by done. by apply (Herc k').
  - intros k' s0 Hk'.
    destruct (decide (k = k')) as [<-|Hne].
    + rewrite replaceSignal_lookup in Hk'. injection Hk' as <-.
      rewrite Hc, Hnet. by apply (Hconn k).
    + rewrite replaceSignal_lookup_ne in Hk' by done. by apply (Hconn k').
Qed.

Lemma registerSymbolPin_cases k pin w :
  ComponentSignalInstance.registerSymbolPin k pin w = Aborted
  ∨ (∃ e, ComponentSignalInstance.registerSymbolPin k pin w = Thrown e w)
  ∨ ∃ s, Instance.mSignals (cmp w) !! k = Some s
         ∧ ComponentSignalInstance.registerSymbolPin k pin w
           = Returned ()
               (replaceSignal k
                  (Signal.set_mRegisteredSymbolPins
                     (Signal.mRegisteredSymbolPins s ++ [pin]) s) w).
Proof.
  unfold ComponentSignalInstance.registerSymbolPin. run. unfold getSignal.
  destruct (Instance.mSignals (cmp w) !! k) as [s|]; [|by left]. run.
  destruct (_ || _); [right; left; by eexists|].
  right; right. by exists s.
Qed.

Lemma unregisterSymbolPin_cases k pin w :
  ComponentSignalInstance.unregisterSymbolPin k pin w = Aborted
  ∨ (∃ e, ComponentSignalInstance.unregisterSymbolPin k pin w = Thrown e w)
  ∨ ∃ s, Instance.mSignals (cmp w) !! k = Some s
         ∧ ComponentSignalInstance.unregisterSymbolPin k pin w
           = Returned ()
               (replaceSignal k
                  (Signal.set_mRegisteredSymbolPins
                     (removeOnePtr pin_addr pin (Signal.mRegisteredSymbolPins s)) s) w).
Proof.
  unfold ComponentSignalInstance.unregisterSymbolPin. run. unfold getSignal.
  destruct (Instance.mSignals (cmp w) !! k) as [s|]; [|by left]. run.
  destruct (_ || _); [right; left; by eexists|].
  right; right. by exists s.
Qed.

Lemma registerFootprintPad_cases k pad w :
  ComponentSignalInstance.registerFootprintPad k pad w = Aborted
  ∨ (∃ e, ComponentSignalInstance.registerFootprintPad k pad w = Thrown e w)
  ∨ ∃ s, Instance.mSignals (cmp w) !! k = Some s
         ∧ ComponentSignalInstance.registerFootprintPad k pad w
           = Returned ()
               (replaceSignal k
                  (Signal.set_mRegisteredFootprintPads
                     (Signal.mRegisteredFootprintPads s ++ [pad]) s) w).
Proof.
  unfold ComponentSignalInstance.registerFootprintPad. run. unfold getSignal.
  destruct (Instance.mSignals (cmp w) !! k) as [s|]; [|by left]. run.
  destruct (_ || _); [right; left; by eexists|].
  right; right. by exists s.
Qed.

Lemma unregisterFootprintPad_cases k pad w :
  ComponentSignalInstance.unregisterFootprintPad k pad w = Aborted
  ∨ (∃ e, ComponentSignalInstance.unregisterFootprintPad k pad w
          = Thrown e w)
  ∨ ∃ s, Instance.mSignals (cmp w) !! k = Some s
         ∧ ComponentSignalInstance.unregisterFootprintPad k pad w
           = Returned ()
               (replaceSignal k
                  (Signal.set_mRegisteredFootprintPads
                     (removeOnePtr pad_addr pad (Signal.mRegisteredFootprintPads s)) s) w).
Proof.
  unfold ComponentSignalInstance.unregisterFootprintPad. run.
  unfold getSignal.
  destruct (Instance.mSignals (cmp w) !! k) as [s|]; [|by left]. run.
  destruct (_ || _); [right; left; by eexists|].
  right; right. by exists s.
Qed.

Lemma pins_wellFormed w k s pins :
  wellFormed w → Instance.mSignals (cmp w) !! k = Some s →
  wellFormed (replaceSignal k (Signal.set_mRegisteredSymbolPins pins s) w).
Proof.
  intros Hwf Hk. apply (replaceSignal_wellFormed w k s); [done..|].
  destruct Hwf as (_ & Herc & _). specialize (Herc k s Hk).
  rewrite <- Herc at 3. reflexivity.
Qed.

Lemma pads_wellFormed w k s pads :
  wellFormed w → Instance.mSignals (cmp w) !! k = Some s →
  wellFormed (replaceSignal k (Signal.set_mRegisteredFootprintPads pads s) w).
Proof.
  intros Hwf Hk. apply (replaceSignal_wellFormed w k s); [done..|].
  destruct Hwf as (_ & Herc & _). specialize (Herc k s Hk).
  rewrite <- Herc at 3. reflexivity.
Qed.

(** *** All signal instances refreshed *)

Lemma refreshed_wellFormed w w' (p : Uuid → Signal.t → bool) :
  netsClosed w → connectionsInSync w →
  nets w' = nets w →
  cmp w' = Instance.set_mSignals (Instance.mSignals (cmp w')) (cmp w) →
  (∀ k s, Instance.mSignals (cmp w) !! k = Some s →
     Instance.mSignals (cmp w') !! k
     = Some (if p k s then refreshed w s else s)) →
  (∀ k, Instance.mSignals (cmp w) !! k = None →
     Instance.mSignals (cmp w') !! k = None) →
  (∀ k s, Instance.mSignals (cmp w) !! k = Some s → p k s = false →
     refreshed w s = s) →
  netsClosed w' ∧ signalErcUpToDate w' ∧ connectionsInSync w'.
Proof.
  intros Hclosed Hconn Hnets Hcmp Hsig Hnone Hrest.
  assert (Hback : ∀ k s', Instance.mSignals (cmp w') !! k = Some s' →
            ∃ s, Instance.mSignals (cmp w) !! k = Some s
                 ∧ s' = refreshed w s).
  { intros k s' Hk'.
    destruct (Instance.mSignals (cmp w) !! k) as [s|] eqn:Hk.
    - rewrite (Hsig k s Hk) in Hk'. injection Hk' as <-. exists s.
      split; [done|]. destruct (p k s) eqn:Hp; [done|].
      symmetry. by apply (Hrest k).
    - by rewrite (Hnone k Hk) in Hk'. }
  split; [|split].
  - intros k s' n Hk' Hn. destruct (Hback k s' Hk') as (s & Hk & ->).
    rewrite Hnets. exact (Hclosed k s n Hk Hn).
  - intros k s' Hk'. destruct (Hback k s' Hk') as (s & Hk & ->).
    rewrite Hcmp, updateErcMessages_body_signals.
    rewrite (sameSignals_boundNetName w w') by done. reflexivity.
  - intros k s' Hk'. destruct (Hback k s' Hk') as (s & Hk & ->).
    exact (Hconn k s Hk).
Qed.

Lemma emit_attributesChanged_run w :
  netsClosed w →
  ∃ w', ComponentInstance.emit_attributesChanged w = Returned () w'
        ∧ nets w' = nets w
        ∧ cmp w' = Instance.set_mSignals (Instance.mSignals (cmp w')) (cmp w)
        ∧ (∀ k s, Instance.mSignals (cmp w) !! k = Some s →
             Instance.mSignals (cmp w') !! k = Some (refreshed w s))
        ∧ (∀ k, Instance.mSignals (cmp w) !! k = None →
             Instance.mSignals (cmp w') !! k = None).
Proof.
  intros Hclosed. unfold ComponentInstance.emit_attributesChanged. run.
  unfold emit. run.
  set (w0 := set_emitted (attributesChanged :: emitted w) w).
  rewrite (forEach_ext _ (refreshIf (λ _, true)))
    by apply updateErcMessages_refreshIf.
  destruct (signalKeys_spec (cmp w)) as [Hnd Hkeys].
  destruct (forEach_refreshIf (λ _, true)
              (ComponentInstance.signalKeys (cmp w)) w0 Hnd)
    as (w' & Hrun & Hnets & _ & Hcmp & Hsig & Hnone).
  { intros k Hk. by apply Hkeys. }
  { done. }
  exists w'. split; [done|]. split; [done|]. split; [done|].
  split; [|done].
  intros k s Hk. rewrite (Hsig k s Hk).
  rewrite bool_decide_eq_true_2; [done|]. apply Hkeys. eauto.
Qed.

Lemma attributes_wellFormed w c' w' :
  wellFormed w →
  Instance.mSignals c' = Instance.mSignals (cmp w) →
  Instance.mRegisteredSymbols c' = Instance.mRegisteredSymbols (cmp w) →
  Instance.mRegisteredDevices c' = Instance.mRegisteredDevices (cmp w) →
  Instance.mIsAddedToCircuit c' = Instance.mIsAddedToCircuit (cmp w) →
  ComponentInstance.emit_attributesChanged (set_cmp c' w) = Returned () w' →
  wellFormed w'.
Proof.
  intros (Hclosed & Herc & Hconn & Hsch & Hdet) Hs Hr Hd Ha Hrun.
  assert (Hclosed0 : netsClosed (set_cmp c' w)).
  { intros k s n Hk Hn. simpl in *. rewrite Hs in Hk. eauto. }
  destruct (emit_attributesChanged_run (set_cmp c' w) Hclosed0)
    as (w'' & Hrun' & Hnets & Hcmp & Hsig & Hnone).
  rewrite Hrun in Hrun'. injection Hrun' as <-.
  destruct (refreshed_wellFormed (set_cmp c' w) w' (λ _ _, true))
    as (Hclosed' & Herc' & Hconn'); try done.
  { intros k s Hk. simpl in Hk. rewrite Hs in Hk. by apply (Hconn k). }
  split; [done|]. split; [done|]. split; [done|].
  rewrite Hcmp. simpl. split.
  - intros k1 k2 s1 s2. simpl. rewrite Hr. apply Hsch.
  - intros Hadded. simpl in *. rewrite Hr, Hd. apply Hdet. by rewrite <- Ha.
Qed.

Lemma setName_wellFormed name w :
  wellFormed w →
  match ComponentInstance.setName name w with
  | Returned _ w' => wellFormed w'
  | Thrown e w' => w' = w
  | Aborted => True
  end.
Proof.
  intros Hwf. unfold ComponentInstance.setName. run.
  case_bool_decide; [done|]. cbn [negb].
  destruct (isEmpty name); [done|]. run.
  rewrite instance_updateErcMessages_run. run.
  match goal with
  | |- context [ComponentInstance.emit_attributesChanged ?w0] =>
      destruct (ComponentInstance.emit_attributesChanged w0)
        as [[] w'|e w'|] eqn:Hrun
  end; [|exfalso|done].
  - by apply (attributes_wellFormed w
                 (ComponentInstance.updateErcMessages_body
                    (Instance.set_mName name (cmp w))) w').
  - destruct (emit_attributesChanged_run
                (set_cmp (ComponentInstance.updateErcMessages_body
                            (Instance.set_mName name (cmp w))) w))
      as (w'' & Hrun' & _).
    + destruct Hwf as (Hclosed & _). intros k s n. apply Hclosed.
    + by pose proof (eq_trans (eq_sym Hrun) Hrun').
Qed.

Lemma setValue_wellFormed value w :
  wellFormed w →
  match ComponentInstance.setValue value w with
  | Returned _ w' => wellFormed w'
  | Thrown e w' => w' = w
  | Aborted => True
  end.
Proof.
  intros Hwf. unfold ComponentInstance.setValue. run.
  case_bool_decide; [done|]. cbn [negb]. run.
  match goal with
  | |- context [ComponentInstance.emit_attributesChanged ?w0] =>
      destruct (ComponentInstance.emit_attributesChanged w0)
        as [[] w'|e w'|] eqn:Hrun
  end; [|exfalso|done].
  - by apply (attributes_wellFormed w (Instance.set_mValue value (cmp w)) w').
  - destruct (emit_attributesChanged_run
                (set_cmp (Instance.set_mValue value (cmp w)) w))
      as (w'' & Hrun' & _).
    + destruct Hwf as (Hclosed & _). intros k s n. apply Hclosed.
    + by pose proof (eq_trans (eq_sym Hrun) Hrun').
Qed.

Lemma setAttributes_wellFormed attributes w :
  wellFormed w →
  match ComponentInstance.setAttributes attributes w with
  | Returned _ w' => wellFormed w'
  | Thrown e w' => w' = w
  | Aborted => True
  end.
Proof.
  intros Hwf. unfold ComponentInstance.setAttributes. run.
  case_bool_decide; [done|]. cbn [negb]. run.
  match goal with
  | |- context [ComponentInstance.emit_attributesChanged ?w0] =>
      destruct (ComponentInstance.emit_attributesChanged w0)
        as [[] w'|e w'|] eqn:Hrun
  end; [|exfalso|done].
  - by apply (attributes_wellFormed w
                 (Instance.set_mAttributes attributes (cmp w)) w').
  - destruct (emit_attributesChanged_run
                (set_cmp (Instance.set_mAttributes attributes (cmp w)) w))
      as (w'' & Hrun' & _).
    + destruct Hwf as (Hclosed & _). intros k s n. apply Hclosed.
    + by pose proof (eq_trans (eq_sym Hrun) Hrun').
Qed.

(** *** Renaming a net signal *)

Lemma renameNet_wellFormed n name w :
  wellFormed w →
  match NetSignalEvents.setName n name w with
  | Returned _ w' => wellFormed w'
  | Thrown e w' => w' = w
  | Aborted => True
  end.
Proof.
  intros (Hclosed & Herc & Hconn & Hsch & Hdet).
  unfold NetSignalEvents.setName. run. unfold getNet.
  destruct (nets w !! n) as [net|] eqn:Hnet; [|done]. run.
  unfold putNet, emit. run.
  set (net' := {| net_getName := name;
                  net_registered := net_registered net |}).
  set (w0 := set_emitted _ _).
  set (p := λ s : Signal.t, bool_decide (n ∈ Signal.nameChangedConnections s)).
  change (set_cmp _ _) with w0.
  destruct (signalKeys_spec (cmp w)) as [Hnd Hkeys].
  assert (Hclosed0 : netsClosed w0).
  { intros k s m Hk Hm. unfold w0. simpl.
    destruct (decide (n = m)) as [<-|Hne];
      [rewrite lookup_insert_eq; eauto|rewrite lookup_insert_ne by done].
    eauto. }
  destruct (forEach_refreshIf p (ComponentInstance.signalKeys (cmp w)) w0 Hnd)
    as (w' & Hrun & Hnets & _ & Hcmp & Hsig & Hnone).
  { intros k Hk. by apply Hkeys. }
  { done. }
  change (forEach _ (ComponentInstance.signalKeys (cmp w0)) w0)
    with (forEach (refreshIf p) (ComponentInstance.signalKeys (cmp w)) w0).
  rewrite Hrun.
  destruct (refreshed_wellFormed w0 w' (λ _ s, p s))
    as (Hclosed' & Herc' & Hconn'); try done.
  - intros k s Hk. rewrite (Hsig k s Hk).
    rewrite bool_decide_eq_true_2; [done|]. apply Hkeys. eauto.
  - intros k s Hk Hp. unfold p in Hp. apply bool_decide_eq_false_1 in Hp.
    pose proof (Hconn k s Hk) as Hc. pose proof (Herc k s Hk) as He.
    unfold refreshed.
    assert (Hb : boundNetName w0 s = boundNetName w s).
    { unfold boundNetName, w0. simpl.
      destruct (Signal.mNetSignal s) as [m|]; [|done]. simpl.
      rewrite lookup_insert_ne; [done|]. intros <-. apply Hp.
      rewrite Hc. simpl. by left. }
    rewrite Hb. exact He.
  - split; [done|]. split; [done|]. split; [done|].
    rewrite Hcmp. done.
Qed.

(** *** Adding to and removing from the circuit *)

Lemma flag_wellFormed w w1 b :
  wellFormed w → steady w w1 → netsClosed w1 → signalErcUpToDate w1 →
  (∀ k s1, Instance.mSignals (cmp w1) !! k = Some s1 →
     ∃ s b', Instance.mSignals (cmp w) !! k = Some s
             ∧ s1 = flagged w b' s) →
  (b = false → Instance.isUsed (cmp w) = false) →
  wellFormed
    (set_cmp (ComponentInstance.updateErcMessages_body
                (Instance.set_mIsAddedToCircuit b (cmp w1))) w1).
Proof.
  intros (Hclosed & Herc & Hconn & Hsch & Hdet) (Hcmp & _) Hclosed1 Herc1
    Hsig Hb.
  assert (Hconn1 : connectionsInSync w1).
  { intros k s1 Hk1. destruct (Hsig k s1 Hk1) as (s & b' & Hk & ->).
    exact (Hconn k s Hk). }
  destruct (sameSignals_wellFormed w1
              (set_cmp (ComponentInstance.updateErcMessages_body
                          (Instance.set_mIsAddedToCircuit b (cmp w1))) w1))
    as (? & ? & ?); [done|done|].
  split; [done|]. split; [done|]. split; [done|].
  rewrite Hcmp. split; [exact Hsch|].
  intros Hadded. simpl in Hadded. subst b. specialize (Hb eq_refl).
  simpl. unfold Instance.isUsed in Hb.
  case_bool_decide as Hcount; [done|].
  unfold Instance.getRegisteredElementsCount in Hcount.
  split.
  - apply map_size_empty_iff. lia.
  - apply nil_length_inv. lia.
Qed.

Lemma addToCircuit_wellFormed w :
  wellFormed w →
  match ComponentInstance.addToCircuit w with
  | Returned _ w' => wellFormed w'
  | Thrown e w' => w' = w
  | Aborted => False
  end.
Proof.
  intros Hwf. pose proof Hwf as (Hclosed & Herc & _).
  unfold ComponentInstance.addToCircuit. run.
  destruct (Instance.mIsAddedToCircuit (cmp w) || Instance.isUsed (cmp w));
    [done|]. run.
  destruct (signalKeys_spec (cmp w)) as [Hnd Hkeys].
  pose proof (addToCircuit_loop_spec (ComponentInstance.signalKeys (cmp w))
                [] w w Hnd (λ k, proj1 (Hkeys k)) Hclosed Herc eq_refl)
    as Hloop.
  destruct (ComponentInstance.addToCircuit_loop _ [] w)
    as [[] w1|e w1|]; [|done|done].
  destruct Hloop as (Hg & Hclosed1 & Herc1 & Hin & Hout).
  run. rewrite instance_updateErcMessages_run.
  apply (flag_wellFormed w w1 true); try done.
  - by apply grown_steady.
  - intros k s1 Hk1.
    destruct (decide (k ∈ ComponentInstance.signalKeys (cmp w))) as [Hk|Hk].
    + destruct (Hin k Hk) as (s & Hs & Hs1 & _). rewrite Hs1 in Hk1.
      injection Hk1 as <-. by exists s, true.
    + rewrite (Hout k Hk) in Hk1. destruct Hk. apply Hkeys. eauto.
Qed.

Lemma removeFromCircuit_wellFormed w :
  wellFormed w →
  match ComponentInstance.removeFromCircuit w with
  | Returned _ w' => wellFormed w'
  | Thrown e w' => w' = w
  | Aborted => False
  end.
Proof.
  intros Hwf. pose proof Hwf as (Hclosed & Herc & _).
  unfold ComponentInstance.removeFromCircuit. run.
  destruct (Instance.mIsAddedToCircuit (cmp w)); [|done]. cbn [negb].
  destruct (Instance.isUsed (cmp w)) eqn:Hused; [done|]. run.
  destruct (signalKeys_spec (cmp w)) as [Hnd Hkeys].
  pose proof (removeFromCircuit_loop_spec
                (ComponentInstance.signalKeys (cmp w))
                [] w w Hnd (λ k, proj1 (Hkeys k)) Hclosed Herc eq_refl)
    as Hloop.
  destruct (ComponentInstance.removeFromCircuit_loop _ [] w)
    as [[] w1|e w1|]; [|done|done].
  destruct Hloop as (Hg & Hclosed1 & Herc1 & Hin & Hout).
  run. rewrite instance_updateErcMessages_run.
  apply (flag_wellFormed w w1 false); try done.
  intros k s1 Hk1.
  destruct (decide (k ∈ ComponentInstance.signalKeys (cmp w))) as [Hk|Hk].
  - destruct (Hin k Hk) as (s & Hs & Hs1). rewrite Hs1 in Hk1.
    injection Hk1 as <-. by exists s, false.
  - rewrite (Hout k Hk) in Hk1. destruct Hk. apply Hkeys. eauto.
Qed.

(** *** Binding a signal instance to another net signal *)

Lemma setNetSignal_wellFormed k netsignal w :
  wellFormed w →
  match ComponentSignalInstance.setNetSignal k netsignal w with
  | Returned _ w' => wellFormed w'
  | Thrown e w' => w' = w
  | Aborted => True
  end.
Proof.
  intros Hwf. pose proof Hwf as (Hclosed & Herc & Hconn & Hsch & Hdet).
  destruct (Instance.mSignals (cmp w) !! k) as [s|] eqn:Hk.
  2:{ unfold ComponentSignalInstance.setNetSignal. run. unfold getSignal.
      by rewrite Hk. }
  destruct (setNetSignal_cases k s netsignal w Hclosed Hconn Hk)
    as [[e ->] | [-> | [-> | (w' & -> & Hst & Hsig & Hnew)]]]; try done.
  pose proof Hst as (Hcmp & _ & Hnets).
  assert (Hlookup : ∀ k' s', Instance.mSignals (cmp w') !! k' = Some s' →
            (k' = k ∧ s' = rebound w netsignal s)
            ∨ (k' ≠ k ∧ Instance.mSignals (cmp w) !! k' = Some s')).
  { intros k' s'. rewrite Hsig. intros Hk'.
    apply lookup_insert_Some in Hk' as [[<- <-]|[Hne Hk']]; [by left|].
    right. split; [by intros ->|done]. }
  assert (Hb : ∀ s', (∀ n, Signal.mNetSignal s' = Some n →
                           is_Some (nets w !! n)) →
                     boundNetName w' s' = boundNetName w s')
    by (intros s' Hs'; by apply steady_boundNetName).
  split; [|split; [|split; [|split]]].
  - intros k' s' n Hk' Hn.
    assert (Hin : is_Some (nets w !! n)).
    { destruct (Hlookup k' s' Hk') as [[-> ->]|[_ Hold]]; [|eauto].
      apply Hnew. exact Hn. }
    destruct Hin as [net Hnet]. destruct (Hnets n net Hnet) as (? & ? & _).
    eauto.
  - intros k' s' Hk'. rewrite (steady_body w w') by done.
    destruct (Hlookup k' s' Hk') as [[-> ->]|[_ Hold]].
    + rewrite Hb; [reflexivity|]. intros n Hn. apply Hnew. exact Hn.
    + rewrite Hb by eauto. by apply (Herc k').
  - intros k' s' Hk'.
    destruct (Hlookup k' s' Hk') as [[-> ->]|[_ Hold]]; [done|].
    by apply (Hconn k').
  - rewrite Hcmp. exact Hsch.
  - rewrite Hcmp. exact Hdet.
Qed.

Lemma instance_wellFormed w c' :
  wellFormed w →
  Instance.mSignals c' = Instance.mSignals (cmp w) →
  Instance.mName c' = Instance.mName (cmp w) →
  Instance.mValue c' = Instance.mValue (cmp w) →
  Instance.mAttributes c' = Instance.mAttributes (cmp w) →
  sameSchematic c' → detachedIsUnused c' →
  wellFormed (set_cmp c' w).
Proof.
  intros (Hclosed & Herc & Hconn & _) Hs Hn Hv Ha Hsch Hdet.
  destruct (sameSignals_wellFormed w (set_cmp c' w)) as (? & ? & ?);
    [done|done|].
  done.
Qed.

Lemma registerSymbol_wellFormed symbol w :
  wellFormed w →
  match ComponentInstance.registerSymbol symbol w with
  | Returned _ w' => wellFormed w'
  | Thrown e w' => w' = w
  | Aborted => True
  end.
Proof.
  intros Hwf. pose proof Hwf as (_ & _ & _ & Hsch & _).
  destruct (registerSymbol_cases symbol w)
    as [[e ->] | (-> & Hadded & _ & Hnew)]; [done|].
  apply instance_wellFormed; try done.
  - exact (sameSchematic_insert (cmp w) symbol Hsch
             (λ k registered Hk, Hnew k registered Hk Hsch)).
  - intros Habs. simpl in Habs. congruence.
Qed.

Lemma unregisterSymbol_wellFormed symbol w :
  wellFormed w →
  match ComponentInstance.unregisterSymbol symbol w with
  | Returned _ w' => wellFormed w'
  | Thrown e w' => w' = w
  | Aborted => True
  end.
Proof.
  intros Hwf. pose proof Hwf as (_ & _ & _ & Hsch & _).
  destruct (unregisterSymbol_cases symbol w) as [[e ->] | (-> & Hadded)];
    [done|].
  apply instance_wellFormed; try done.
  - intros k1 k2 s1 s2. simpl. rewrite !lookup_delete_Some.
    intros [_ H1] [_ H2]. by apply (Hsch k1 k2).
  - intros Habs. simpl in Habs. congruence.
Qed.

Lemma registerDevice_wellFormed device w :
  wellFormed w →
  match ComponentInstance.registerDevice device w with
  | Returned _ w' => wellFormed w'
  | Thrown e w' => w' = w
  | Aborted => True
  end.
Proof.
  intros Hwf. pose proof Hwf as (_ & _ & _ & Hsch & _).
  destruct (registerDevice_cases device w) as [[e ->] | (-> & Hadded)];
    [done|].
  apply instance_wellFormed; try done.
  intros Habs. simpl in Habs. congruence.
Qed.

Lemma unregisterDevice_wellFormed device w :
  wellFormed w →
  match ComponentInstance.unregisterDevice device w with
  | Returned _ w' => wellFormed w'
  | Thrown e w' => w' = w
  | Aborted => True
  end.
Proof.
  intros Hwf. pose proof Hwf as (_ & _ & _ & Hsch & _).
  destruct (unregisterDevice_cases device w) as [[e ->] | (-> & Hadded)];
    [done|].
  apply instance_wellFormed; try done.
  intros Habs. simpl in Habs. congruence.
Qed.

(** Every call returns in a well-formed world, or throws and leaves the
    world as it was. *)
Lemma perform_wellFormed op w :
  wellFormed w →
  match perform op w with
  | Returned _ w' => wellFormed w'
  | Thrown e w' => w' = w
  | Aborted => True
  end.
Proof.
  intros Hwf. destruct op; cbn [perform].
  - pose proof (addToCircuit_wellFormed w Hwf).
    by destruct (ComponentInstance.addToCircuit w).
  - pose proof (removeFromCircuit_wellFormed w Hwf).
    by destruct (ComponentInstance.removeFromCircuit w).
  - by apply setName_wellFormed.
  - by apply setValue_wellFormed.
  - by apply setAttributes_wellFormed.
  - by apply registerSymbol_wellFormed.
  - by apply unregisterSymbol_wellFormed.
  - by apply registerDevice_wellFormed.
  - by apply unregisterDevice_wellFormed.
  - by apply setNetSignal_wellFormed.
  - destruct (registerSymbolPin_cases signal pin w)
      as [-> | [[e ->] | (s & Hk & ->)]]; [done|done|].
    by apply pins_wellFormed.
  - destruct (unregisterSymbolPin_cases signal pin w)
      as [-> | [[e ->] | (s & Hk & ->)]]; [done|done|].
    by apply pins_wellFormed.
  - destruct (registerFootprintPad_cases signal pad w)
      as [-> | [[e ->] | (s & Hk & ->)]]; [done|done|].
    by apply pads_wellFormed.
  - destruct (unregisterFootprintPad_cases signal pad w)
      as [-> | [[e ->] | (s & Hk & ->)]]; [done|done|].
    by apply pads_wellFormed.
  - by apply renameNet_wellFormed.
Qed.

(** *** The constructors *)

Lemma justConstructed_ext circuitNets c c' s :
  Instance.mName c = Instance.mName c' →
  Instance.mValue c = Instance.mValue c' →
  Instance.mAttributes c = Instance.mAttributes c' →
  justConstructed circuitNets c s → justConstructed circuitNets c' s.
Proof.
  intros Hn Hv Ha (Hfix & Hconn & Hclosed). split; [|done].
  by rewrite <- (updateErcMessages_body_ext c c').
Qed.

Lemma signal_create_justConstructed circuitNets c cmpSignal netsignal s :
  (∀ n, netsignal = Some n → is_Some (circuitNets !! n)) →
  ComponentSignalInstance.create circuitNets c cmpSignal netsignal = inr s →
  justConstructed circuitNets c s.
Proof.
  intros Hclosed. unfold ComponentSignalInstance.create,
    ComponentSignalInstance.init. cbn [Signal.checkAttributesValidity negb].
  intros [= <-]. destruct netsignal as [n|].
  - destruct (Hclosed n eq_refl) as [net Hnet].
    split; [|split]; [|done|].
    + simpl. rewrite !Hnet. reflexivity.
    + intros n' [= <-]. eauto.
  - split; [|split]; [reflexivity|done|]. intros n' [=].
Qed.

Lemma signal_load_justConstructed circuitNets c node s :
  ComponentSignalInstance.load circuitNets c node = inr s →
  justConstructed circuitNets c s.
Proof.
  unfold ComponentSignalInstance.load.
  destruct (get sig_getUuid _ _) as [e|cmpSignal]; [done|].
  destruct (node_netsignal node) as [n|].
  - destruct (circuitNets !! n) as [net|] eqn:Hnet; [|done].
    apply signal_create_justConstructed. intros n' [= <-]. eauto.
  - apply signal_create_justConstructed. intros n' [=].
Qed.

Lemma loadSignals_justConstructed circuitNets nodes c c' :
  (∀ k s, Instance.mSignals c !! k = Some s →
          justConstructed circuitNets c s) →
  ComponentInstance.loadSignals circuitNets nodes c = inr c' →
  ∀ k s, Instance.mSignals c' !! k = Some s →
         justConstructed circuitNets c s.
Proof.
  revert c. induction nodes as [|node nodes IH]; intros c Hc; simpl.
  { by intros [= <-]. }
  destruct (ComponentSignalInstance.load circuitNets c node) as [e|signal]
    eqn:Hload; [done|].
  case_bool_decide; [done|]. intros Hrest k s Hk.
  apply (justConstructed_ext circuitNets
           (Instance.set_mSignals
              (<[sig_getUuid (Signal.mComponentSignal signal) := signal]>
                 (Instance.mSignals c)) c)); [done..|].
  refine (IH _ _ Hrest k s Hk).
  intros k0 s0 Hk0. simpl in Hk0.
  apply lookup_insert_Some in Hk0 as [[_ <-]|[_ Hk0]].
  - apply (justConstructed_ext circuitNets c); [done..|].
    by eapply signal_load_justConstructed.
  - apply (justConstructed_ext circuitNets c); [done..|]. by apply (Hc k0).
Qed.

Lemma instance_init_frame (c c' : Instance.t) :
  ComponentInstance.init c = inr c' →
  Instance.mSignals c' = Instance.mSignals c
  ∧ Instance.mName c' = Instance.mName c
  ∧ Instance.mValue c' = Instance.mValue c
  ∧ Instance.mAttributes c' = Instance.mAttributes c
  ∧ Instance.mIsAddedToCircuit c' = Instance.mIsAddedToCircuit c
  ∧ Instance.mRegisteredSymbols c' = Instance.mRegisteredSymbols c
  ∧ Instance.mRegisteredDevices c' = Instance.mRegisteredDevices c.
Proof.
  unfold ComponentInstance.init.
  destruct (negb _); [done|]. by intros [= <-].
Qed.

Lemma createSignals_inr circuitNets signals c c' :
  (∀ k s, Instance.mSignals c !! k = Some s →
          justConstructed circuitNets c s) →
  ComponentInstance.createSignals circuitNets signals c = inr c' →
  c' = Instance.set_mSignals (Instance.mSignals c') c
  ∧ ∀ k s, Instance.mSignals c' !! k = Some s →
           justConstructed circuitNets c s.
Proof.
  revert c. induction signals as [|signal signals IH]; intros c Hc;
    cbn [ComponentInstance.createSignals].
  { intros [= <-]. split; [by destruct c|done]. }
  destruct (ComponentSignalInstance.create circuitNets c signal None)
    as [e|s0] eqn:Hcreate; [done|].
  intros Hrest. apply IH in Hrest as [Hframe Hsig].
  - split; [by rewrite Hframe at 1|].
    intros k s Hk.
    apply (justConstructed_ext circuitNets
             (Instance.set_mSignals
                (<[sig_getUuid (Signal.mComponentSignal s0) := s0]>
                   (Instance.mSignals c)) c)); [done..|].
    by apply (Hsig k).
  - intros k s Hk. simpl in Hk.
    apply lookup_insert_Some in Hk as [[_ <-]|[_ Hk]].
    + apply (justConstructed_ext circuitNets c); [done..|].
      refine (signal_create_justConstructed _ _ _ None _ _ Hcreate).
      by intros n [=].
    + apply (justConstructed_ext circuitNets c); [done..|]. by apply (Hc k).
Qed.

Lemma constructed_wellFormed circuitNets (c : Instance.t) :
  (∀ k s, Instance.mSignals c !! k = Some s →
          justConstructed circuitNets c s) →
  Instance.mRegisteredSymbols c = ∅ →
  Instance.mRegisteredDevices c = [] →
  wellFormed {| nets := circuitNets; cmp := c; emitted := [] |}.
Proof.
  intros Hsig Hsym Hdev. split; [|split; [|split; [|split]]].
  - intros k s n Hk Hn. destruct (Hsig k s Hk) as (_ & _ & Hclosed). eauto.
  - intros k s Hk. by destruct (Hsig k s Hk) as (Hfix & _ & _).
  - intros k s Hk. by destruct (Hsig k s Hk) as (_ & Hconn & _).
  - intros k1 k2 s1 s2 H1. simpl in H1. by rewrite Hsym, lookup_empty in H1.
  - done.
Qed.

Lemma load_wellFormed circuit circuitNets library domElement c :
  ComponentInstance.load circuit circuitNets library domElement = inr c →
  wellFormed {| nets := circuitNets; cmp := c; emitted := [] |}.
Proof.
  intros Hload.
  pose proof (load_inr _ _ _ _ _ Hload) as (_ & _ & _ & _ & _ & _ & Hs & Hd).
  apply constructed_wellFormed; [|done|done].
  revert Hload. unfold ComponentInstance.load.
  destruct (isEmpty _); [done|]. destruct (library !! _); [|done].
  destruct (get symbvar_getUuid _ _); [done|].
  destruct (ComponentInstance.loadSignals _ _ _) as [e|loaded] eqn:Hsignals;
    [done|].
  destruct (negb _); [done|].
  intros Hinit. apply instance_init_frame in Hinit
    as (Hsig & Hn & Hv & Ha & _).
  pose proof (loadSignals_inr _ _ _ _ Hsignals) as (_ & _ & Hframe & _).
  intros k s Hk. rewrite Hsig in Hk.
  eapply justConstructed_ext;
    [| | |eapply (loadSignals_justConstructed _ _ _ _ _ Hsignals k s Hk)].
  - rewrite Hn, Hframe. reflexivity.
  - rewrite Hv, Hframe. reflexivity.
  - rewrite Ha, Hframe. reflexivity.
  Unshelve. intros k' s' Hk'. simpl in Hk'. by rewrite lookup_empty in Hk'.
Qed.

Lemma create_wellFormed circuit circuitNets uuid libComponent symbVar name c :
  ComponentInstance.create circuit circuitNets uuid libComponent symbVar name
  = inr c →
  wellFormed {| nets := circuitNets; cmp := c; emitted := [] |}.
Proof.
  unfold ComponentInstance.create.
  destruct (isEmpty _); [done|].
  destruct (get symbvar_getUuid _ _); [done|].
  destruct (ComponentInstance.createSignals _ _ _) as [e|created]
    eqn:Hsignals; [done|].
  intros Hinit. apply instance_init_frame in Hinit
    as (Hsig & Hn & Hv & Ha & _ & Hs & Hd).
  apply createSignals_inr in Hsignals as [Hframe Hjust].
  2:{ intros k' s' Hk'. simpl in Hk'. by rewrite lookup_empty in Hk'. }
  apply constructed_wellFormed.
  - intros k s Hk. rewrite Hsig in Hk.
    eapply justConstructed_ext; [| | |apply (Hjust k s Hk)].
    + rewrite Hn, Hframe. reflexivity.
    + rewrite Hv, Hframe. reflexivity.
    + rewrite Ha, Hframe. reflexivity.
  - rewrite Hs, Hframe. reflexivity.
  - rewrite Hd, Hframe. reflexivity.
Qed.

(** Every reachable world is well formed. *)
Lemma reachable_wellFormed w : reachable w → wellFormed w.
Proof.
  induction 1 as [?????Hload|???????Hcreate|op w w' _ IH Hrun|op e w w' _ IH Hrun].
  - by eapply load_wellFormed.
  - by eapply create_wellFormed.
  - pose proof (perform_wellFormed op w IH) as Hop. by rewrite Hrun in Hop.
  - pose proof (perform_wellFormed op w IH) as Hop. rewrite Hrun in Hop.
    by subst.
Qed.

(** Extra X1.  A call on a reachable world that throws leaves the world
    exactly as it was: the check that throws comes before every change, or
    the scope guards of [addToCircuit], [removeFromCircuit] and
    [setNetSignal] undo the steps taken. *)
Theorem X1_throwing_call_changes_nothing op e w w' :
  reachable w → perform op w = Thrown e w' → w' = w.
Proof.
  intros Hw Hrun.
  pose proof (perform_wellFormed op w (reachable_wellFormed w Hw)) as Hop.
  by rewrite Hrun in Hop.
Qed.

(** Claim C2, amended.  In every reachable world, that is after the
    constructor and any calls that returned or threw, the message
    [ForcedNetSignalNameConflict] of a signal instance is visible if and only
    if the signal instance is added to the circuit, its library signal
    forces a net name, and a net signal is bound whose name differs from the
    forced name after the substitution of variables.  A signal instance to
    which no net signal is bound does not show the message. *)
Theorem C2_forced_net_name_conflict_visible (w : World) (k : Uuid)
    (s : Signal.t) :
  reachable w →
  Instance.mSignals (cmp w) !! k = Some s →
  erc_visible (Signal.mErcMsgForcedNetSignalNameConflict s) = true
  ↔ Signal.mIsAddedToCircuit s = true
    ∧ Signal.isNetSignalNameForced s = true
    ∧ ∃ n net, Signal.mNetSignal s = Some n
               ∧ nets w !! n = Some net
               ∧ net_getName net
                 ≠ ComponentSignalInstance.getForcedNetSignalName (cmp w) s.
Proof.
  intros Hw Hk.
  destruct (reachable_wellFormed w Hw) as (Hclosed & Herc & _).
  specialize (Herc k s Hk). rewrite <- Herc at 1.
  cbn [ComponentSignalInstance.updateErcMessages_body
         Signal.set_ercMessages Signal.mErcMsgForcedNetSignalNameConflict
         setVisible erc_visible].
  rewrite !andb_true_iff. unfold boundNetName.
  destruct (Signal.mNetSignal s) as [n|] eqn:Hnet.
  - destruct (Hclosed k s n Hk Hnet) as [net Hn]. simpl. rewrite Hn. simpl.
    rewrite negb_true_iff, bool_decide_eq_false. split.
    + intros [[Ha Hf] Hne]. split; [done|]. split; [done|].
      exists n, net. split; [done|]. split; [done|].
      intros Heq. by apply Hne.
    + intros (Ha & Hf & n' & net' & [= <-] & Hn' & Hne).
      rewrite Hn in Hn'. injection Hn' as <-. split; [done|].
      intros Heq. by apply Hne.
  - simpl. split; [by intros [_ ?]|].
    by intros (_ & _ & n & net & ? & _).
Qed.

(** Claim C7.  In every reachable world all registered symbols of the
    component instance are on one schematic; and [registerSymbol] for a
    symbol whose schematic differs from the schematic of a registered symbol
    throws and leaves the world, the registered symbols with it, as it was.
    The exception is a [RuntimeError], the exception of failures that are
    shown to the user, when the symbol belongs to the circuit of the
    component instance; for a symbol of another circuit it is the
    [LogicError] without message of the first check of [registerSymbol]. *)
Theorem C7_symbols_on_one_schematic (w : World) :
  reachable w →
  sameSchematic (cmp w)
  ∧ ∀ symbol k registered,
      Instance.mRegisteredSymbols (cmp w) !! k = Some registered →
      sym_getSchematic symbol ≠ sym_getSchematic registered →
      ∃ e, ComponentInstance.registerSymbol symbol w = Thrown e w
           ∧ (sym_getCircuit symbol = Instance.mCircuit (cmp w) →
              ∃ msg, e = RuntimeError msg)
           ∧ (sym_getCircuit symbol ≠ Instance.mCircuit (cmp w) →
              e = LogicError None).
Proof.
  intros Hw.
  destruct (reachable_wellFormed w Hw) as (_ & _ & _ & Hsch & Hdet).
  split; [done|]. intros symbol k registered Hk Hne.
  assert (Hadded : Instance.mIsAddedToCircuit (cmp w) = true).
  { destruct (Instance.mIsAddedToCircuit (cmp w)) eqn:Ha; [done|].
    destruct (Hdet Ha) as [Hempty _]. by rewrite Hempty, lookup_empty in Hk. }
  unfold ComponentInstance.registerSymbol.
  rewrite bind_unfold. cbn [getCmp]. rewrite Hadded. cbn [negb orb].
  case_bool_decide as Hcircuit; cbn [negb].
  2:{ eexists. split; [reflexivity|]. split; [by intros ?|done]. }
  assert (Hruntime : ∀ msg,
            ∃ e, Thrown (A := ()) (RuntimeError msg) w = Thrown e w
                 ∧ (sym_getCircuit symbol = Instance.mCircuit (cmp w) →
                    ∃ msg', e = RuntimeError msg')
                 ∧ (sym_getCircuit symbol ≠ Instance.mCircuit (cmp w) →
                    e = LogicError None)).
  { intros msg. exists (RuntimeError msg). split; [done|]. split; [|done].
    intros _. by exists msg. }
  destruct (ComponentInstance.findSymbolItem _ _); [|by apply Hruntime].
  cbn [negb]. destruct (Instance.isRegistered _ _); [by apply Hruntime|].
  rewrite bind_unfold.
  destruct ((map_to_list (Instance.mRegisteredSymbols (cmp w))).*2)
    as [|first rest] eqn:Hvalues.
  { apply fmap_nil_inv, map_to_list_empty_iff in Hvalues.
    by rewrite Hvalues, lookup_empty in Hk. }
  assert (Hfirst : ∃ k0, Instance.mRegisteredSymbols (cmp w) !! k0
                         = Some first).
  { assert (Hin : first ∈ (map_to_list
                             (Instance.mRegisteredSymbols (cmp w))).*2)
      by (rewrite Hvalues; by left).
    apply list_elem_of_fmap in Hin as ([k0 v] & -> & Hin).
    exists k0. by apply elem_of_map_to_list. }
  destruct Hfirst as [k0 Hk0].
  rewrite bool_decide_eq_false_2; [by apply Hruntime|].
  intros Heq. apply Hne. rewrite Heq. by apply (Hsch k0 k).
Qed.

(** ** More of the two classes *)

(** *** Lists of registered objects *)

Lemma contains_true `{EqDecision A} (x : A) (l : list A) :
  contains x l = true ↔ x ∈ l.
Proof. unfold contains. apply bool_decide_eq_true. Qed.

Lemma contains_false `{EqDecision A} (x : A) (l : list A) :
  contains x l = false ↔ x ∉ l.
Proof. unfold contains. apply bool_decide_eq_false. Qed.

Lemma removeOne_app_new `{EqDecision A} (x : A) (l : list A) :
  x ∉ l → removeOne x (l ++ [x]) = l.
Proof.
  induction l as [|y l IH]; intros Hx; simpl.
  - by rewrite decide_True.
  - apply not_elem_of_cons in Hx as [Hne Hx].
    rewrite decide_False by done. by rewrite IH.
Qed.

Lemma elem_of_removeOne `{EqDecision A} (x y : A) (l : list A) :
  y ∈ removeOne x l → y ∈ l.
Proof.
  induction l as [|z l IH]; simpl; [done|].
  destruct (decide (x = z)) as [->|Hne].
  - intros Hy. by right.
  - intros [->|Hy]%elem_of_cons; [by left|]. right. by apply IH.
Qed.

Lemma removeOne_NoDup `{EqDecision A} (x : A) (l : list A) :
  NoDup l → NoDup (removeOne x l) ∧ x ∉ removeOne x l.
Proof.
  induction l as [|z l IH]; simpl.
  - intros _. split; [constructor|]. by intros ?%elem_of_nil.
  - intros [Hz Hl]%NoDup_cons. destruct (decide (x = z)) as [->|Hne].
    + done.
    + destruct (IH Hl) as [Hnd Hx]. split.
      * apply NoDup_cons. split; [|done].
        intros Hin. by apply Hz, (elem_of_removeOne x).
      * intros [->|Hin]%elem_of_cons; [done|]. by apply Hx.
Qed.

Lemma removeOne_length `{EqDecision A} (x : A) (l : list A) :
  x ∈ l → S (length (removeOne x l)) = length l.
Proof.
  induction l as [|z l IH]; simpl.
  - by intros ?%elem_of_nil.
  - destruct (decide (x = z)) as [->|Hne]; [done|].
    intros [->|Hin]%elem_of_cons; [done|]. simpl. by rewrite IH.
Qed.

(** The same for lists of pointers. *)


Lemma containsPtr_false {A} (addr : A → Addr) (x : A) (l : list A) :
  containsPtr addr x l = false ↔ addr x ∉ addr <$> l.
Proof. unfold containsPtr. apply bool_decide_eq_false. Qed.


Lemma elem_of_removeOnePtr {A} (addr : A → Addr) (x y : A) (l : list A) :
  y ∈ removeOnePtr addr x l → y ∈ l.
Proof.
  induction l as [|z l IH]; simpl; [done|].
  destruct (decide (addr x = addr z)) as [Heq|Hne].
  - intros Hy. by right.
  - intros [->|Hy]%elem_of_cons; [by left|]. right. by apply IH.
Qed.

Lemma removeOnePtr_NoDup {A} (addr : A → Addr) (x : A) (l : list A) :
  NoDup (addr <$> l) →
  NoDup (addr <$> removeOnePtr addr x l)
  ∧ addr x ∉ addr <$> removeOnePtr addr x l.
Proof.
  induction l as [|z l IH]; simpl.
  - intros _. split; [constructor|]. by intros ?%elem_of_nil.
  - rewrite ?fmap_cons. intros [Hz Hl]%NoDup_cons.
    destruct (decide (addr x = addr z)) as [Heq|Hne].
    + split; [done|]. by rewrite Heq.
    + destruct (IH Hl) as [Hnd Hx]. rewrite ?fmap_cons. split.
      * apply NoDup_cons. split; [|done].
        intros (y & Hy & Hin)%list_elem_of_fmap. apply Hz.
        apply list_elem_of_fmap. exists y. split; [done|].
        by apply (elem_of_removeOnePtr addr x).
      * intros [Heq|Hin]%elem_of_cons; [done|]. by apply Hx.
Qed.


Lemma NoDup_fmap_snoc {A} (addr : A → Addr) (l : list A) (x : A) :
  NoDup (addr <$> l) → addr x ∉ addr <$> l → NoDup (addr <$> (l ++ [x])).
Proof.
  intros Hl Hx. rewrite fmap_app. apply NoDup_app. split; [done|]. split.
  - intros y Hy [->|[]%elem_of_nil]%elem_of_cons. done.
  - apply NoDup_singleton.
Qed.

(** *** The registration methods, evaluated *)

Lemma registerSymbolPin_run k s pin w :
  Instance.mSignals (cmp w) !! k = Some s →
  ComponentSignalInstance.registerSymbolPin k pin w
  = if negb (Signal.mIsAddedToCircuit s)
       || negb (bool_decide (pin_getCircuit pin = Instance.mCircuit (cmp w)))
       || containsPtr pin_addr pin (Signal.mRegisteredSymbolPins s)
    then Thrown (LogicError None) w
    else Returned ()
           (replaceSignal k
              (Signal.set_mRegisteredSymbolPins
                 (Signal.mRegisteredSymbolPins s ++ [pin]) s) w).
Proof.
  intros Hk. unfold ComponentSignalInstance.registerSymbolPin.
  rewrite bind_unfold, (getSignal_Some k s) by done. run.
  by destruct (_ || _).
Qed.

Lemma unregisterSymbolPin_run k s pin w :
  Instance.mSignals (cmp w) !! k = Some s →
  ComponentSignalInstance.unregisterSymbolPin k pin w
  = if negb (Signal.mIsAddedToCircuit s)
       || negb (containsPtr pin_addr pin (Signal.mRegisteredSymbolPins s))
    then Thrown (LogicError None) w
    else Returned ()
           (replaceSignal k
              (Signal.set_mRegisteredSymbolPins
                 (removeOnePtr pin_addr pin (Signal.mRegisteredSymbolPins s)) s) w).
Proof.
  intros Hk. unfold ComponentSignalInstance.unregisterSymbolPin.
  rewrite bind_unfold, (getSignal_Some k s) by done. run.
  by destruct (_ || _).
Qed.

Lemma registerFootprintPad_run k s pad w :
  Instance.mSignals (cmp w) !! k = Some s →
  ComponentSignalInstance.registerFootprintPad k pad w
  = if negb (Signal.mIsAddedToCircuit s)
       || negb (bool_decide (pad_getCircuit pad = Instance.mCircuit (cmp w)))
       || containsPtr pad_addr pad (Signal.mRegisteredFootprintPads s)
    then Thrown (LogicError None) w
    else Returned ()
           (replaceSignal k
              (Signal.set_mRegisteredFootprintPads
                 (Signal.mRegisteredFootprintPads s ++ [pad]) s) w).
Proof.
  intros Hk. unfold ComponentSignalInstance.registerFootprintPad.
  rewrite bind_unfold, (getSignal_Some k s) by done. run.
  by destruct (_ || _).
Qed.

Lemma unregisterFootprintPad_run k s pad w :
  Instance.mSignals (cmp w) !! k = Some s →
  ComponentSignalInstance.unregisterFootprintPad k pad w
  = if negb (Signal.mIsAddedToCircuit s)
       || negb (containsPtr pad_addr pad (Signal.mRegisteredFootprintPads s))
    then Thrown (LogicError None) w
    else Returned ()
           (replaceSignal k
              (Signal.set_mRegisteredFootprintPads
                 (removeOnePtr pad_addr pad (Signal.mRegisteredFootprintPads s)) s) w).
Proof.
  intros Hk. unfold ComponentSignalInstance.unregisterFootprintPad.
  rewrite bind_unfold, (getSignal_Some k s) by done. run.
  by destruct (_ || _).
Qed.

Lemma signal_method_aborts_without_signal k w :
  Instance.mSignals (cmp w) !! k = None → getSignal k w = Aborted.
Proof. intros Hk. unfold getSignal. by rewrite Hk. Qed.

(** The world in which [registerSymbol], [unregisterSymbol],
    [registerDevice] or [unregisterDevice] returns, for the registered
    symbols and devices they leave. *)
Lemma registerSymbol_run symbol w :
  let c := cmp w in
  let itemUuid := item_getUuid (sym_getCompSymbVarItem symbol) in
  let w' := set_cmp (ComponentInstance.updateErcMessages_body
                       (Instance.set_mRegisteredSymbols
                          (<[itemUuid := symbol]> (Instance.mRegisteredSymbols c))
                          c)) w in
  ComponentInstance.registerSymbol symbol w
  = if negb (Instance.mIsAddedToCircuit c)
       || negb (bool_decide (sym_getCircuit symbol = Instance.mCircuit c))
    then Thrown (LogicError None) w
    else if negb (ComponentInstance.findSymbolItem c itemUuid)
    then Thrown (RuntimeError ("Invalid symbol item in circuit: "
                                 +:+ quoted (pretty itemUuid) +:+ ".")) w
    else if Instance.isRegistered c itemUuid
    then Thrown (RuntimeError ("Symbol item UUID already exists in circuit: "
                                 +:+ quoted (pretty itemUuid) +:+ ".")) w
    else match (map_to_list (Instance.mRegisteredSymbols c)).*2 with
         | first :: _ =>
             if negb (bool_decide
                        (sym_getSchematic symbol = sym_getSchematic first))
             then Thrown (RuntimeError ComponentInstance.msgSameSchematic) w
             else Returned () w'
         | [] => Returned () w'
         end.
Proof.
  intros c itemUuid w'. unfold ComponentInstance.registerSymbol. run.
  fold c. fold itemUuid.
  destruct (_ || _); [done|].
  destruct (negb (ComponentInstance.findSymbolItem c itemUuid)); [done|].
  destruct (Instance.isRegistered c itemUuid); [done|]. run.
  destruct ((map_to_list (Instance.mRegisteredSymbols c)).*2) as [|first ?].
  - run. reflexivity.
  - destruct (negb _); [done|]. run. reflexivity.
Qed.

Lemma unregisterSymbol_run symbol w :
  let c := cmp w in
  let itemUuid := item_getUuid (sym_getCompSymbVarItem symbol) in
  ComponentInstance.unregisterSymbol symbol w
  = if negb (Instance.mIsAddedToCircuit c)
       || negb (Instance.isRegistered c itemUuid)
       || negb (bool_decide
                  (Instance.mRegisteredSymbols c !! itemUuid = Some symbol))
    then Thrown (LogicError None) w
    else Returned ()
           (set_cmp (ComponentInstance.updateErcMessages_body
                       (Instance.set_mRegisteredSymbols
                          (delete itemUuid (Instance.mRegisteredSymbols c))
                          c)) w).
Proof.
  intros c itemUuid. unfold ComponentInstance.unregisterSymbol. run.
  fold c. fold itemUuid. destruct (_ || _); [done|]. run. reflexivity.
Qed.

Lemma registerDevice_run device w :
  let c := cmp w in
  ComponentInstance.registerDevice device w
  = if negb (Instance.mIsAddedToCircuit c)
       || negb (bool_decide (dev_getCircuit device = Instance.mCircuit c))
       || contains device (Instance.mRegisteredDevices c)
       || cmp_isSchematicOnly (Instance.mLibComponent c)
    then Thrown (LogicError None) w
    else Returned ()
           (set_cmp (ComponentInstance.updateErcMessages_body
                       (Instance.set_mRegisteredDevices
                          (Instance.mRegisteredDevices c ++ [device]) c)) w).
Proof.
  intros c. unfold ComponentInstance.registerDevice. run.
  fold c. destruct (_ || _); [done|]. run. reflexivity.
Qed.

Lemma unregisterDevice_run device w :
  let c := cmp w in
  ComponentInstance.unregisterDevice device w
  = if negb (Instance.mIsAddedToCircuit c)
       || negb (contains device (Instance.mRegisteredDevices c))
    then Thrown (LogicError None) w
    else Returned ()
           (set_cmp (ComponentInstance.updateErcMessages_body
                       (Instance.set_mRegisteredDevices
                          (removeOne device (Instance.mRegisteredDevices c))
                          c)) w).
Proof.
  intros c. unfold ComponentInstance.unregisterDevice. run.
  fold c. destruct (_ || _); [done|]. run. reflexivity.
Qed.

(** *** Coherence: what it depends on *)

Lemma instanceTidy_body c :
  symbolsOfVariant c → devicesTidy c → Instance.mName c ≠ EmptyString →
  variantOfLibrary c →
  instanceTidy (ComponentInstance.updateErcMessages_body c).
Proof.
  intros Hsym Hdev Hname Hvar.
  split; [exact Hsym|]. split; [exact Hdev|].
  split; [apply instance_updateErcMessages_body_idem|]. split; done.
Qed.

Lemma instanceTidy_signals m c :
  instanceTidy c → instanceTidy (Instance.set_mSignals m c).
Proof.
  intros (Hsym & Hdev & Herc & Hname & Hvar).
  split; [exact Hsym|]. split; [exact Hdev|]. split; [|done].
  unfold instanceErcUpToDate in *.
  change (Instance.set_mSignals m (ComponentInstance.updateErcMessages_body c)
          = Instance.set_mSignals m c).
  by rewrite Herc.
Qed.

Lemma instanceTidy_value value c :
  instanceTidy c → instanceTidy (Instance.set_mValue value c).
Proof.
  intros (Hsym & Hdev & Herc & Hname & Hvar).
  split; [exact Hsym|]. split; [exact Hdev|]. split; [|done].
  unfold instanceErcUpToDate in *.
  change (Instance.set_mValue value
            (ComponentInstance.updateErcMessages_body c)
          = Instance.set_mValue value c).
  by rewrite Herc.
Qed.

Lemma instanceTidy_attributes attributes c :
  instanceTidy c → instanceTidy (Instance.set_mAttributes attributes c).
Proof.
  intros (Hsym & Hdev & Herc & Hname & Hvar).
  split; [exact Hsym|]. split; [exact Hdev|]. split; [|done].
  unfold instanceErcUpToDate in *.
  change (Instance.set_mAttributes attributes
            (ComponentInstance.updateErcMessages_body c)
          = Instance.set_mAttributes attributes c).
  by rewrite Herc.
Qed.

Lemma instanceTidy_name name c :
  name ≠ EmptyString → instanceTidy c →
  instanceTidy (ComponentInstance.updateErcMessages_body
                  (Instance.set_mName name c)).
Proof.
  intros Hne (Hsym & Hdev & Herc & Hname & Hvar).
  by apply instanceTidy_body.
Qed.

Lemma instanceTidy_flag b c :
  instanceTidy c →
  instanceTidy (ComponentInstance.updateErcMessages_body
                  (Instance.set_mIsAddedToCircuit b c)).
Proof.
  intros (Hsym & Hdev & Herc & Hname & Hvar). by apply instanceTidy_body.
Qed.

Lemma sameSkeleton_tidy circuit s s' :
  sameSkeleton s s' → signalTidy circuit s → signalTidy circuit s'.
Proof.
  intros (_ & Ha & _ & Hpins & Hpads). unfold signalTidy.
  by rewrite Ha, Hpins, Hpads.
Qed.

Lemma sameSkeleton_refl s : sameSkeleton s s.
Proof. by repeat split. Qed.

Lemma sameSkeleton_refreshed w s : sameSkeleton s (refreshed w s).
Proof. by repeat split. Qed.

Lemma sameSkeleton_flagged_tidy circuit w b s :
  signalTidy circuit s → Signal.isUsed s = false →
  signalTidy circuit (flagged w b s).
Proof.
  intros (Hp & Hq & Hpc & Hqc & _) Hused.
  split; [exact Hp|]. split; [exact Hq|]. split; [exact Hpc|].
  split; [exact Hqc|]. intros _.
  change (Signal.mRegisteredSymbolPins s = []
          ∧ Signal.mRegisteredFootprintPads s = []).
  unfold Signal.isUsed, Signal.getRegisteredElementsCount in Hused.
  apply bool_decide_eq_false in Hused.
  split; apply nil_length_inv; lia.
Qed.

Lemma coherent_frame w w' :
  coherent w →
  (∀ n, net_registered <$> nets w' !! n = net_registered <$> nets w !! n) →
  (∀ k s', Instance.mSignals (cmp w') !! k = Some s' →
     ∃ s, Instance.mSignals (cmp w) !! k = Some s ∧ sameSkeleton s s') →
  (∀ k, is_Some (Instance.mSignals (cmp w) !! k) →
        is_Some (Instance.mSignals (cmp w') !! k)) →
  Instance.mIsAddedToCircuit (cmp w') = Instance.mIsAddedToCircuit (cmp w) →
  Instance.mUuid (cmp w') = Instance.mUuid (cmp w) →
  Instance.mCircuit (cmp w') = Instance.mCircuit (cmp w) →
  Instance.mLibComponent (cmp w') = Instance.mLibComponent (cmp w) →
  instanceTidy (cmp w') →
  coherent w'.
Proof.
  intros (Hflags & Hbound & Htidy & [Hlib1 Hlib2] & _) Hnets Hsig Hkeys
    Ha Hu Hc Hl Hinst.
  split; [|split; [|split; [|split; [split|]]]]; [| | | | |done].
  - intros k s' Hk'. destruct (Hsig k s' Hk') as (s & Hk & _ & Has & _).
    rewrite Has, Ha. by apply (Hflags k).
  - intros k s' n Hk' Hadded Hn.
    destruct (Hsig k s' Hk') as (s & Hk & _ & Has & Hns & _).
    rewrite Has in Hadded. rewrite Hns in Hn.
    destruct (Hbound k s n Hk Hadded Hn) as (net & Hnet & Hin).
    specialize (Hnets n). rewrite Hnet in Hnets.
    destruct (nets w' !! n) as [net'|]; [|done].
    injection Hnets as Hreg. exists net'. split; [done|].
    unfold ComponentSignalInstance.self in *. by rewrite Hreg, Hu.
  - intros k s' Hk'. destruct (Hsig k s' Hk') as (s & Hk & Hskel).
    rewrite Hc. apply (sameSkeleton_tidy _ s); [done|]. by apply (Htidy k).
  - intros k s' Hk'. destruct (Hsig k s' Hk') as (s & Hk & Hcs & _).
    rewrite Hcs, Hl. by apply Hlib1.
  - intros signal Hin. rewrite Hl in Hin. by apply Hkeys, Hlib2.
Qed.

Lemma coherent_set_cmp w c' :
  coherent w →
  Instance.mSignals c' = Instance.mSignals (cmp w) →
  Instance.mIsAddedToCircuit c' = Instance.mIsAddedToCircuit (cmp w) →
  Instance.mUuid c' = Instance.mUuid (cmp w) →
  Instance.mCircuit c' = Instance.mCircuit (cmp w) →
  Instance.mLibComponent c' = Instance.mLibComponent (cmp w) →
  instanceTidy c' →
  coherent (set_cmp c' w).
Proof.
  intros Hco Hs Ha Hu Hc Hl Hinst.
  apply (coherent_frame w); try done.
  - intros k s' Hk'. simpl in Hk'. rewrite Hs in Hk'. exists s'.
    split; [done|apply sameSkeleton_refl].
  - intros k. simpl. by rewrite Hs.
Qed.

Lemma coherent_replaceSignal w k s s' :
  coherent w →
  Instance.mSignals (cmp w) !! k = Some s →
  Signal.mComponentSignal s' = Signal.mComponentSignal s →
  Signal.mIsAddedToCircuit s' = Signal.mIsAddedToCircuit s →
  Signal.mNetSignal s' = Signal.mNetSignal s →
  signalTidy (Instance.mCircuit (cmp w)) s' →
  coherent (replaceSignal k s' w).
Proof.
  intros (Hflags & Hbound & Htidy & [Hlib1 Hlib2] & Hinst) Hk Hcs Ha Hn Ht.
  assert (Hlookup : ∀ k' s0,
            Instance.mSignals (cmp (replaceSignal k s' w)) !! k' = Some s0 →
            (k' = k ∧ s0 = s')
            ∨ (k' ≠ k ∧ Instance.mSignals (cmp w) !! k' = Some s0)).
  { intros k' s0. simpl. intros Hk'.
    apply lookup_insert_Some in Hk' as [[<- <-]|[Hne Hk']]; [by left|].
    right. split; [by intros ->|done]. }
  split; [|split; [|split; [|split; [split|]]]].
  - intros k' s0 Hk'. destruct (Hlookup k' s0 Hk') as [[-> ->]|[_ Hold]].
    + rewrite Ha. by apply (Hflags k).
    + by apply (Hflags k').
  - intros k' s0 n Hk' Hadded Hnet.
    destruct (Hlookup k' s0 Hk') as [[-> ->]|[_ Hold]].
    + rewrite Ha in Hadded. rewrite Hn in Hnet.
      exact (Hbound k s n Hk Hadded Hnet).
    + exact (Hbound k' s0 n Hold Hadded Hnet).
  - intros k' s0 Hk'. destruct (Hlookup k' s0 Hk') as [[-> ->]|[_ Hold]].
    + exact Ht.
    + by apply (Htidy k').
  - intros k' s0 Hk'. destruct (Hlookup k' s0 Hk') as [[-> ->]|[_ Hold]].
    + rewrite Hcs. by apply Hlib1.
    + by apply Hlib1.
  - intros signal Hin. simpl.
    destruct (decide (k = sig_getUuid signal)) as [<-|Hne].
    + rewrite lookup_insert_eq. eauto.
    + rewrite lookup_insert_ne by done. by apply Hlib2.
  - by apply instanceTidy_signals.
Qed.
(** *** Coherence is kept by the registration of pins, pads, symbols and
    devices *)

Lemma NoDup_snoc {A} (l : list A) (x : A) : NoDup l → x ∉ l → NoDup (l ++ [x]).
Proof.
  intros Hl Hx. apply NoDup_app. split; [done|]. split.
  - intros y Hy [->|[]%elem_of_nil]%elem_of_cons. done.
  - apply NoDup_singleton.
Qed.

Lemma registerSymbolPin_coherent k pin w w' :
  coherent w →
  ComponentSignalInstance.registerSymbolPin k pin w = Returned () w' →
  coherent w'.
Proof.
  intros Hco Hrun.
  destruct (Instance.mSignals (cmp w) !! k) as [s|] eqn:Hk.
  2:{ unfold ComponentSignalInstance.registerSymbolPin in Hrun.
      rewrite bind_unfold, signal_method_aborts_without_signal in Hrun; done. }
  rewrite (registerSymbolPin_run k s) in Hrun by done.
  destruct (Signal.mIsAddedToCircuit s) eqn:Hadded; [|done].
  case_bool_decide as Hcirc; [|done].
  destruct (containsPtr pin_addr pin _) eqn:Hcont; [done|].
  cbn [negb orb] in Hrun. injection Hrun as <-.
  apply containsPtr_false in Hcont.
  pose proof Hco as (_ & _ & Htidy & _).
  destruct (Htidy k s Hk) as (Hp & Hq & Hpc & Hqc & _).
  apply (coherent_replaceSignal w k s); try done.
  split; [by apply NoDup_fmap_snoc|]. split; [exact Hq|]. split; [|split].
  - intros pin' [Hin|Hin]%elem_of_app; [by apply Hpc|].
    apply list_elem_of_singleton in Hin as ->. done.
  - exact Hqc.
  - intros Habs. simpl in Habs. congruence.
Qed.

Lemma unregisterSymbolPin_coherent k pin w w' :
  coherent w →
  ComponentSignalInstance.unregisterSymbolPin k pin w = Returned () w' →
  coherent w'.
Proof.
  intros Hco Hrun.
  destruct (Instance.mSignals (cmp w) !! k) as [s|] eqn:Hk.
  2:{ unfold ComponentSignalInstance.unregisterSymbolPin in Hrun.
      rewrite bind_unfold, signal_method_aborts_without_signal in Hrun; done. }
  rewrite (unregisterSymbolPin_run k s) in Hrun by done.
  destruct (Signal.mIsAddedToCircuit s) eqn:Hadded; [|done].
  destruct (containsPtr pin_addr pin _) eqn:Hcont; [|done].
  cbn [negb orb] in Hrun. injection Hrun as <-.
  pose proof Hco as (_ & _ & Htidy & _).
  destruct (Htidy k s Hk) as (Hp & Hq & Hpc & Hqc & _).
  apply (coherent_replaceSignal w k s); try done.
  split; [by apply removeOnePtr_NoDup|]. split; [exact Hq|]. split; [|split].
  - intros pin' Hin. by apply Hpc, (elem_of_removeOnePtr pin_addr pin).
  - exact Hqc.
  - intros Habs. simpl in Habs. congruence.
Qed.

Lemma registerFootprintPad_coherent k pad w w' :
  coherent w →
  ComponentSignalInstance.registerFootprintPad k pad w = Returned () w' →
  coherent w'.
Proof.
  intros Hco Hrun.
  destruct (Instance.mSignals (cmp w) !! k) as [s|] eqn:Hk.
  2:{ unfold ComponentSignalInstance.registerFootprintPad in Hrun.
      rewrite bind_unfold, signal_method_aborts_without_signal in Hrun; done. }
  rewrite (registerFootprintPad_run k s) in Hrun by done.
  destruct (Signal.mIsAddedToCircuit s) eqn:Hadded; [|done].
  case_bool_decide as Hcirc; [|done].
  destruct (containsPtr pad_addr pad _) eqn:Hcont; [done|].
  cbn [negb orb] in Hrun. injection Hrun as <-.
  apply containsPtr_false in Hcont.
  pose proof Hco as (_ & _ & Htidy & _).
  destruct (Htidy k s Hk) as (Hp & Hq & Hpc & Hqc & _).
  apply (coherent_replaceSignal w k s); try done.
  split; [exact Hp|]. split; [by apply NoDup_fmap_snoc|]. split; [|split].
  - exact Hpc.
  - intros pad' [Hin|Hin]%elem_of_app; [by apply Hqc|].
    apply list_elem_of_singleton in Hin as ->. done.
  - intros Habs. simpl in Habs. congruence.
Qed.

Lemma unregisterFootprintPad_coherent k pad w w' :
  coherent w →
  ComponentSignalInstance.unregisterFootprintPad k pad w = Returned () w' →
  coherent w'.
Proof.
  intros Hco Hrun.
  destruct (Instance.mSignals (cmp w) !! k) as [s|] eqn:Hk.
  2:{ unfold ComponentSignalInstance.unregisterFootprintPad in Hrun.
      rewrite bind_unfold, signal_method_aborts_without_signal in Hrun; done. }
  rewrite (unregisterFootprintPad_run k s) in Hrun by done.
  destruct (Signal.mIsAddedToCircuit s) eqn:Hadded; [|done].
  destruct (containsPtr pad_addr pad _) eqn:Hcont; [|done].
  cbn [negb orb] in Hrun. injection Hrun as <-.
  pose proof Hco as (_ & _ & Htidy & _).
  destruct (Htidy k s Hk) as (Hp & Hq & Hpc & Hqc & _).
  apply (coherent_replaceSignal w k s); try done.
  split; [exact Hp|]. split; [by apply removeOnePtr_NoDup|]. split; [|split].
  - exact Hpc.
  - intros pad' Hin. by apply Hqc, (elem_of_removeOnePtr pad_addr pad).
  - intros Habs. simpl in Habs. congruence.
Qed.

Lemma findSymbolItem_true c k :
  ComponentInstance.findSymbolItem c k = true
  ↔ ∃ item, item ∈ getSymbolItems (Instance.mCompSymbVar c)
            ∧ item_getUuid item = k.
Proof.
  unfold ComponentInstance.findSymbolItem. rewrite existsb_exists.
  split.
  - intros (item & Hin & Heq). exists item.
    split; [by apply list_elem_of_In|]. by apply bool_decide_eq_true in Heq.
  - intros (item & Hin & Heq). exists item.
    split; [by apply list_elem_of_In|]. by apply bool_decide_eq_true.
Qed.

Lemma registerSymbol_coherent symbol w w' :
  coherent w →
  ComponentInstance.registerSymbol symbol w = Returned () w' → coherent w'.
Proof.
  intros Hco Hrun.
  pose proof Hco as (_ & _ & _ & _ & Hsym & Hdev & Herc & Hname & Hvar).
  assert (Hres : Instance.mIsAddedToCircuit (cmp w) = true
            ∧ sym_getCircuit symbol = Instance.mCircuit (cmp w)
            ∧ ComponentInstance.findSymbolItem (cmp w)
                (item_getUuid (sym_getCompSymbVarItem symbol)) = true
            ∧ w' = set_cmp (ComponentInstance.updateErcMessages_body
                       (Instance.set_mRegisteredSymbols
                          (<[item_getUuid (sym_getCompSymbVarItem symbol)
                             := symbol]>
                             (Instance.mRegisteredSymbols (cmp w)))
                          (cmp w))) w).
  { rewrite registerSymbol_run in Hrun. cbv zeta in Hrun.
    destruct (Instance.mIsAddedToCircuit (cmp w)); [|done].
    case_bool_decide as Hcirc; [|done]. cbn [negb orb] in Hrun.
    destruct (ComponentInstance.findSymbolItem _ _); [|done].
    cbn [negb] in Hrun.
    destruct (Instance.isRegistered _ _); [done|].
    destruct ((map_to_list _).*2).
    - by injection Hrun as <-.
    - destruct (negb _); [done|]. by injection Hrun as <-. }
  destruct Hres as (Hadded & Hcirc & Hitem & ->).
  apply coherent_set_cmp; try done.
  apply instanceTidy_body; try done.
  intros k symbol' Hk. simpl in Hk.
  apply lookup_insert_Some in Hk as [[<- <-]|[Hne Hk]].
  - done.
  - by apply Hsym.
Qed.

Lemma unregisterSymbol_coherent symbol w w' :
  coherent w →
  ComponentInstance.unregisterSymbol symbol w = Returned () w' → coherent w'.
Proof.
  intros Hco Hrun.
  pose proof Hco as (_ & _ & _ & _ & Hsym & Hdev & Herc & Hname & Hvar).
  rewrite unregisterSymbol_run in Hrun. cbv zeta in Hrun.
  destruct (_ || _); [done|]. injection Hrun as <-.
  apply coherent_set_cmp; try done.
  apply instanceTidy_body; try done.
  intros k symbol' Hk. simpl in Hk.
  apply lookup_delete_Some in Hk as [Hne Hk]. by apply Hsym.
Qed.

Lemma registerDevice_coherent device w w' :
  coherent w →
  ComponentInstance.registerDevice device w = Returned () w' → coherent w'.
Proof.
  intros Hco Hrun.
  pose proof Hco as (_ & _ & _ & _ & Hsym & Hdev & Herc & Hname & Hvar).
  rewrite registerDevice_run in Hrun. cbv zeta in Hrun.
  destruct (Instance.mIsAddedToCircuit (cmp w)); [|done].
  case_bool_decide as Hcirc; [|done].
  destruct (contains device _) eqn:Hcont; [done|].
  destruct (cmp_isSchematicOnly _) eqn:Hso; [done|].
  cbn [negb orb] in Hrun. injection Hrun as <-.
  apply contains_false in Hcont.
  destruct Hdev as (Hnd & Hdc & _).
  apply coherent_set_cmp; try done.
  apply instanceTidy_body; try done.
  split; [by apply NoDup_snoc|]. split.
  - intros d [Hin|Hin]%elem_of_app; [by apply Hdc|].
    apply list_elem_of_singleton in Hin as ->. done.
  - simpl. congruence.
Qed.

Lemma unregisterDevice_coherent device w w' :
  coherent w →
  ComponentInstance.unregisterDevice device w = Returned () w' → coherent w'.
Proof.
  intros Hco Hrun.
  pose proof Hco as (_ & _ & _ & _ & Hsym & Hdev & Herc & Hname & Hvar).
  rewrite unregisterDevice_run in Hrun. cbv zeta in Hrun.
  destruct (_ || _); [done|]. injection Hrun as <-.
  destruct Hdev as (Hnd & Hdc & Hso).
  apply coherent_set_cmp; try done.
  apply instanceTidy_body; try done.
  split; [by apply removeOne_NoDup|]. split.
  - intros d Hin. by apply Hdc, (elem_of_removeOne device).
  - intros Hs. simpl. rewrite (Hso Hs). reflexivity.
Qed.

(** *** Coherence is kept by the setters and by the renaming of a net
    signal *)

Lemma emit_attributesChanged_coherent w w' :
  netsClosed w → coherent w →
  ComponentInstance.emit_attributesChanged w = Returned () w' → coherent w'.
Proof.
  intros Hclosed Hco Hrun.
  destruct (emit_attributesChanged_run w Hclosed)
    as (w'' & Hrun' & Hnets & Hcmp & Hsig & Hnone).
  rewrite Hrun in Hrun'. injection Hrun' as <-.
  apply (coherent_frame w); try done.
  - intros n. by rewrite Hnets.
  - intros k s' Hk'.
    destruct (Instance.mSignals (cmp w) !! k) as [s|] eqn:Hk.
    + rewrite (Hsig k s Hk) in Hk'. injection Hk' as <-. exists s.
      split; [done|apply sameSkeleton_refreshed].
    + by rewrite (Hnone k Hk) in Hk'.
  - intros k [s Hk]. rewrite (Hsig k s Hk). eauto.
  - by rewrite Hcmp.
  - by rewrite Hcmp.
  - by rewrite Hcmp.
  - by rewrite Hcmp.
  - rewrite Hcmp. apply instanceTidy_signals. apply Hco.
Qed.

Lemma netsClosed_set_cmp w c' :
  netsClosed w → Instance.mSignals c' = Instance.mSignals (cmp w) →
  netsClosed (set_cmp c' w).
Proof. intros Hclosed Hs k s n Hk Hn. simpl in *. rewrite Hs in Hk. eauto. Qed.

Lemma setName_coherent name w w' :
  netsClosed w → coherent w →
  ComponentInstance.setName name w = Returned () w' → coherent w'.
Proof.
  intros Hclosed Hco. unfold ComponentInstance.setName. run.
  case_bool_decide as Hsame; [by intros [= <-]|]. cbn [negb].
  destruct (isEmpty name) eqn:Hempty; [done|]. run.
  rewrite instance_updateErcMessages_run. run. intros Hrun.
  apply bool_decide_eq_false in Hempty.
  refine (emit_attributesChanged_coherent
            (set_cmp (ComponentInstance.updateErcMessages_body
                        (Instance.set_mName name (cmp w))) w) w' _ _ Hrun).
  - by apply netsClosed_set_cmp.
  - apply coherent_set_cmp; try done.
    apply instanceTidy_name; [done|apply Hco].
Qed.

Lemma setValue_coherent value w w' :
  netsClosed w → coherent w →
  ComponentInstance.setValue value w = Returned () w' → coherent w'.
Proof.
  intros Hclosed Hco. unfold ComponentInstance.setValue. run.
  case_bool_decide as Hsame; [by intros [= <-]|]. cbn [negb]. run.
  intros Hrun.
  refine (emit_attributesChanged_coherent _ w' _ _ Hrun).
  - by apply netsClosed_set_cmp.
  - apply coherent_set_cmp; try done. apply instanceTidy_value, Hco.
Qed.

Lemma setAttributes_coherent attributes w w' :
  netsClosed w → coherent w →
  ComponentInstance.setAttributes attributes w = Returned () w' → coherent w'.
Proof.
  intros Hclosed Hco. unfold ComponentInstance.setAttributes. run.
  case_bool_decide as Hsame; [by intros [= <-]|]. cbn [negb]. run.
  intros Hrun.
  refine (emit_attributesChanged_coherent _ w' _ _ Hrun).
  - by apply netsClosed_set_cmp.
  - apply coherent_set_cmp; try done. apply instanceTidy_attributes, Hco.
Qed.

Lemma renameNet_frame n name w w' :
  netsClosed w →
  NetSignalEvents.setName n name w = Returned () w' →
  ∃ net, nets w !! n = Some net
    ∧ nets w' = <[n := {| net_getName := name;
                         net_registered := net_registered net |}]> (nets w)
    ∧ emitted w' = nameChanged n name :: emitted w
    ∧ cmp w' = Instance.set_mSignals (Instance.mSignals (cmp w')) (cmp w)
    ∧ (∀ k s, Instance.mSignals (cmp w) !! k = Some s →
         ∃ s', Instance.mSignals (cmp w') !! k = Some s' ∧ sameSkeleton s s'
               ∧ Signal.nameChangedConnections s'
                 = Signal.nameChangedConnections s)
    ∧ (∀ k, Instance.mSignals (cmp w) !! k = None →
            Instance.mSignals (cmp w') !! k = None).
Proof.
  intros Hclosed. unfold NetSignalEvents.setName. run. unfold getNet.
  destruct (nets w !! n) as [net|] eqn:Hnet; [|done]. run.
  unfold putNet, emit. run.
  set (net' := {| net_getName := name;
                  net_registered := net_registered net |}).
  set (w0 := set_emitted _ _).
  set (p := λ s : Signal.t, bool_decide (n ∈ Signal.nameChangedConnections s)).
  change (set_cmp _ _) with w0.
  destruct (signalKeys_spec (cmp w)) as [Hnd Hkeys].
  assert (Hclosed0 : netsClosed w0).
  { intros k s m Hk Hm. unfold w0. simpl.
    destruct (decide (n = m)) as [<-|Hne];
      [rewrite lookup_insert_eq; eauto|rewrite lookup_insert_ne by done].
    eauto. }
  destruct (forEach_refreshIf p (ComponentInstance.signalKeys (cmp w)) w0 Hnd)
    as (w'' & Hrun & Hnets & Hem & Hcmp & Hsig & Hnone).
  { intros k Hk. by apply Hkeys. }
  { done. }
  change (forEach _ (ComponentInstance.signalKeys (cmp w0)) w0)
    with (forEach (refreshIf p) (ComponentInstance.signalKeys (cmp w)) w0).
  rewrite Hrun. intros [= <-].
  exists net. split; [done|]. split; [done|]. split; [done|].
  split; [done|]. split; [|done].
  intros k s Hk. rewrite (Hsig k s Hk). eexists. split; [done|].
  destruct (_ && _); [|by repeat split]. split; [|done].
  apply sameSkeleton_refreshed.
Qed.

Lemma renameNet_coherent n name w w' :
  netsClosed w → coherent w →
  NetSignalEvents.setName n name w = Returned () w' → coherent w'.
Proof.
  intros Hclosed Hco Hrun.
  destruct (renameNet_frame n name w w' Hclosed Hrun)
    as (net & Hnet & Hnets & _ & Hcmp & Hsig & Hnone).
  apply (coherent_frame w); try done.
  - intros m. rewrite Hnets.
    destruct (decide (n = m)) as [<-|Hne].
    + by rewrite lookup_insert_eq, Hnet.
    + by rewrite lookup_insert_ne.
  - intros k s' Hk'.
    destruct (Instance.mSignals (cmp w) !! k) as [s|] eqn:Hk.
    + destruct (Hsig k s Hk) as (s'' & Hk'' & Hskel & _).
      rewrite Hk' in Hk''. injection Hk'' as <-. eauto.
    + by rewrite (Hnone k Hk) in Hk'.
  - intros k [s Hk]. destruct (Hsig k s Hk) as (s' & -> & _). eauto.
  - by rewrite Hcmp.
  - by rewrite Hcmp.
  - by rewrite Hcmp.
  - by rewrite Hcmp.
  - rewrite Hcmp. apply instanceTidy_signals. apply Hco.
Qed.

(** *** The loops of [addToCircuit] and [removeFromCircuit], step by step *)

Lemma guarded_returned {A} sgl (call : M A) w a w' :
  guarded sgl call w = Returned a w' ↔ call w = Returned a w'.
Proof.
  unfold guarded. destruct (call w) as [a0 w0|e w0|]; [done| |done].
  by destruct (sgl_run sgl w0).
Qed.

Lemma addToCircuit_loop_cons k rest sgl w w' :
  ComponentInstance.addToCircuit_loop (k :: rest) sgl w = Returned () w'
  ↔ ∃ w1, ComponentSignalInstance.addToCircuit k w = Returned () w1
          ∧ ComponentInstance.addToCircuit_loop rest
              (sgl_add (ComponentSignalInstance.removeFromCircuit k) sgl) w1
            = Returned () w'.
Proof.
  cbn [ComponentInstance.addToCircuit_loop]. rewrite bind_unfold.
  destruct (guarded sgl (ComponentSignalInstance.addToCircuit k) w)
    as [[] w1|e w1|] eqn:Hg.
  - apply guarded_returned in Hg. rewrite Hg. split; [eauto|].
    by intros (w2 & [= <-] & Hrest).
  - split; [done|]. intros (w2 & Hstep & _).
    apply (guarded_returned sgl) in Hstep. congruence.
  - split; [done|]. intros (w2 & Hstep & _).
    apply (guarded_returned sgl) in Hstep. congruence.
Qed.

Lemma removeFromCircuit_loop_cons k rest sgl w w' :
  ComponentInstance.removeFromCircuit_loop (k :: rest) sgl w = Returned () w'
  ↔ ∃ w1, ComponentSignalInstance.removeFromCircuit k w = Returned () w1
          ∧ ComponentInstance.removeFromCircuit_loop rest
              (sgl_add (ComponentSignalInstance.addToCircuit k) sgl) w1
            = Returned () w'.
Proof.
  cbn [ComponentInstance.removeFromCircuit_loop]. rewrite bind_unfold.
  destruct (guarded sgl (ComponentSignalInstance.removeFromCircuit k) w)
    as [[] w1|e w1|] eqn:Hg.
  - apply guarded_returned in Hg. rewrite Hg. split; [eauto|].
    by intros (w2 & [= <-] & Hrest).
  - split; [done|]. intros (w2 & Hstep & _).
    apply (guarded_returned sgl) in Hstep. congruence.
  - split; [done|]. intros (w2 & Hstep & _).
    apply (guarded_returned sgl) in Hstep. congruence.
Qed.

Lemma signalAdded_nets k s w n :
  nets (signalAdded k s w) !! n
  = (λ net, if bool_decide (Signal.mNetSignal s = Some n)
            then bindSignal (ComponentSignalInstance.self (cmp w) k) net
            else net) <$> nets w !! n.
Proof.
  unfold signalAdded. destruct (Signal.mNetSignal s) as [m|].
  - case_bool_decide as Hb.
    + injection Hb as ->. destruct (nets w !! n) as [net|] eqn:Hn.
      * simpl. by rewrite lookup_insert_eq.
      * simpl. by rewrite Hn.
    + destruct (nets w !! m) as [net|] eqn:Hm.
      * simpl. rewrite lookup_insert_ne by congruence.
        by destruct (nets w !! n).
      * simpl. by destruct (nets w !! n).
  - case_bool_decide; [done|]. simpl. by destruct (nets w !! n).
Qed.

Lemma signalRemoved_nets k s w n :
  nets (signalRemoved k s w) !! n
  = (λ net, if bool_decide (Signal.mNetSignal s = Some n)
            then unbindSignal (ComponentSignalInstance.self (cmp w) k) net
            else net) <$> nets w !! n.
Proof.
  unfold signalRemoved. destruct (Signal.mNetSignal s) as [m|].
  - case_bool_decide as Hb.
    + injection Hb as ->. destruct (nets w !! n) as [net|] eqn:Hn.
      * simpl. by rewrite lookup_insert_eq.
      * simpl. by rewrite Hn.
    + destruct (nets w !! m) as [net|] eqn:Hm.
      * simpl. rewrite lookup_insert_ne by congruence.
        by destruct (nets w !! n).
      * simpl. by destruct (nets w !! n).
  - case_bool_decide; [done|]. simpl. by destruct (nets w !! n).
Qed.

Lemma signalAdded_cmp k s w :
  cmp (signalAdded k s w)
  = Instance.set_mSignals (<[k := flagged w true s]> (Instance.mSignals (cmp w)))
      (cmp w).
Proof.
  unfold signalAdded.
  by destruct (Signal.mNetSignal s) as [m|]; [destruct (nets w !! m)|].
Qed.

Lemma signalRemoved_cmp k s w :
  cmp (signalRemoved k s w)
  = Instance.set_mSignals
      (<[k := flagged w false s]> (Instance.mSignals (cmp w))) (cmp w).
Proof.
  unfold signalRemoved.
  by destruct (Signal.mNetSignal s) as [m|]; [destruct (nets w !! m)|].
Qed.

Lemma signalAdded_emitted k s w : emitted (signalAdded k s w) = emitted w.
Proof.
  unfold signalAdded.
  by destruct (Signal.mNetSignal s) as [m|]; [destruct (nets w !! m)|].
Qed.

Lemma signalRemoved_emitted k s w : emitted (signalRemoved k s w) = emitted w.
Proof.
  unfold signalRemoved.
  by destruct (Signal.mNetSignal s) as [m|]; [destruct (nets w !! m)|].
Qed.

Lemma self_inj c k k' :
  ComponentSignalInstance.self c k = ComponentSignalInstance.self c k' →
  k = k'.
Proof. unfold ComponentSignalInstance.self. by intros [= ->]. Qed.

Lemma refsOf_nil w n x : ¬ refsOf w [] n x.
Proof. by intros (k & s & []%elem_of_nil & _). Qed.

Lemma refsOf_cons_added k s rest w n x :
  k ∉ rest →
  Instance.mSignals (cmp w) !! k = Some s →
  refsOf w (k :: rest) n x
  ↔ (Signal.mNetSignal s = Some n
     ∧ x = ComponentSignalInstance.self (cmp w) k)
    ∨ refsOf w rest n x.
Proof.
  intros Hk_rest Hk. split.
  - intros (k' & s' & [->|Hin]%elem_of_cons & Hk' & Hn & ->).
    + rewrite Hk in Hk'. injection Hk' as <-. by left.
    + right. by exists k', s'.
  - intros [[Hn ->]|(k' & s' & Hin & Hk' & Hn & ->)].
    + exists k, s. split; [by left|done].
    + exists k', s'. split; [by right|done].
Qed.

(** The signal instances that a step leaves alone look the same from the
    next world. *)
Lemma refsOf_step w w1 k rest n x :
  k ∉ rest →
  Instance.mUuid (cmp w1) = Instance.mUuid (cmp w) →
  (∀ k', k' ≠ k →
         Instance.mSignals (cmp w1) !! k' = Instance.mSignals (cmp w) !! k') →
  refsOf w1 rest n x ↔ refsOf w rest n x.
Proof.
  intros Hk_rest Hu Hsig. unfold refsOf, ComponentSignalInstance.self.
  rewrite Hu. split.
  - intros (k' & s' & Hin & Hk' & Hn & ->). exists k', s'.
    rewrite <- Hsig; [done|]. by intros ->.
  - intros (k' & s' & Hin & Hk' & Hn & ->). exists k', s'.
    rewrite Hsig; [done|]. by intros ->.
Qed.

Lemma addToCircuit_loop_returned signals :
  ∀ sgl w w',
    NoDup signals →
    (∀ k, k ∈ signals → is_Some (Instance.mSignals (cmp w) !! k)) →
    netsClosed w →
    ComponentInstance.addToCircuit_loop signals sgl w = Returned () w' →
    (∀ k s, k ∈ signals → Instance.mSignals (cmp w) !! k = Some s →
       Signal.mIsAddedToCircuit s = false ∧ Signal.isUsed s = false
       ∧ ∀ n net, Signal.mNetSignal s = Some n → nets w !! n = Some net →
           ComponentSignalInstance.self (cmp w) k ∉ net_registered net)
    ∧ (∀ n net, nets w !! n = Some net →
         ∃ net', nets w' !! n = Some net'
                 ∧ net_getName net' = net_getName net
                 ∧ ∀ x, x ∈ net_registered net'
                        ↔ x ∈ net_registered net ∨ refsOf w signals n x)
    ∧ (∀ n, nets w !! n = None → nets w' !! n = None).
Proof.
  induction signals as [|k rest IH]; intros sgl w w' Hnd Hkeys Hclosed Hrun.
  { simpl in Hrun. injection Hrun as <-.
    split; [by intros k s ?%elem_of_nil|]. split; [|done].
    intros n net Hn. exists net. split; [done|]. split; [done|].
    intros x. split; [by left|]. intros [?|?%refsOf_nil]; done. }
  apply NoDup_cons in Hnd as [Hk_rest Hnd].
  destruct (Hkeys k) as [s Hk]; [by left|].
  apply addToCircuit_loop_cons in Hrun as (w1 & Hstep & Hrun).
  destruct (csi_addToCircuit_cases k s w Hclosed Hk)
    as [Hthrow | (Hret & Hadded & Hused & Hfresh)]; [congruence|].
  rewrite Hret in Hstep. injection Hstep as <-.
  set (w1 := signalAdded k s w) in *.
  assert (Hsig1 : ∀ k', k' ≠ k →
            Instance.mSignals (cmp w1) !! k'
            = Instance.mSignals (cmp w) !! k').
  { intros k' Hne. unfold w1. by rewrite signalAdded_lookup_ne. }
  assert (Hu1 : Instance.mUuid (cmp w1) = Instance.mUuid (cmp w)).
  { unfold w1. by rewrite signalAdded_cmp. }
  apply IH in Hrun as (Hpre & Hnets & Hnone); [|done| |].
  2:{ intros k' Hk'. rewrite Hsig1; [apply Hkeys; by right|by intros ->]. }
  2:{ by apply signalAdded_closed. }
  split; [|split].
  - intros k' s' [->|Hin]%elem_of_cons Hk'.
    + rewrite Hk in Hk'. by injection Hk' as <-.
    + assert (Hne : k' ≠ k) by (by intros ->).
      destruct (Hpre k' s' Hin) as (Ha & Hu & Hf);
        [by rewrite Hsig1|].
      split; [done|]. split; [done|]. intros n net Hn Hnet Hself.
      apply (Hf n (if bool_decide (Signal.mNetSignal s = Some n)
                   then bindSignal (ComponentSignalInstance.self (cmp w) k) net
                   else net) Hn).
      * unfold w1. by rewrite signalAdded_nets, Hnet.
      * unfold ComponentSignalInstance.self in *. rewrite Hu1.
        case_bool_decide; [|done]. simpl. set_solver.
  - intros n net Hn.
    destruct (Hnets n (if bool_decide (Signal.mNetSignal s = Some n)
                       then bindSignal (ComponentSignalInstance.self (cmp w) k)
                              net
                       else net)) as (net' & Hn' & Hname & Hreg).
    { unfold w1. by rewrite signalAdded_nets, Hn. }
    exists net'. split; [done|]. split.
    { rewrite Hname. by case_bool_decide. }
    intros x. rewrite Hreg, (refsOf_cons_added k s) by done.
    rewrite (refsOf_step w w1 k) by done.
    case_bool_decide as Hb; simpl; [set_solver|]. naive_solver.
  - intros n Hn. apply Hnone. unfold w1.
    by rewrite signalAdded_nets, Hn.
Qed.

Lemma addToCircuit_loop_succeeds signals :
  ∀ sgl w,
    NoDup signals →
    (∀ k, k ∈ signals → is_Some (Instance.mSignals (cmp w) !! k)) →
    netsClosed w →
    (∀ k s, k ∈ signals → Instance.mSignals (cmp w) !! k = Some s →
       Signal.mIsAddedToCircuit s = false ∧ Signal.isUsed s = false
       ∧ ∀ n net, Signal.mNetSignal s = Some n → nets w !! n = Some net →
           ComponentSignalInstance.self (cmp w) k ∉ net_registered net) →
    ∃ w', ComponentInstance.addToCircuit_loop signals sgl w = Returned () w'.
Proof.
  induction signals as [|k rest IH]; intros sgl w Hnd Hkeys Hclosed Hpre.
  { by exists w. }
  apply NoDup_cons in Hnd as [Hk_rest Hnd].
  destruct (Hkeys k) as [s Hk]; [by left|].
  destruct (Hpre k s) as (Hadded & Hused & Hfresh); [by left|done|].
  set (w1 := signalAdded k s w).
  assert (Hstep : ComponentSignalInstance.addToCircuit k w = Returned () w1).
  { rewrite (csi_addToCircuit_run k s) by done. rewrite Hadded, Hused.
    cbn [orb]. unfold w1, signalAdded.
    destruct (Signal.mNetSignal s) as [n|] eqn:Hn; [|done].
    destruct (Hclosed k s n Hk Hn) as [net Hnet]. rewrite Hnet.
    rewrite bool_decide_eq_false_2; [done|]. by apply (Hfresh n). }
  assert (Hsig1 : ∀ k', k' ≠ k →
            Instance.mSignals (cmp w1) !! k'
            = Instance.mSignals (cmp w) !! k').
  { intros k' Hne. unfold w1. by rewrite signalAdded_lookup_ne. }
  destruct (IH (sgl_add (ComponentSignalInstance.removeFromCircuit k) sgl) w1)
    as [w' Hrun]; [done| | | |].
  - intros k' Hk'. rewrite Hsig1; [apply Hkeys; by right|by intros ->].
  - by apply signalAdded_closed.
  - intros k' s' Hin Hk'.
    assert (Hne : k' ≠ k) by (by intros ->).
    rewrite Hsig1 in Hk' by done.
    destruct (Hpre k' s') as (Ha & Hu & Hf); [by right|done|].
    split; [done|]. split; [done|]. intros n net1 Hn Hnet1.
    unfold w1 in Hnet1. rewrite signalAdded_nets in Hnet1.
    destruct (nets w !! n) as [net|] eqn:Hnet; [|done].
    injection Hnet1 as <-. unfold w1. rewrite signalAdded_cmp.
    change (ComponentSignalInstance.self (cmp w) k'
            ∉ net_registered
                (if bool_decide (Signal.mNetSignal s = Some n)
                 then bindSignal (ComponentSignalInstance.self (cmp w) k) net
                 else net)).
    specialize (Hf n net Hn Hnet).
    case_bool_decide; [|done]. simpl.
    assert (ComponentSignalInstance.self (cmp w) k'
            ≠ ComponentSignalInstance.self (cmp w) k)
      by (intros ?%self_inj; done).
    set_solver.
  - exists w'. apply addToCircuit_loop_cons. eauto.
Qed.

Lemma removeFromCircuit_loop_returned signals :
  ∀ sgl w w',
    NoDup signals →
    (∀ k, k ∈ signals → is_Some (Instance.mSignals (cmp w) !! k)) →
    netsClosed w →
    ComponentInstance.removeFromCircuit_loop signals sgl w = Returned () w' →
    (∀ k s, k ∈ signals → Instance.mSignals (cmp w) !! k = Some s →
       Signal.mIsAddedToCircuit s = true ∧ Signal.isUsed s = false
       ∧ ∀ n net, Signal.mNetSignal s = Some n → nets w !! n = Some net →
           ComponentSignalInstance.self (cmp w) k ∈ net_registered net)
    ∧ (∀ n net, nets w !! n = Some net →
         ∃ net', nets w' !! n = Some net'
                 ∧ net_getName net' = net_getName net
                 ∧ ∀ x, x ∈ net_registered net'
                        ↔ x ∈ net_registered net ∧ ¬ refsOf w signals n x)
    ∧ (∀ n, nets w !! n = None → nets w' !! n = None).
Proof.
  induction signals as [|k rest IH]; intros sgl w w' Hnd Hkeys Hclosed Hrun.
  { simpl in Hrun. injection Hrun as <-.
    split; [by intros k s ?%elem_of_nil|]. split; [|done].
    intros n net Hn. exists net. split; [done|]. split; [done|].
    intros x. split; [|by intros [? _]]. intros Hx. split; [done|].
    apply refsOf_nil. }
  apply NoDup_cons in Hnd as [Hk_rest Hnd].
  destruct (Hkeys k) as [s Hk]; [by left|].
  apply removeFromCircuit_loop_cons in Hrun as (w1 & Hstep & Hrun).
  destruct (csi_removeFromCircuit_cases k s w Hclosed Hk)
    as [[e Hthrow] | (Hret & Hadded & Hused & Hreg)]; [congruence|].
  rewrite Hret in Hstep. injection Hstep as <-.
  set (w1 := signalRemoved k s w) in *.
  assert (Hsig1 : ∀ k', k' ≠ k →
            Instance.mSignals (cmp w1) !! k'
            = Instance.mSignals (cmp w) !! k').
  { intros k' Hne. unfold w1. by rewrite signalRemoved_lookup_ne. }
  assert (Hu1 : Instance.mUuid (cmp w1) = Instance.mUuid (cmp w)).
  { unfold w1. by rewrite signalRemoved_cmp. }
  apply IH in Hrun as (Hpre & Hnets & Hnone); [|done| |].
  2:{ intros k' Hk'. rewrite Hsig1; [apply Hkeys; by right|by intros ->]. }
  2:{ by apply signalRemoved_closed. }
  split; [|split].
  - intros k' s' [->|Hin]%elem_of_cons Hk'.
    + rewrite Hk in Hk'. by injection Hk' as <-.
    + assert (Hne : k' ≠ k) by (by intros ->).
      destruct (Hpre k' s' Hin) as (Ha & Hu & Hf);
        [by rewrite Hsig1|].
      split; [done|]. split; [done|]. intros n net Hn Hnet.
      specialize (Hf n (if bool_decide (Signal.mNetSignal s = Some n)
                   then unbindSignal (ComponentSignalInstance.self (cmp w) k)
                          net
                   else net) Hn).
      unfold ComponentSignalInstance.self in *. rewrite Hu1 in Hf.
      assert (Hin' : (Instance.mUuid (cmp w), k')
                ∈ net_registered
                    (if bool_decide (Signal.mNetSignal s = Some n)
                     then unbindSignal (Instance.mUuid (cmp w), k) net
                     else net)).
      { apply Hf. unfold w1. by rewrite signalRemoved_nets, Hnet. }
      revert Hin'. case_bool_decide; [|done]. simpl. set_solver.
  - intros n net Hn.
    destruct (Hnets n (if bool_decide (Signal.mNetSignal s = Some n)
                       then unbindSignal
                              (ComponentSignalInstance.self (cmp w) k) net
                       else net)) as (net' & Hn' & Hname & Hreg').
    { unfold w1. by rewrite signalRemoved_nets, Hn. }
    exists net'. split; [done|]. split.
    { rewrite Hname. by case_bool_decide. }
    intros x. rewrite Hreg', (refsOf_cons_added k s) by done.
    rewrite (refsOf_step w w1 k) by done.
    case_bool_decide as Hb; simpl; [set_solver|]. naive_solver.
  - intros n Hn. apply Hnone. unfold w1.
    by rewrite signalRemoved_nets, Hn.
Qed.

Lemma removeFromCircuit_loop_succeeds signals :
  ∀ sgl w,
    NoDup signals →
    (∀ k, k ∈ signals → is_Some (Instance.mSignals (cmp w) !! k)) →
    netsClosed w →
    (∀ k s, k ∈ signals → Instance.mSignals (cmp w) !! k = Some s →
       Signal.mIsAddedToCircuit s = true ∧ Signal.isUsed s = false
       ∧ ∀ n net, Signal.mNetSignal s = Some n → nets w !! n = Some net →
           ComponentSignalInstance.self (cmp w) k ∈ net_registered net) →
    ∃ w', ComponentInstance.removeFromCircuit_loop signals sgl w
          = Returned () w'.
Proof.
  induction signals as [|k rest IH]; intros sgl w Hnd Hkeys Hclosed Hpre.
  { by exists w. }
  apply NoDup_cons in Hnd as [Hk_rest Hnd].
  destruct (Hkeys k) as [s Hk]; [by left|].
  destruct (Hpre k s) as (Hadded & Hused & Hreg); [by left|done|].
  set (w1 := signalRemoved k s w).
  assert (Hstep : ComponentSignalInstance.removeFromCircuit k w
                  = Returned () w1).
  { rewrite (csi_removeFromCircuit_run k s) by done. rewrite Hadded, Hused.
    cbn [negb]. unfold w1, signalRemoved.
    destruct (Signal.mNetSignal s) as [n|] eqn:Hn; [|done].
    destruct (Hclosed k s n Hk Hn) as [net Hnet]. rewrite Hnet.
    rewrite bool_decide_eq_true_2; [done|]. by apply (Hreg n). }
  assert (Hsig1 : ∀ k', k' ≠ k →
            Instance.mSignals (cmp w1) !! k'
            = Instance.mSignals (cmp w) !! k').
  { intros k' Hne. unfold w1. by rewrite signalRemoved_lookup_ne. }
  destruct (IH (sgl_add (ComponentSignalInstance.addToCircuit k) sgl) w1)
    as [w' Hrun]; [done| | | |].
  - intros k' Hk'. rewrite Hsig1; [apply Hkeys; by right|by intros ->].
  - by apply signalRemoved_closed.
  - intros k' s' Hin Hk'.
    assert (Hne : k' ≠ k) by (by intros ->).
    rewrite Hsig1 in Hk' by done.
    destruct (Hpre k' s') as (Ha & Hu & Hf); [by right|done|].
    split; [done|]. split; [done|]. intros n net1 Hn Hnet1.
    unfold w1 in Hnet1. rewrite signalRemoved_nets in Hnet1.
    destruct (nets w !! n) as [net|] eqn:Hnet; [|done].
    injection Hnet1 as <-. unfold w1. rewrite signalRemoved_cmp.
    change (ComponentSignalInstance.self (cmp w) k'
            ∈ net_registered
                (if bool_decide (Signal.mNetSignal s = Some n)
                 then unbindSignal (ComponentSignalInstance.self (cmp w) k)
                        net
                 else net)).
    specialize (Hf n net Hn Hnet).
    case_bool_decide; [|done]. simpl.
    assert (ComponentSignalInstance.self (cmp w) k'
            ≠ ComponentSignalInstance.self (cmp w) k)
      by (intros ?%self_inj; done).
    set_solver.
  - exists w'. apply removeFromCircuit_loop_cons. eauto.
Qed.

(** *** [addToCircuit] and [removeFromCircuit] of the component instance,
    evaluated *)

Lemma refsOf_signalKeys w n x :
  refsOf w (ComponentInstance.signalKeys (cmp w)) n x ↔ boundTo w n x.
Proof.
  destruct (signalKeys_spec (cmp w)) as [_ Hkeys]. split.
  - intros (k & s & _ & Hk & Hn & ->). by exists k, s.
  - intros (k & s & Hk & Hn & ->). exists k, s. split; [|done].
    apply Hkeys. eauto.
Qed.

Lemma world_ext w w' :
  nets w' = nets w → emitted w' = emitted w → cmp w' = cmp w → w' = w.
Proof. destruct w, w'. simpl. by intros -> -> ->. Qed.

Lemma netSignal_ext net net' :
  net_getName net' = net_getName net →
  (∀ x, x ∈ net_registered net' ↔ x ∈ net_registered net) →
  net' = net.
Proof.
  destruct net as [name R], net' as [name' R']. simpl. intros -> Hreg.
  f_equal. apply leibniz_equiv. by apply set_equiv.
Qed.

Lemma signals_not_used c k s :
  Instance.isUsed c = false → Instance.mSignals c !! k = Some s →
  Signal.isUsed s = false.
Proof.
  intros Hused Hk. destruct (Signal.isUsed s) eqn:Hs; [|done].
  assert (Hin : inUse c) by (right; right; eauto).
  apply isUsed_inUse in Hin. congruence.
Qed.

Lemma not_used_nothing_registered c :
  Instance.isUsed c = false →
  Instance.mRegisteredSymbols c = ∅ ∧ Instance.mRegisteredDevices c = [].
Proof.
  intros Hused. unfold Instance.isUsed in Hused.
  case_bool_decide as Hcount; [done|].
  unfold Instance.getRegisteredElementsCount in Hcount. split.
  - apply map_size_empty_iff. lia.
  - apply nil_length_inv. lia.
Qed.

(** What [addToCircuit] leaves behind when it returns. *)
Lemma addToCircuit_returned w w' :
  netsClosed w → signalErcUpToDate w →
  ComponentInstance.addToCircuit w = Returned () w' →
  Instance.mIsAddedToCircuit (cmp w) = false
  ∧ Instance.isUsed (cmp w) = false
  ∧ (∀ k s, Instance.mSignals (cmp w) !! k = Some s →
       Signal.mIsAddedToCircuit s = false ∧ Signal.isUsed s = false
       ∧ ∀ n net, Signal.mNetSignal s = Some n → nets w !! n = Some net →
           ComponentSignalInstance.self (cmp w) k ∉ net_registered net)
  ∧ (∀ n net, nets w !! n = Some net →
       ∃ net', nets w' !! n = Some net'
               ∧ net_getName net' = net_getName net
               ∧ ∀ x, x ∈ net_registered net'
                      ↔ x ∈ net_registered net ∨ boundTo w n x)
  ∧ (∀ n, nets w !! n = None → nets w' !! n = None)
  ∧ emitted w' = emitted w
  ∧ cmp w'
    = ComponentInstance.updateErcMessages_body
        (Instance.set_mIsAddedToCircuit true
           (Instance.set_mSignals (Instance.mSignals (cmp w')) (cmp w)))
  ∧ (∀ k s, Instance.mSignals (cmp w) !! k = Some s →
       Instance.mSignals (cmp w') !! k = Some (flagged w true s))
  ∧ (∀ k, Instance.mSignals (cmp w) !! k = None →
          Instance.mSignals (cmp w') !! k = None).
Proof.
  intros Hclosed Herc. unfold ComponentInstance.addToCircuit. run.
  destruct (Instance.mIsAddedToCircuit (cmp w)) eqn:Hadded; [done|].
  destruct (Instance.isUsed (cmp w)) eqn:Hused; [done|]. cbn [orb]. run.
  destruct (signalKeys_spec (cmp w)) as [Hnd Hkeys].
  pose proof (addToCircuit_loop_spec (ComponentInstance.signalKeys (cmp w))
                [] w w Hnd (λ k, proj1 (Hkeys k)) Hclosed Herc eq_refl)
    as Hloop.
  destruct (ComponentInstance.addToCircuit_loop _ [] w)
    as [[] w1|e w1|] eqn:Hrun; [|done|done].
  destruct Hloop as ((Hcmp & Hem & _) & _ & _ & Hin & Hout).
  destruct (addToCircuit_loop_returned _ [] w w1 Hnd
              (λ k, proj1 (Hkeys k)) Hclosed Hrun) as (Hpre & Hnets & Hnone).
  run. rewrite instance_updateErcMessages_run. intros [= <-].
  split; [done|]. split; [done|]. split.
  { intros k s Hk. apply Hpre; [|done]. apply Hkeys. eauto. }
  split.
  { intros n net Hn. destruct (Hnets n net Hn) as (net' & Hn' & Hname & Hreg).
    exists net'. split; [done|]. split; [done|]. intros x.
    by rewrite Hreg, refsOf_signalKeys. }
  split; [done|]. split; [done|]. split.
  { simpl. rewrite Hcmp at 1. reflexivity. }
  split.
  - intros k s Hk. destruct (Hin k) as (s0 & Hs0 & Hs1 & _);
      [apply Hkeys; eauto|].
    rewrite Hk in Hs0. by injection Hs0 as <-.
  - intros k Hk. simpl. rewrite Hout; [done|].
    intros Hin'. apply Hkeys in Hin' as [s Hs]. congruence.
Qed.

(** When [addToCircuit] returns. *)
Lemma addToCircuit_succeeds w :
  netsClosed w →
  Instance.mIsAddedToCircuit (cmp w) = false →
  Instance.isUsed (cmp w) = false →
  (∀ k s, Instance.mSignals (cmp w) !! k = Some s →
     Signal.mIsAddedToCircuit s = false
     ∧ ∀ n net, Signal.mNetSignal s = Some n → nets w !! n = Some net →
         ComponentSignalInstance.self (cmp w) k ∉ net_registered net) →
  ∃ w', ComponentInstance.addToCircuit w = Returned () w'.
Proof.
  intros Hclosed Hadded Hused Hpre.
  unfold ComponentInstance.addToCircuit. run. rewrite Hadded, Hused.
  cbn [orb]. run.
  destruct (signalKeys_spec (cmp w)) as [Hnd Hkeys].
  destruct (addToCircuit_loop_succeeds
              (ComponentInstance.signalKeys (cmp w)) [] w Hnd
              (λ k, proj1 (Hkeys k)) Hclosed) as [w1 ->].
  { intros k s _ Hk. destruct (Hpre k s Hk) as [Ha Hf].
    split; [done|]. split; [|done]. by apply (signals_not_used (cmp w) k). }
  run. rewrite instance_updateErcMessages_run. eauto.
Qed.

(** What [removeFromCircuit] leaves behind when it returns. *)
Lemma removeFromCircuit_returned w w' :
  netsClosed w → signalErcUpToDate w →
  ComponentInstance.removeFromCircuit w = Returned () w' →
  Instance.mIsAddedToCircuit (cmp w) = true
  ∧ Instance.isUsed (cmp w) = false
  ∧ (∀ k s, Instance.mSignals (cmp w) !! k = Some s →
       Signal.mIsAddedToCircuit s = true ∧ Signal.isUsed s = false
       ∧ ∀ n net, Signal.mNetSignal s = Some n → nets w !! n = Some net →
           ComponentSignalInstance.self (cmp w) k ∈ net_registered net)
  ∧ (∀ n net, nets w !! n = Some net →
       ∃ net', nets w' !! n = Some net'
               ∧ net_getName net' = net_getName net
               ∧ ∀ x, x ∈ net_registered net'
                      ↔ x ∈ net_registered net ∧ ¬ boundTo w n x)
  ∧ (∀ n, nets w !! n = None → nets w' !! n = None)
  ∧ emitted w' = emitted w
  ∧ cmp w'
    = ComponentInstance.updateErcMessages_body
        (Instance.set_mIsAddedToCircuit false
           (Instance.set_mSignals (Instance.mSignals (cmp w')) (cmp w)))
  ∧ (∀ k s, Instance.mSignals (cmp w) !! k = Some s →
       Instance.mSignals (cmp w') !! k = Some (flagged w false s))
  ∧ (∀ k, Instance.mSignals (cmp w) !! k = None →
          Instance.mSignals (cmp w') !! k = None).
Proof.
  intros Hclosed Herc. unfold ComponentInstance.removeFromCircuit. run.
  destruct (Instance.mIsAddedToCircuit (cmp w)) eqn:Hadded; [|done].
  destruct (Instance.isUsed (cmp w)) eqn:Hused; [done|]. cbn [negb]. run.
  destruct (signalKeys_spec (cmp w)) as [Hnd Hkeys].
  pose proof (removeFromCircuit_loop_spec
                (ComponentInstance.signalKeys (cmp w))
                [] w w Hnd (λ k, proj1 (Hkeys k)) Hclosed Herc eq_refl)
    as Hloop.
  destruct (ComponentInstance.removeFromCircuit_loop _ [] w)
    as [[] w1|e w1|] eqn:Hrun; [|done|done].
  destruct Hloop as ((Hcmp & Hem & _) & _ & _ & Hin & Hout).
  destruct (removeFromCircuit_loop_returned _ [] w w1 Hnd
              (λ k, proj1 (Hkeys k)) Hclosed Hrun) as (Hpre & Hnets & Hnone).
  run. rewrite instance_updateErcMessages_run. intros [= <-].
  split; [done|]. split; [done|]. split.
  { intros k s Hk. apply Hpre; [|done]. apply Hkeys. eauto. }
  split.
  { intros n net Hn. destruct (Hnets n net Hn) as (net' & Hn' & Hname & Hreg).
    exists net'. split; [done|]. split; [done|]. intros x.
    by rewrite Hreg, refsOf_signalKeys. }
  split; [done|]. split; [done|]. split.
  { simpl. rewrite Hcmp at 1. reflexivity. }
  split.
  - intros k s Hk. destruct (Hin k) as (s0 & Hs0 & Hs1);
      [apply Hkeys; eauto|].
    rewrite Hk in Hs0. by injection Hs0 as <-.
  - intros k Hk. simpl. rewrite Hout; [done|].
    intros Hin'. apply Hkeys in Hin' as [s Hs]. congruence.
Qed.

(** [removeFromCircuit] returns for every component instance that is added
    to the circuit and not in use, in a coherent world. *)
Lemma removeFromCircuit_succeeds w :
  netsClosed w → coherent w →
  Instance.mIsAddedToCircuit (cmp w) = true →
  Instance.isUsed (cmp w) = false →
  ∃ w', ComponentInstance.removeFromCircuit w = Returned () w'.
Proof.
  intros Hclosed (Hflags & Hbound & _) Hadded Hused.
  unfold ComponentInstance.removeFromCircuit. run. rewrite Hadded, Hused.
  cbn [negb]. run.
  destruct (signalKeys_spec (cmp w)) as [Hnd Hkeys].
  destruct (removeFromCircuit_loop_succeeds
              (ComponentInstance.signalKeys (cmp w)) [] w Hnd
              (λ k, proj1 (Hkeys k)) Hclosed) as [w1 ->].
  { intros k s _ Hk.
    assert (Ha : Signal.mIsAddedToCircuit s = true)
      by (by rewrite (Hflags k s Hk)).
    split; [done|]. split; [by apply (signals_not_used (cmp w) k)|].
    intros n net Hn Hnet.
    destruct (Hbound k s n Hk Ha Hn) as (net' & Hnet' & Hin). congruence. }
  run. rewrite instance_updateErcMessages_run. eauto.
Qed.

(** *** Coherence is kept by [addToCircuit] and [removeFromCircuit] *)

Lemma flag_coherent w w' b :
  coherent w →
  Instance.isUsed (cmp w) = false →
  cmp w'
  = ComponentInstance.updateErcMessages_body
      (Instance.set_mIsAddedToCircuit b
         (Instance.set_mSignals (Instance.mSignals (cmp w')) (cmp w))) →
  (∀ k s, Instance.mSignals (cmp w) !! k = Some s →
     Instance.mSignals (cmp w') !! k = Some (flagged w b s)) →
  (∀ k, Instance.mSignals (cmp w) !! k = None →
        Instance.mSignals (cmp w') !! k = None) →
  (b = true →
   ∀ k s n, Instance.mSignals (cmp w) !! k = Some s →
            Signal.mNetSignal s = Some n →
            ∃ net', nets w' !! n = Some net'
                    ∧ ComponentSignalInstance.self (cmp w) k
                        ∈ net_registered net') →
  coherent w'.
Proof.
  intros (Hflags & Hbound & Htidy & [Hlib1 Hlib2] & Hinst) Hused Hcmp Hsig
    Hnone Hreg.
  assert (Hback : ∀ k s', Instance.mSignals (cmp w') !! k = Some s' →
            ∃ s, Instance.mSignals (cmp w) !! k = Some s
                 ∧ s' = flagged w b s).
  { intros k s' Hk'.
    destruct (Instance.mSignals (cmp w) !! k) as [s|] eqn:Hk.
    - rewrite (Hsig k s Hk) in Hk'. injection Hk' as <-. eauto.
    - by rewrite (Hnone k Hk) in Hk'. }
  assert (Ha : Instance.mIsAddedToCircuit (cmp w') = b)
    by (by rewrite Hcmp).
  assert (Hu : Instance.mUuid (cmp w') = Instance.mUuid (cmp w))
    by (by rewrite Hcmp).
  assert (Hc : Instance.mCircuit (cmp w') = Instance.mCircuit (cmp w))
    by (by rewrite Hcmp).
  assert (Hl : Instance.mLibComponent (cmp w')
               = Instance.mLibComponent (cmp w)) by (by rewrite Hcmp).
  split; [|split; [|split; [|split; [split|]]]].
  - intros k s' Hk'. destruct (Hback k s' Hk') as (s & Hk & ->).
    by rewrite Ha.
  - intros k s' n Hk' Hadded Hn.
    destruct (Hback k s' Hk') as (s & Hk & ->).
    change (b = true) in Hadded.
    unfold ComponentSignalInstance.self. rewrite Hu.
    by apply (Hreg Hadded k s n).
  - intros k s' Hk'. destruct (Hback k s' Hk') as (s & Hk & ->).
    rewrite Hc. apply sameSkeleton_flagged_tidy; [by apply (Htidy k)|].
    by apply (signals_not_used (cmp w) k).
  - intros k s' Hk'. destruct (Hback k s' Hk') as (s & Hk & ->).
    rewrite Hl. exact (Hlib1 k s Hk).
  - intros signal Hin. rewrite Hl in Hin.
    destruct (Hlib2 signal Hin) as [s Hk]. rewrite (Hsig _ s Hk). eauto.
  - rewrite Hcmp. apply instanceTidy_flag, instanceTidy_signals. done.
Qed.

Lemma addToCircuit_coherent w w' :
  netsClosed w → signalErcUpToDate w → coherent w →
  ComponentInstance.addToCircuit w = Returned () w' → coherent w'.
Proof.
  intros Hclosed Herc Hco Hrun.
  destruct (addToCircuit_returned w w' Hclosed Herc Hrun)
    as (Hadded & Hused & Hpre & Hnets & _ & _ & Hcmp & Hsig & Hnone).
  apply (flag_coherent w w' true); try done.
  intros _ k s n Hk Hn. destruct (Hclosed k s n Hk Hn) as [net Hnet].
  destruct (Hnets n net Hnet) as (net' & Hnet' & _ & Hreg).
  exists net'. split; [done|]. apply Hreg. right. by exists k, s.
Qed.

Lemma removeFromCircuit_coherent w w' :
  netsClosed w → signalErcUpToDate w → coherent w →
  ComponentInstance.removeFromCircuit w = Returned () w' → coherent w'.
Proof.
  intros Hclosed Herc Hco Hrun.
  destruct (removeFromCircuit_returned w w' Hclosed Herc Hrun)
    as (Hadded & Hused & Hpre & Hnets & _ & _ & Hcmp & Hsig & Hnone).
  by apply (flag_coherent w w' false).
Qed.

(** *** [setNetSignal], evaluated *)

Lemma setNetSignal_run k s netsignal w :
  netsClosed w → connectionsInSync w →
  Instance.mSignals (cmp w) !! k = Some s →
  ComponentSignalInstance.setNetSignal k netsignal w
  = if bool_decide (netsignal = Signal.mNetSignal s) then Returned () w
    else if negb (Signal.mIsAddedToCircuit s) then Thrown (LogicError None) w
    else if Signal.arePinsOrPadsUsed s
    then Thrown (LogicError
                   (Some (ComponentSignalInstance.msgStillInUse (cmp w) s))) w
    else if negb (knownAt (Signal.mNetSignal s)
                    (ComponentSignalInstance.self (cmp w) k) w)
    then Thrown (LogicError None) w
    else match netsignal with
         | Some new =>
             match nets w !! new with
             | Some netNew =>
                 if bool_decide (ComponentSignalInstance.self (cmp w) k
                                   ∈ net_registered netNew)
                 then Thrown (LogicError None) w
                 else Returned () (reboundWorld k s netsignal w)
             | None => Aborted
             end
         | None => Returned () (reboundWorld k s netsignal w)
         end.
Proof.
  intros Hclosed Hconn Hk.
  remember (ComponentSignalInstance.setNetSignal k netsignal w) as r eqn:Hr.
  unfold ComponentSignalInstance.setNetSignal in Hr.
  rewrite bind_unfold, (getSignal_Some k s) in Hr by done. run_in Hr.
  case_bool_decide as Hsame; [done|].
  destruct (Signal.mIsAddedToCircuit s); [|done].
  destruct (Signal.arePinsOrPadsUsed s); [done|].
  cbn [negb] in Hr |- *.
  unfold reboundWorld, knownAt.
  set (self := ComponentSignalInstance.self (cmp w) k) in *.
  specialize (Hconn k s Hk).
  destruct (Signal.mNetSignal s) as [old|] eqn:Hold.
  - destruct (Hclosed k s old Hk Hold) as [netOld HnetOld].
    rewrite HnetOld.
    run_in Hr. unfold guarded at 1 in Hr.
    rewrite (unregister_run old netOld) in Hr by done.
    case_bool_decide as Hreg; [|done]. cbn [negb].
    run_in Hr.
    cbn [unregisteredAt]. rewrite HnetOld.
    set (w1 := replaceNet old (unbindSignal self netOld) w) in *.
    rewrite (disconnect_run k s) in Hr by done.
    rewrite Hconn in Hr. cbn [connectionsOf filter list_filter] in Hr.
    rewrite decide_False in Hr by (by intros ?).
    cbn [filter list_filter] in Hr.
    set (s2 := Signal.set_nameChangedConnections [] s) in *.
    set (w2 := replaceSignal k s2 w1) in *.
    run_in Hr.
    destruct netsignal as [new|].
    + assert (Hne : old ≠ new) by (intros ->; done).
      run_in Hr. unfold guarded at 1 in Hr.
      destruct (nets w !! new) as [netNew|] eqn:HnetNew.
      * rewrite (register_run new netNew) in Hr
          by (unfold w2, w1; simpl; by rewrite lookup_insert_ne).
        change (ComponentSignalInstance.self (cmp w2) k) with self in Hr.
        case_bool_decide as Hreg'.
        { run_in Hr.
          rewrite (register_run old (unbindSignal self netOld)) in Hr
            by apply replaceNet_lookup.
          rewrite bool_decide_eq_false_2 in Hr by (simpl; set_solver).
          run_in Hr.
          rewrite (connect_run k s2) in Hr by apply replaceSignal_lookup.
          run_in Hr.
          rewrite Hr. do 2 f_equal. unfold w2, w1, s2.
          rewrite bind_unbind by done.
          rewrite (replaceSignal_replaceNet k
                     (Signal.set_nameChangedConnections [] s)).
          rewrite replaceNet_replaceNet, replaceSignal_replaceNet.
          rewrite replaceSignal_replaceSignal.
          rewrite replaceSignal_id; [by apply replaceNet_id|].
          rewrite Hk. f_equal.
          destruct s. simpl in *. by rewrite Hconn. }
        run_in Hr.
        rewrite (connect_run k s2) in Hr by apply replaceSignal_lookup.
        run_in Hr.
        erewrite getSignal_Some in Hr by apply replaceSignal_lookup.
        run_in Hr. rewrite putSignal_run in Hr. run_in Hr.
        erewrite updateErcMessages_run in Hr; [|apply replaceSignal_lookup|].
        2:{ simpl. intros n [= <-]. unfold w2, w1. simpl.
            rewrite lookup_insert_eq. eauto. }
        rewrite Hr. f_equal.
        rewrite !replaceSignal_replaceSignal.
        cbn [registeredAt].
        assert (Hnew1 : nets w1 !! new = Some netNew)
          by (unfold w1; simpl; by rewrite lookup_insert_ne).
        rewrite Hnew1.
        transitivity (replaceSignal k (rebound w (Some new) s)
                        (replaceNet new (bindSignal self netNew) w2)).
        2:{ unfold w2.
            rewrite <- (replaceSignal_replaceNet k s2 new
                          (bindSignal self netNew) w1).
            by rewrite replaceSignal_replaceSignal. }
        f_equal. unfold rebound. simpl.
        rewrite updateErcMessages_body_signals.
        unfold boundNetName. simpl.
        rewrite lookup_insert_eq, HnetNew. reflexivity.
      * rewrite Hr.
        unfold NetSignalOps.registerComponentSignal.
        rewrite bind_unfold. unfold getNet, w2, w1. simpl.
        by rewrite lookup_insert_ne, HnetNew.
    + run_in Hr.
      erewrite getSignal_Some in Hr by apply replaceSignal_lookup.
      run_in Hr. rewrite putSignal_run in Hr. run_in Hr.
      erewrite updateErcMessages_run in Hr; [|apply replaceSignal_lookup|].
      2:{ simpl. intros n [=]. }
      rewrite Hr. f_equal. unfold w2.
      rewrite !replaceSignal_replaceSignal. reflexivity.
  - cbn [negb unregisteredAt].
    destruct netsignal as [new|]; [|done].
    run_in Hr. unfold guarded at 1 in Hr.
    destruct (nets w !! new) as [netNew|] eqn:HnetNew.
    + rewrite (register_run new netNew) in Hr by done.
      fold self in Hr.
      case_bool_decide as Hreg'; [done|].
      run_in Hr.
      rewrite (connect_run k s) in Hr by done.
      rewrite Hconn in Hr. run_in Hr.
      erewrite getSignal_Some in Hr by apply replaceSignal_lookup.
      run_in Hr. rewrite putSignal_run in Hr. run_in Hr.
      erewrite updateErcMessages_run in Hr; [|apply replaceSignal_lookup|].
      2:{ simpl. intros n [= <-]. rewrite lookup_insert_eq. eauto. }
      rewrite Hr. f_equal.
      rewrite !replaceSignal_replaceSignal.
      cbn [registeredAt]. rewrite HnetNew. f_equal.
      unfold rebound. simpl. rewrite updateErcMessages_body_signals.
      unfold boundNetName. simpl.
      rewrite lookup_insert_eq, HnetNew. reflexivity.
    + rewrite Hr.
      unfold NetSignalOps.registerComponentSignal.
      rewrite bind_unfold. unfold getNet. by rewrite HnetNew.
Qed.
Lemma unregisteredAt_nets o x w n :
  nets (unregisteredAt o x w) !! n
  = (λ net, if bool_decide (o = Some n) then unbindSignal x net else net)
      <$> nets w !! n.
Proof.
  unfold unregisteredAt. destruct o as [m|].
  - case_bool_decide as Hb.
    + injection Hb as ->. destruct (nets w !! n) as [net|] eqn:Hn.
      * simpl. by rewrite lookup_insert_eq.
      * simpl. by rewrite Hn.
    + destruct (nets w !! m) as [net|] eqn:Hm.
      * simpl. rewrite lookup_insert_ne by congruence.
        by destruct (nets w !! n).
      * simpl. by destruct (nets w !! n).
  - case_bool_decide; [done|]. simpl. by destruct (nets w !! n).
Qed.

Lemma registeredAt_nets o x w n :
  nets (registeredAt o x w) !! n
  = (λ net, if bool_decide (o = Some n) then bindSignal x net else net)
      <$> nets w !! n.
Proof.
  unfold registeredAt. destruct o as [m|].
  - case_bool_decide as Hb.
    + injection Hb as ->. destruct (nets w !! n) as [net|] eqn:Hn.
      * simpl. by rewrite lookup_insert_eq.
      * simpl. by rewrite Hn.
    + destruct (nets w !! m) as [net|] eqn:Hm.
      * simpl. rewrite lookup_insert_ne by congruence.
        by destruct (nets w !! n).
      * simpl. by destruct (nets w !! n).
  - case_bool_decide; [done|]. simpl. by destruct (nets w !! n).
Qed.

Lemma unregisteredAt_frame o x w :
  cmp (unregisteredAt o x w) = cmp w
  ∧ emitted (unregisteredAt o x w) = emitted w.
Proof.
  unfold unregisteredAt. by destruct o as [m|]; [destruct (nets w !! m)|].
Qed.

Lemma registeredAt_frame o x w :
  cmp (registeredAt o x w) = cmp w
  ∧ emitted (registeredAt o x w) = emitted w.
Proof.
  unfold registeredAt. by destruct o as [m|]; [destruct (nets w !! m)|].
Qed.

Lemma reboundWorld_nets k s netsignal w n :
  nets (reboundWorld k s netsignal w) !! n
  = (λ net,
       let x := ComponentSignalInstance.self (cmp w) k in
       let net1 := if bool_decide (Signal.mNetSignal s = Some n)
                   then unbindSignal x net else net in
       if bool_decide (netsignal = Some n) then bindSignal x net1 else net1)
      <$> nets w !! n.
Proof.
  unfold reboundWorld.
  change (nets (replaceSignal k ?s0 ?w0)) with (nets w0).
  rewrite registeredAt_nets, unregisteredAt_nets.
  by destruct (nets w !! n).
Qed.

Lemma reboundWorld_cmp k s netsignal w :
  cmp (reboundWorld k s netsignal w)
  = Instance.set_mSignals
      (<[k := rebound w netsignal s]> (Instance.mSignals (cmp w))) (cmp w).
Proof.
  unfold reboundWorld.
  destruct (registeredAt_frame netsignal
              (ComponentSignalInstance.self (cmp w) k)
              (unregisteredAt (Signal.mNetSignal s)
                 (ComponentSignalInstance.self (cmp w) k) w)) as [Hc _].
  destruct (unregisteredAt_frame (Signal.mNetSignal s)
              (ComponentSignalInstance.self (cmp w) k) w) as [Hc' _].
  unfold replaceSignal. cbn [cmp set_cmp]. by rewrite Hc, Hc'.
Qed.

Lemma reboundWorld_emitted k s netsignal w :
  emitted (reboundWorld k s netsignal w) = emitted w.
Proof.
  unfold reboundWorld.
  destruct (registeredAt_frame netsignal
              (ComponentSignalInstance.self (cmp w) k)
              (unregisteredAt (Signal.mNetSignal s)
                 (ComponentSignalInstance.self (cmp w) k) w)) as [_ He].
  destruct (unregisteredAt_frame (Signal.mNetSignal s)
              (ComponentSignalInstance.self (cmp w) k) w) as [_ He'].
  unfold replaceSignal. cbn [emitted set_cmp]. by rewrite He, He'.
Qed.

Lemma rebound_fields w netsignal s :
  Signal.mComponentSignal (rebound w netsignal s) = Signal.mComponentSignal s
  ∧ Signal.mIsAddedToCircuit (rebound w netsignal s)
    = Signal.mIsAddedToCircuit s
  ∧ Signal.mNetSignal (rebound w netsignal s) = netsignal
  ∧ Signal.mRegisteredSymbolPins (rebound w netsignal s)
    = Signal.mRegisteredSymbolPins s
  ∧ Signal.mRegisteredFootprintPads (rebound w netsignal s)
    = Signal.mRegisteredFootprintPads s
  ∧ Signal.nameChangedConnections (rebound w netsignal s)
    = connectionsOf netsignal.
Proof. done. Qed.

(** What a call of [setNetSignal] that returns has checked and done. *)
Lemma setNetSignal_returned k s netsignal w w' :
  netsClosed w → connectionsInSync w →
  Instance.mSignals (cmp w) !! k = Some s →
  ComponentSignalInstance.setNetSignal k netsignal w = Returned () w' →
  (netsignal = Signal.mNetSignal s ∧ w' = w)
  ∨ (netsignal ≠ Signal.mNetSignal s
     ∧ Signal.mIsAddedToCircuit s = true
     ∧ Signal.arePinsOrPadsUsed s = false
     ∧ knownAt (Signal.mNetSignal s)
         (ComponentSignalInstance.self (cmp w) k) w = true
     ∧ (∀ new, netsignal = Some new →
          ∃ netNew, nets w !! new = Some netNew
                    ∧ ComponentSignalInstance.self (cmp w) k
                        ∉ net_registered netNew)
     ∧ w' = reboundWorld k s netsignal w).
Proof.
  intros Hclosed Hconn Hk. rewrite (setNetSignal_run k s) by done.
  case_bool_decide as Hsame; [intros [= <-]; by left|].
  destruct (Signal.mIsAddedToCircuit s); [|done].
  destruct (Signal.arePinsOrPadsUsed s); [done|].
  destruct (knownAt _ _ _); [|done]. cbn [negb].
  destruct netsignal as [new|].
  - destruct (nets w !! new) as [netNew|] eqn:Hnew; [|done].
    case_bool_decide as Hfresh; [done|]. intros [= <-]. right.
    do 4 (split; [done|]). split; [|done].
    intros new' [= <-]. eauto.
  - intros [= <-]. right. do 4 (split; [done|]). split; [|done].
    by intros new [=].
Qed.

(** When a call of [setNetSignal] with another net signal returns. *)
Lemma setNetSignal_succeeds k s netsignal w :
  netsClosed w → connectionsInSync w → boundRegistered w →
  Instance.mSignals (cmp w) !! k = Some s →
  netsignal ≠ Signal.mNetSignal s →
  Signal.mIsAddedToCircuit s = true →
  Signal.arePinsOrPadsUsed s = false →
  (∀ new, netsignal = Some new →
     ∃ netNew, nets w !! new = Some netNew
               ∧ ComponentSignalInstance.self (cmp w) k
                   ∉ net_registered netNew) →
  ComponentSignalInstance.setNetSignal k netsignal w
  = Returned () (reboundWorld k s netsignal w).
Proof.
  intros Hclosed Hconn Hbound Hk Hne Hadded Hused Hnew.
  rewrite (setNetSignal_run k s) by done.
  rewrite bool_decide_eq_false_2 by done. rewrite Hadded, Hused.
  cbn [negb].
  assert (Hknown : knownAt (Signal.mNetSignal s)
                     (ComponentSignalInstance.self (cmp w) k) w = true).
  { unfold knownAt. destruct (Signal.mNetSignal s) as [old|] eqn:Hold; [|done].
    destruct (Hbound k s old Hk Hadded Hold) as (net & -> & Hin).
    by apply bool_decide_eq_true. }
  rewrite Hknown. cbn [negb].
  destruct netsignal as [new|]; [|done].
  destruct (Hnew new eq_refl) as (netNew & -> & Hfresh).
  by rewrite bool_decide_eq_false_2.
Qed.

Lemma reboundWorld_coherent k s netsignal w :
  netsClosed w → coherent w →
  Instance.mSignals (cmp w) !! k = Some s →
  Signal.mIsAddedToCircuit s = true →
  (∀ new, netsignal = Some new → is_Some (nets w !! new)) →
  coherent (reboundWorld k s netsignal w).
Proof.
  intros Hclosed (Hflags & Hbound & Htidy & [Hlib1 Hlib2] & Hinst) Hk Hadded
    Hnew.
  set (w' := reboundWorld k s netsignal w).
  assert (Hcmp : cmp w' = Instance.set_mSignals
                   (<[k := rebound w netsignal s]> (Instance.mSignals (cmp w)))
                   (cmp w)) by apply reboundWorld_cmp.
  assert (Hlookup : ∀ k' s0, Instance.mSignals (cmp w') !! k' = Some s0 →
            (k' = k ∧ s0 = rebound w netsignal s)
            ∨ (k' ≠ k ∧ Instance.mSignals (cmp w) !! k' = Some s0)).
  { intros k' s0. rewrite Hcmp. simpl. intros Hk'.
    apply lookup_insert_Some in Hk' as [[<- <-]|[Hne Hk']]; [by left|].
    right. split; [by intros ->|done]. }
  split; [|split; [|split; [|split; [split|]]]].
  - intros k' s0 Hk'. rewrite Hcmp. simpl.
    destruct (Hlookup k' s0 Hk') as [[-> ->]|[_ Hold]].
    + exact (Hflags k s Hk).
    + by apply (Hflags k').
  - intros k' s0 n Hk' Ha Hn.
    unfold w'. rewrite reboundWorld_nets, reboundWorld_cmp.
    change (ComponentSignalInstance.self (Instance.set_mSignals _ (cmp w)) k')
      with (ComponentSignalInstance.self (cmp w) k').
    destruct (Hlookup k' s0 Hk') as [[-> ->]|[Hne Hold]].
    + change (netsignal = Some n) in Hn.
      destruct (Hnew n Hn) as [net Hnet]. rewrite Hnet. simpl.
      eexists. split; [done|].
      rewrite (bool_decide_eq_true_2 (netsignal = Some n)) by done.
      simpl. set_solver.
    + destruct (Hbound k' s0 n Hold Ha Hn) as (net & Hnet & Hin).
      rewrite Hnet. simpl. eexists. split; [done|].
      assert (ComponentSignalInstance.self (cmp w) k'
              ≠ ComponentSignalInstance.self (cmp w) k)
        by (intros ?%self_inj; done).
      repeat case_bool_decide; simpl; set_solver.
  - intros k' s0 Hk'. rewrite Hcmp. simpl.
    destruct (Hlookup k' s0 Hk') as [[-> ->]|[_ Hold]].
    + exact (Htidy k s Hk).
    + by apply (Htidy k').
  - intros k' s0 Hk'. rewrite Hcmp. simpl.
    destruct (Hlookup k' s0 Hk') as [[-> ->]|[_ Hold]].
    + exact (Hlib1 k s Hk).
    + by apply Hlib1.
  - intros signal Hin. rewrite Hcmp in *. simpl in *.
    destruct (decide (k = sig_getUuid signal)) as [<-|Hne].
    + rewrite lookup_insert_eq. eauto.
    + rewrite lookup_insert_ne by done. by apply Hlib2.
  - rewrite Hcmp. by apply instanceTidy_signals.
Qed.

Lemma setNetSignal_coherent k netsignal w w' :
  netsClosed w → connectionsInSync w → coherent w →
  ComponentSignalInstance.setNetSignal k netsignal w = Returned () w' →
  coherent w'.
Proof.
  intros Hclosed Hconn Hco Hrun.
  destruct (Instance.mSignals (cmp w) !! k) as [s|] eqn:Hk.
  2:{ unfold ComponentSignalInstance.setNetSignal in Hrun.
      rewrite bind_unfold, signal_method_aborts_without_signal in Hrun; done. }
  destruct (setNetSignal_returned k s netsignal w w' Hclosed Hconn Hk Hrun)
    as [[_ ->]|(_ & Hadded & _ & _ & Hnew & ->)]; [done|].
  apply reboundWorld_coherent; try done.
  intros new Hn. destruct (Hnew new Hn) as (net & -> & _). eauto.
Qed.

(** *** The constructors leave a coherent world *)

Lemma get_again {A} (getUuid : A → Uuid) uuid (l : list A) x :
  get getUuid uuid l = inr x → get getUuid (getUuid x) l = inr x.
Proof.
  intros Hget. destruct (get_inr _ _ _ _ Hget) as [_ ->]. done.
Qed.

Lemma signal_create_detached circuitNets c cmpSignal netsignal s :
  ComponentSignalInstance.create circuitNets c cmpSignal netsignal = inr s →
  Signal.mComponentSignal s = cmpSignal ∧ Signal.mNetSignal s = netsignal
  ∧ detached s.
Proof.
  destruct (signal_create_inr circuitNets c cmpSignal netsignal)
    as (s' & -> & Hcs & Hn & Ha & Hp & Hq).
  by intros [= <-].
Qed.

Lemma signal_load_detached circuitNets c node s :
  ComponentSignalInstance.load circuitNets c node = inr s →
  get sig_getUuid (node_comp_signal node)
    (cmp_getSignals (Instance.mLibComponent c))
  = inr (Signal.mComponentSignal s)
  ∧ Signal.mNetSignal s = node_netsignal node
  ∧ (∀ n, node_netsignal node = Some n → is_Some (circuitNets !! n))
  ∧ detached s.
Proof.
  unfold ComponentSignalInstance.load.
  destruct (get sig_getUuid _ _) as [e|cmpSignal] eqn:Hget; [done|].
  destruct (node_netsignal node) as [n|].
  - destruct (circuitNets !! n) as [net|] eqn:Hnet; [|done].
    intros (-> & Hn & Hd)%signal_create_detached.
    split; [done|]. split; [done|]. split; [|done]. intros n' [= <-]. eauto.
  - intros (-> & Hn & Hd)%signal_create_detached.
    split; [done|]. split; [done|]. split; [|done]. by intros n' [=].
Qed.

Lemma loadSignals_detached circuitNets nodes c c' :
  ComponentInstance.loadSignals circuitNets nodes c = inr c' →
  ∀ k s, Instance.mSignals c' !! k = Some s →
         Instance.mSignals c !! k = Some s ∨ detached s.
Proof.
  revert c. induction nodes as [|node nodes IH]; intros c; simpl.
  { intros [= <-]. auto. }
  destruct (ComponentSignalInstance.load circuitNets c node) as [e|s0]
    eqn:Hload; [done|].
  case_bool_decide; [done|]. intros Hrest k s Hk.
  destruct (IH _ Hrest k s Hk) as [Hold|Hd]; [|by right].
  simpl in Hold. apply lookup_insert_Some in Hold as [[_ <-]|[_ Hold]].
  - right. by apply signal_load_detached in Hload as (_ & _ & _ & Hd).
  - by left.
Qed.

Lemma createSignals_spec circuitNets signals c c' :
  ComponentInstance.createSignals circuitNets signals c = inr c' →
  (∀ k s, Instance.mSignals c' !! k = Some s →
     Instance.mSignals c !! k = Some s
     ∨ (sig_getUuid (Signal.mComponentSignal s) = k
        ∧ Signal.mComponentSignal s ∈ signals
        ∧ Signal.mNetSignal s = None ∧ detached s))
  ∧ (∀ signal, signal ∈ signals →
       is_Some (Instance.mSignals c' !! sig_getUuid signal))
  ∧ (∀ k, is_Some (Instance.mSignals c !! k) →
          is_Some (Instance.mSignals c' !! k)).
Proof.
  revert c. induction signals as [|signal signals IH]; intros c;
    cbn [ComponentInstance.createSignals].
  { intros [= <-]. split; [auto|]. split; [|done].
    by intros ? ?%elem_of_nil. }
  destruct (ComponentSignalInstance.create circuitNets c signal None)
    as [e|s0] eqn:Hcreate; [done|].
  apply signal_create_detached in Hcreate as (Hcs & Hn & Hd).
  rewrite Hcs. intros Hrest.
  destruct (IH _ Hrest) as (Hsig & Hall & Hkeep). simpl in *.
  split; [|split].
  - intros k s Hk. destruct (Hsig k s Hk) as [Hold|(? & ? & ? & ?)].
    + apply lookup_insert_Some in Hold as [[<- <-]|[_ Hold]]; [|by left].
      right. rewrite Hcs. split; [done|]. split; [by left|done].
    + right. split; [done|]. split; [by right|done].
  - intros signal' [->|Hin]%elem_of_cons; [|by apply Hall].
    apply Hkeep. rewrite lookup_insert_eq. eauto.
  - intros k Hk. apply Hkeep.
    destruct (decide (sig_getUuid signal = k)) as [<-|Hne].
    + rewrite lookup_insert_eq. eauto.
    + by rewrite lookup_insert_ne.
Qed.

Lemma init_instanceTidy c c' :
  ComponentInstance.init c = inr c' →
  Instance.mRegisteredSymbols c = ∅ →
  Instance.mRegisteredDevices c = [] →
  variantOfLibrary c →
  instanceTidy c'.
Proof.
  unfold ComponentInstance.init, Instance.checkAttributesValidity.
  destruct (negb _) eqn:Hname; [done|]. intros [= <-] Hsym Hdev Hvar.
  apply negb_false_iff, negb_true_iff, bool_decide_eq_false in Hname.
  apply instanceTidy_body; [| |exact Hname|exact Hvar].
  - intros k symbol Hk. simpl in Hk. by rewrite Hsym, lookup_empty in Hk.
  - split; [|split]; simpl; rewrite Hdev.
    + constructor.
    + by intros d ?%elem_of_nil.
    + done.
Qed.

Lemma constructed_coherent circuitNets (c : Instance.t) :
  Instance.mIsAddedToCircuit c = false →
  (∀ k s, Instance.mSignals c !! k = Some s → detached s) →
  signalsOfLibrary c → instanceTidy c →
  coherent {| nets := circuitNets; cmp := c; emitted := [] |}.
Proof.
  intros Hadded Hdet Hlib Hinst.
  split; [|split; [|split; [|split]]]; [| | |done|done].
  - intros k s Hk. simpl in *. destruct (Hdet k s Hk) as (-> & _). done.
  - intros k s n Hk Ha. simpl in *. destruct (Hdet k s Hk) as (Ha' & _).
    congruence.
  - intros k s Hk. simpl in *. unfold signalTidy.
    destruct (Hdet k s Hk) as (Ha & -> & ->).
    split; [constructor|]. split; [constructor|].
    split; [by intros ? ?%elem_of_nil|]. split; [by intros ? ?%elem_of_nil|].
    done.
Qed.

Lemma load_coherent circuit circuitNets library domElement c :
  ComponentInstance.load circuit circuitNets library domElement = inr c →
  coherent {| nets := circuitNets; cmp := c; emitted := [] |}.
Proof.
  intros Hload.
  pose proof (load_inr _ _ _ _ _ Hload)
    as (_ & Hnd & Hdom & Hsize & Hsig & Hadded & Hsym & Hdev).
  revert Hload. unfold ComponentInstance.load.
  destruct (isEmpty _); [done|]. destruct (library !! _) as [lib|]; [|done].
  destruct (get symbvar_getUuid _ _) as [e|symbVar] eqn:Hvar; [done|].
  destruct (ComponentInstance.loadSignals _ _ _) as [e|loaded] eqn:Hsignals;
    [done|].
  destruct (negb _); [done|]. intros Hinit.
  pose proof (loadSignals_inr _ _ _ _ Hsignals) as (_ & _ & Hframe & _).
  pose proof (instance_init_frame _ _ Hinit) as (Hs & _).
  apply constructed_coherent; [done| | |].
  - intros k s Hk. rewrite Hs in Hk.
    destruct (loadSignals_detached _ _ _ _ Hsignals k s Hk) as [Hold|Hd];
      [|done].
    simpl in Hold. by rewrite lookup_empty in Hold.
  - split; [done|].
    set (signals := cmp_getSignals (Instance.mLibComponent c)) in *.
    set (U := list_to_set (C := gset N) (sig_getUuid <$> signals)).
    assert (Hsub : dom (Instance.mSignals c) ⊆ U).
    { intros uuid [s Hk]%elem_of_dom. destruct (Hsig uuid s Hk) as [<- Hin].
      apply elem_of_list_to_set, list_elem_of_fmap.
      by exists (Signal.mComponentSignal s). }
    assert (HleU : size U ≤ length signals).
    { unfold U. etrans; [apply size_list_to_set_le|]. by rewrite length_fmap. }
    assert (HU : dom (Instance.mSignals c) = U).
    { apply set_subseteq_size_eq; [done|]. rewrite size_dom. lia. }
    intros signal Hin. apply elem_of_dom. rewrite HU.
    apply elem_of_list_to_set, list_elem_of_fmap. by exists signal.
  - apply (init_instanceTidy _ _ Hinit).
    + rewrite Hframe. reflexivity.
    + rewrite Hframe. reflexivity.
    + unfold variantOfLibrary. rewrite Hframe. simpl.
      exact (get_again _ _ _ _ Hvar).
Qed.

Lemma create_coherent circuit circuitNets uuid libComponent symbVar name c :
  ComponentInstance.create circuit circuitNets uuid libComponent symbVar name
  = inr c →
  coherent {| nets := circuitNets; cmp := c; emitted := [] |}.
Proof.
  unfold ComponentInstance.create.
  destruct (isEmpty _); [done|].
  destruct (get symbvar_getUuid _ _) as [e|variant] eqn:Hvar; [done|].
  destruct (ComponentInstance.createSignals _ _ _) as [e|created]
    eqn:Hsignals; [done|].
  intros Hinit.
  pose proof (instance_init_frame _ _ Hinit)
    as (Hs & _ & _ & _ & Ha & _ & _).
  assert (Hl : Instance.mLibComponent c = Instance.mLibComponent created).
  { revert Hinit. unfold ComponentInstance.init.
    destruct (negb _); [done|]. by intros [= <-]. }
  match type of Hsignals with
  | ComponentInstance.createSignals _ _ ?c0 = _ =>
      assert (Hframe : created
                       = Instance.set_mSignals (Instance.mSignals created) c0)
  end.
  { refine (proj1 (createSignals_inr _ _ _ _ _ Hsignals)).
    intros k s Hk. simpl in Hk. by rewrite lookup_empty in Hk. }
  destruct (createSignals_spec _ _ _ _ Hsignals) as (Hsig & Hall & _).
  apply constructed_coherent.
  - rewrite Ha, Hframe. reflexivity.
  - intros k s Hk. rewrite Hs in Hk.
    destruct (Hsig k s Hk) as [Hold|(_ & _ & _ & Hd)]; [|done].
    simpl in Hold. by rewrite lookup_empty in Hold.
  - unfold signalsOfLibrary. rewrite Hl, Hframe. simpl. split.
    + intros k s Hk. rewrite Hs in Hk.
      destruct (Hsig k s Hk) as [Hold|(? & ? & _)]; [|done].
      simpl in Hold. by rewrite lookup_empty in Hold.
    + intros signal Hin. rewrite Hs. by apply Hall.
  - apply (init_instanceTidy _ _ Hinit).
    + rewrite Hframe. reflexivity.
    + rewrite Hframe. reflexivity.
    + unfold variantOfLibrary. rewrite Hframe. simpl.
      exact (get_again _ _ _ _ Hvar).
Qed.

(** *** Every reachable world is coherent *)

Lemma perform_coherent op w w' :
  wellFormed w → coherent w → perform op w = Returned () w' → coherent w'.
Proof.
  intros (Hclosed & Herc & Hconn & _) Hco. destruct op; cbn [perform].
  - by apply addToCircuit_coherent.
  - by apply removeFromCircuit_coherent.
  - by apply setName_coherent.
  - by apply setValue_coherent.
  - by apply setAttributes_coherent.
  - by apply registerSymbol_coherent.
  - by apply unregisterSymbol_coherent.
  - by apply registerDevice_coherent.
  - by apply unregisterDevice_coherent.
  - by apply setNetSignal_coherent.
  - by apply registerSymbolPin_coherent.
  - by apply unregisterSymbolPin_coherent.
  - by apply registerFootprintPad_coherent.
  - by apply unregisterFootprintPad_coherent.
  - by apply renameNet_coherent.
Qed.

Lemma reachable_coherent w : reachable w → coherent w.
Proof.
  induction 1 as [?????Hload|???????Hcreate|op w w' Hw IH Hrun
                 |op e w w' Hw IH Hrun].
  - by eapply load_coherent.
  - by eapply create_coherent.
  - by apply (perform_coherent op w w' (reachable_wellFormed w Hw)).
  - pose proof (perform_wellFormed op w (reachable_wellFormed w Hw)) as Hop.
    rewrite Hrun in Hop. by subst.
Qed.

(** ** What holds of every reachable world *)

(** Extra X2.  The name of a component instance is never empty: both
    constructors refuse an empty name, and [setName] throws a [RuntimeError]
    for the empty name, which leaves the instance as it was. *)
Theorem X2_name_is_never_empty (w : World) :
  reachable w →
  Instance.mName (cmp w) ≠ EmptyString
  ∧ ComponentInstance.setName EmptyString w
    = Thrown (RuntimeError "The new component name must not be empty!") w.
Proof.
  intros Hw.
  destruct (reachable_coherent w Hw) as (_ & _ & _ & _ & _ & _ & _ & Hname & _).
  split; [done|]. unfold ComponentInstance.setName. run.
  rewrite bool_decide_eq_false_2 by (by intros Heq; apply Hname). done.
Qed.

(** Extra X3.  The two ERC messages of a component instance are always
    current.  Each text is the one that [updateErcMessages] formats from the
    present name of the instance and the present count of unplaced symbols,
    the format string with [arg(mName)] and then [arg(count)] applied, so
    that a place marker inside the name is replaced by the count as well;
    and each message is visible exactly when the instance is added to the
    circuit and its count is positive. *)
Theorem X3_unplaced_symbols_messages_are_current (w : World) :
  reachable w →
  let c := cmp w in
  let required := Instance.getUnplacedRequiredSymbolsCount c in
  let optional := Instance.getUnplacedOptionalSymbolsCount c in
  Instance.mErcMsgUnplacedRequiredSymbols c
  = {| erc_msg := ComponentInstance.msgUnplacedRequired c required;
       erc_visible := Instance.mIsAddedToCircuit c
                      && bool_decide (0 < required)%Z |}
  ∧ Instance.mErcMsgUnplacedOptionalSymbols c
    = {| erc_msg := ComponentInstance.msgUnplacedOptional c optional;
         erc_visible := Instance.mIsAddedToCircuit c
                        && bool_decide (0 < optional)%Z |}.
Proof.
  intros Hw c required optional.
  destruct (reachable_coherent w Hw) as (_ & _ & _ & _ & _ & _ & Herc & _).
  unfold instanceErcUpToDate in Herc. fold c in Herc.
  split.
  - rewrite <- Herc at 1. reflexivity.
  - rewrite <- Herc at 1. reflexivity.
Qed.

(** Extra X4.  The message [UnconnectedRequiredSignal] of a signal instance
    is visible exactly when the signal instance is added to the circuit, no
    net signal is bound and the library signal is required; and the texts of
    both messages of the signal instance are always current: they are the
    ones that [updateErcMessages] formats from the name of the library
    signal, the present name of the component instance and the name of the
    bound net signal, the first with [arg(signal)] and then [arg(component)]
    applied to the format string. *)
Theorem X4_unconnected_required_signal_visible (w : World) (k : Uuid)
    (s : Signal.t) :
  reachable w →
  Instance.mSignals (cmp w) !! k = Some s →
  (erc_visible (Signal.mErcMsgUnconnectedRequiredSignal s) = true
   ↔ Signal.mIsAddedToCircuit s = true
     ∧ Signal.mNetSignal s = None
     ∧ sig_isRequired (Signal.mComponentSignal s) = true)
  ∧ erc_msg (Signal.mErcMsgUnconnectedRequiredSignal s)
    = ComponentSignalInstance.msgUnconnected (cmp w) s
  ∧ erc_msg (Signal.mErcMsgForcedNetSignalNameConflict s)
    = ComponentSignalInstance.msgConflict (cmp w) (boundNetName w s) s.
Proof.
  intros Hw Hk.
  destruct (reachable_wellFormed w Hw) as (_ & Herc & _).
  specialize (Herc k s Hk).
  split; [|split].
  - rewrite <- Herc at 1. simpl.
    rewrite !andb_true_iff, negb_true_iff, bool_decide_eq_false.
    split.
    + intros [[Ha Hn] Hr]. split; [done|]. split; [|done].
      destruct (Signal.mNetSignal s); [|done]. destruct Hn. eauto.
    + intros (Ha & Hn & Hr). split; [split|]; [done| |done].
      rewrite Hn. by intros [? ?].
  - rewrite <- Herc at 1. reflexivity.
  - rewrite <- Herc at 1. reflexivity.
Qed.

(** Extra X5.  Every signal instance carries the flag of its component
    instance, and nothing is registered at a component instance that is not
    added to the circuit: no symbol, no device, and no pin or pad at any of
    its signal instances. *)
Theorem X5_nothing_registered_while_detached (w : World) :
  reachable w →
  (∀ k s, Instance.mSignals (cmp w) !! k = Some s →
     Signal.mIsAddedToCircuit s = Instance.mIsAddedToCircuit (cmp w))
  ∧ (Instance.mIsAddedToCircuit (cmp w) = false →
     Instance.isUsed (cmp w) = false
     ∧ Instance.mRegisteredSymbols (cmp w) = ∅
     ∧ Instance.mRegisteredDevices (cmp w) = []
     ∧ ∀ k s, Instance.mSignals (cmp w) !! k = Some s →
         Signal.mRegisteredSymbolPins s = []
         ∧ Signal.mRegisteredFootprintPads s = []).
Proof.
  intros Hw.
  destruct (reachable_wellFormed w Hw) as (_ & _ & _ & _ & Hdet).
  destruct (reachable_coherent w Hw) as (Hflags & _ & Htidy & _).
  split; [exact Hflags|]. intros Hadded.
  destruct (Hdet Hadded) as [Hsym Hdev].
  assert (Hsig : ∀ k s, Instance.mSignals (cmp w) !! k = Some s →
            Signal.mRegisteredSymbolPins s = []
            ∧ Signal.mRegisteredFootprintPads s = []).
  { intros k s Hk. destruct (Htidy k s Hk) as (_ & _ & _ & _ & Hempty).
    apply Hempty. by rewrite (Hflags k s Hk). }
  split; [|done].
  destruct (Instance.isUsed (cmp w)) eqn:Hused; [|done].
  apply isUsed_inUse in Hused as [Hs|[Hd|(k & s & Hk & Hu)]].
  - rewrite Hsym, map_size_empty in Hs. lia.
  - rewrite Hdev in Hd. simpl in Hd. lia.
  - destruct (Hsig k s Hk) as [Hp Hq].
    unfold Signal.isUsed, Signal.getRegisteredElementsCount in Hu.
    rewrite Hp, Hq in Hu. by apply bool_decide_eq_true in Hu.
Qed.

(** Extra X6.  A signal instance that is added to the circuit and points to
    a net signal is registered at that net signal: the pointer is never
    dangling, and the net signal knows the signal instance. *)
Theorem X6_bound_signal_is_registered_at_its_net (w : World) (k : Uuid)
    (s : Signal.t) (n : Uuid) :
  reachable w →
  Instance.mSignals (cmp w) !! k = Some s →
  Signal.mIsAddedToCircuit s = true →
  Signal.mNetSignal s = Some n →
  ∃ net, nets w !! n = Some net
         ∧ ComponentSignalInstance.self (cmp w) k ∈ net_registered net.
Proof.
  intros Hw Hk Hadded Hn.
  destruct (reachable_coherent w Hw) as (_ & Hbound & _).
  exact (Hbound k s n Hk Hadded Hn).
Qed.

(** Extra X7.  Nothing is registered twice.  The list of devices of a
    component instance holds no device and no address twice, and the lists
    of pins and of pads of each of its signal instances hold no address
    twice, whatever the state of the pin or pad at that address: [removeOne]
    in the unregistering methods removes the pointer for good. *)
Theorem X7_nothing_is_registered_twice (w : World) :
  reachable w →
  NoDup (Instance.mRegisteredDevices (cmp w))
  ∧ NoDup (dev_addr <$> Instance.mRegisteredDevices (cmp w))
  ∧ ∀ k s, Instance.mSignals (cmp w) !! k = Some s →
      NoDup (pin_addr <$> Signal.mRegisteredSymbolPins s)
      ∧ NoDup (pad_addr <$> Signal.mRegisteredFootprintPads s).
Proof.
  intros Hw.
  destruct (reachable_coherent w Hw)
    as (_ & _ & Htidy & _ & _ & (Hnd & Hcircuit & _) & _).
  split; [done|]. split.
  - apply NoDup_fmap_2_strong; [|done].
    intros [a1 c1] [a2 c2] H1 H2 Haddr. simpl in Haddr. subst a2.
    pose proof (Hcircuit _ H1) as Hc1. pose proof (Hcircuit _ H2) as Hc2.
    simpl in Hc1, Hc2. by rewrite Hc1, Hc2.
  - intros k s Hk. by destruct (Htidy k s Hk) as (Hp & Hq & _).
Qed.

(** Extra X8.  Everything that is registered belongs to the circuit of the
    component instance, and every registered symbol is stored under the uuid
    of its item, which is an item of the symbol variant of the instance. *)
Theorem X8_registered_objects_belong_to_the_circuit (w : World) :
  reachable w →
  let c := cmp w in
  (∀ k symbol, Instance.mRegisteredSymbols c !! k = Some symbol →
     sym_getCircuit symbol = Instance.mCircuit c
     ∧ item_getUuid (sym_getCompSymbVarItem symbol) = k
     ∧ ∃ item, item ∈ getSymbolItems (Instance.mCompSymbVar c)
               ∧ item_getUuid item = k)
  ∧ (∀ device, device ∈ Instance.mRegisteredDevices c →
               dev_getCircuit device = Instance.mCircuit c)
  ∧ ∀ k s, Instance.mSignals c !! k = Some s →
      (∀ pin, pin ∈ Signal.mRegisteredSymbolPins s →
              pin_getCircuit pin = Instance.mCircuit c)
      ∧ (∀ pad, pad ∈ Signal.mRegisteredFootprintPads s →
                pad_getCircuit pad = Instance.mCircuit c).
Proof.
  intros Hw c.
  destruct (reachable_coherent w Hw)
    as (_ & _ & Htidy & _ & Hsym & (_ & Hdev & _) & _).
  split; [|split; [done|]].
  - intros k symbol Hk. destruct (Hsym k symbol Hk) as (Hc & Hu & Hitem).
    split; [done|]. split; [done|]. by apply findSymbolItem_true.
  - intros k s Hk. by destruct (Htidy k s Hk) as (_ & _ & Hp & Hq & _).
Qed.

Lemma registered_items_count (items : list ComponentSymbolVariantItem) :
  ∀ (m : gmap Uuid SI_Symbol),
    NoDup (item_getUuid <$> items) →
    (∀ k, is_Some (m !! k) →
          ∃ item, item ∈ items ∧ item_getUuid item = k) →
    length (List.filter
              (λ item, bool_decide (is_Some (m !! item_getUuid item))) items)
    = size m.
Proof.
  induction items as [|item items IH]; intros m Hnd Hsub.
  { simpl. symmetry. apply map_size_empty_iff, map_empty. intros k.
    destruct (m !! k) eqn:Hk; [|done].
    destruct (Hsub k) as (item & []%elem_of_nil & _). eauto. }
  rewrite fmap_cons in Hnd. apply NoDup_cons in Hnd as [Hfresh Hnd].
  cbn [List.filter].
  destruct (m !! item_getUuid item) as [symbol|] eqn:Hitem.
  - rewrite bool_decide_eq_true_2 by eauto. cbn [length].
    assert (Hsize : size m = S (size (delete (item_getUuid item) m))).
    { assert (Hpos : size m ≠ 0).
      { intros Hz. apply map_size_empty_iff in Hz. subst m.
        by rewrite lookup_empty in Hitem. }
      rewrite map_size_delete_Some by eauto. lia. }
    rewrite Hsize. f_equal.
    rewrite <- (IH (delete (item_getUuid item) m) Hnd).
    + f_equal. apply filter_ext_in. intros item' Hin.
      apply bool_decide_ext. rewrite lookup_delete_ne; [done|].
      intros Heq. apply Hfresh. rewrite Heq.
      apply list_elem_of_fmap. exists item'.
      split; [done|]. by apply list_elem_of_In.
    + intros k [symbol' Hk]. apply lookup_delete_Some in Hk as [Hne Hk].
      destruct (Hsub k) as (item' & [->|Hin]%elem_of_cons & Hu); eauto.
      done.
  - rewrite bool_decide_eq_false_2 by (by intros [? ?]).
    apply IH; [done|]. intros k Hk.
    destruct (Hsub k Hk) as (item' & [->|Hin]%elem_of_cons & Hu); eauto.
    rewrite <- Hu, Hitem in Hk. by destruct Hk.
Qed.

Lemma length_filter_negb {A} (p : A → bool) (l : list A) :
  length (List.filter (λ x, negb (p x)) l) + length (List.filter p l)
  = length l.
Proof.
  induction l as [|x l IH]; simpl; [done|]. destruct (p x); simpl; lia.
Qed.

(** Extra X9.  When the items of the symbol variant have distinct uuids,
    the unplaced symbols are the required and the optional ones:
    [getUnplacedSymbolsCount], which subtracts the number of registered
    symbols from the number of items, is the sum of
    [getUnplacedRequiredSymbolsCount] and [getUnplacedOptionalSymbolsCount],
    which count items, and it is not negative. *)
Theorem X9_unplaced_symbols_counts_add_up (w : World) :
  reachable w →
  NoDup (item_getUuid <$> getSymbolItems (Instance.mCompSymbVar (cmp w))) →
  (Instance.getUnplacedSymbolsCount (cmp w)
   = Instance.getUnplacedRequiredSymbolsCount (cmp w)
     + Instance.getUnplacedOptionalSymbolsCount (cmp w))%Z
  ∧ (0 ≤ Instance.getUnplacedSymbolsCount (cmp w))%Z.
Proof.
  intros Hw Hnd.
  destruct (reachable_coherent w Hw) as (_ & _ & _ & _ & Hsym & _).
  set (c := cmp w) in *.
  set (items := getSymbolItems (Instance.mCompSymbVar c)) in *.
  assert (Hreg : length (List.filter
                           (λ item, Instance.isRegistered c
                                      (item_getUuid item)) items)
                 = size (Instance.mRegisteredSymbols c)).
  { apply registered_items_count; [done|]. intros k [symbol Hk].
    destruct (Hsym k symbol Hk) as (_ & _ & Hitem).
    by apply findSymbolItem_true in Hitem. }
  pose proof (length_filter_negb
                (λ item, Instance.isRegistered c (item_getUuid item)) items)
    as Hsplit.
  pose proof (length_filter_split
                (λ item, negb (Instance.isRegistered c (item_getUuid item)))
                (λ item, negb (item_isRequired item)) items) as Hro.
  unfold Instance.getUnplacedSymbolsCount,
    Instance.getUnplacedRequiredSymbolsCount,
    Instance.getUnplacedOptionalSymbolsCount.
  fold c. fold items. rewrite !fold_countIf.
  assert (Hr : List.filter
                 (λ item, item_isRequired item
                          && negb (Instance.isRegistered c
                                     (item_getUuid item))) items
               = List.filter
                   (λ item, negb (Instance.isRegistered c (item_getUuid item))
                            && negb (negb (item_isRequired item))) items).
  { apply filter_ext. intros item.
    by destruct (item_isRequired item), (Instance.isRegistered c _). }
  assert (Ho : List.filter
                 (λ item, negb (item_isRequired item)
                          && negb (Instance.isRegistered c
                                     (item_getUuid item))) items
               = List.filter
                   (λ item, negb (Instance.isRegistered c (item_getUuid item))
                            && negb (item_isRequired item)) items).
  { apply filter_ext. intros item.
    by destruct (item_isRequired item), (Instance.isRegistered c _). }
  rewrite Hr, Ho. cbv beta in Hsplit, Hro. lia.
Qed.

(** Extra X10.  No device is ever registered at an instance of a component
    that is schematic-only: [registerDevice] throws a [LogicError] for it,
    and its list of devices stays empty. *)
Theorem X10_schematic_only_component_has_no_device (w : World)
    (device : BI_Device) :
  reachable w →
  cmp_isSchematicOnly (Instance.mLibComponent (cmp w)) = true →
  Instance.mRegisteredDevices (cmp w) = []
  ∧ ComponentInstance.registerDevice device w = Thrown (LogicError None) w.
Proof.
  intros Hw Hso.
  destruct (reachable_coherent w Hw)
    as (_ & _ & _ & _ & _ & (_ & _ & Hnone) & _).
  split; [by apply Hnone|].
  rewrite registerDevice_run. cbv zeta. rewrite Hso.
  by rewrite !orb_true_r.
Qed.

(** ** Adding to the circuit and removing from it are inverse *)

Lemma boundTo_dec w n x : boundTo w n x ∨ ¬ boundTo w n x.
Proof.
  destruct x as [u k].
  destruct (decide (u = Instance.mUuid (cmp w))) as [->|Hu].
  2:{ right. intros (k' & s & _ & _ & [= -> _]). done. }
  destruct (Instance.mSignals (cmp w) !! k) as [s|] eqn:Hk.
  2:{ right. intros (k' & s & Hk' & _ & [= <-]). congruence. }
  destruct (decide (Signal.mNetSignal s = Some n)) as [Hn|Hn].
  - left. by exists k, s.
  - right. intros (k' & s' & Hk' & Hn' & [= <-]). congruence.
Qed.

Lemma boundTo_flagged w w' b n x :
  Instance.mUuid (cmp w') = Instance.mUuid (cmp w) →
  (∀ k s, Instance.mSignals (cmp w) !! k = Some s →
     Instance.mSignals (cmp w') !! k = Some (flagged w b s)) →
  (∀ k, Instance.mSignals (cmp w) !! k = None →
        Instance.mSignals (cmp w') !! k = None) →
  boundTo w' n x ↔ boundTo w n x.
Proof.
  intros Hu Hsig Hnone. unfold boundTo, ComponentSignalInstance.self.
  rewrite Hu. split.
  - intros (k & s' & Hk' & Hn & ->).
    destruct (Instance.mSignals (cmp w) !! k) as [s|] eqn:Hk.
    + rewrite (Hsig k s Hk) in Hk'. injection Hk' as <-. by exists k, s.
    + by rewrite (Hnone k Hk) in Hk'.
  - intros (k & s & Hk & Hn & ->). exists k, (flagged w b s).
    split; [by apply Hsig|done].
Qed.

Lemma names_boundNetName w w' s :
  (∀ n net, nets w !! n = Some net →
     ∃ net', nets w' !! n = Some net'
             ∧ net_getName net' = net_getName net) →
  (∀ n, Signal.mNetSignal s = Some n → is_Some (nets w !! n)) →
  boundNetName w' s = boundNetName w s.
Proof.
  intros Hnames Hclosed. unfold boundNetName.
  destruct (Signal.mNetSignal s) as [n|]; [|done]. simpl.
  destruct (Hclosed n eq_refl) as [net Hnet].
  destruct (Hnames n net Hnet) as (net' & -> & Hname).
  rewrite Hnet. simpl. by rewrite Hname.
Qed.

Lemma flag_isUsed w w' b :
  cmp w'
  = ComponentInstance.updateErcMessages_body
      (Instance.set_mIsAddedToCircuit b
         (Instance.set_mSignals (Instance.mSignals (cmp w')) (cmp w))) →
  (∀ k s, Instance.mSignals (cmp w) !! k = Some s →
     Instance.mSignals (cmp w') !! k = Some (flagged w b s)) →
  (∀ k, Instance.mSignals (cmp w) !! k = None →
        Instance.mSignals (cmp w') !! k = None) →
  Instance.isUsed (cmp w) = false → Instance.isUsed (cmp w') = false.
Proof.
  intros Hcmp Hsig Hnone Hused.
  destruct (not_used_nothing_registered _ Hused) as [Hsym Hdev].
  destruct (Instance.isUsed (cmp w')) eqn:Hused'; [|done].
  apply isUsed_inUse in Hused' as [Hs|[Hd|(k & s' & Hk' & Hu)]].
  - rewrite Hcmp in Hs. simpl in Hs. rewrite Hsym, map_size_empty in Hs. lia.
  - rewrite Hcmp in Hd. simpl in Hd. rewrite Hdev in Hd. simpl in Hd. lia.
  - destruct (Instance.mSignals (cmp w) !! k) as [s|] eqn:Hk.
    + rewrite (Hsig k s Hk) in Hk'. injection Hk' as <-.
      change (Signal.isUsed s = true) in Hu.
      by rewrite (signals_not_used (cmp w) k s Hused Hk) in Hu.
    + by rewrite (Hnone k Hk) in Hk'.
Qed.

(** The component instance after the flag was set and set back. *)
Lemma flag_back w w' w'' b :
  instanceErcUpToDate (cmp w) →
  Instance.mIsAddedToCircuit (cmp w) = b →
  cmp w'
  = ComponentInstance.updateErcMessages_body
      (Instance.set_mIsAddedToCircuit (negb b)
         (Instance.set_mSignals (Instance.mSignals (cmp w')) (cmp w))) →
  cmp w''
  = ComponentInstance.updateErcMessages_body
      (Instance.set_mIsAddedToCircuit b
         (Instance.set_mSignals (Instance.mSignals (cmp w'')) (cmp w'))) →
  Instance.mSignals (cmp w'') = Instance.mSignals (cmp w) →
  cmp w'' = cmp w.
Proof.
  intros Herc Hadded Hcmp' Hcmp'' Hsig.
  rewrite Hcmp'', Hsig, Hcmp'. unfold instanceErcUpToDate in Herc.
  rewrite <- Herc at 3. destruct (cmp w). simpl in *. by subst b.
Qed.

Lemma flag_signals_back w w' w'' b :
  netsClosed w → signalErcUpToDate w →
  (∀ k s, Instance.mSignals (cmp w) !! k = Some s →
          Signal.mIsAddedToCircuit s = b) →
  Instance.mName (cmp w') = Instance.mName (cmp w) →
  Instance.mValue (cmp w') = Instance.mValue (cmp w) →
  Instance.mAttributes (cmp w') = Instance.mAttributes (cmp w) →
  (∀ n net, nets w !! n = Some net →
     ∃ net', nets w' !! n = Some net'
             ∧ net_getName net' = net_getName net) →
  (∀ k s, Instance.mSignals (cmp w) !! k = Some s →
     Instance.mSignals (cmp w') !! k = Some (flagged w (negb b) s)) →
  (∀ k, Instance.mSignals (cmp w) !! k = None →
        Instance.mSignals (cmp w') !! k = None) →
  (∀ k s', Instance.mSignals (cmp w') !! k = Some s' →
     Instance.mSignals (cmp w'') !! k = Some (flagged w' b s')) →
  (∀ k, Instance.mSignals (cmp w') !! k = None →
        Instance.mSignals (cmp w'') !! k = None) →
  Instance.mSignals (cmp w'') = Instance.mSignals (cmp w).
Proof.
  intros Hclosed Herc Hflags Hn Hv Ha Hnames Hsig' Hnone' Hsig'' Hnone''.
  apply map_eq. intros k.
  destruct (Instance.mSignals (cmp w) !! k) as [s|] eqn:Hk.
  - rewrite (Hsig'' k _ (Hsig' k s Hk)). f_equal.
    rewrite flagged_flagged; [|done|done|done|].
    + rewrite <- (Hflags k s Hk). apply flagged_id; eauto.
    + apply names_boundNetName; [done|]. intros n Hbound.
      exact (Hclosed k s n Hk Hbound).
  - by apply Hnone'', Hnone'.
Qed.

Lemma addToCircuit_then_removeFromCircuit w w' :
  wellFormed w → coherent w →
  ComponentInstance.addToCircuit w = Returned () w' →
  wellFormed w' → coherent w' →
  ComponentInstance.removeFromCircuit w' = Returned () w.
Proof.
  intros (Hclosed & Herc & _) Hco Hadd (Hclosed' & Herc' & _) Hco'.
  destruct (addToCircuit_returned w w' Hclosed Herc Hadd)
    as (Hadded & Hused & Hpre & Hnets & Hnone & Hem & Hcmp & Hsig & Hsnone).
  assert (Hu : Instance.mUuid (cmp w') = Instance.mUuid (cmp w))
    by (by rewrite Hcmp).
  destruct (removeFromCircuit_succeeds w' Hclosed' Hco') as [w'' Hrem].
  { by rewrite Hcmp. }
  { by apply (flag_isUsed w w' true). }
  rewrite Hrem. f_equal.
  destruct (removeFromCircuit_returned w' w'' Hclosed' Herc' Hrem)
    as (_ & _ & _ & Hnets' & Hnone' & Hem' & Hcmp' & Hsig' & Hsnone').
  apply world_ext.
  - apply map_eq. intros n.
    destruct (nets w !! n) as [net|] eqn:Hn.
    + destruct (Hnets n net Hn) as (net' & Hn' & Hname & Hreg).
      destruct (Hnets' n net' Hn') as (net'' & -> & Hname' & Hreg').
      f_equal. apply netSignal_ext; [congruence|]. intros x.
      rewrite Hreg', Hreg, (boundTo_flagged w w' true) by done.
      split; [intros [[?|?] ?]; done|]. intros Hx. split; [by left|].
      intros (k & s & Hk & Hb & ->).
      by destruct (Hpre k s Hk) as (_ & _ & Hfresh); apply (Hfresh n net).
    + by apply Hnone', Hnone.
  - congruence.
  - destruct Hco as (Hflags & _ & _ & _ & _ & _ & Hierc & _).
    apply (flag_back w w' w'' false); try done.
    apply (flag_signals_back w w' w'' false); try done.
    + intros k s Hk. by destruct (Hpre k s Hk).
    + by rewrite Hcmp.
    + by rewrite Hcmp.
    + by rewrite Hcmp.
    + intros n net Hn. destruct (Hnets n net Hn) as (net' & ? & ? & _). eauto.
Qed.

Lemma removeFromCircuit_then_addToCircuit w w' :
  wellFormed w → coherent w →
  ComponentInstance.removeFromCircuit w = Returned () w' →
  wellFormed w' → coherent w' →
  ComponentInstance.addToCircuit w' = Returned () w.
Proof.
  intros (Hclosed & Herc & _) Hco Hrem (Hclosed' & Herc' & _) Hco'.
  destruct (removeFromCircuit_returned w w' Hclosed Herc Hrem)
    as (Hadded & Hused & Hpre & Hnets & Hnone & Hem & Hcmp & Hsig & Hsnone).
  assert (Hu : Instance.mUuid (cmp w') = Instance.mUuid (cmp w))
    by (by rewrite Hcmp).
  assert (Hback : ∀ k s', Instance.mSignals (cmp w') !! k = Some s' →
            ∃ s, Instance.mSignals (cmp w) !! k = Some s
                 ∧ s' = flagged w false s).
  { intros k s' Hk'.
    destruct (Instance.mSignals (cmp w) !! k) as [s|] eqn:Hk.
    - rewrite (Hsig k s Hk) in Hk'. injection Hk' as <-. eauto.
    - by rewrite (Hsnone k Hk) in Hk'. }
  destruct (addToCircuit_succeeds w' Hclosed') as [w'' Hadd].
  { by rewrite Hcmp. }
  { by apply (flag_isUsed w w' false). }
  { intros k s' Hk'. destruct (Hback k s' Hk') as (s & Hk & ->).
    split; [done|]. intros n net' Hb Hn'.
    change (Signal.mNetSignal s = Some n) in Hb.
    destruct (Hclosed k s n Hk Hb) as [net Hn].
    destruct (Hnets n net Hn) as (net'' & Hn'' & _ & Hreg).
    rewrite Hn' in Hn''. injection Hn'' as <-.
    rewrite Hreg. intros [_ Hnot]. apply Hnot.
    exists k, s. unfold ComponentSignalInstance.self. by rewrite Hu. }
  rewrite Hadd. f_equal.
  destruct (addToCircuit_returned w' w'' Hclosed' Herc' Hadd)
    as (_ & _ & _ & Hnets' & Hnone' & Hem' & Hcmp' & Hsig' & Hsnone').
  apply world_ext.
  - apply map_eq. intros n.
    destruct (nets w !! n) as [net|] eqn:Hn.
    + destruct (Hnets n net Hn) as (net' & Hn' & Hname & Hreg).
      destruct (Hnets' n net' Hn') as (net'' & -> & Hname' & Hreg').
      f_equal. apply netSignal_ext; [congruence|]. intros x.
      rewrite Hreg', Hreg, (boundTo_flagged w w' false) by done.
      split.
      * intros [[? _]|(k & s & Hk & Hb & ->)]; [done|].
        by destruct (Hpre k s Hk) as (_ & _ & Hin); apply (Hin n net).
      * intros Hx. destruct (boundTo_dec w n x); [by right|by left].
    + by apply Hnone', Hnone.
  - congruence.
  - destruct Hco as (Hflags & _ & _ & _ & _ & _ & Hierc & _).
    apply (flag_back w w' w'' true); try done.
    apply (flag_signals_back w w' w'' true); try done.
    + intros k s Hk. by destruct (Hpre k s Hk).
    + by rewrite Hcmp.
    + by rewrite Hcmp.
    + by rewrite Hcmp.
    + intros n net Hn. destruct (Hnets n net Hn) as (net' & ? & ? & _). eauto.
Qed.

(** Extra X11.  [removeFromCircuit] of a component instance that is added
    to the circuit and not in use returns: unregistering its signal
    instances from their net signals cannot fail.  It throws a [LogicError]
    exactly when the instance is not added to the circuit.  When it returns,
    the instance and all its signal instances are no longer added, no net
    signal knows a signal instance of the component any longer, and no ERC
    message of the instance or its signal instances is visible. *)
Theorem X11_removeFromCircuit_of_unused_instance_returns (w : World) :
  reachable w →
  (Instance.mIsAddedToCircuit (cmp w) = false
   ↔ ComponentInstance.removeFromCircuit w = Thrown (LogicError None) w)
  ∧ (Instance.mIsAddedToCircuit (cmp w) = true →
     Instance.isUsed (cmp w) = false →
     ∃ w', ComponentInstance.removeFromCircuit w = Returned () w'
       ∧ Instance.mIsAddedToCircuit (cmp w') = false
       ∧ emitted w' = emitted w
       ∧ erc_visible (Instance.mErcMsgUnplacedRequiredSymbols (cmp w'))
         = false
       ∧ erc_visible (Instance.mErcMsgUnplacedOptionalSymbols (cmp w'))
         = false
       ∧ (∀ k s, Instance.mSignals (cmp w) !! k = Some s →
            ∃ s', Instance.mSignals (cmp w') !! k = Some s'
              ∧ Signal.mIsAddedToCircuit s' = false
              ∧ Signal.mNetSignal s' = Signal.mNetSignal s
              ∧ erc_visible (Signal.mErcMsgUnconnectedRequiredSignal s')
                = false
              ∧ erc_visible (Signal.mErcMsgForcedNetSignalNameConflict s')
                = false)
       ∧ ∀ n net, nets w !! n = Some net →
           ∃ net', nets w' !! n = Some net'
             ∧ net_getName net' = net_getName net
             ∧ ∀ x, x ∈ net_registered net'
                    ↔ x ∈ net_registered net ∧ ¬ boundTo w n x).
Proof.
  intros Hw.
  pose proof (reachable_wellFormed w Hw) as (Hclosed & Herc & _).
  pose proof (reachable_coherent w Hw) as Hco.
  split.
  - split.
    + intros Hadded. unfold ComponentInstance.removeFromCircuit. run.
      by rewrite Hadded.
    + intros Hthrow.
      destruct (Instance.mIsAddedToCircuit (cmp w)) eqn:Hadded; [|done].
      destruct (Instance.isUsed (cmp w)) eqn:Hused.
      * revert Hthrow. unfold ComponentInstance.removeFromCircuit. run.
        by rewrite Hadded, Hused.
      * destruct (removeFromCircuit_succeeds w Hclosed Hco Hadded Hused)
          as [w' Hrun]. congruence.
  - intros Hadded Hused.
    destruct (removeFromCircuit_succeeds w Hclosed Hco Hadded Hused)
      as [w' Hrun].
    exists w'. split; [done|].
    destruct (removeFromCircuit_returned w w' Hclosed Herc Hrun)
      as (_ & _ & _ & Hnets & _ & Hem & Hcmp & Hsig & _).
    split; [by rewrite Hcmp|]. split; [done|].
    split; [by rewrite Hcmp|]. split; [by rewrite Hcmp|]. split; [|done].
    intros k s Hk. exists (flagged w false s). split; [by apply Hsig|].
    done.
Qed.

(** Extra X12.  In a reachable world, [removeFromCircuit] undoes
    [addToCircuit]: it returns, and the world is exactly the one before
    [addToCircuit], with the bindings registered at the net signals, the
    flags and all ERC messages as they were. *)
Theorem X12_removeFromCircuit_undoes_addToCircuit (w w' : World) :
  reachable w →
  ComponentInstance.addToCircuit w = Returned () w' →
  ComponentInstance.removeFromCircuit w' = Returned () w.
Proof.
  intros Hw Hadd.
  assert (Hw' : reachable w')
    by (by apply (reachable_returned CallAddToCircuit w)).
  apply addToCircuit_then_removeFromCircuit; try done.
  - by apply reachable_wellFormed.
  - by apply reachable_coherent.
  - by apply reachable_wellFormed.
  - by apply reachable_coherent.
Qed.

(** Extra X13.  In a reachable world, [addToCircuit] undoes
    [removeFromCircuit]: it returns, and the world is exactly the one before
    [removeFromCircuit]. *)
Theorem X13_addToCircuit_undoes_removeFromCircuit (w w' : World) :
  reachable w →
  ComponentInstance.removeFromCircuit w = Returned () w' →
  ComponentInstance.addToCircuit w' = Returned () w.
Proof.
  intros Hw Hrem.
  assert (Hw' : reachable w')
    by (by apply (reachable_returned CallRemoveFromCircuit w)).
  apply removeFromCircuit_then_addToCircuit; try done.
  - by apply reachable_wellFormed.
  - by apply reachable_coherent.
  - by apply reachable_wellFormed.
  - by apply reachable_coherent.
Qed.

(** ** Binding a signal instance to another net signal *)

Lemma arePinsOrPadsUsed_false s :
  Signal.arePinsOrPadsUsed s = false ↔ ¬ pinOrPadConnected s.
Proof.
  rewrite <- arePinsOrPadsUsed_connected.
  by destruct (Signal.arePinsOrPadsUsed s).
Qed.

(** Extra X14.  [setNetSignal] with another net signal, for a signal
    instance that is added to the circuit and has no connected pin or pad,
    returns whenever the new net signal does not know the signal instance
    yet: unregistering from the old net signal cannot fail.  The binding
    moves from the old to the new net signal and no other registration
    changes; the signal instance points to the new net signal and keeps its
    pins and pads; the other signal instances are untouched and no Qt signal
    is emitted. *)
Theorem X14_setNetSignal_moves_the_registration (w : World) (k : Uuid)
    (s : Signal.t) (netsignal : option Uuid) :
  reachable w →
  Instance.mSignals (cmp w) !! k = Some s →
  netsignal ≠ Signal.mNetSignal s →
  Signal.mIsAddedToCircuit s = true →
  ¬ pinOrPadConnected s →
  (∀ new, netsignal = Some new →
     ∃ netNew, nets w !! new = Some netNew
               ∧ ComponentSignalInstance.self (cmp w) k
                   ∉ net_registered netNew) →
  ∃ w' s',
    ComponentSignalInstance.setNetSignal k netsignal w = Returned () w'
    ∧ Instance.mSignals (cmp w') !! k = Some s'
    ∧ Signal.mNetSignal s' = netsignal
    ∧ sameSkeleton s (Signal.set_mNetSignal (Signal.mNetSignal s) s')
    ∧ (∀ k', k' ≠ k →
         Instance.mSignals (cmp w') !! k' = Instance.mSignals (cmp w) !! k')
    ∧ emitted w' = emitted w
    ∧ (∀ n, nets w !! n = None → nets w' !! n = None)
    ∧ ∀ n net, nets w !! n = Some net →
        ∃ net', nets w' !! n = Some net'
          ∧ net_getName net' = net_getName net
          ∧ ∀ x, x ∈ net_registered net'
                 ↔ (x ∈ net_registered net
                    ∧ ¬ (Signal.mNetSignal s = Some n
                         ∧ x = ComponentSignalInstance.self (cmp w) k))
                   ∨ (netsignal = Some n
                      ∧ x = ComponentSignalInstance.self (cmp w) k).
Proof.
  intros Hw Hk Hne Hadded Hfree Hnew.
  destruct (reachable_wellFormed w Hw) as (Hclosed & _ & Hconn & _).
  destruct (reachable_coherent w Hw) as (_ & Hbound & _).
  apply arePinsOrPadsUsed_false in Hfree.
  exists (reboundWorld k s netsignal w), (rebound w netsignal s).
  split; [by apply setNetSignal_succeeds|].
  split; [rewrite reboundWorld_cmp; simpl; apply lookup_insert_eq|].
  split; [done|]. split; [by repeat split|]. split.
  { intros k' Hk'. rewrite reboundWorld_cmp. simpl.
    by rewrite lookup_insert_ne. }
  split; [apply reboundWorld_emitted|]. split.
  { intros n Hn. by rewrite reboundWorld_nets, Hn. }
  intros n net Hn. rewrite reboundWorld_nets, Hn. simpl.
  eexists. split; [done|]. split.
  { by repeat case_bool_decide. }
  intros x.
  set (self := ComponentSignalInstance.self (cmp w) k).
  destruct (decide (x = self)) as [->|Hx];
    repeat case_bool_decide; simpl; set_solver.
Qed.

Lemma rebound_back w w' netsignal s :
  Instance.mName (cmp w') = Instance.mName (cmp w) →
  Instance.mValue (cmp w') = Instance.mValue (cmp w) →
  Instance.mAttributes (cmp w') = Instance.mAttributes (cmp w) →
  boundNetName w' s = boundNetName w s →
  Signal.nameChangedConnections s = connectionsOf (Signal.mNetSignal s) →
  ComponentSignalInstance.updateErcMessages_body (cmp w) (boundNetName w s) s
  = s →
  rebound w' (Signal.mNetSignal s) (rebound w netsignal s) = s.
Proof.
  intros Hn Hv Ha Hb Hconn Herc. rewrite <- Herc at 3.
  unfold rebound.
  rewrite (updateErcMessages_body_ext (cmp w') (cmp w)) by done.
  assert (Hb' : ∀ s1 s2, Signal.mNetSignal s1 = Signal.mNetSignal s2 →
                         boundNetName w' s1 = boundNetName w' s2).
  { intros s1 s2 Heq. unfold boundNetName. by rewrite Heq. }
  rewrite (Hb' _ s) by done. rewrite Hb.
  destruct s. simpl in *. subst. reflexivity.
Qed.

(** Extra X15.  In a reachable world, binding a signal instance back to the
    net signal it pointed to undoes [setNetSignal]: the call returns, and
    the world is exactly the one before the first call. *)
Theorem X15_setNetSignal_back_restores_the_world (w w' : World) (k : Uuid)
    (s : Signal.t) (netsignal : option Uuid) :
  reachable w →
  Instance.mSignals (cmp w) !! k = Some s →
  ComponentSignalInstance.setNetSignal k netsignal w = Returned () w' →
  ComponentSignalInstance.setNetSignal k (Signal.mNetSignal s) w'
  = Returned () w.
Proof.
  intros Hw Hk Hrun.
  assert (Hw' : reachable w')
    by (by apply (reachable_returned (CallSetNetSignal k netsignal) w)).
  destruct (reachable_wellFormed w Hw) as (Hclosed & Herc & Hconn & _).
  destruct (reachable_wellFormed w' Hw') as (Hclosed' & _ & Hconn' & _).
  destruct (reachable_coherent w' Hw') as (_ & Hbound' & _).
  destruct (setNetSignal_returned k s netsignal w w' Hclosed Hconn Hk Hrun)
    as [[_ ->]|(Hne & Hadded & Hfree & Hknown & Hnew & ->)].
  { by apply setNetSignal_unchanged. }
  set (self := ComponentSignalInstance.self (cmp w) k) in *.
  set (w' := reboundWorld k s netsignal w) in *.
  assert (Hk' : Instance.mSignals (cmp w') !! k
                = Some (rebound w netsignal s)).
  { unfold w'. rewrite reboundWorld_cmp. simpl. apply lookup_insert_eq. }
  assert (Hself : ComponentSignalInstance.self (cmp w') k = self).
  { unfold w'. by rewrite reboundWorld_cmp. }
  rewrite (setNetSignal_succeeds k (rebound w netsignal s)); try done.
  2:{ intros old Hold. destruct (Hclosed k s old Hk Hold) as [netOld HnetOld].
      rewrite Hself. unfold w'. rewrite reboundWorld_nets, HnetOld.
      cbn [fmap option_fmap option_map]. fold self.
      eexists. split; [done|].
      rewrite (bool_decide_eq_false_2 (netsignal = Some old)) by congruence.
      rewrite bool_decide_eq_true_2 by done. simpl. set_solver. }
  f_equal. apply world_ext.
  - apply map_eq. intros n. rewrite reboundWorld_nets. unfold w' at 2.
    rewrite reboundWorld_nets. rewrite Hself. fold self.
    destruct (nets w !! n) as [net|] eqn:Hn; [|done]. simpl. f_equal.
    change (Signal.mNetSignal (rebound w netsignal s)) with netsignal.
    destruct (decide (Signal.mNetSignal s = Some n)) as [Hold|Hold].
    + rewrite (bool_decide_eq_true_2 _ Hold).
      rewrite (bool_decide_eq_false_2 (netsignal = Some n)) by congruence.
      apply bind_unbind. unfold knownAt in Hknown.
      rewrite Hold, Hn in Hknown. by apply bool_decide_eq_true in Hknown.
    + rewrite (bool_decide_eq_false_2 _ Hold).
      destruct (decide (netsignal = Some n)) as [Hnet|Hnet].
      * rewrite (bool_decide_eq_true_2 _ Hnet). apply unbind_bind.
        destruct (Hnew n Hnet) as (net0 & Hn0 & Hfresh). congruence.
      * by rewrite (bool_decide_eq_false_2 _ Hnet).
  - rewrite reboundWorld_emitted. unfold w'. apply reboundWorld_emitted.
  - rewrite reboundWorld_cmp. unfold w' at 2 3. rewrite reboundWorld_cmp.
    simpl. rewrite insert_insert_eq.
    rewrite rebound_back; try done.
    + rewrite insert_id by done. by destruct (cmp w).
    + unfold w'. by rewrite reboundWorld_cmp.
    + unfold w'. by rewrite reboundWorld_cmp.
    + unfold w'. by rewrite reboundWorld_cmp.
    + apply names_boundNetName.
      * intros n net Hn. unfold w'. rewrite reboundWorld_nets, Hn. simpl.
        eexists. split; [done|]. by repeat case_bool_decide.
      * intros n Hn. exact (Hclosed k s n Hk Hn).
    + by apply (Hconn k).
    + by apply (Herc k).
Qed.

(** ** Registering and unregistering are inverse *)





Lemma set_cmp_set_cmp c c' w : set_cmp c (set_cmp c' w) = set_cmp c w.
Proof. done. Qed.

Lemma set_cmp_id w : set_cmp (cmp w) w = w.
Proof. by destruct w. Qed.

Lemma symbols_back c symbols :
  instanceErcUpToDate c →
  ComponentInstance.updateErcMessages_body
    (Instance.set_mRegisteredSymbols (Instance.mRegisteredSymbols c)
       (ComponentInstance.updateErcMessages_body
          (Instance.set_mRegisteredSymbols symbols c)))
  = c.
Proof.
  intros Herc. transitivity (ComponentInstance.updateErcMessages_body c);
    [|done]. by destruct c.
Qed.

Lemma unregister_registered_symbol c itemUuid symbol :
  instanceErcUpToDate c →
  Instance.mRegisteredSymbols c !! itemUuid = None →
  let c' := ComponentInstance.updateErcMessages_body
              (Instance.set_mRegisteredSymbols
                 (<[itemUuid := symbol]> (Instance.mRegisteredSymbols c)) c) in
  ComponentInstance.updateErcMessages_body
    (Instance.set_mRegisteredSymbols
       (delete itemUuid (Instance.mRegisteredSymbols c')) c')
  = c.
Proof.
  intros Herc Hfree c'.
  assert (Hsymbols : delete itemUuid (Instance.mRegisteredSymbols c')
                     = Instance.mRegisteredSymbols c).
  { unfold c'. simpl. by apply delete_insert_id. }
  rewrite Hsymbols. by apply symbols_back.
Qed.

Lemma devices_back c devices :
  instanceErcUpToDate c →
  ComponentInstance.updateErcMessages_body
    (Instance.set_mRegisteredDevices (Instance.mRegisteredDevices c)
       (ComponentInstance.updateErcMessages_body
          (Instance.set_mRegisteredDevices devices c)))
  = c.
Proof.
  intros Herc. transitivity (ComponentInstance.updateErcMessages_body c);
    [|done]. by destruct c.
Qed.

(** Extra X18.  A symbol is registered only under an item uuid that is
    free.  After [registerSymbol] returned, the symbol is stored under the
    uuid of its item; registering it again throws a [RuntimeError];
    unregistering another symbol object of the same item throws a
    [LogicError]; and unregistering the symbol itself gives back exactly the
    world before, ERC messages included. *)
Theorem X18_unregisterSymbol_undoes_registerSymbol (w w' : World)
    (symbol : SI_Symbol) :
  reachable w →
  ComponentInstance.registerSymbol symbol w = Returned () w' →
  let itemUuid := item_getUuid (sym_getCompSymbVarItem symbol) in
  Instance.mRegisteredSymbols (cmp w) !! itemUuid = None
  ∧ Instance.mRegisteredSymbols (cmp w')
    = <[itemUuid := symbol]> (Instance.mRegisteredSymbols (cmp w))
  ∧ (∃ text, ComponentInstance.registerSymbol symbol w'
             = Thrown (RuntimeError text) w')
  ∧ (∀ other, other ≠ symbol →
       item_getUuid (sym_getCompSymbVarItem other) = itemUuid →
       ComponentInstance.unregisterSymbol other w'
       = Thrown (LogicError None) w')
  ∧ ComponentInstance.unregisterSymbol symbol w' = Returned () w.
Proof.
  intros Hw Hrun itemUuid.
  destruct (reachable_coherent w Hw) as (_ & _ & _ & _ & Htidy).
  destruct Htidy as (_ & _ & Herc & _).
  rewrite registerSymbol_run in Hrun. cbv zeta in Hrun. fold itemUuid in Hrun.
  destruct (Instance.mIsAddedToCircuit (cmp w)) eqn:Hadded; [|done].
  destruct (bool_decide (sym_getCircuit symbol = Instance.mCircuit (cmp w)))
    eqn:Hcircuit; [|done].
  destruct (ComponentInstance.findSymbolItem (cmp w) itemUuid) eqn:Hitem;
    [|done].
  destruct (Instance.isRegistered (cmp w) itemUuid) eqn:Hreg; [done|].
  cbn [negb orb] in Hrun.
  assert (Hw' : w' = set_cmp (ComponentInstance.updateErcMessages_body
                       (Instance.set_mRegisteredSymbols
                          (<[itemUuid := symbol]>
                             (Instance.mRegisteredSymbols (cmp w)))
                          (cmp w))) w).
  { destruct ((map_to_list (Instance.mRegisteredSymbols (cmp w))).*2)
      as [|first ?]; [congruence|].
    destruct (negb _); [done|congruence]. }
  clear Hrun. subst w'.
  assert (Hfree : Instance.mRegisteredSymbols (cmp w) !! itemUuid = None).
  { apply bool_decide_eq_false in Hreg. by apply eq_None_not_Some. }
  split; [done|]. split; [done|]. split; [|split].
  - rewrite registerSymbol_run. cbv zeta. fold itemUuid.
    cbn [cmp set_cmp].
    change (Instance.mIsAddedToCircuit
              (ComponentInstance.updateErcMessages_body _))
      with (Instance.mIsAddedToCircuit (cmp w)).
    change (Instance.mCircuit (ComponentInstance.updateErcMessages_body _))
      with (Instance.mCircuit (cmp w)).
    rewrite Hadded, Hcircuit. cbn [negb orb].
    change (ComponentInstance.findSymbolItem
              (ComponentInstance.updateErcMessages_body _) itemUuid)
      with (ComponentInstance.findSymbolItem (cmp w) itemUuid).
    rewrite Hitem. cbn [negb].
    assert (Hnow : Instance.isRegistered
                     (ComponentInstance.updateErcMessages_body
                        (Instance.set_mRegisteredSymbols
                           (<[itemUuid := symbol]>
                              (Instance.mRegisteredSymbols (cmp w)))
                           (cmp w))) itemUuid = true).
    { apply bool_decide_eq_true. simpl. rewrite lookup_insert_eq. eauto. }
    rewrite Hnow. eauto.
  - intros other Hother Hu. rewrite unregisterSymbol_run. cbv zeta.
    rewrite Hu. cbn [cmp set_cmp].
    assert (Hnot : bool_decide
                     (Instance.mRegisteredSymbols
                        (ComponentInstance.updateErcMessages_body
                           (Instance.set_mRegisteredSymbols
                              (<[itemUuid := symbol]>
                                 (Instance.mRegisteredSymbols (cmp w)))
                              (cmp w))) !! itemUuid = Some other) = false).
    { apply bool_decide_eq_false. simpl. rewrite lookup_insert_eq.
      congruence. }
    rewrite Hnot. cbn [negb]. by rewrite orb_true_r.
  - rewrite unregisterSymbol_run. cbv zeta. fold itemUuid.
    cbn [cmp set_cmp].
    change (Instance.mIsAddedToCircuit
              (ComponentInstance.updateErcMessages_body _))
      with (Instance.mIsAddedToCircuit (cmp w)).
    rewrite Hadded. cbn [negb orb].
    assert (Hnow : Instance.isRegistered
                     (ComponentInstance.updateErcMessages_body
                        (Instance.set_mRegisteredSymbols
                           (<[itemUuid := symbol]>
                              (Instance.mRegisteredSymbols (cmp w)))
                           (cmp w))) itemUuid = true).
    { apply bool_decide_eq_true. simpl. rewrite lookup_insert_eq. eauto. }
    rewrite Hnow. cbn [negb orb].
    assert (Hsame : bool_decide
                     (Instance.mRegisteredSymbols
                        (ComponentInstance.updateErcMessages_body
                           (Instance.set_mRegisteredSymbols
                              (<[itemUuid := symbol]>
                                 (Instance.mRegisteredSymbols (cmp w)))
                              (cmp w))) !! itemUuid = Some symbol) = true).
    { apply bool_decide_eq_true. simpl. by rewrite lookup_insert_eq. }
    rewrite Hsame. cbn [negb]. f_equal.
    rewrite set_cmp_set_cmp. etransitivity; [|apply (set_cmp_id w)]. f_equal.
    exact (unregister_registered_symbol (cmp w) itemUuid symbol Herc Hfree).
Qed.

(** Extra X19.  A device is registered only once.  After [registerDevice]
    returned, the device is the last of the list; registering it again
    throws a [LogicError]; and unregistering it gives back exactly the world
    before. *)
Theorem X19_unregisterDevice_undoes_registerDevice (w w' : World)
    (device : BI_Device) :
  reachable w →
  ComponentInstance.registerDevice device w = Returned () w' →
  (device ∉ Instance.mRegisteredDevices (cmp w))
  ∧ Instance.mRegisteredDevices (cmp w')
    = Instance.mRegisteredDevices (cmp w) ++ [device]
  ∧ ComponentInstance.registerDevice device w' = Thrown (LogicError None) w'
  ∧ ComponentInstance.unregisterDevice device w' = Returned () w.
Proof.
  intros Hw Hrun.
  destruct (reachable_coherent w Hw) as (_ & _ & _ & _ & Htidy).
  destruct Htidy as (_ & _ & Herc & _).
  rewrite registerDevice_run in Hrun. cbv zeta in Hrun.
  destruct (Instance.mIsAddedToCircuit (cmp w)) eqn:Hadded; [|done].
  destruct (bool_decide (dev_getCircuit device = Instance.mCircuit (cmp w)))
    eqn:Hcircuit; [|done].
  destruct (contains device (Instance.mRegisteredDevices (cmp w))) eqn:Hin;
    [done|].
  destruct (cmp_isSchematicOnly (Instance.mLibComponent (cmp w))) eqn:Hso;
    [done|].
  cbn [negb orb] in Hrun. injection Hrun as <-.
  apply contains_false in Hin.
  assert (Hnow : contains device
                   (Instance.mRegisteredDevices (cmp w) ++ [device]) = true).
  { apply contains_true, elem_of_app. right. by left. }
  split; [done|]. split; [done|]. split.
  - rewrite registerDevice_run. cbv zeta. cbn [cmp set_cmp].
    change (Instance.mRegisteredDevices
              (ComponentInstance.updateErcMessages_body
                 (Instance.set_mRegisteredDevices ?l (cmp w))))
      with l.
    rewrite Hnow. by rewrite orb_true_r.
  - rewrite unregisterDevice_run. cbv zeta. cbn [cmp set_cmp].
    change (Instance.mIsAddedToCircuit
              (ComponentInstance.updateErcMessages_body _))
      with (Instance.mIsAddedToCircuit (cmp w)).
    change (Instance.mRegisteredDevices
              (ComponentInstance.updateErcMessages_body
                 (Instance.set_mRegisteredDevices ?l (cmp w))))
      with l.
    rewrite Hadded, Hnow. cbn [negb orb]. f_equal.
    rewrite set_cmp_set_cmp. etransitivity; [|apply (set_cmp_id w)]. f_equal.
    rewrite removeOne_app_new by done. by apply devices_back.
Qed.

(** ** The setters *)

Lemma emit_attributesChanged_full w :
  netsClosed w →
  ∃ w', ComponentInstance.emit_attributesChanged w = Returned () w'
        ∧ nets w' = nets w
        ∧ emitted w' = attributesChanged :: emitted w
        ∧ cmp w' = Instance.set_mSignals (Instance.mSignals (cmp w')) (cmp w)
        ∧ (∀ k s, Instance.mSignals (cmp w) !! k = Some s →
             Instance.mSignals (cmp w') !! k = Some (refreshed w s)).
Proof.
  intros Hclosed. unfold ComponentInstance.emit_attributesChanged. run.
  unfold emit. run.
  set (w0 := set_emitted (attributesChanged :: emitted w) w).
  rewrite (forEach_ext _ (refreshIf (λ _, true)))
    by apply updateErcMessages_refreshIf.
  destruct (signalKeys_spec (cmp w)) as [Hnd Hkeys].
  destruct (forEach_refreshIf (λ _, true)
              (ComponentInstance.signalKeys (cmp w)) w0 Hnd)
    as (w' & Hrun & Hnets & Hem & Hcmp & Hsig & Hnone).
  { intros k Hk. by apply Hkeys. }
  { done. }
  exists w'. split; [done|]. split; [done|]. split; [done|].
  split; [done|].
  intros k s Hk. rewrite (Hsig k s Hk).
  rewrite bool_decide_eq_true_2; [done|]. apply Hkeys. eauto.
Qed.

(** Extra X20.  The three setters of a component instance always return,
    except [setName] for the empty name.  A setter called with the present
    value changes nothing and emits nothing; called with another value it
    stores the value, emits [attributesChanged] exactly once and leaves the
    net signals alone. *)
Theorem X20_setters_notify_once (w : World) :
  reachable w →
  (∀ name, name ≠ EmptyString →
     ∃ w', ComponentInstance.setName name w = Returned () w'
       ∧ Instance.mName (cmp w') = name
       ∧ nets w' = nets w
       ∧ (name = Instance.mName (cmp w) → w' = w)
       ∧ (name ≠ Instance.mName (cmp w) →
          emitted w' = attributesChanged :: emitted w))
  ∧ (∀ value,
       ∃ w', ComponentInstance.setValue value w = Returned () w'
         ∧ Instance.mValue (cmp w') = value
         ∧ nets w' = nets w
         ∧ (value = Instance.mValue (cmp w) → w' = w)
         ∧ (value ≠ Instance.mValue (cmp w) →
            emitted w' = attributesChanged :: emitted w))
  ∧ (∀ attributes,
       ∃ w', ComponentInstance.setAttributes attributes w = Returned () w'
         ∧ Instance.mAttributes (cmp w') = attributes
         ∧ nets w' = nets w
         ∧ (attributes = Instance.mAttributes (cmp w) → w' = w)
         ∧ (attributes ≠ Instance.mAttributes (cmp w) →
            emitted w' = attributesChanged :: emitted w)).
Proof.
  intros Hw. destruct (reachable_wellFormed w Hw) as (Hclosed & _).
  split; [|split].
  - intros name Hname. unfold ComponentInstance.setName. run.
    case_bool_decide as Hsame; cbn [negb].
    { exists w. by subst name. }
    assert (Hne : isEmpty name = false) by (by apply bool_decide_eq_false_2).
    rewrite Hne. run.
    rewrite instance_updateErcMessages_run. run.
    match goal with
    | |- context [ComponentInstance.emit_attributesChanged ?w0] =>
        destruct (emit_attributesChanged_full w0)
          as (w' & Hrun & Hnets & Hem & Hcmp & _);
          [by apply netsClosed_set_cmp|]
    end.
    exists w'. split; [done|]. split; [by rewrite Hcmp|]. by auto.
  - intros value. unfold ComponentInstance.setValue. run.
    case_bool_decide as Hsame; cbn [negb].
    { exists w. by subst value. }
    run.
    match goal with
    | |- context [ComponentInstance.emit_attributesChanged ?w0] =>
        destruct (emit_attributesChanged_full w0)
          as (w' & Hrun & Hnets & Hem & Hcmp & _);
          [by apply netsClosed_set_cmp|]
    end.
    exists w'. split; [done|]. split; [by rewrite Hcmp|]. by auto.
  - intros attributes. unfold ComponentInstance.setAttributes. run.
    case_bool_decide as Hsame; cbn [negb].
    { exists w. by subst attributes. }
    run.
    match goal with
    | |- context [ComponentInstance.emit_attributesChanged ?w0] =>
        destruct (emit_attributesChanged_full w0)
          as (w' & Hrun & Hnets & Hem & Hcmp & _);
          [by apply netsClosed_set_cmp|]
    end.
    exists w'. split; [done|]. split; [by rewrite Hcmp|]. by auto.
Qed.

(** Extra X21.  A component instance has exactly one signal instance for
    every signal of its library component, stored under the uuid of that
    signal, and no other; and its symbol variant is a variant of the library
    component.  No operation adds or removes a signal instance. *)
Theorem X21_one_signal_instance_per_library_signal (w : World) :
  reachable w →
  let c := cmp w in
  (∀ k s, Instance.mSignals c !! k = Some s →
     sig_getUuid (Signal.mComponentSignal s) = k
     ∧ Signal.mComponentSignal s ∈ cmp_getSignals (Instance.mLibComponent c))
  ∧ (∀ signal, signal ∈ cmp_getSignals (Instance.mLibComponent c) →
       is_Some (Instance.mSignals c !! sig_getUuid signal))
  ∧ Instance.mCompSymbVar c ∈ cmp_getSymbolVariants (Instance.mLibComponent c).
Proof.
  intros Hw c.
  destruct (reachable_coherent w Hw) as (_ & _ & _ & Hlib & Htidy).
  destruct Hlib as [Hsig Hall]. destruct Htidy as (_ & _ & _ & _ & Hvar).
  split; [exact Hsig|]. split; [exact Hall|].
  by apply get_inr in Hvar as [Hin _].
Qed.

(** ** The constructors *)

Lemma get_found {A} (getUuid : A → Uuid) uuid (l : list A) :
  (∃ x, x ∈ l ∧ getUuid x = uuid) → ∃ y, get getUuid uuid l = inr y.
Proof.
  intros (x & Hin & Hx). unfold get.
  destruct (List.find _ l) as [y|] eqn:Hf; [by exists y|].
  apply list_elem_of_In in Hin.
  pose proof (find_none _ _ Hf x Hin) as Hno. simpl in Hno.
  by apply bool_decide_eq_false in Hno.
Qed.

Lemma get_missing {A} (getUuid : A → Uuid) uuid (l : list A) :
  (∀ x, x ∈ l → getUuid x ≠ uuid) →
  ∃ text, get getUuid uuid l = inl (RuntimeError text).
Proof.
  intros Hno. unfold get.
  destruct (List.find _ l) as [y|] eqn:Hf; [|by eexists].
  apply find_some in Hf as [Hin Hy]. apply bool_decide_eq_true in Hy.
  apply list_elem_of_In in Hin. by destruct (Hno y Hin).
Qed.

Lemma createSignals_total circuitNets signals c :
  ∃ c', ComponentInstance.createSignals circuitNets signals c = inr c'
        ∧ c' = Instance.set_mSignals (Instance.mSignals c') c.
Proof.
  revert c. induction signals as [|signal signals IH]; intros c;
    cbn [ComponentInstance.createSignals].
  { exists c. split; [done|]. by destruct c. }
  destruct (signal_create_inr circuitNets c signal None) as (s & -> & _).
  destruct (IH (Instance.set_mSignals
                  (<[sig_getUuid (Signal.mComponentSignal s) := s]>
                     (Instance.mSignals c)) c)) as (c' & -> & Hframe).
  exists c'. split; [done|]. by rewrite Hframe at 1.
Qed.

(** Extra X22.  The constructor of a new component instance throws a
    [RuntimeError] for the empty name and for a symbol variant that the
    library component does not have, and returns otherwise.  The instance it
    returns is not added to the circuit, has nothing registered, carries the
    default value and the attributes of the library component, and owns one
    unbound signal instance for every signal of the library component. *)
Theorem X22_create_outcome (circuit : Addr)
    (circuitNets : gmap Uuid NetSignal) (uuid : Uuid)
    (libComponent : Component) (symbVar : Uuid) (name : string) :
  let created :=
    ComponentInstance.create circuit circuitNets uuid libComponent symbVar
      name in
  (name = EmptyString →
     created
     = inl (RuntimeError "The name of the component must not be empty."))
  ∧ ((∀ variant, variant ∈ cmp_getSymbolVariants libComponent →
                 symbvar_getUuid variant ≠ symbVar) →
     ∃ text, created = inl (RuntimeError text))
  ∧ (name ≠ EmptyString →
     (∃ variant, variant ∈ cmp_getSymbolVariants libComponent
                 ∧ symbvar_getUuid variant = symbVar) →
     ∃ c, created = inr c)
  ∧ (∀ c, created = inr c →
       Instance.mCircuit c = circuit
       ∧ Instance.mUuid c = uuid
       ∧ Instance.mName c = name
       ∧ Instance.mValue c = cmp_getDefaultValue libComponent
       ∧ Instance.mAttributes c = cmp_getAttributes libComponent
       ∧ Instance.mLibComponent c = libComponent
       ∧ symbvar_getUuid (Instance.mCompSymbVar c) = symbVar
       ∧ Instance.mIsAddedToCircuit c = false
       ∧ Instance.mRegisteredSymbols c = ∅
       ∧ Instance.mRegisteredDevices c = []
       ∧ (∀ signal, signal ∈ cmp_getSignals libComponent →
            is_Some (Instance.mSignals c !! sig_getUuid signal))
       ∧ (∀ k s, Instance.mSignals c !! k = Some s →
            sig_getUuid (Signal.mComponentSignal s) = k
            ∧ Signal.mComponentSignal s ∈ cmp_getSignals libComponent
            ∧ Signal.mNetSignal s = None
            ∧ detached s)).
Proof.
  intros created. unfold created, ComponentInstance.create.
  split; [|split; [|split]].
  - by intros ->.
  - intros Hno. destruct (isEmpty name); [by eexists|].
    by destruct (get_missing symbvar_getUuid symbVar _ Hno) as [text ->];
      eexists.
  - intros Hname Hvar.
    assert (Hne : isEmpty name = false) by (by apply bool_decide_eq_false_2).
    rewrite Hne.
    destruct (get_found symbvar_getUuid symbVar _ Hvar) as [variant ->].
    match goal with
    | |- context [ComponentInstance.createSignals ?n ?l ?c0] =>
        destruct (createSignals_total n l c0) as (c1 & -> & Hframe)
    end.
    destruct (instance_init_inr c1) as (c & -> & _); [|by exists c].
    rewrite Hframe. by apply bool_decide_eq_false_2.
  - intros c. destruct (isEmpty name); [done|].
    destruct (get symbvar_getUuid symbVar _) as [e|variant] eqn:Hvar; [done|].
    match goal with
    | |- context [ComponentInstance.createSignals ?n ?l ?c0] =>
        destruct (createSignals_total n l c0) as (c1 & Hsignals & Hframe);
        rewrite Hsignals
    end.
    destruct (createSignals_spec _ _ _ _ Hsignals) as (Hsig & Hall & _).
    unfold ComponentInstance.init. destruct (negb _); [done|].
    intros [= <-]. apply get_inr in Hvar as [_ Hvar].
    assert (Hfields :
      Instance.mCircuit c1 = circuit ∧ Instance.mUuid c1 = uuid
      ∧ Instance.mName c1 = name
      ∧ Instance.mValue c1 = cmp_getDefaultValue libComponent
      ∧ Instance.mAttributes c1 = cmp_getAttributes libComponent
      ∧ Instance.mLibComponent c1 = libComponent
      ∧ Instance.mCompSymbVar c1 = variant
      ∧ Instance.mIsAddedToCircuit c1 = false
      ∧ Instance.mRegisteredSymbols c1 = ∅
      ∧ Instance.mRegisteredDevices c1 = []) by (by rewrite Hframe).
    destruct Hfields as (? & ? & ? & ? & ? & ? & Hv & ? & ? & ?).
    cbn. rewrite Hv. do 10 (split; [done|]). split; [exact Hall|].
    intros k s Hk. destruct (Hsig k s Hk) as [Hold|?]; [|done].
    simpl in Hold. by rewrite lookup_empty in Hold.
Qed.

(** ** Writing an instance and reading it back *)

Lemma get_unique {A} (getUuid : A → Uuid) (l : list A) x :
  NoDup (getUuid <$> l) → x ∈ l → get getUuid (getUuid x) l = inr x.
Proof.
  unfold get. induction l as [|a l IH]; intros Hnd Hin.
  { by apply elem_of_nil in Hin. }
  rewrite fmap_cons in Hnd. apply NoDup_cons in Hnd as [Ha Hnd]. simpl.
  case_bool_decide as Heq.
  - apply elem_of_cons in Hin as [->|Hin]; [done|].
    destruct Ha. rewrite Heq. apply list_elem_of_fmap. by exists x.
  - apply elem_of_cons in Hin as [->|Hin]; [done|]. by apply IH.
Qed.

Lemma signal_create_back circuitNets c s :
  detached s → justConstructed circuitNets c s →
  ComponentSignalInstance.create circuitNets c (Signal.mComponentSignal s)
    (Signal.mNetSignal s)
  = inr s.
Proof.
  intros (Ha & Hp & Hq) (Herc & Hconn & _).
  rewrite <- Herc at 3.
  destruct s as [cs added n pins pads m1 m2 conn]. simpl in *. subst.
  by destruct n.
Qed.

Lemma loadSignals_serialized circuitNets (c : Instance.t)
    (l : list (Uuid * Signal.t)) :
  ∀ c0,
    NoDup (sig_getUuid <$> cmp_getSignals (Instance.mLibComponent c0)) →
    Instance.mName c0 = Instance.mName c →
    Instance.mValue c0 = Instance.mValue c →
    Instance.mAttributes c0 = Instance.mAttributes c →
    NoDup l.*1 →
    (∀ k s, (k, s) ∈ l →
       sig_getUuid (Signal.mComponentSignal s) = k
       ∧ Signal.mComponentSignal s
           ∈ cmp_getSignals (Instance.mLibComponent c0)
       ∧ detached s ∧ justConstructed circuitNets c s) →
    (∀ k, k ∈ l.*1 → Instance.mSignals c0 !! k = None) →
    ∃ nodes, ComponentInstance.serializePointerContainer l.*2 = inr nodes
      ∧ ComponentInstance.loadSignals circuitNets nodes c0
        = inr (Instance.set_mSignals
                 (list_to_map l ∪ Instance.mSignals c0) c0).
Proof.
  induction l as [|[k s] l IH]; intros c0 Hlib Hn Hv Hat Hnd Hsig Hfree.
  { exists []. split; [done|]. simpl. rewrite (left_id_L ∅ (∪)).
    by destruct c0. }
  rewrite fmap_cons in Hnd. apply NoDup_cons in Hnd as [Hk Hnd].
  destruct (Hsig k s) as (Huuid & Hin & Hdet & Hjust); [by left|].
  destruct (IH (Instance.set_mSignals (<[k := s]> (Instance.mSignals c0)) c0))
    as (nodes & Hser & Hload); try done.
  { intros k' s' Hin'. apply Hsig. by right. }
  { intros k' Hk'. simpl. rewrite lookup_insert_ne; [|by intros ->].
    apply Hfree. by right. }
  eexists. split.
  { rewrite fmap_cons. cbn [ComponentInstance.serializePointerContainer snd].
    unfold ComponentSignalInstance.serialize.
    cbn [Signal.checkAttributesValidity negb]. by rewrite Hser. }
  cbn [ComponentInstance.loadSignals].
  assert (Hone : ComponentSignalInstance.load circuitNets c0
                   {| node_comp_signal :=
                        sig_getUuid (Signal.mComponentSignal s);
                      node_netsignal := Signal.mNetSignal s |}
                 = inr s).
  { unfold ComponentSignalInstance.load. cbn [node_comp_signal node_netsignal].
    rewrite (get_unique sig_getUuid _ (Signal.mComponentSignal s)) by done.
    assert (Hcreate : ComponentSignalInstance.create circuitNets c0
                        (Signal.mComponentSignal s) (Signal.mNetSignal s)
                      = inr s).
    { apply signal_create_back; [done|].
      destruct Hjust as (Herc & Hconn & Hclosed).
      split; [|done]. by rewrite (updateErcMessages_body_ext c0 c). }
    destruct (Signal.mNetSignal s) as [n|] eqn:Hnet; [|done].
    destruct Hjust as (_ & _ & Hclosed).
    destruct (Hclosed n Hnet) as [net ->]. done. }
  rewrite Hone, Huuid.
  rewrite bool_decide_eq_false_2.
  2:{ rewrite Hfree; [by intros [? ?]|]. by left. }
  rewrite Hload. f_equal.
  transitivity (Instance.set_mSignals
                  (list_to_map l ∪ <[k := s]> (Instance.mSignals c0)) c0);
    [by destruct c0|].
  f_equal. cbn [list_to_map foldr]. cbn.
  rewrite <- insert_union_l. rewrite insert_union_r; [done|].
  by apply not_elem_of_list_to_map_1.
Qed.

(** What [serialize] wrote for a component instance that is not added to
    the circuit is read back as the instance it was. *)
Lemma serialize_then_load (w : World)
    (library : gmap Uuid Component) :
  reachable w →
  Instance.mIsAddedToCircuit (cmp w) = false →
  library !! cmp_getUuid (Instance.mLibComponent (cmp w))
  = Some (Instance.mLibComponent (cmp w)) →
  NoDup (sig_getUuid <$> cmp_getSignals (Instance.mLibComponent (cmp w))) →
  ∃ domElement,
    ComponentInstance.serialize (cmp w) = inr domElement
    ∧ ComponentInstance.load (Instance.mCircuit (cmp w)) (nets w) library
        domElement
      = inr (cmp w).
Proof.
  intros Hw Hadded Hlibrary Huuids.
  destruct (reachable_wellFormed w Hw) as (Hclosed & Herc & Hconn & _ & Hdet).
  destruct (reachable_coherent w Hw) as (Hflags & _ & Hstidy & Hlib & Htidy).
  destruct Hlib as [Hsig Hall].
  destruct Htidy as (_ & _ & Hinst & Hname & Hvar).
  destruct (Hdet Hadded) as [Hsyms Hdevs].
  assert (Hne : isEmpty (Instance.mName (cmp w)) = false)
    by (by apply bool_decide_eq_false_2).
  set (c0 := {| Instance.mCircuit := Instance.mCircuit (cmp w);
                Instance.mIsAddedToCircuit := false;
                Instance.mUuid := Instance.mUuid (cmp w);
                Instance.mName := Instance.mName (cmp w);
                Instance.mValue := Instance.mValue (cmp w);
                Instance.mLibComponent := Instance.mLibComponent (cmp w);
                Instance.mCompSymbVar := Instance.mCompSymbVar (cmp w);
                Instance.mAttributes := Instance.mAttributes (cmp w);
                Instance.mSignals := ∅;
                Instance.mRegisteredSymbols := ∅;
                Instance.mRegisteredDevices := [];
                Instance.mErcMsgUnplacedRequiredSymbols :=
                  {| erc_msg := EmptyString; erc_visible := false |};
                Instance.mErcMsgUnplacedOptionalSymbols :=
                  {| erc_msg := EmptyString; erc_visible := false |} |}).
  destruct (loadSignals_serialized (nets w) (cmp w)
              (map_to_list (Instance.mSignals (cmp w))) c0)
    as (nodes & Hser & Hload); try done.
  { apply NoDup_fst_map_to_list. }
  { intros k s Hk%elem_of_map_to_list.
    destruct (Hsig k s Hk) as [Hu Hin]. split; [done|]. split; [done|].
    split.
    - split; [by rewrite (Hflags k s Hk)|].
      destruct (Hstidy k s Hk) as (_ & _ & _ & _ & Hempty).
      apply Hempty. by rewrite (Hflags k s Hk).
    - split; [exact (Herc k s Hk)|]. split; [exact (Hconn k s Hk)|].
      intros n Hn. by apply (Hclosed k s n). }
  unfold ComponentInstance.serialize, Instance.checkAttributesValidity.
  rewrite Hne. cbn [negb]. rewrite Hser. eexists. split; [reflexivity|].
  unfold ComponentInstance.load.
  cbn [dom_name dom_component dom_symbol_variant dom_uuid dom_value
       dom_attributes dom_signal_map].
  rewrite Hne, Hlibrary, Hvar. fold c0. rewrite Hload.
  rewrite list_to_map_to_list.
  change (Instance.mSignals c0) with (∅ : gmap Uuid Signal.t).
  rewrite (right_id_L ∅ (∪)).
  cbn [Instance.set_mSignals Instance.mSignals Instance.mLibComponent c0].
  assert (Hsize : size (Instance.mSignals (cmp w))
                  = length (cmp_getSignals (Instance.mLibComponent (cmp w)))).
  { rewrite <- size_dom.
    assert (Hdom : dom (Instance.mSignals (cmp w))
                   = list_to_set (C := gset N)
                       (sig_getUuid
                          <$> cmp_getSignals (Instance.mLibComponent (cmp w)))).
    { apply set_eq. intros k. rewrite elem_of_dom, elem_of_list_to_set,
        list_elem_of_fmap. split.
      - intros [s Hk]. destruct (Hsig k s Hk) as [Hu Hin]. eauto.
      - intros (signal & -> & Hin). by apply Hall. }
    rewrite Hdom, size_list_to_set by done. by rewrite length_fmap. }
  rewrite bool_decide_eq_true_2 by done. cbn [negb].
  unfold ComponentInstance.init.
  set (c1 := ComponentInstance.updateErcMessages_body _).
  assert (Hc1 : c1 = cmp w).
  { unfold c1, c0. transitivity
      (ComponentInstance.updateErcMessages_body (cmp w)); [|exact Hinst].
    revert Hadded Hsyms Hdevs. destruct (cmp w). simpl.
    by intros -> -> ->. }
  rewrite Hc1. unfold Instance.checkAttributesValidity. by rewrite Hne.
Qed.

Lemma serializePointerContainer_total (l : list Signal.t) :
  ComponentInstance.serializePointerContainer l
  = inr ((λ s, {| node_comp_signal := sig_getUuid (Signal.mComponentSignal s);
                  node_netsignal := Signal.mNetSignal s |}) <$> l).
Proof.
  induction l as [|s l IH]; [done|].
  cbn [ComponentInstance.serializePointerContainer].
  unfold ComponentSignalInstance.serialize.
  cbn [Signal.checkAttributesValidity negb]. by rewrite IH.
Qed.

(** Extra X24.  Writing and reading back.  [serialize] of a component
    instance in a reachable world, added to the circuit or not, does not
    throw: it writes the uuid, name and value of the instance, the uuids of
    its library component and symbol variant, its attributes, and one
    signal map entry per signal instance with the uuid of the signal and
    the net signal it points to.  When the instance is not added to the
    circuit, the library of the project holds the library component under
    its uuid, and the signals of the library component have distinct uuids,
    then the deserializing constructor accepts that node and returns
    exactly the instance that was written, all ERC messages included. *)
Theorem X24_load_reads_back_what_serialize_wrote (w : World)
    (library : gmap Uuid Component) :
  reachable w →
  ∃ domElement,
    ComponentInstance.serialize (cmp w) = inr domElement
    ∧ domElement
      = {| dom_uuid := Instance.mUuid (cmp w);
           dom_name := Instance.mName (cmp w);
           dom_value := Instance.mValue (cmp w);
           dom_component := cmp_getUuid (Instance.mLibComponent (cmp w));
           dom_symbol_variant :=
             symbvar_getUuid (Instance.mCompSymbVar (cmp w));
           dom_attributes := Instance.mAttributes (cmp w);
           dom_signal_map :=
             (λ s, {| node_comp_signal :=
                        sig_getUuid (Signal.mComponentSignal s);
                      node_netsignal := Signal.mNetSignal s |})
               <$> (map_to_list (Instance.mSignals (cmp w))).*2 |}
    ∧ (Instance.mIsAddedToCircuit (cmp w) = false →
       library !! cmp_getUuid (Instance.mLibComponent (cmp w))
       = Some (Instance.mLibComponent (cmp w)) →
       NoDup (sig_getUuid
                <$> cmp_getSignals (Instance.mLibComponent (cmp w))) →
       ComponentInstance.load (Instance.mCircuit (cmp w)) (nets w) library
         domElement
       = inr (cmp w)).
Proof.
  intros Hw.
  destruct (reachable_coherent w Hw) as (_ & _ & _ & _ & Htidy).
  destruct Htidy as (_ & _ & _ & Hname & _).
  assert (Hne : isEmpty (Instance.mName (cmp w)) = false)
    by (by apply bool_decide_eq_false_2).
  assert (Hser : ∀ d, ComponentInstance.serialize (cmp w) = inr d →
            d = {| dom_uuid := Instance.mUuid (cmp w);
                   dom_name := Instance.mName (cmp w);
                   dom_value := Instance.mValue (cmp w);
                   dom_component :=
                     cmp_getUuid (Instance.mLibComponent (cmp w));
                   dom_symbol_variant :=
                     symbvar_getUuid (Instance.mCompSymbVar (cmp w));
                   dom_attributes := Instance.mAttributes (cmp w);
                   dom_signal_map :=
                     (λ s, {| node_comp_signal :=
                                sig_getUuid (Signal.mComponentSignal s);
                              node_netsignal := Signal.mNetSignal s |})
                       <$> (map_to_list (Instance.mSignals (cmp w))).*2 |}).
  { intros d. unfold ComponentInstance.serialize,
      Instance.checkAttributesValidity.
    rewrite Hne, serializePointerContainer_total. cbn [negb].
    by intros [= <-]. }
  eexists. split; [|split; [reflexivity|]].
  - unfold ComponentInstance.serialize, Instance.checkAttributesValidity.
    rewrite Hne, serializePointerContainer_total. reflexivity.
  - intros Hadded Hlibrary Huuids.
    destruct (serialize_then_load w library Hw Hadded Hlibrary Huuids)
      as (d & Hd & Hload).
    by rewrite <- (Hser d Hd).
Qed.

Lemma loadSignals_nodes circuitNets nodes c c' :
  ComponentInstance.loadSignals circuitNets nodes c = inr c' →
  (∀ k s, Instance.mSignals c !! k = Some s →
          Instance.mSignals c' !! k = Some s)
  ∧ ∀ node, node ∈ nodes →
      ∃ s, Instance.mSignals c' !! node_comp_signal node = Some s
           ∧ Signal.mNetSignal s = node_netsignal node
           ∧ (∀ n, node_netsignal node = Some n → is_Some (circuitNets !! n))
           ∧ detached s.
Proof.
  revert c. induction nodes as [|node nodes IH]; intros c;
    cbn [ComponentInstance.loadSignals].
  { intros [= <-]. split; [done|]. by intros ? ?%elem_of_nil. }
  destruct (ComponentSignalInstance.load circuitNets c node) as [e|s0]
    eqn:Hload; [done|].
  pose proof (signal_load_inr _ _ _ _ Hload) as [_ Huuid].
  apply signal_load_detached in Hload as (_ & Hn & Hclosed & Hdet).
  case_bool_decide as Hdup; [done|]. intros Hrest.
  destruct (IH _ Hrest) as [Hkeep Hnodes]. simpl in Hkeep. split.
  - intros k s Hk. apply Hkeep. rewrite lookup_insert_ne; [done|].
    intros <-. destruct Hdup. eauto.
  - intros node' [->|Hin]%elem_of_cons; [|by apply Hnodes].
    exists s0. split; [|done]. apply Hkeep.
    rewrite <- Huuid. apply lookup_insert_eq.
Qed.

(** Extra X23.  The deserializing constructor throws a [RuntimeError] for
    a node without name, for a component that the library of the project
    does not have, and for a signal map entry that names a net signal which
    the circuit does not have.  The instance it returns carries the uuid,
    name, value, attributes and symbol variant of the node, and every entry
    of the signal map has its signal instance, which points to the net
    signal of the entry and has nothing registered. *)
Theorem X23_load_reads_the_node (circuit : Addr)
    (circuitNets : gmap Uuid NetSignal) (library : gmap Uuid Component)
    (domElement : DomElement) :
  let loaded :=
    ComponentInstance.load circuit circuitNets library domElement in
  (dom_name domElement = EmptyString →
     loaded = inl (RuntimeError "The node text must not be empty."))
  ∧ (library !! dom_component domElement = None →
     ∃ text, loaded = inl (RuntimeError text))
  ∧ (∀ node n, node ∈ dom_signal_map domElement →
       node_netsignal node = Some n → circuitNets !! n = None →
       ∃ text, loaded = inl (RuntimeError text))
  ∧ (∀ c, loaded = inr c →
       Instance.mCircuit c = circuit
       ∧ Instance.mUuid c = dom_uuid domElement
       ∧ Instance.mName c = dom_name domElement
       ∧ Instance.mValue c = dom_value domElement
       ∧ Instance.mAttributes c = dom_attributes domElement
       ∧ symbvar_getUuid (Instance.mCompSymbVar c)
         = dom_symbol_variant domElement
       ∧ ∀ node, node ∈ dom_signal_map domElement →
           ∃ s, Instance.mSignals c !! node_comp_signal node = Some s
                ∧ Signal.mNetSignal s = node_netsignal node
                ∧ detached s).
Proof.
  intros loaded.
  assert (Hok : ∀ c, loaded = inr c →
            Instance.mCircuit c = circuit
            ∧ Instance.mUuid c = dom_uuid domElement
            ∧ Instance.mName c = dom_name domElement
            ∧ Instance.mValue c = dom_value domElement
            ∧ Instance.mAttributes c = dom_attributes domElement
            ∧ symbvar_getUuid (Instance.mCompSymbVar c)
              = dom_symbol_variant domElement
            ∧ ∀ node, node ∈ dom_signal_map domElement →
                ∃ s, Instance.mSignals c !! node_comp_signal node = Some s
                     ∧ Signal.mNetSignal s = node_netsignal node
                     ∧ (∀ n, node_netsignal node = Some n →
                             is_Some (circuitNets !! n))
                     ∧ detached s).
  { intros c. unfold loaded, ComponentInstance.load.
    destruct (isEmpty _); [done|].
    destruct (library !! _) as [lib|]; [|done].
    destruct (get symbvar_getUuid _ _) as [e|variant] eqn:Hvar; [done|].
    destruct (ComponentInstance.loadSignals _ _ _) as [e|c1] eqn:Hsignals;
      [done|].
    destruct (negb _); [done|].
    pose proof (loadSignals_inr _ _ _ _ Hsignals) as (_ & _ & Hframe & _).
    destruct (loadSignals_nodes _ _ _ _ Hsignals) as [_ Hnodes].
    apply get_inr in Hvar as [_ Hvar].
    unfold ComponentInstance.init. destruct (negb _); [done|].
    intros [= <-].
    assert (Hfields :
      Instance.mCircuit c1 = circuit
      ∧ Instance.mUuid c1 = dom_uuid domElement
      ∧ Instance.mName c1 = dom_name domElement
      ∧ Instance.mValue c1 = dom_value domElement
      ∧ Instance.mAttributes c1 = dom_attributes domElement
      ∧ Instance.mCompSymbVar c1 = variant) by (by rewrite Hframe).
    destruct Hfields as (? & ? & ? & ? & ? & Hv).
    cbn. rewrite Hv. do 6 (split; [done|]). exact Hnodes. }
  split; [|split; [|split]].
  - intros Hname. unfold loaded, ComponentInstance.load. by rewrite Hname.
  - intros Hnone. unfold loaded, ComponentInstance.load.
    destruct (isEmpty _); [by eexists|]. rewrite Hnone. by eexists.
  - intros node n Hin Hn Hnone.
    destruct loaded as [e|c] eqn:Hloaded.
    + apply load_inl in Hloaded as [text ->]. by exists text.
    + destruct (Hok c eq_refl) as (_ & _ & _ & _ & _ & _ & Hnodes).
      destruct (Hnodes node Hin) as (s & _ & _ & Hclosed & _).
      destruct (Hclosed n Hn) as [net Hnet]. congruence.
  - intros c Hc. destruct (Hok c Hc) as (? & ? & ? & ? & ? & ? & Hnodes).
    do 6 (split; [done|]). intros node Hin.
    destruct (Hnodes node Hin) as (s & ? & ? & _ & ?). by exists s.
Qed.

(** ** No call aborts *)

Lemma emit_attributesChanged_not_aborted c' w :
  netsClosed w → Instance.mSignals c' = Instance.mSignals (cmp w) →
  ComponentInstance.emit_attributesChanged (set_cmp c' w) ≠ Aborted.
Proof.
  intros Hclosed Hs.
  destruct (emit_attributesChanged_full (set_cmp c' w)) as (w' & -> & _);
    [by apply netsClosed_set_cmp|done].
Qed.

Lemma renameNet_not_aborted n name w :
  netsClosed w → is_Some (nets w !! n) →
  NetSignalEvents.setName n name w ≠ Aborted.
Proof.
  intros Hclosed [net Hnet]. unfold NetSignalEvents.setName. run.
  unfold getNet. rewrite Hnet. run. unfold putNet, emit. run.
  set (w0 := set_emitted _ _).
  set (p := λ s : Signal.t, bool_decide (n ∈ Signal.nameChangedConnections s)).
  change (set_cmp _ _) with w0.
  destruct (signalKeys_spec (cmp w)) as [Hnd Hkeys].
  assert (Hclosed0 : netsClosed w0).
  { intros k s m Hk Hm. unfold w0. simpl.
    destruct (decide (n = m)) as [<-|Hne];
      [rewrite lookup_insert_eq; eauto|rewrite lookup_insert_ne by done].
    eauto. }
  destruct (forEach_refreshIf p (ComponentInstance.signalKeys (cmp w)) w0 Hnd)
    as (w' & Hrun & _).
  { intros k Hk. by apply Hkeys. }
  { done. }
  change (forEach _ (ComponentInstance.signalKeys (cmp w0)) w0)
    with (forEach (refreshIf p) (ComponentInstance.signalKeys (cmp w)) w0).
  by rewrite Hrun.
Qed.

Lemma perform_not_aborted op w :
  wellFormed w → targetsExist op w → perform op w ≠ Aborted.
Proof.
  intros Hwf Htargets. pose proof Hwf as (Hclosed & Herc & Hconn & _).
  destruct op; cbn [perform targetsExist] in *.
  - pose proof (addToCircuit_wellFormed w Hwf) as Hrun. intros E.
    by rewrite E in Hrun.
  - pose proof (removeFromCircuit_wellFormed w Hwf) as Hrun. intros E.
    by rewrite E in Hrun.
  - unfold ComponentInstance.setName. run. case_bool_decide; [done|].
    cbn [negb]. destruct (isEmpty name); [done|]. run.
    rewrite instance_updateErcMessages_run. run.
    by apply emit_attributesChanged_not_aborted.
  - unfold ComponentInstance.setValue. run. case_bool_decide; [done|].
    cbn [negb]. run. by apply emit_attributesChanged_not_aborted.
  - unfold ComponentInstance.setAttributes. run. case_bool_decide; [done|].
    cbn [negb]. run. by apply emit_attributesChanged_not_aborted.
  - rewrite registerSymbol_run. cbv zeta. by repeat case_match.
  - rewrite unregisterSymbol_run. cbv zeta. by repeat case_match.
  - rewrite registerDevice_run. cbv zeta. by repeat case_match.
  - rewrite unregisterDevice_run. cbv zeta. by repeat case_match.
  - destruct Htargets as [[s Hk] Hnet].
    rewrite (setNetSignal_run signal s) by done.
    repeat case_match; try done.
    match goal with
    | Hnone : nets w !! ?n = None |- _ =>
        destruct (Hnet n eq_refl) as [? Hsome]; congruence
    end.
  - destruct Htargets as [s Hk].
    rewrite (registerSymbolPin_run signal s) by done. by case_match.
  - destruct Htargets as [s Hk].
    rewrite (unregisterSymbolPin_run signal s) by done. by case_match.
  - destruct Htargets as [s Hk].
    rewrite (registerFootprintPad_run signal s) by done. by case_match.
  - destruct Htargets as [s Hk].
    rewrite (unregisterFootprintPad_run signal s) by done. by case_match.
  - by apply renameNet_not_aborted.
Qed.

(** Extra X25.  Every call returns or throws, and a call that throws
    leaves the world as it was.  In a reachable world no method
    dereferences a dangling pointer, and no scope guard fails while it
    undoes the steps of a call that throws: the process is never
    aborted. *)
Theorem X25_every_call_returns_or_throws (w : World) (op : Operation) :
  reachable w →
  targetsExist op w →
  (∃ w', perform op w = Returned () w')
  ∨ (∃ e, perform op w = Thrown e w).
Proof.
  intros Hw Htargets. pose proof (reachable_wellFormed w Hw) as Hwf.
  pose proof (perform_wellFormed op w Hwf) as Hrun.
  pose proof (perform_not_aborted op w Hwf Htargets) as Hno.
  destruct (perform op w) as [[] w'|e w'|]; [by eauto| |done].
  subst w'. by eauto.
Qed.

(** ** What the setters store is what the getters read *)

Lemma emit_attributesChanged_cmp c' w w' :
  netsClosed w → Instance.mSignals c' = Instance.mSignals (cmp w) →
  ComponentInstance.emit_attributesChanged (set_cmp c' w) = Returned () w' →
  cmp w' = Instance.set_mSignals (Instance.mSignals (cmp w')) c'.
Proof.
  intros Hclosed Hs Hrun.
  destruct (emit_attributesChanged_full (set_cmp c' w))
    as (w'' & Hrun' & _ & _ & Hcmp & _); [by apply netsClosed_set_cmp|].
  rewrite Hrun in Hrun'. by injection Hrun' as <-.
Qed.

Lemma setName_stores name w w' :
  netsClosed w → ComponentInstance.setName name w = Returned () w' →
  Instance.mName (cmp w') = name.
Proof.
  intros Hclosed. unfold ComponentInstance.setName. run.
  case_bool_decide as Hsame; [by intros [= <-]|]. cbn [negb].
  destruct (isEmpty name); [done|]. run.
  rewrite instance_updateErcMessages_run. run.
  intros Hcmp%emit_attributesChanged_cmp; [|done..]. by rewrite Hcmp.
Qed.

Lemma setValue_stores value w w' :
  netsClosed w → ComponentInstance.setValue value w = Returned () w' →
  Instance.mValue (cmp w') = value.
Proof.
  intros Hclosed. unfold ComponentInstance.setValue. run.
  case_bool_decide as Hsame; [by intros [= <-]|]. cbn [negb]. run.
  intros Hcmp%emit_attributesChanged_cmp; [|done..]. by rewrite Hcmp.
Qed.

Lemma setAttributes_stores attributes w w' :
  netsClosed w →
  ComponentInstance.setAttributes attributes w = Returned () w' →
  Instance.mAttributes (cmp w') = attributes.
Proof.
  intros Hclosed. unfold ComponentInstance.setAttributes. run.
  case_bool_decide as Hsame; [by intros [= <-]|]. cbn [negb]. run.
  intros Hcmp%emit_attributesChanged_cmp; [|done..]. by rewrite Hcmp.
Qed.

(** Extra X26.  What the setters store is what [getAttributeValue] and
    [getValue] read.  After [setName] the key [NAME] of the namespace [CMP]
    and of the empty namespace gives the new name, after [setValue] the key
    [VALUE] gives the new value, and neither asks the project; after
    [setAttributes] every other key of the namespace [CMP] gives the value
    of the first attribute with that key in the new list, and nothing when
    there is none. *)
Theorem X26_getters_read_what_the_setters_stored (w : World) :
  reachable w →
  (∀ name w' passToParents,
     ComponentInstance.setName name w = Returned () w' →
     Instance.getAttributeValue project_getAttributeValue (cmp w')
       "CMP" "NAME" passToParents = Some name
     ∧ Instance.getAttributeValue project_getAttributeValue (cmp w')
         EmptyString "NAME" passToParents = Some name)
  ∧ (∀ value w' passToParents,
       ComponentInstance.setValue value w = Returned () w' →
       Instance.getAttributeValue project_getAttributeValue (cmp w')
         "CMP" "VALUE" passToParents = Some value
       ∧ Instance.getAttributeValue project_getAttributeValue (cmp w')
           EmptyString "VALUE" passToParents = Some value
       ∧ ComponentInstance.getValue (cmp w') false = value)
  ∧ (∀ attributes w' key passToParents,
       ComponentInstance.setAttributes attributes w = Returned () w' →
       key ≠ "NAME" → key ≠ "VALUE" →
       Instance.getAttributeValue project_getAttributeValue (cmp w')
         "CMP" key passToParents
       = attr_getValueTr <$> Instance.findAttribute key attributes).
Proof.
  intros Hw. destruct (reachable_wellFormed w Hw) as (Hclosed & _).
  split; [|split].
  - intros name w' pass Hrun%setName_stores; [|done].
    unfold Instance.getAttributeValue. by rewrite Hrun.
  - intros value w' pass Hrun%setValue_stores; [|done].
    unfold Instance.getAttributeValue, ComponentInstance.getValue.
    by rewrite Hrun.
  - intros attributes w' key pass Hrun%setAttributes_stores Hn Hv; [|done].
    unfold Instance.getAttributeValue. rewrite Hrun.
    rewrite (bool_decide_eq_true_2 ("CMP" = "CMP")) by done.
    rewrite (bool_decide_eq_false_2 (key = "NAME")) by done.
    rewrite (bool_decide_eq_false_2 (key = "VALUE")) by done.
    cbn [orb negb andb]. by destruct (_ <$> _).
Qed.

End Properties.

(** * The properties at work on the component instance [U1] *)

Import Examples.

(* The collaborators of the examples. *)
#[local] Existing Instance plainText.

Lemma constructed_reachable staleVcc staleOut vcc :
  (∃ c, loaded staleVcc staleOut vcc = inr c) →
  reachable (H := plainText) (constructed staleVcc staleOut vcc).
Proof.
  intros [c Hc]. unfold constructed. rewrite Hc.
  by apply (reachable_load (H := plainText) 7 _ library (nodeU1 vcc)).
Qed.

Lemma after_reachable op w :
  reachable (H := plainText) w → reachable (H := plainText) (after op w).
Proof.
  intros Hw. unfold after.
  destruct (perform op w) as [[] w'|e w'|] eqn:Hrun; [|done|done].
  by apply (reachable_returned op w).
Qed.

Lemma world0_reachable : reachable (H := plainText) world0.
Proof. apply constructed_reachable. eexists. vm_compute. reflexivity. Qed.

Lemma worldAdded_reachable : reachable (H := plainText) worldAdded.
Proof. apply after_reachable, world0_reachable. Qed.

Lemma worldConflict_reachable : reachable (H := plainText) worldConflict.
Proof. apply constructed_reachable. eexists. vm_compute. reflexivity. Qed.

Lemma worldUnbound_reachable : reachable (H := plainText) worldUnbound.
Proof.
  apply after_reachable, constructed_reachable. eexists. vm_compute.
  reflexivity.
Qed.

(** Registering [V+] at the net [VCC] throws after [OUT] was registered at
    [OUT1]: the registration of [OUT] is undone. *)
Lemma C1_witness :
  ∃ e, ComponentInstance.addToCircuit (H := plainText) worldConflict
       = Thrown e worldConflict.
Proof.
  destruct (reachable_wellFormed (H := plainText) worldConflict
              worldConflict_reachable) as (Hclosed & Herc & _).
  generalize (C1_addToCircuit_all_or_nothing (H := plainText) worldConflict
                Hclosed Herc).
  destruct (ComponentInstance.addToCircuit worldConflict) as [[] w'|e w'|]
    eqn:Hrun.
  - vm_compute in Hrun. discriminate Hrun.
  - intros ->. by exists e.
  - intros [].
Defined.

(** The net [VCC] of the signal [V+], whose name is forced to be [VCC], was
    renamed to [PWR]: the message is visible. *)
Lemma C2_witness :
  erc_visible (Signal.mErcMsgForcedNetSignalNameConflict
                 (signalOf 1 worldRenamed)) = true.
Proof.
  apply (C2_forced_net_name_conflict_visible (H := plainText) worldRenamed 1).
  - apply after_reachable, worldAdded_reachable.
  - vm_compute. reflexivity.
  - split; [vm_compute; reflexivity|]. split; [vm_compute; reflexivity|].
    exists 100%N, {| net_getName := "PWR"; net_registered := {[ (40%N, 1%N) ]} |}.
    split; [vm_compute; reflexivity|]. split; [vm_compute; reflexivity|].
    vm_compute. discriminate.
Defined.

(** The signal [V+] is added to the circuit, its net name is forced and no
    net signal is bound to it: the message is not visible. *)
Lemma C2_counterexample :
  ¬ (erc_visible (Signal.mErcMsgForcedNetSignalNameConflict
                    (signalOf 1 worldUnbound)) = true
     ↔ Signal.mIsAddedToCircuit (signalOf 1 worldUnbound) = true
       ∧ Signal.isNetSignalNameForced (signalOf 1 worldUnbound) = true
       ∧ (Signal.mNetSignal (signalOf 1 worldUnbound) = None
          ∨ ∃ n net,
              Signal.mNetSignal (signalOf 1 worldUnbound) = Some n
              ∧ nets worldUnbound !! n = Some net
              ∧ net_getName net
                ≠ ComponentSignalInstance.getForcedNetSignalName
                    (H := plainText) (cmp worldUnbound)
                    (signalOf 1 worldUnbound))).
Proof.
  intros [_ Hclaimed].
  assert (Hvisible : erc_visible (Signal.mErcMsgForcedNetSignalNameConflict
                                    (signalOf 1 worldUnbound)) = true).
  { apply Hclaimed. split; [vm_compute; reflexivity|].
    split; [vm_compute; reflexivity|]. left. vm_compute. reflexivity. }
  vm_compute in Hvisible. discriminate Hvisible.
Qed.

Lemma C3_witness :
  ∃ msg, ComponentInstance.removeFromCircuit (H := plainText) worldWithDevice
         = Thrown (RuntimeError msg) worldWithDevice.
Proof.
  apply (C3_removeFromCircuit_in_use (H := plainText) worldWithDevice).
  - vm_compute. reflexivity.
  - right; left. vm_compute. constructor.
Defined.

Lemma C4_witness :
  ComponentSignalInstance.setNetSignal (H := plainText) 1 (Some 101%N)
    worldWired
  = Thrown (LogicError
              (Some (ComponentSignalInstance.msgStillInUse (cmp worldWired)
                       (signalOf 1 worldWired)))) worldWired.
Proof.
  apply (C4_setNetSignal_in_use_throws_LogicError (H := plainText)).
  - vm_compute. reflexivity.
  - vm_compute. reflexivity.
  - vm_compute. discriminate.
  - left. exists pinConnected. split; [|reflexivity].
    vm_compute. constructor.
Defined.

Lemma C5_witness :
  CmdListElementInsert.execute (CmdListElementInsert.new 7%N (-1)) [1%N; 2%N]
  = Done ({| CmdListElementInsert.mElement := 7%N;
             CmdListElementInsert.mIndex := 2;
             CmdListElementInsert.mState := Executed |}, [1%N; 2%N; 7%N]).
Proof.
  refine (proj1 (proj2 (C5_insert_execute_undo_redo [1%N; 2%N] 7%N (-1) _))).
  left. reflexivity.
Defined.

(** A second symbol of [U1] on another schematic of the same circuit. *)
Lemma C7_witness :
  ∃ e, ComponentInstance.registerSymbol (symbolPower 2) worldPlaced
       = Thrown e worldPlaced
       ∧ (sym_getCircuit (symbolPower 2) = Instance.mCircuit (cmp worldPlaced)
          → ∃ msg, e = RuntimeError msg)
       ∧ (sym_getCircuit (symbolPower 2) ≠ Instance.mCircuit (cmp worldPlaced)
          → e = LogicError None).
Proof.
  refine (proj2 (C7_symbols_on_one_schematic (H := plainText) worldPlaced _)
            (symbolPower 2) 10%N (symbolGate 1) _ _).
  - apply after_reachable, worldAdded_reachable.
  - vm_compute. reflexivity.
  - vm_compute. discriminate.
Defined.

(** The gate of [U1] is placed on the schematic [1].  A symbol of another
    circuit on the schematic [2] is refused by the first check of
    [registerSymbol], with a [LogicError] and not with a [RuntimeError]. *)
Lemma C7_counterexample :
  ¬ (∀ symbol k registered,
       Instance.mRegisteredSymbols (cmp worldPlaced) !! k = Some registered →
       sym_getSchematic symbol ≠ sym_getSchematic registered →
       ∃ msg, ComponentInstance.registerSymbol symbol worldPlaced
              = Thrown (RuntimeError msg) worldPlaced).
Proof.
  intros Hclaimed.
  destruct (Hclaimed symbolForeign 10%N (symbolGate 1)) as [msg Hrun].
  - vm_compute. reflexivity.
  - vm_compute. discriminate.
  - vm_compute in Hrun. discriminate Hrun.
Qed.

Lemma C8_witness :
  ∃ w', ComponentSignalInstance.setNetSignal (H := plainText) 1
          (Signal.mNetSignal (signalOf 1 worldAdded)) worldAdded
        = Returned () w'
        ∧ w' = worldAdded
        ∧ emitted w' = emitted worldAdded
        ∧ nets w' = nets worldAdded
        ∧ Instance.mSignals (cmp w') = Instance.mSignals (cmp worldAdded)
        ∧ Instance.mSignals (cmp w') !! 1%N = Some (signalOf 1 worldAdded).
Proof.
  apply (C8_setNetSignal_same_net_is_noop (H := plainText) worldAdded 1).
  vm_compute. reflexivity.
Defined.

Lemma C10_witness :
  ComponentSignalInstance.setNetSignal (H := plainText) 1
    (Signal.mNetSignal (signalOf 1 world0)) world0
  = Returned () world0
  ∧ ∀ netsignal,
      ComponentSignalInstance.setNetSignal (H := plainText) 1 netsignal world0
      = Thrown (LogicError None) world0
      ↔ netsignal ≠ Signal.mNetSignal (signalOf 1 world0).
Proof.
  apply (C10_setNetSignal_same_net_before_added_check (H := plainText)
           world0 1).
  - vm_compute. reflexivity.
  - vm_compute. reflexivity.
Defined.

(** [setNetSignal] unregisters [V+] from the net [VCC]; the net [OUT1]
    refuses the registration, and the scope guard registers [V+] at [VCC]
    again. *)
Lemma X1_witness :
  ∃ e, perform (H := plainText) (CallSetNetSignal 1 (Some 101%N)) worldStale
       = Thrown e worldStale.
Proof.
  destruct (perform (H := plainText) (CallSetNetSignal 1 (Some 101%N))
              worldStale) as [[] w'|e w'|] eqn:Hrun.
  - vm_compute in Hrun. discriminate Hrun.
  - exists e. f_equal.
    refine (X1_throwing_call_changes_nothing (H := plainText) _ e worldStale
              w' _ Hrun).
    apply after_reachable, constructed_reachable. eexists. vm_compute.
    reflexivity.
  - vm_compute in Hrun. discriminate Hrun.
Defined.

Lemma worldPlaced_reachable : reachable (H := plainText) worldPlaced.
Proof. apply after_reachable, worldAdded_reachable. Qed.

Lemma worldWired_reachable : reachable (H := plainText) worldWired.
Proof. apply after_reachable, worldAdded_reachable. Qed.

Lemma worldSupply_reachable : reachable (H := plainText) worldSupply.
Proof.
  unfold worldSupply. destruct created as [e|c] eqn:Hc.
  - vm_compute in Hc. discriminate Hc.
  - by apply (reachable_create (H := plainText) 7 _ 41 supply 20 "GND1").
Qed.

Lemma X2_witness :
  Instance.mName (cmp worldAdded) ≠ EmptyString
  ∧ ComponentInstance.setName (H := plainText) EmptyString worldAdded
    = Thrown (RuntimeError "The new component name must not be empty!")
        worldAdded.
Proof.
  exact (X2_name_is_never_empty (H := plainText) worldAdded
           worldAdded_reachable).
Defined.

(** The gate of [U1] is placed, its power symbol is not. *)
Lemma X3_witness :
  Instance.mErcMsgUnplacedRequiredSymbols (cmp worldPlaced)
  = {| erc_msg :=
         ComponentInstance.msgUnplacedRequired (cmp worldPlaced)
           (Instance.getUnplacedRequiredSymbolsCount (cmp worldPlaced));
       erc_visible :=
         Instance.mIsAddedToCircuit (cmp worldPlaced)
         && bool_decide
              (0 < Instance.getUnplacedRequiredSymbolsCount
                     (cmp worldPlaced))%Z |}
  ∧ Instance.mErcMsgUnplacedOptionalSymbols (cmp worldPlaced)
    = {| erc_msg :=
           ComponentInstance.msgUnplacedOptional (cmp worldPlaced)
             (Instance.getUnplacedOptionalSymbolsCount (cmp worldPlaced));
         erc_visible :=
           Instance.mIsAddedToCircuit (cmp worldPlaced)
           && bool_decide
                (0 < Instance.getUnplacedOptionalSymbolsCount
                       (cmp worldPlaced))%Z |}.
Proof.
  exact (X3_unplaced_symbols_messages_are_current (H := plainText)
           worldPlaced worldPlaced_reachable).
Defined.

(** The required signal [V+] of [U1] is added and not bound. *)
Lemma X4_witness :
  erc_visible (Signal.mErcMsgUnconnectedRequiredSignal
                 (signalOf 1 worldUnbound)) = true
  ↔ Signal.mIsAddedToCircuit (signalOf 1 worldUnbound) = true
    ∧ Signal.mNetSignal (signalOf 1 worldUnbound) = None
    ∧ sig_isRequired (Signal.mComponentSignal (signalOf 1 worldUnbound))
      = true.
Proof.
  refine (proj1 (X4_unconnected_required_signal_visible (H := plainText)
                   worldUnbound 1 (signalOf 1 worldUnbound) _ _)).
  - apply after_reachable, constructed_reachable. eexists. vm_compute.
    reflexivity.
  - vm_compute. reflexivity.
Defined.

Lemma X5_witness :
  Instance.isUsed (cmp world0) = false
  ∧ Instance.mRegisteredSymbols (cmp world0) = ∅
  ∧ Instance.mRegisteredDevices (cmp world0) = []
  ∧ ∀ k s, Instance.mSignals (cmp world0) !! k = Some s →
      Signal.mRegisteredSymbolPins s = []
      ∧ Signal.mRegisteredFootprintPads s = [].
Proof.
  refine (proj2 (X5_nothing_registered_while_detached (H := plainText)
                   world0 world0_reachable) _).
  vm_compute. reflexivity.
Defined.

Lemma X6_witness :
  ∃ net, nets worldAdded !! 100%N = Some net
         ∧ ComponentSignalInstance.self (cmp worldAdded) 1
             ∈ net_registered net.
Proof.
  apply (X6_bound_signal_is_registered_at_its_net (H := plainText)
           worldAdded 1 (signalOf 1 worldAdded) 100).
  - exact worldAdded_reachable.
  - vm_compute. reflexivity.
  - vm_compute. reflexivity.
  - vm_compute. reflexivity.
Defined.

Lemma X7_witness :
  NoDup (Instance.mRegisteredDevices (cmp worldWired))
  ∧ NoDup (dev_addr <$> Instance.mRegisteredDevices (cmp worldWired))
  ∧ ∀ k s, Instance.mSignals (cmp worldWired) !! k = Some s →
      NoDup (pin_addr <$> Signal.mRegisteredSymbolPins s)
      ∧ NoDup (pad_addr <$> Signal.mRegisteredFootprintPads s).
Proof.
  exact (X7_nothing_is_registered_twice (H := plainText) worldWired
           worldWired_reachable).
Defined.

Lemma X8_witness :
  (∀ k symbol,
     Instance.mRegisteredSymbols (cmp worldPlaced) !! k = Some symbol →
     sym_getCircuit symbol = Instance.mCircuit (cmp worldPlaced)
     ∧ item_getUuid (sym_getCompSymbVarItem symbol) = k
     ∧ ∃ item,
         item ∈ getSymbolItems (Instance.mCompSymbVar (cmp worldPlaced))
         ∧ item_getUuid item = k)
  ∧ (∀ device, device ∈ Instance.mRegisteredDevices (cmp worldPlaced) →
               dev_getCircuit device = Instance.mCircuit (cmp worldPlaced))
  ∧ ∀ k s, Instance.mSignals (cmp worldPlaced) !! k = Some s →
      (∀ pin, pin ∈ Signal.mRegisteredSymbolPins s →
              pin_getCircuit pin = Instance.mCircuit (cmp worldPlaced))
      ∧ (∀ pad, pad ∈ Signal.mRegisteredFootprintPads s →
                pad_getCircuit pad = Instance.mCircuit (cmp worldPlaced)).
Proof.
  exact (X8_registered_objects_belong_to_the_circuit (H := plainText)
           worldPlaced worldPlaced_reachable).
Defined.

Lemma X9_witness :
  (Instance.getUnplacedSymbolsCount (cmp worldPlaced)
   = Instance.getUnplacedRequiredSymbolsCount (cmp worldPlaced)
     + Instance.getUnplacedOptionalSymbolsCount (cmp worldPlaced))%Z
  ∧ (0 ≤ Instance.getUnplacedSymbolsCount (cmp worldPlaced))%Z.
Proof.
  apply (X9_unplaced_symbols_counts_add_up (H := plainText) worldPlaced).
  - exact worldPlaced_reachable.
  - refine (bool_decide_unpack _ _). vm_compute. exact I.
Defined.

Lemma X10_witness :
  Instance.mRegisteredDevices (cmp worldSupply) = []
  ∧ ComponentInstance.registerDevice device worldSupply
    = Thrown (LogicError None) worldSupply.
Proof.
  apply (X10_schematic_only_component_has_no_device (H := plainText)
           worldSupply device).
  - exact worldSupply_reachable.
  - vm_compute. reflexivity.
Defined.

Lemma X11_witness :
  ∃ w', ComponentInstance.removeFromCircuit (H := plainText) worldAdded
        = Returned () w'
        ∧ Instance.mIsAddedToCircuit (cmp w') = false
        ∧ emitted w' = emitted worldAdded.
Proof.
  destruct (proj2 (X11_removeFromCircuit_of_unused_instance_returns
                     (H := plainText) worldAdded worldAdded_reachable))
    as (w' & Hrun & Hflag & Hemitted & _).
  - vm_compute. reflexivity.
  - vm_compute. reflexivity.
  - exists w'. split; [exact Hrun|]. split; [exact Hflag|exact Hemitted].
Defined.

Lemma X12_witness :
  ComponentInstance.removeFromCircuit (H := plainText) worldAdded
  = Returned () world0.
Proof.
  apply (X12_removeFromCircuit_undoes_addToCircuit (H := plainText) world0
           worldAdded).
  - exact world0_reachable.
  - vm_compute. reflexivity.
Defined.

Lemma X13_witness :
  ComponentInstance.addToCircuit (H := plainText) worldRemoved
  = Returned () worldAdded.
Proof.
  apply (X13_addToCircuit_undoes_removeFromCircuit (H := plainText)
           worldAdded worldRemoved).
  - exact worldAdded_reachable.
  - vm_compute. reflexivity.
Defined.

(** [V+] of [U1] is moved from the net [VCC] to the net [OUT1]. *)
Lemma X14_witness :
  ∃ w' s',
    ComponentSignalInstance.setNetSignal (H := plainText) 1 (Some 101%N)
      worldAdded = Returned () w'
    ∧ Instance.mSignals (cmp w') !! 1%N = Some s'
    ∧ Signal.mNetSignal s' = Some 101%N.
Proof.
  destruct (X14_setNetSignal_moves_the_registration (H := plainText)
              worldAdded 1 (signalOf 1 worldAdded) (Some 101%N))
    as (w' & s' & Hrun & Hk & Hn & _).
  - exact worldAdded_reachable.
  - vm_compute. reflexivity.
  - vm_compute. discriminate.
  - vm_compute. reflexivity.
  - intros [(pin & Hin & _)|(pad & Hin & _)]; vm_compute in Hin;
      by apply elem_of_nil in Hin.
  - intros new [= <-].
    exists {| net_getName := "OUT1";
              net_registered := {[ (40%N, 2%N) ]} |}.
    split; [vm_compute; reflexivity|]. cbn [net_registered].
    intros Hin%elem_of_singleton. vm_compute in Hin. discriminate Hin.
  - exists w', s'. split; [exact Hrun|]. split; [exact Hk|exact Hn].
Defined.

Lemma X15_witness :
  ComponentSignalInstance.setNetSignal (H := plainText) 1
    (Signal.mNetSignal (signalOf 1 worldAdded)) worldMoved
  = Returned () worldAdded.
Proof.
  apply (X15_setNetSignal_back_restores_the_world (H := plainText)
           worldAdded worldMoved 1 (signalOf 1 worldAdded) (Some 101%N)).
  - exact worldAdded_reachable.
  - vm_compute. reflexivity.
  - vm_compute. reflexivity.
Defined.



Lemma X18_witness :
  ComponentInstance.unregisterSymbol (symbolGate 1)
    worldPlaced
  = Returned () worldAdded.
Proof.
  refine (proj2 (proj2 (proj2 (proj2
            (X18_unregisterSymbol_undoes_registerSymbol (H := plainText)
               worldAdded worldPlaced (symbolGate 1) _ _))))).
  - exact worldAdded_reachable.
  - vm_compute. reflexivity.
Defined.

Lemma X19_witness :
  ComponentInstance.unregisterDevice device worldWithDevice
  = Returned () worldAdded.
Proof.
  refine (proj2 (proj2 (proj2
            (X19_unregisterDevice_undoes_registerDevice (H := plainText)
               worldAdded worldWithDevice device _ _)))).
  - exact worldAdded_reachable.
  - vm_compute. reflexivity.
Defined.

Lemma X20_witness :
  ∃ w', ComponentInstance.setValue (H := plainText) "TL072" worldAdded
        = Returned () w'
        ∧ Instance.mValue (cmp w') = "TL072"
        ∧ nets w' = nets worldAdded
        ∧ ("TL072" = Instance.mValue (cmp worldAdded) → w' = worldAdded)
        ∧ ("TL072" ≠ Instance.mValue (cmp worldAdded) →
           emitted w' = attributesChanged :: emitted worldAdded).
Proof.
  exact (proj1 (proj2 (X20_setters_notify_once (H := plainText) worldAdded
                         worldAdded_reachable)) "TL072").
Defined.

Lemma X21_witness :
  (∀ k s, Instance.mSignals (cmp worldAdded) !! k = Some s →
     sig_getUuid (Signal.mComponentSignal s) = k
     ∧ Signal.mComponentSignal s
         ∈ cmp_getSignals (Instance.mLibComponent (cmp worldAdded)))
  ∧ (∀ signal,
       signal ∈ cmp_getSignals (Instance.mLibComponent (cmp worldAdded)) →
       is_Some (Instance.mSignals (cmp worldAdded) !! sig_getUuid signal))
  ∧ Instance.mCompSymbVar (cmp worldAdded)
      ∈ cmp_getSymbolVariants (Instance.mLibComponent (cmp worldAdded)).
Proof.
  exact (X21_one_signal_instance_per_library_signal (H := plainText)
           worldAdded worldAdded_reachable).
Defined.

(** Registering [V+] at the net [VCC] throws after [OUT] was registered at
    [OUT1]: the scope guard unregisters [OUT] and the call throws. *)
Lemma X25_witness :
  (∃ w', perform (H := plainText) CallAddToCircuit worldConflict
         = Returned () w')
  ∨ (∃ e, perform (H := plainText) CallAddToCircuit worldConflict
          = Thrown e worldConflict).
Proof.
  apply (X25_every_call_returns_or_throws (H := plainText) worldConflict
           CallAddToCircuit).
  - exact worldConflict_reachable.
  - exact I.
Defined.

Lemma X26_witness :
  Instance.getAttributeValue (project_getAttributeValue (Collaborators := plainText))
    (cmp (after (CallSetValue "TL072") worldAdded)) "CMP" "VALUE" false
  = Some "TL072"
  ∧ Instance.getAttributeValue (project_getAttributeValue (Collaborators := plainText))
      (cmp (after (CallSetValue "TL072") worldAdded)) EmptyString "VALUE"
      false
    = Some "TL072"
  ∧ ComponentInstance.getValue (H := plainText)
      (cmp (after (CallSetValue "TL072") worldAdded)) false
    = "TL072".
Proof.
  refine (proj1 (proj2 (X26_getters_read_what_the_setters_stored
                          (H := plainText) worldAdded worldAdded_reachable))
            "TL072" (after (CallSetValue "TL072") worldAdded) false _).
  vm_compute. reflexivity.
Defined.

(** [U1] as the constructor left it is written and read back. *)
Lemma X24_witness :
  ∃ domElement,
    ComponentInstance.serialize (cmp world0) = inr domElement
    ∧ ComponentInstance.load (H := plainText) (Instance.mCircuit (cmp world0))
        (nets world0) library domElement
      = inr (cmp world0).
Proof.
  destruct (X24_load_reads_back_what_serialize_wrote (H := plainText) world0
              library world0_reachable) as (domElement & Hser & _ & Hload).
  exists domElement. split; [exact Hser|]. apply Hload.
  - vm_compute. reflexivity.
  - vm_compute. reflexivity.
  - refine (bool_decide_unpack _ _). vm_compute. exact I.
Defined.

(** The name of [U1] is set to a place marker: the second [arg] of
    [updateErcMessages] replaces the marker inside the name as well. *)
Example place_marker_in_the_name :
  erc_msg (Instance.mErcMsgUnplacedRequiredSymbols
             (cmp (after (CallSetName "%2") worldAdded)))
  = "Unplaced required symbols of component " +:+ quoted "1" +:+ ": 1"
  ∧ QString.arg (QString.arg "%1 and %2" "%1") "x" = "x and %2".
Proof. split; vm_compute; reflexivity. Qed.

(** ** The scenarios of the specification *)

(** [addToCircuit] and then [removeFromCircuit] give back the world of the
    constructor. *)
Example add_remove_round_trip :
  perform (H := plainText) CallAddToCircuit world0 = Returned () worldAdded
  ∧ perform (H := plainText) CallRemoveFromCircuit worldAdded
    = Returned () world0.
Proof. split; vm_compute; reflexivity. Qed.

(** The signal [V+] with the forced net name [VCC] is bound to the net
    [VCC]: no conflict.  The net is renamed to [PWR]: the message shows both
    names. *)
Example scenario_forced_net_name :
  erc_visible (Signal.mErcMsgForcedNetSignalNameConflict
                 (signalOf 1 worldAdded)) = false
  ∧ Signal.mErcMsgForcedNetSignalNameConflict (signalOf 1 worldRenamed)
    = {| erc_msg := "Signal name conflict: " +:+ quoted "PWR" +:+ " != "
                      +:+ quoted "VCC" +:+ " (" +:+ quoted "V+" +:+ " from "
                      +:+ quoted "U1" +:+ ")";
         erc_visible := true |}.
Proof. split; vm_compute; reflexivity. Qed.

(** One required symbol of [U1] is unplaced: the message is visible and
    counts it; after the symbol is registered the message is invisible. *)
Example scenario_unplaced_required_symbols :
  Instance.mErcMsgUnplacedRequiredSymbols (cmp worldAdded)
  = {| erc_msg := "Unplaced required symbols of component " +:+ quoted "U1"
                    +:+ ": 1";
       erc_visible := true |}
  ∧ erc_visible (Instance.mErcMsgUnplacedRequiredSymbols (cmp worldPlaced))
    = false.
Proof. split; vm_compute; reflexivity. Qed.

(** Registering [V+] at the net [VCC] throws after [OUT] was registered at
    [OUT1]; the world is the one before the call. *)
Example scenario_registration_conflict :
  ComponentInstance.signalKeys (cmp worldConflict) = [2%N; 1%N]
  ∧ (∃ w1, ComponentSignalInstance.addToCircuit (H := plainText) 2
             worldConflict = Returned () w1
           ∧ ComponentSignalInstance.addToCircuit (H := plainText) 1 w1
             = Thrown (LogicError None) w1)
  ∧ ComponentInstance.addToCircuit (H := plainText) worldConflict
    = Thrown (LogicError None) worldConflict.
Proof.
  split; [vm_compute; reflexivity|]. split; [|vm_compute; reflexivity].
  eexists. split; vm_compute; reflexivity.
Qed.
